(* ===== verification/_CoqProject ===== *)
-Q . S2P
Prelude.v
GoInt.v
GoString.v
GoTime.v
GoTimeFormat.v
GoError.v
WalParser.v
SessionZone.v
Wal.v
Dlq.v
DlqTypes.v
Config.v
Effects.v
WalIO.v
Store.v
Driver.v
Backoff.v
GoDuration.v
Environ.v
Run.v
Node.v
History.v
Calm.v
DriverSafety.v
RunSafety.v
Sample.v
EndToEnd.v
SkippedRows.v
Fleet.v
Steps.v
Cluster.v
DriverLive.v
DriverTheorems.v
Leadership.v
Lifecycle.v
Goroutines.v
Cleanup.v
Partition.v
PartitionSelect.v
PartitionSafety.v
PartitionTheorems.v
Flag.v
SetupFlags.v
Setup.v
SetupTheorems.v
BenchStats.v
Bench.v
BenchMain.v
