(* ===== verification/Prelude.v ===== *)
(** * A verification of jack-courier-driver-pglg

    The repository is a driver that reads the rows of an outbox table from the
    logical replication stream of PostgreSQL, submits them in batches to
    jack-service, stores the rejected ones in a dead-letter table and keeps, in a
    cursor table, the position up to which everything is done. One instance of
    a fleet holds the replication slot and is the leader; the leader also
    maintains the time partitions of the outbox table, on the primary and on
    logical replicas. Two commands stand beside it: pglg-setup creates and drops
    the tables, pglg-bench generates load.

    ** The files and what they model

    Every definition carries the name of the Go function, method or type it
    translates; parts of a long function have names of their own.

    - [Prelude]: notation scope, hint databases, the [result] sum for Go's
      (value, error) pairs, lemmas on lists.
    - [GoInt], [GoString], [GoTime], [GoTimeFormat], [GoDuration], [GoError]: what
      the program uses of the language and its standard library: 64-bit integers
      and their decimal texts, byte strings, hexadecimal, UTF-8, instants and
      calendar, layouts of [time.Format] and [time.Parse], [time.ParseDuration],
      error chains with [errors.Is] and [errors.As]; [Flag]: the package flag.
    - [WalParser] (wal_parser.go): the translation of decoded messages into
      events, the reading of an outbox row column by column, the transaction
      buffer. The binary decoder [pglogrepl.ParseV2] is the class [Pglogrepl].
      [SessionZone]: the texts of timestamps in the time zone of a session, and
      which of them the parser reads.
    - [Wal] (wal.go): the state of the replication consumer, its positions, the
      status update; [WalIO]: its calls to the connection.
    - [Dlq] (dlq.go): matching the results of a submission to its rows, the
      multi-row INSERT with its placeholders, the truncation of messages;
      [DlqTypes]: the types of its columns (sql/006_create_dlq.sql); [Cleanup] (dlq.go, runDLQCleanup): the DELETE of old dead letters.
    - [Config] (driver.go, Config): the record, its defaults and validation;
      [Environ] (ConfigFromEnv and New of driver.go): the environment variables, and
      the pools that a driver owns.
    - [Effects]: the world of the driver (database, trace of what it did, leader
      flag), the environment that answers its external calls, the monad [M] and
      its weakest preconditions [wp]. [Steps]: a relation that every step
      of a program respects, proved once by its shape.
    - [Store] (cursor.go, persistFlushResult of driver.go): the cursor row and
      the transaction of a flush.
    - [Driver] (processWALStream and flushBatch of driver.go): one session. The
      loop head state is [stream]; an iteration is the composition of the three
      parts of the loop body, in its order: [batchDue], [standbyDue] with
      [idleFlush], [receiveNext] with [handleData], [handleEvent], [handleCommit].
    - [Backoff] (backoff.go): the delay in float64 arithmetic.
    - [Run] (Run, runOnce, leadership of driver.go): sessions, standby, reconnects.
      [Node] cuts a run into actions, between which other processes may act;
      [Fleet]: instances that run one after the other on the same database;
      [Cluster]: instances whose actions are interleaved.
    - [Goroutines]: the goroutines that [Run] starts, as a step relation over the
      shared flag and wake-up channel, with every interleaving.
    - [Partition] (partition.go): the instants and names of partitions, the
      statements on primary and replicas, a maintenance pass; its lemmas are in
      [PartitionSelect], [PartitionSafety] and [PartitionTheorems].
    - [SetupFlags], [Setup], [SetupTheorems] (cmd/pglg-setup): command line,
      scripts of create and destroy.
    - [BenchStats], [Bench], [BenchMain] (cmd/pglg-bench): statistics of the
      samples, command line, reset, load, stub of jack, report.
    - [Sample], [SkippedRows]: a scripted environment for the witnesses; what the
      loop does with a transaction whose rows it cannot read.

    ** How the parts interact

    [Run] calls [runOnce], which reads the cursor ([Store]), connects and
    starts the stream ([WalIO]) and runs [processWALStream] ([Driver]). A
    flush maps the results ([Dlq]), persists dead letters and cursor in one
    transaction ([Store]) and moves the flush position of the consumer ([Wal]).
    An acquisition sends a token on [maintWake], which the maintenance receives.

    The environment ([Env], [PEnv], [CEnv], [SEnv]) is a function from the number
    of external calls made so far to the answer: clock, cancellation, messages,
    answers of jack-service, failures. A theorem about an arbitrary environment
    is a theorem about every run. A commit that fails may have been applied
    all the same ([CommitFailed e true]).

    ** What the theorems show

    - End to end ([EndToEnd], on [History], [Calm], [DriverSafety], [RunSafety]):
      let the server deliver the transactions of a log in commit order and, while
      none is open, have named no position at or above one it still has to send
      ([History.delivers], in the positions of the server's messages alone). Then
      every row of a transaction that the durable cursor has passed was answered
      by jack in a committed batch and is a dead letter if it was rejected, unless the
      driver read past the transaction ([History.read_past]): an idle advance
      can take the decoded length of a message for a length of WAL
      ([idle_advance_takes_length]), and [xlog_length_overshoots] is a run that
      loses a row by it. For every environment, the server is never told a flush position above the durable
      cursor, and the committed batches of a session are its first completed
      transactions, in order, once each, never split. The specification is
      [History.hist], a reading of the trace alone that knows nothing of the
      loop, its deadlines or its buffers.
    - Several instances ([Cluster], [Fleet]): the same for instances of one
      deployment, one after the other or interleaved action by action, with
      crashes and with a superseded instance that still flushes: the cursor never goes
      back, no flush position above it is reported by anyone, and under the same
      hypothesis on the server, for each instance, and with the same exception,
      every row it has passed was answered in a batch that one of them committed.
      [runLoop_acts] and [Run_is_schedule] say that the runs of [Run] are among
      these schedules.
    - A flush ([DriverTheorems]): atomic, monotone in the cursor, reported
      position persisted; cursor round trip.
    - Progress ([DriverLive], [DriverTheorems]): a due batch is submitted by the
      next iteration, the pending batch is bounded at every loop head, a cancelled run returns.
    - Leadership ([Leadership], [Lifecycle], [Goroutines]): metrics agree with the
      flag; the trace of every run is accepted by an automaton of sessions,
      reconnects and roles; background work is called after a load of the flag
      that found a leader - the load and the call are two steps, and
      [stale_cleanup], [stale_pass] and [first_pass_ungated] are interleavings
      in which the work begins on a standby; no wake-up is lost; the sequential
      operations refine the concurrent steps.
    - Partitions: live partitions are kept under every failure, the window is
      covered after a creation pass (for intervals of whole minutes and a registry of
      such a driver), exactly the expired ones are dropped, replicas
      drop only what was applied.
    - Components: row parsing (round trip in every session zone of whole hours,
      failure in every other one, independence of the column order), result
      matching, types and placeholders of the dead letters, truncation,
      environment variables, pools, backoff bounds, setup scripts, the report of the bench.
    - What the driver leaves out ([SkippedRows]): in a session zone with minutes a
      transaction is counted as parse errors and the cursor may pass it.

    ** Fuel

    [Run] takes a number of sessions and a number of iterations per session;
    [None] is a run that is still going on. Safety holds for every fuel;
    [Run_returns_when_cancelled] gives a fuel that is enough after cancellation.
    The loops over instants ([for_times]) have one unit per step up to the end of
    the window, and [partition_times_cover] shows that more changes nothing.
    [to_valid_loop], [layout_chunks] and the loops of [ParseDuration] have one
    unit per byte. The load of the bench has one unit per tick;
    [runSteady_counts] gives a number that is enough. A schedule of [Cluster] is
    a list of actions of any length.

    ** Assumptions

    - Integers that are positions or counts are [Z]; decimal texts and parsing
      are at 64 bits. Sums of instants and durations do not overflow, nor does
      twice the standby jitter.
    - SQL statements do what [apply_stmt], [apply_ddl] and [delete_expired]
      say, and a transaction is applied as a whole or not at all. During a run
      of [EndToEnd] nobody else writes the tables; in [Cluster] the other instances
      do, between two actions ([LsnLaws] and [QueryLaws] state the rest: printed
      positions are read back, what a query returns). The clean-up of old dead
      letters is a writer of its own ([Cleanup]): a dead letter that is accounted
      for stays in its table only until its retention has passed.
    - Rows that do not parse are dropped, as the code does; the theorems on lost rows
      are about rows that parse, and [SkippedRows] about others.

    ** Not modelled

    Log lines, progress output and usage texts; the goroutine in which pglg-bench
    runs its driver and its wait for the end, and running out of memory (the panic of
    [make] on a length it does not accept is modelled); the binary decoders of pglogrepl
    and pgx, which are parameters; schema.go, which only embeds files.

    ** Plan

    Next: actions of [Cluster] finer than an iteration (one per transaction), the
    maintenance and the clean-up as further nodes of the cluster, and partitions of
    primary and replicas in one system. *)

From Stdlib Require Export ZArith Lia String Ascii.
From stdpp Require Export base tactics option list list_numbers sorting strings gmap.

#[global] Arguments String.append !_ _ / : simpl nomatch.

(** ** Notation scope of the development *)

Declare Scope pglg_scope.
Delimit Scope pglg_scope with pglg.

(** ** Hint databases

    [pglg] carries the resolution hints of the components, [pglg_simpl] the
    rewriting lemmas that normalise their operations. *)

Create HintDb pglg discriminated.
Create Rewrite HintDb pglg_simpl.

(** ** Go's [(value, error)] results

    A Go function that returns [(T, error)] returns either a value and a nil
    error or a non-nil error; the two are a sum. *)

Inductive result (E A : Type) :=
| Ok (a : A)
| Err (e : E).

Arguments result E A : clear implicits.
Arguments Ok {E A} a.
Arguments Err {E A} e.

(** [is_Ok r] is Go's test [err == nil]. *)
Definition is_Ok {E A} (r : result E A) : bool :=
  match r with Ok _ => true | Err _ => false end.

(** [bind_r r k] is [v, err := r; if err != nil { return nil, err }; k(v)]. *)
Definition bind_r {E A B} (r : result E A) (k : A -> result E B) : result E B :=
  match r with Ok a => k a | Err e => Err e end.

(** [wrap_r f r] wraps the error of [r] with [f], as [fmt.Errorf("...: %w", err)]. *)
Definition wrap_r {E A} (f : E -> E) (r : result E A) : result E A :=
  match r with Ok a => Ok a | Err e => Err (f e) end.

(** [of_option e o] turns a missing value into the error [e]. *)
Definition of_option {E A} (e : E) (o : option A) : result E A :=
  match o with Some a => Ok a | None => Err e end.

Notation "'let?' x := r 'in' k" := (bind_r r (fun x => k))
  (at level 10, x pattern, r at level 100, k at level 200) : pglg_scope.

(** ** Tactics of the development *)

(** [zbool]: turns the boolean comparisons of the context and the goal into
    propositions that [lia] reads. *)
Ltac zbool :=
  repeat match goal with
  | H : context [Z.ltb ?a ?b] |- _ => destruct (Z.ltb_spec a b)
  | H : context [Z.leb ?a ?b] |- _ => destruct (Z.leb_spec a b)
  | H : context [Z.eqb ?a ?b] |- _ => destruct (Z.eqb_spec a b)
  | |- context [Z.ltb ?a ?b] => destruct (Z.ltb_spec a b)
  | |- context [Z.leb ?a ?b] => destruct (Z.leb_spec a b)
  | |- context [Z.eqb ?a ?b] => destruct (Z.eqb_spec a b)
  end.

(** [break_match]: case analysis on the scrutinee of a [match] or [if]. *)
Ltac break_match :=
  match goal with
  | H : context [match ?x with _ => _ end] |- _ => destruct x eqn:?
  | |- context [match ?x with _ => _ end] => destruct x eqn:?
  end.

(** ** Lemmas on results *)

Lemma bind_r_Ok {E A B} (r : result E A) (k : A -> result E B) (b : B) :
  bind_r r k = Ok b <-> exists a, r = Ok a /\ k a = Ok b.
Proof. destruct r as [x|x]; cbn; [split; [eauto|intros (y & [= ->] & H); done]|split; [done|intros (y & [=] & _)]]. Qed.

Lemma wrap_r_Ok {E A} (f : E -> E) (r : result E A) (a : A) :
  wrap_r f r = Ok a <-> r = Ok a.
Proof. destruct r; cbn; naive_solver. Qed.

Lemma of_option_Ok {E A} (e : E) (o : option A) (a : A) :
  of_option e o = Ok a <-> o = Some a.
Proof. destruct o; naive_solver. Qed.

#[export] Hint Rewrite @bind_r_Ok @wrap_r_Ok @of_option_Ok : pglg_simpl.

(** ** Lists *)

(** The last [k] elements dropped and kept partition a list. *)
Lemma list_snoc_inv {A} (l : list A) :
  l = [] \/ exists l' x, l = l' ++ [x].
Proof. induction l using rev_ind; eauto. Qed.

(** A left fold over a list that grew at the end. *)
Lemma foldl_snoc {A B} (f : B -> A -> B) (b : B) (l : list A) (x : A) :
  foldl f b (l ++ [x]) = f (foldl f b l) x.
Proof. by rewrite foldl_app. Qed.

#[export] Hint Rewrite @foldl_snoc : pglg_simpl.

Lemma Forall_snoc {A} (P : A -> Prop) (l : list A) (x : A) :
  Forall P (l ++ [x]) <-> Forall P l /\ P x.
Proof. rewrite Forall_app, Forall_singleton. done. Qed.

(** [Z.max] absorbs a smaller argument: the shape of every "advance if greater"
    update of the program. *)
Lemma advance_max (a b : Z) : (if Z.ltb a b then b else a) = Z.max a b.
Proof. zbool; lia. Qed.

#[export] Hint Rewrite advance_max : pglg_simpl.
