(* ===== verification/GoInt.v ===== *)
(** * Go integers: machine widths and the decimal conversions of [strconv]

    [int64] and [uint64] values are [Z] with their ranges and wrap-around
    written out. [FormatInt] and [ParseInt] are the two functions of the Go
    standard library package [strconv] the program uses at base 10: the
    correlation identifier of a job is the decimal text of the row identifier,
    and row identifiers come back from the replication stream as text. *)

From S2P Require Export Prelude.

Open Scope Z_scope.

(** ** Widths *)

Definition int64_min : Z := - 2 ^ 63.
Definition int64_max : Z := 2 ^ 63 - 1.
Definition uint64_max : Z := 2 ^ 64 - 1.

(** Conversion of an exact result to a signed or an unsigned 64-bit integer. *)
Definition wrap64 (z : Z) : Z := (z + 2 ^ 63) mod 2 ^ 64 - 2 ^ 63.
Definition uwrap64 (z : Z) : Z := z mod 2 ^ 64.

Definition is_int64 (z : Z) : Prop := int64_min <= z <= int64_max.
Definition is_uint64 (z : Z) : Prop := 0 <= z <= uint64_max.

(** ** Decimal digits *)

Definition ascii_val (c : ascii) : Z := Z.of_N (N_of_ascii c).
Definition digit_char (d : Z) : ascii := ascii_of_N (Z.to_N (48 + d)).
Definition is_digit (c : ascii) : bool := (48 <=? ascii_val c) && (ascii_val c <=? 57).
Definition digit_val (c : ascii) : Z := ascii_val c - 48.

(** Digits are written from the least significant one, as Go's [formatBits]
    fills its buffer from the end. [fuel] bounds the number of digits. *)
Fixpoint fmt_uint (fuel : nat) (n : Z) (acc : string) : string :=
  match fuel with
  | O => acc
  | S f =>
      if n <? 10 then String (digit_char n) acc
      else fmt_uint f (n / 10) (String (digit_char (n mod 10)) acc)
  end.

(** A 64-bit integer has at most 20 digits. *)
Definition FormatUint (n : Z) : string := fmt_uint 20 n "".

(** [strconv.FormatInt(i, 10)]. *)
Definition FormatInt (i : Z) : string :=
  if i <? 0 then String "-" (FormatUint (- i)) else FormatUint i.

(** ** Parsing *)

Inductive num_error := ErrSyntax | ErrRange.

#[export] Instance num_error_eq_dec : EqDecision num_error.
Proof. solve_decision. Defined.

(** The loop of [strconv.ParseUint] at base 10 and 64 bits: it stops at the
    first character that is not a digit or at the first overflow. *)
Fixpoint parse_uint_loop (s : string) (n : Z) : result num_error Z :=
  match s with
  | EmptyString => Ok n
  | String c s' =>
      if is_digit c then
        let n1 := n * 10 + digit_val c in
        if uint64_max <? n1 then Err ErrRange else parse_uint_loop s' n1
      else Err ErrSyntax
  end.

Definition ParseUint (s : string) : result num_error Z :=
  match s with
  | EmptyString => Err ErrSyntax
  | _ => parse_uint_loop s 0
  end.

(** The range test of [strconv.ParseInt] after the sign is read. [ParseUint]
    returns its maximum together with [ErrRange], so a range error of the
    magnitude is a range error of the signed value. *)
Definition signed_range (neg : bool) (un : Z) : result num_error Z :=
  if negb neg && (2 ^ 63 <=? un) then Err ErrRange
  else if neg && (2 ^ 63 <? un) then Err ErrRange
  else Ok (if neg then - un else un).

(** [strconv.ParseInt(s, 10, 64)]. *)
Definition ParseInt (s : string) : result num_error Z :=
  match s with
  | EmptyString => Err ErrSyntax
  | String c s' =>
      if Ascii.eqb c "+" then bind_r (ParseUint s') (signed_range false)
      else if Ascii.eqb c "-" then bind_r (ParseUint s') (signed_range true)
      else bind_r (ParseUint s) (signed_range false)
  end.

(** ** Widths: lemmas *)

Lemma wrap64_range z : is_int64 (wrap64 z).
Proof. unfold wrap64, is_int64, int64_min, int64_max. pose proof (Z.mod_pos_bound (z + 2^63) (2^64)). lia. Qed.

Lemma wrap64_id z : is_int64 z -> wrap64 z = z.
Proof. unfold wrap64, is_int64, int64_min, int64_max. intros. rewrite Z.mod_small; lia. Qed.

Lemma uwrap64_range z : is_uint64 (uwrap64 z).
Proof. unfold uwrap64, is_uint64, uint64_max. pose proof (Z.mod_pos_bound z (2^64)). lia. Qed.

Lemma uwrap64_id z : is_uint64 z -> uwrap64 z = z.
Proof. unfold uwrap64, is_uint64, uint64_max. intros. rewrite Z.mod_small; lia. Qed.

#[export] Hint Resolve wrap64_range uwrap64_range : pglg.

(** ** Digits: lemmas *)

Lemma ascii_val_bound c : 0 <= ascii_val c < 256.
Proof. unfold ascii_val. pose proof (N_ascii_bounded c). lia. Qed.

Lemma ascii_val_digit d : 0 <= d <= 9 -> ascii_val (digit_char d) = 48 + d.
Proof.
  intros. unfold ascii_val, digit_char. rewrite N_ascii_embedding; lia.
Qed.

Lemma is_digit_char d : 0 <= d <= 9 -> is_digit (digit_char d) = true.
Proof. intros. unfold is_digit. rewrite ascii_val_digit by done. zbool; lia. Qed.

Lemma digit_val_char d : 0 <= d <= 9 -> digit_val (digit_char d) = d.
Proof. intros. unfold digit_val. rewrite ascii_val_digit by done. lia. Qed.

Lemma ascii_val_inj c c' : ascii_val c = ascii_val c' -> c = c'.
Proof.
  unfold ascii_val. intros H. rewrite <- (ascii_N_embedding c), <- (ascii_N_embedding c').
  f_equal. lia.
Qed.

Lemma is_digit_inv c : is_digit c = true -> exists d, 0 <= d <= 9 /\ c = digit_char d.
Proof.
  unfold is_digit. intros H. exists (digit_val c). unfold digit_val.
  assert (48 <= ascii_val c <= 57) by (zbool; lia).
  split; [lia|]. apply ascii_val_inj. rewrite ascii_val_digit; lia.
Qed.

#[export] Hint Resolve is_digit_char : pglg.

(** ** The decimal round trip *)

(** Reading back the digits that [fmt_uint] wrote in front of [acc]. *)
Lemma parse_fmt_uint f n acc :
  0 <= n < 10 ^ Z.of_nat f -> n <= uint64_max ->
  parse_uint_loop (fmt_uint f n acc) 0 = parse_uint_loop acc n.
Proof.
  revert n acc. induction f as [|f IH]; intros n acc Hn Hmax; [simpl in *; f_equal; lia|].
  cbn [fmt_uint]. destruct (Z.ltb_spec n 10).
  - cbn. rewrite is_digit_char, digit_val_char by lia. zbool; try lia. done.
  - rewrite Nat2Z.inj_succ, Z.pow_succ_r in Hn by lia.
    rewrite IH; [|split; [apply Z.div_pos; lia|apply Z.div_lt_upper_bound; lia]|].
    + cbn. pose proof (Z.mod_pos_bound n 10).
      rewrite is_digit_char, digit_val_char by lia.
      assert (n / 10 * 10 + n mod 10 = n) as E by (pose proof (Z_div_mod_eq_full n 10); lia); rewrite E.
      zbool; try lia; done.
    + transitivity n; [apply Z.div_le_upper_bound; lia|lia].
Qed.

Lemma fmt_uint_head f n acc :
  0 <= n -> (0 < f)%nat ->
  exists d s, fmt_uint f n acc = String (digit_char d) s /\ 0 <= d <= 9.
Proof.
  revert n acc. induction f as [|f IH]; intros n acc Hn Hf; [lia|].
  cbn [fmt_uint]. destruct (Z.ltb_spec n 10).
  - exists n. eexists. split; [done|lia].
  - pose proof (Z.mod_pos_bound n 10). destruct f.
    + cbn. eexists (n mod 10), _. split; [done|lia].
    + apply IH; [apply Z.div_pos; lia|lia].
Qed.

Lemma digit_char_not_sign d :
  0 <= d <= 9 -> Ascii.eqb (digit_char d) "+" = false /\ Ascii.eqb (digit_char d) "-" = false.
Proof.
  intros H. split; apply Ascii.eqb_neq; intros E;
    apply (f_equal ascii_val) in E; rewrite ascii_val_digit in E by done.
  - change (ascii_val "+") with 43 in E. lia.
  - change (ascii_val "-") with 45 in E. lia.
Qed.

Lemma ParseUint_FormatUint n : is_uint64 n -> ParseUint (FormatUint n) = Ok n.
Proof.
  unfold is_uint64, uint64_max. intros Hn. unfold ParseUint, FormatUint.
  destruct (fmt_uint_head 20 n "") as (d & s & E & _); [lia|lia|].
  pose proof (parse_fmt_uint 20 n "") as P. rewrite E in *.
  rewrite P; [done| |unfold uint64_max]; lia.
Qed.

Lemma ParseInt_FormatInt i : is_int64 i -> ParseInt (FormatInt i) = Ok i.
Proof.
  unfold is_int64, int64_min, int64_max. intros Hi. unfold FormatInt.
  destruct (Z.ltb_spec i 0).
  - change (bind_r (ParseUint (FormatUint (- i))) (signed_range true) = Ok i).
    rewrite ParseUint_FormatUint by (unfold is_uint64, uint64_max; lia).
    cbn [bind_r]. unfold signed_range. cbn [negb andb]. zbool; [lia|]. f_equal. lia.
  - pose proof (ParseUint_FormatUint i) as P.
    assert (is_uint64 i) as Hu by (unfold is_uint64, uint64_max; lia). specialize (P Hu).
    revert P. unfold FormatUint. destruct (fmt_uint_head 20 i "") as (d & s & -> & Hd); [lia|lia|].
    destruct (digit_char_not_sign d Hd) as [E1 E2]. intros P. unfold ParseInt. rewrite E1, E2, P.
    cbn [bind_r]. unfold signed_range. cbn [negb andb]. zbool; [lia|done].
Qed.

(** Distinct 64-bit integers have distinct decimal texts. *)
Lemma FormatInt_inj i j : is_int64 i -> is_int64 j -> FormatInt i = FormatInt j -> i = j.
Proof.
  intros Hi Hj E. pose proof (ParseInt_FormatInt i Hi) as P.
  rewrite E, ParseInt_FormatInt in P by done. congruence.
Qed.

Lemma parse_uint_loop_range s n m : 0 <= n -> parse_uint_loop s n = Ok m -> 0 <= m.
Proof.
  revert n. induction s as [|c s IH]; intros n Hn; cbn; [congruence|].
  destruct (is_digit c) eqn:D; [|done]. destruct (Z.ltb_spec uint64_max (n * 10 + digit_val c)); [done|].
  apply IH. apply is_digit_inv in D as (d & Hd & ->). rewrite digit_val_char; lia.
Qed.

(** What [ParseInt] accepts is in range. *)
Lemma ParseInt_range s i : ParseInt s = Ok i -> is_int64 i.
Proof.
  assert (forall neg s', bind_r (ParseUint s') (signed_range neg) = Ok i -> is_int64 i) as Hgen.
  { intros neg s' (un & Hun & Hr)%bind_r_Ok.
    assert (0 <= un) by (destruct s'; [done|]; eapply parse_uint_loop_range; [|done]; lia).
    unfold signed_range in Hr. unfold is_int64, int64_min, int64_max.
    destruct neg; cbn [negb andb] in Hr; zbool; simplify_eq; lia. }
  destruct s as [|c s]; [done|]. unfold ParseInt.
  destruct (Ascii.eqb c "+"); [apply Hgen|]. destruct (Ascii.eqb c "-"); apply Hgen.
Qed.

Example FormatInt_ex : map FormatInt [0; 42; -7; int64_min] =
  ["0"; "42"; "-7"; "-9223372036854775808"]%string.
Proof. reflexivity. Qed.

Example ParseInt_ex : map ParseInt ["+5"; "-"; "12x"; "9223372036854775808"]%string =
  [Ok 5; Err ErrSyntax; Err ErrSyntax; Err ErrRange].
Proof. reflexivity. Qed.
