(* ===== verification/GoString.v ===== *)
(** * Go strings and byte slices

    A Go string is a sequence of bytes: it is [String.string], one [ascii] per
    byte. A byte slice is an optional byte sequence, [None] being the nil slice.
    The file models what the program uses of [strings], [encoding/hex] and
    [unicode/utf8]: slicing, prefixes, joins, hexadecimal decoding and the
    removal of bytes that are not valid UTF-8. *)

From S2P Require Export GoInt.

Open Scope Z_scope.

(** [[]byte]: [None] is nil. *)
Abbreviation bytes := (option string).

(** ** Slicing *)

(** [s[:n]] for [n <= len(s)], and the whole string beyond. *)
Fixpoint str_take (n : nat) (s : string) : string :=
  match n, s with
  | S n', String c s' => String c (str_take n' s')
  | _, _ => EmptyString
  end.

(** [s[n:]] for [n <= len(s)], and the empty string beyond. *)
Fixpoint str_drop (n : nat) (s : string) : string :=
  match n, s with
  | O, _ => s
  | S n', String _ s' => str_drop n' s'
  | S _, EmptyString => EmptyString
  end.

(** [len(s)]. *)
Definition str_len (s : string) : Z := Z.of_nat (String.length s).

(** [strings.HasPrefix(s, p)]. *)
Definition HasPrefix (s p : string) : bool := String.prefix p s.

(** [strings.Join(xs, sep)]. *)
Fixpoint Join (xs : list string) (sep : string) : string :=
  match xs with
  | [] => EmptyString
  | [x] => x
  | x :: xs' => (x ++ sep ++ Join xs' sep)%string
  end.

(** ** [encoding/hex] *)

Inductive hex_error := InvalidByteError (c : ascii) | ErrLength.

Definition from_hex_char (c : ascii) : option Z :=
  let v := ascii_val c in
  if (48 <=? v) && (v <=? 57) then Some (v - 48)
  else if (97 <=? v) && (v <=? 102) then Some (v - 87)
  else if (65 <=? v) && (v <=? 70) then Some (v - 55)
  else None.

(** [hex.DecodeString]: pairs of digits; an odd digit left over is [ErrLength]
    unless it is not a digit at all. *)
Fixpoint DecodeString (s : string) : result hex_error string :=
  match s with
  | EmptyString => Ok EmptyString
  | String p EmptyString =>
      match from_hex_char p with
      | None => Err (InvalidByteError p)
      | Some _ => Err ErrLength
      end
  | String p (String q r) =>
      match from_hex_char p, from_hex_char q with
      | None, _ => Err (InvalidByteError p)
      | Some _, None => Err (InvalidByteError q)
      | Some a, Some b =>
          bind_r (DecodeString r) (fun t => Ok (String (ascii_of_N (Z.to_N (a * 16 + b))) t))
      end
  end.

(** The lower-case hexadecimal text of a byte string, the form in which the
    server sends a BYTEA column after the backslash-x prefix. *)
Definition to_hex_char (d : Z) : ascii :=
  ascii_of_N (Z.to_N (if d <? 10 then 48 + d else 87 + d)).

Fixpoint EncodeToString (s : string) : string :=
  match s with
  | EmptyString => EmptyString
  | String c s' =>
      String (to_hex_char (ascii_val c / 16))
        (String (to_hex_char (ascii_val c mod 16)) (EncodeToString s'))
  end.

(** ** [unicode/utf8] *)

Definition in_range (lo hi : Z) (c : ascii) : bool :=
  (lo <=? ascii_val c) && (ascii_val c <=? hi).

Definition cont (c : ascii) : bool := in_range 128 191 c.

(** The range of the second byte that a leading byte accepts, with the width of
    the rune: the table of [utf8.DecodeRuneInString]. *)
Definition lead (c : ascii) : option (nat * Z * Z) :=
  if in_range 194 223 c then Some (2%nat, 128, 191)
  else if in_range 224 224 c then Some (3%nat, 160, 191)
  else if in_range 225 236 c then Some (3%nat, 128, 191)
  else if in_range 237 237 c then Some (3%nat, 128, 159)
  else if in_range 238 239 c then Some (3%nat, 128, 191)
  else if in_range 240 240 c then Some (4%nat, 144, 191)
  else if in_range 241 243 c then Some (4%nat, 128, 191)
  else if in_range 244 244 c then Some (4%nat, 128, 143)
  else None.

(** Width in bytes of the rune at the head of [s], [0] when the head is not the
    start of a valid rune (Go then returns RuneError with width 1). *)
Definition rune_width (s : string) : nat :=
  match s with
  | EmptyString => O
  | String c0 r =>
      if ascii_val c0 <? 128 then 1%nat
      else match lead c0, r with
      | Some (w, lo, hi), String c1 r1 =>
          if in_range lo hi c1 then
            match w, r1 with
            | 2%nat, _ => 2%nat
            | 3%nat, String c2 _ => if cont c2 then 3%nat else O
            | 4%nat, String c2 (String c3 _) => if cont c2 && cont c3 then 4%nat else O
            | _, _ => O
            end
          else O
      | _, _ => O
      end
  end.

(** [strings.ToValidUTF8(s, "")]: the bytes that start no valid rune are
    removed. [fuel] is the number of bytes left. *)
Fixpoint to_valid_loop (fuel : nat) (s : string) : string :=
  match fuel, s with
  | S f, String c r =>
      match rune_width s with
      | O => to_valid_loop f r
      | w => (str_take w s ++ to_valid_loop f (str_drop w s))%string
      end
  | _, _ => EmptyString
  end.

Definition ToValidUTF8 (s : string) : string := to_valid_loop (String.length s) s.

(** A rune is a byte string that is its own valid head; valid UTF-8 is a
    concatenation of runes ([utf8.ValidString]). *)
Definition is_rune (r : string) : Prop := r <> EmptyString /\ rune_width r = String.length r.

Inductive valid_utf8 : string -> Prop :=
| valid_nil : valid_utf8 EmptyString
| valid_cons r s : is_rune r -> valid_utf8 s -> valid_utf8 (r ++ s).

(** ** Slicing: lemmas *)

Lemma str_app_nil_r (s : string) : (s ++ "")%string = s.
Proof. induction s; cbn; congruence. Qed.

Lemma str_app_assoc (a b c : string) : ((a ++ b) ++ c = a ++ b ++ c)%string.
Proof. induction a; cbn; congruence. Qed.

Lemma str_length_app (a b : string) :
  String.length (a ++ b) = (String.length a + String.length b)%nat.
Proof. induction a; cbn; congruence. Qed.

Lemma str_take_drop n s : (str_take n s ++ str_drop n s)%string = s.
Proof. revert s. induction n; intros [|c s]; cbn; [done..|]. by rewrite IHn. Qed.

Lemma str_take_all n s : (String.length s <= n)%nat -> str_take n s = s.
Proof. revert s. induction n; intros [|c s]; cbn; intros; [done|lia|done|]. f_equal. apply IHn. lia. Qed.

Lemma str_length_take n s : String.length (str_take n s) = Nat.min n (String.length s).
Proof. revert s. induction n; intros [|c s]; cbn; auto. Qed.

Lemma str_length_drop n s : String.length (str_drop n s) = (String.length s - n)%nat.
Proof. revert s. induction n; intros [|c s]; cbn; auto. Qed.

Lemma str_take_app_length a b : str_take (String.length a) (a ++ b) = a.
Proof. induction a; cbn; [by destruct b|congruence]. Qed.

Lemma str_drop_app_length a b : str_drop (String.length a) (a ++ b) = b.
Proof. induction a; cbn; [by destruct b|congruence]. Qed.

Lemma str_take_app_ge n a b :
  (String.length a <= n)%nat ->
  str_take n (a ++ b) = (a ++ str_take (n - String.length a) b)%string.
Proof.
  revert n. induction a as [|c a IH]; intros n; cbn; [by rewrite Nat.sub_0_r|].
  destruct n; [lia|]. intros. cbn. rewrite IH by lia. done.
Qed.

Lemma str_take_app_le n a b :
  (n <= String.length a)%nat -> str_take n (a ++ b) = str_take n a.
Proof.
  revert n. induction a as [|c a IH]; intros [|n]; cbn; intros; [by destruct b|lia|done|].
  rewrite IH by lia. done.
Qed.

Lemma prefix_cons c p c' s :
  String.prefix (String c p) (String c' s) = if ascii_dec c c' then String.prefix p s else false.
Proof. reflexivity. Qed.

Lemma HasPrefix_app p s : HasPrefix (p ++ s) p = true.
Proof.
  unfold HasPrefix. induction p as [|c p IH]; cbn [String.append]; [by destruct s|].
  rewrite prefix_cons. destruct (ascii_dec c c); [done|congruence].
Qed.

Lemma HasPrefix_true s p : HasPrefix s p = true -> s = (p ++ str_drop (String.length p) s)%string.
Proof.
  unfold HasPrefix. revert s. induction p as [|c p IH]; intros [|c' s]; [done..|].
  rewrite prefix_cons. destruct (ascii_dec c c'); [|done]. subst. intros H. cbn. f_equal. auto.
Qed.

#[export] Hint Rewrite str_app_nil_r str_length_app str_length_take str_length_drop
  str_take_app_length str_drop_app_length : pglg_simpl.

(** ** Hexadecimal: lemmas *)

Lemma from_to_hex_char d : 0 <= d < 16 -> from_hex_char (to_hex_char d) = Some d.
Proof.
  intros. unfold from_hex_char, to_hex_char.
  assert (ascii_val (ascii_of_N (Z.to_N (if d <? 10 then 48 + d else 87 + d)))
          = if d <? 10 then 48 + d else 87 + d) as ->.
  { unfold ascii_val. rewrite N_ascii_embedding; destruct (Z.ltb_spec d 10); lia. }
  destruct (Z.ltb_spec d 10).
  - replace (_ && _) with true by (zbool; lia). f_equal; lia.
  - replace (_ && _) with false by (zbool; lia).
    replace (_ && _) with true by (zbool; lia). f_equal; lia.
Qed.

Lemma ascii_of_val c : ascii_of_N (Z.to_N (ascii_val c)) = c.
Proof. unfold ascii_val. rewrite N2Z.id. apply ascii_N_embedding. Qed.

(** Decoding the hexadecimal text of a byte string gives it back. *)
Lemma DecodeString_EncodeToString s : DecodeString (EncodeToString s) = Ok s.
Proof.
  induction s as [|c s IH]; cbn -[Z.div Z.modulo]; [done|]. pose proof (ascii_val_bound c).
  rewrite !from_to_hex_char; [|apply Z.mod_pos_bound; lia|].
  2: { split; [apply Z.div_pos; lia|apply Z.div_lt_upper_bound; lia]. }
  rewrite IH. cbn [bind_r].
  assert (ascii_val c / 16 * 16 + ascii_val c mod 16 = ascii_val c) as ->
    by (pose proof (Z_div_mod_eq_full (ascii_val c) 16); lia).
  by rewrite ascii_of_val.
Qed.

(** What hexadecimal decoding accepts has even length, two digits per byte. *)
Lemma DecodeString_length s t :
  DecodeString s = Ok t -> String.length s = (2 * String.length t)%nat.
Proof.
  remember (String.length s) as n eqn:En. revert s t En.
  induction (lt_wf n) as [n _ IH]. intros s t -> H.
  destruct s as [|p [|q r]]; cbn in H; [by simplify_eq|by repeat case_match|].
  destruct (from_hex_char p), (from_hex_char q); try done.
  apply bind_r_Ok in H as (t' & Ht' & [= <-]). cbn.
  rewrite (IH (String.length r) ltac:(cbn; lia) r t' eq_refl Ht'). lia.
Qed.

(** ** UTF-8: lemmas *)

Lemma lead_width c w lo hi : lead c = Some (w, lo, hi) -> (2 <= w <= 4)%nat /\ 128 <= lo /\ hi <= 191.
Proof. unfold lead. repeat case_match; intros; simplify_eq; lia. Qed.

Lemma rune_width_le s : (rune_width s <= String.length s)%nat.
Proof.
  destruct s as [|c0 r]; cbn; [lia|]. repeat (case_match; cbn in *; try lia).
Qed.

(** The width of the head only looks at the bytes of the head. *)
Lemma rune_width_app a s : rune_width a <> O -> rune_width (a ++ s) = rune_width a.
Proof.
  destruct a as [|c0 a]; cbn; [done|]. destruct (Z.ltb_spec (ascii_val c0) 128); [done|].
  destruct (lead c0) as [[[w lo] hi]|]; [|done].
  destruct a as [|c1 a]; cbn; [done|]. destruct (in_range lo hi c1); [|done].
  destruct w as [|[|[|[|[|w]]]]]; try done.
  - destruct a as [|c2 a]; done.
  - destruct a as [|c2 [|c3 a]]; done.
Qed.

Lemma in_range_below lo hi c : ascii_val c < lo -> in_range lo hi c = false.
Proof. unfold in_range. intros. zbool; lia. Qed.

Lemma in_range_spec lo hi c : in_range lo hi c = true <-> lo <= ascii_val c <= hi.
Proof. unfold in_range. rewrite andb_true_iff, !Z.leb_le. done. Qed.

Lemma lead_low c : ascii_val c < 194 -> lead c = None.
Proof. intros. unfold lead. rewrite !in_range_below by lia. done. Qed.

(** No continuation byte starts a rune. *)
Lemma cont_width c s : 128 <= ascii_val c <= 191 -> rune_width (String c s) = O.
Proof. intros H. cbn. rewrite lead_low by lia. zbool; [lia|done]. Qed.

(** The bytes of a rune after the first are continuation bytes. *)
Lemma rune_tail_cont c r :
  is_rune (String c r) -> Forall (fun b => 128 <= ascii_val b <= 191) (list_ascii_of_string r).
Proof.
  intros [_ H]. revert H. cbn. destruct (Z.ltb_spec (ascii_val c) 128).
  { intros [= E]. destruct r; [constructor|done]. }
  destruct (lead c) as [[[w lo] hi]|] eqn:L; [|done]. apply lead_width in L as (Hw & Hlo & Hhi).
  destruct r as [|c1 r1]; [done|]. destruct (in_range lo hi c1) eqn:R; [|done].
  apply in_range_spec in R. unfold cont.
  destruct w as [|[|[|[|[|w]]]]]; try lia.
  - intros [= E]. destruct r1; [|done]. repeat constructor; lia.
  - destruct r1 as [|c2 r2]; [done|]. destruct (in_range 128 191 c2) eqn:R2; [|done].
    intros [= E]. destruct r2; [|done]. apply in_range_spec in R2. repeat constructor; lia.
  - destruct r1 as [|c2 [|c3 r3]]; [done..|].
    destruct (in_range 128 191 c2) eqn:R2; [|done]. destruct (in_range 128 191 c3) eqn:R3; [|done].
    intros [= E]. destruct r3; [|done]. apply in_range_spec in R2, R3. repeat constructor; lia.
Qed.

(** ** Removal of invalid bytes *)

Lemma to_valid_loop_fuel f g s :
  (String.length s <= f)%nat -> (String.length s <= g)%nat ->
  to_valid_loop f s = to_valid_loop g s.
Proof.
  revert g s. induction f as [|f IH]; intros [|g] [|c s]; cbn [to_valid_loop]; intros Hf Hg;
    cbn in Hf, Hg; try done; try lia.
  destruct (rune_width (String c s)) as [|w] eqn:W; [apply IH; lia|].
  f_equal. apply IH; rewrite str_length_drop; cbn; lia.
Qed.

(** The defining equations of [ToValidUTF8], without fuel. *)
Lemma ToValidUTF8_skip c s : rune_width (String c s) = O -> ToValidUTF8 (String c s) = ToValidUTF8 s.
Proof. intros W. unfold ToValidUTF8. cbn [String.length to_valid_loop]. rewrite W. done. Qed.

Lemma ToValidUTF8_step s :
  rune_width s <> O ->
  ToValidUTF8 s = (str_take (rune_width s) s ++ ToValidUTF8 (str_drop (rune_width s) s))%string.
Proof.
  destruct s as [|c s]; [done|]. intros W. unfold ToValidUTF8. cbn [String.length to_valid_loop].
  destruct (rune_width (String c s)) as [|w] eqn:E; [done|]. f_equal.
  apply to_valid_loop_fuel; rewrite ?str_length_drop; cbn; lia.
Qed.

Lemma is_rune_take s : rune_width s <> O -> is_rune (str_take (rune_width s) s).
Proof.
  intros W. pose proof (rune_width_le s) as L. split.
  - destruct s; [done|]. by destruct (rune_width _).
  - rewrite str_length_take, Nat.min_l by done.
    destruct s as [|c0 r]; [done|]. revert W. cbn. destruct (Z.ltb_spec (ascii_val c0) 128).
    { intros _. cbn. zbool; [done|lia]. }
    destruct (lead c0) as [[[w lo] hi]|] eqn:Ld; [|done].
    destruct r as [|c1 r1]; [done|]. destruct (in_range lo hi c1) eqn:R; [|done].
    destruct w as [|[|[|[|[|w]]]]]; try done; cycle 1.
    + destruct r1 as [|c2 r2]; [done|]. destruct (cont c2) eqn:C2; [|done].
      intros _. cbn. rewrite Ld, R, C2. zbool; [lia|done].
    + destruct r1 as [|c2 [|c3 r3]]; [done..|]. destruct (cont c2 && cont c3) eqn:C3; [|done].
      intros _. cbn. rewrite Ld, R, C3. zbool; [lia|done].
    + intros _. cbn. rewrite Ld, R. zbool; [lia|done].
Qed.

(** Induction over the bytes of a string as [ToValidUTF8] consumes them. *)
Lemma rune_ind (P : string -> Prop) :
  P EmptyString ->
  (forall c s, rune_width (String c s) = O -> P s -> P (String c s)) ->
  (forall s, rune_width s <> O -> P (str_drop (rune_width s) s) -> P s) ->
  forall s, P s.
Proof.
  intros H0 H1 H2 s. remember (String.length s) as n eqn:En. revert s En.
  induction (lt_wf n) as [n _ IH]. intros s ->.
  destruct s as [|c s]; [done|].
  destruct (decide (rune_width (String c s) = O)) as [W|W].
  - apply H1; [done|]. eapply IH; [|done]. cbn. lia.
  - apply H2; [done|]. eapply IH; [|done]. rewrite str_length_drop.
    destruct (rune_width _); cbn; [done|lia].
Qed.

Lemma ToValidUTF8_valid s : valid_utf8 (ToValidUTF8 s).
Proof.
  induction s using rune_ind; [constructor|by rewrite ToValidUTF8_skip|].
  rewrite ToValidUTF8_step by done. constructor; [by apply is_rune_take|done].
Qed.

Lemma ToValidUTF8_length s : (String.length (ToValidUTF8 s) <= String.length s)%nat.
Proof.
  induction s using rune_ind; [done|rewrite ToValidUTF8_skip by done; cbn; lia|].
  rewrite ToValidUTF8_step by done. rewrite str_length_app, str_length_take.
  rewrite str_length_drop in *. pose proof (rune_width_le s). lia.
Qed.

Lemma ToValidUTF8_rune r s : is_rune r -> ToValidUTF8 (r ++ s) = (r ++ ToValidUTF8 s)%string.
Proof.
  intros [Hne W]. assert (rune_width r <> O) by (rewrite W; by destruct r).
  rewrite ToValidUTF8_step by (by rewrite rune_width_app).
  rewrite rune_width_app, W, str_take_app_length, str_drop_app_length by done. done.
Qed.

Lemma valid_utf8_head s : valid_utf8 s -> s = EmptyString \/ (0 < rune_width s)%nat.
Proof.
  intros [|r s' [Hne W] _]; [by left|right].
  rewrite rune_width_app; rewrite W; destruct r; cbn; (done || lia).
Qed.

(** Valid text is left as it is. *)
Lemma ToValidUTF8_id s : valid_utf8 s -> ToValidUTF8 s = s.
Proof. induction 1; [done|]. rewrite ToValidUTF8_rune by done. congruence. Qed.

Lemma ToValidUTF8_cont_prefix k r :
  Forall (fun b => 128 <= ascii_val b <= 191) (list_ascii_of_string r) ->
  ToValidUTF8 (str_take k r) = EmptyString.
Proof.
  revert k. induction r as [|c r IH]; intros [|k] H; cbn [str_take]; try done.
  inv H. rewrite ToValidUTF8_skip; [by apply IH|by apply cont_width].
Qed.

(** A rune cut short leaves nothing. *)
Lemma ToValidUTF8_cut_rune k r :
  is_rune r -> (k < String.length r)%nat -> ToValidUTF8 (str_take k r) = EmptyString.
Proof.
  destruct r as [|c r]; [by intros []|]. intros Hr Hk. destruct k as [|k]; [done|].
  cbn [str_take String.length] in *. rewrite ToValidUTF8_skip; [eapply ToValidUTF8_cont_prefix, rune_tail_cont, Hr|].
  destruct (decide (rune_width (String c (str_take k r)) = O)) as [|W]; [done|]. exfalso.
  pose proof (rune_width_app _ (str_drop k r) W) as E. cbn [String.append] in E.
  rewrite str_take_drop in E. destruct Hr as [_ Hr]. rewrite Hr in E.
  pose proof (rune_width_le (String c (str_take k r))) as L. rewrite <- E in L.
  cbn in L. rewrite str_length_take in L. lia.
Qed.

(** Cutting valid text at [n] bytes and removing the bytes that are no longer
    valid keeps the longest run of whole runes that fits. *)
Lemma ToValidUTF8_cut n s :
  valid_utf8 s ->
  exists q, s = (ToValidUTF8 (str_take n s) ++ q)%string /\ valid_utf8 q /\
    (q = EmptyString \/
     (n < String.length (ToValidUTF8 (str_take n s)) + rune_width q)%nat).
Proof.
  intros V. revert n. induction V as [|r s Hr V IH]; intros n.
  - exists EmptyString. destruct n; cbn; split; [done|split; [constructor|by left]|done|split; [constructor|by left]].
  - destruct (decide (String.length r <= n)%nat) as [Hn|Hn].
    + rewrite str_take_app_ge, ToValidUTF8_rune by done.
      destruct (IH (n - String.length r)%nat) as (q & E & Vq & Hq). exists q.
      rewrite str_app_assoc, <- E, str_length_app. split; [done|]. split; [done|].
      destruct Hq; [by left|right; lia].
    + rewrite str_take_app_le, ToValidUTF8_cut_rune by (done || lia).
      exists (r ++ s)%string. split; [done|]. split; [by constructor|]. right.
      destruct Hr as [Hne W]. rewrite rune_width_app; rewrite W; [cbn; lia|by destruct r].
Qed.

#[export] Hint Resolve ToValidUTF8_valid ToValidUTF8_length : pglg.
