(* ===== verification/GoTime.v ===== *)
(** * Go's [time]: instants, durations and the civil calendar

    A [time.Time] is the number of nanoseconds since the zero time, midnight of
    January 1 of year 1 UTC; [IsZero] is equality with [0] and [Truncate] rounds
    with respect to that origin, as the package documents. A [time.Duration] is
    an [int64] number of nanoseconds. The calendar is the proleptic Gregorian
    one; the conversions to and from (year, month, day) follow [Date] and
    [absDate] of the package. *)

From S2P Require Export GoString.

Open Scope Z_scope.

Abbreviation Time := Z (only parsing).
Abbreviation Duration := Z (only parsing).

(** ** Durations *)

Definition Nanosecond : Duration := 1.
Definition Microsecond : Duration := 1000.
Definition Millisecond : Duration := 1000000.
Definition Second : Duration := 1000000000.
Definition Minute : Duration := 60 * Second.
Definition Hour : Duration := 60 * Minute.

(** ** Instants *)

Definition zeroTime : Time := 0.
Definition IsZero (t : Time) : bool := t =? 0.
Definition Before (t u : Time) : bool := t <? u.
Definition After (t u : Time) : bool := u <? t.
Definition Add (t : Time) (d : Duration) : Time := t + d.

(** [t.Sub(u)] saturates at the bounds of a duration. *)
Definition Sub (t u : Time) : Duration := Z.max int64_min (Z.min int64_max (t - u)).

(** [t.Truncate(d)]: [t] rounded down to a multiple of [d] since the zero time;
    [t] itself when [d <= 0]. *)
Definition Truncate (t : Time) (d : Duration) : Time :=
  if d <=? 0 then t else t - t mod d.

(** ** The calendar *)

Definition isLeap (y : Z) : bool :=
  (y mod 4 =? 0) && (negb (y mod 100 =? 0) || (y mod 400 =? 0)).

(** Days before January 1 of year [y], from January 1 of year 1. *)
Definition days_before_year (y : Z) : Z :=
  365 * (y - 1) + (y - 1) / 4 - (y - 1) / 100 + (y - 1) / 400.

(** [daysBefore[m]]: days before the end of month [m] in a common year. *)
Definition daysBefore (m : Z) : Z :=
  match m with
  | 0 => 0 | 1 => 31 | 2 => 59 | 3 => 90 | 4 => 120 | 5 => 151 | 6 => 181
  | 7 => 212 | 8 => 243 | 9 => 273 | 10 => 304 | 11 => 334 | _ => 365
  end.

(** [daysIn(m, year)]. *)
Definition daysIn (m y : Z) : Z :=
  if (m =? 2) && isLeap y then 29 else daysBefore m - daysBefore (m - 1).

(** Day of the year of (month, day), from 0. *)
Definition yday_of (leap : bool) (m d : Z) : Z :=
  daysBefore (m - 1) + (if leap && (2 <? m) then 1 else 0) + (d - 1).

(** (month, day) of a day of the year. *)
Definition month_day (leap : bool) (yday : Z) : Z * Z :=
  if leap && (yday =? 59) then (2, 29)
  else
    let day := if leap && (59 <? yday) then yday - 1 else yday in
    let m := day / 31 in
    if daysBefore (m + 1) <=? day then (m + 2, day - daysBefore (m + 1) + 1)
    else (m + 1, day - daysBefore m + 1).

(** The year that holds a day: the mean year length gives it within one. *)
Definition year_of_days (n : Z) : Z :=
  let y := 400 * n / 146097 + 1 in
  if n <? days_before_year y then y - 1
  else if days_before_year (y + 1) <=? n then y + 1
  else y.

Definition days_of_civil (y m d : Z) : Z := days_before_year y + yday_of (isLeap y) m d.

Definition civil_of_days (n : Z) : Z * Z * Z :=
  let y := year_of_days n in
  let '(m, d) := month_day (isLeap y) (n - days_before_year y) in (y, m, d).

Definition day_ns : Z := 24 * Hour.

(** [time.Date(y, m, d, hh, mm, ss, ns, time.UTC)] for fields in range. *)
Definition Date (y m d hh mm ss ns : Z) : Time :=
  days_of_civil y m d * day_ns + hh * Hour + mm * Minute + ss * Second + ns.

(** The fields of an instant in UTC. *)
Definition date_fields (t : Time) : Z * Z * Z := civil_of_days (t / day_ns).
Definition t_year (t : Time) : Z := (date_fields t).1.1.
Definition t_month (t : Time) : Z := (date_fields t).1.2.
Definition t_day (t : Time) : Z := (date_fields t).2.
Definition t_hour (t : Time) : Z := t mod day_ns / Hour.
Definition t_min (t : Time) : Z := t mod Hour / Minute.
Definition t_sec (t : Time) : Z := t mod Minute / Second.
Definition t_nsec (t : Time) : Z := t mod Second.

Definition valid_civil (y m d : Z) : Prop := 1 <= m <= 12 /\ 1 <= d <= daysIn m y.

(** ** Division by constants for [lia] *)

Ltac zdiv :=
  Z.to_euclidean_division_equations; lia.

(** ** Instants: lemmas *)

Lemma Sub_exact t u : int64_min <= t - u <= int64_max -> Sub t u = t - u.
Proof. unfold Sub. lia. Qed.

Lemma Truncate_bounds t d : 0 < d -> Truncate t d <= t < Truncate t d + d.
Proof. unfold Truncate. intros. pose proof (Z.mod_pos_bound t d). zbool; lia. Qed.

Lemma Truncate_multiple t d : 0 < d -> Truncate t d mod d = 0.
Proof.
  unfold Truncate. intros. zbool; [lia|]. rewrite Zminus_mod_idemp_r, Z.sub_diag. done.
Qed.

Lemma Truncate_id t d : 0 < d -> t mod d = 0 -> Truncate t d = t.
Proof. unfold Truncate. intros ? ->. zbool; lia. Qed.

(** ** The calendar: lemmas *)

Lemma days_before_year_succ y :
  days_before_year (y + 1) = days_before_year y + if isLeap y then 366 else 365.
Proof. unfold days_before_year, isLeap. zbool; cbn [andb orb negb]; zdiv. Qed.

Lemma days_before_year_mono y y' :
  y < y' -> days_before_year y + 365 <= days_before_year y'.
Proof. unfold days_before_year. intros. zdiv. Qed.

Lemma year_of_days_spec n :
  days_before_year (year_of_days n) <= n < days_before_year (year_of_days n + 1).
Proof.
  unfold year_of_days. set (y := 400 * n / 146097 + 1).
  assert (days_before_year (y - 1) <= n < days_before_year (y + 2)) as H.
  { unfold days_before_year, y. zdiv. }
  destruct (Z.ltb_spec n (days_before_year y)).
  - replace (y - 1 + 1) with y by lia. lia.
  - destruct (Z.leb_spec (days_before_year (y + 1)) n); [|lia].
    replace (y + 1 + 1) with (y + 2) by lia. lia.
Qed.

Lemma year_of_days_unique n y :
  days_before_year y <= n < days_before_year (y + 1) -> year_of_days n = y.
Proof.
  intros H. pose proof (year_of_days_spec n) as S.
  destruct (Z.lt_trichotomy (year_of_days n) y) as [L|[E|L]]; [|done|].
  - assert (year_of_days n + 1 = y \/ year_of_days n + 1 < y) as [E|E] by lia; [rewrite E in S; lia|].
    apply days_before_year_mono in E. lia.
  - assert (y + 1 = year_of_days n \/ y + 1 < year_of_days n) as [E|E] by lia; [rewrite E in H; lia|].
    apply days_before_year_mono in E. lia.
Qed.

(** The month table is finite: its facts are checked on all of it. *)
Definition months : list Z := seqZ 1 12.

Definition month_table_ok : bool :=
  forallb (fun leap : bool => forallb (fun m => forallb (fun d =>
    implb (d <=? (if (m =? 2) && leap then 29 else daysBefore m - daysBefore (m - 1)))
      (bool_decide (month_day leap (yday_of leap m d) = (m, d)) &&
       (0 <=? yday_of leap m d) && (yday_of leap m d <? if leap then 366 else 365)))
    (seqZ 1 31)) months) [true; false].

Lemma month_table_checked : month_table_ok = true.
Proof. vm_compute. reflexivity. Qed.

Lemma forallb_seqZ (f : Z -> bool) a n x :
  forallb f (seqZ a n) = true -> a <= x < a + n -> f x = true.
Proof.
  rewrite forallb_forall. intros H Hx. apply H. apply list_elem_of_In, elem_of_seqZ. done.
Qed.

Lemma month_day_yday y m d :
  valid_civil y m d ->
  month_day (isLeap y) (yday_of (isLeap y) m d) = (m, d) /\
  0 <= yday_of (isLeap y) m d < if isLeap y then 366 else 365.
Proof.
  intros [Hm Hd]. pose proof month_table_checked as T. unfold month_table_ok in T.
  rewrite forallb_forall in T. specialize (T (isLeap y)).
  assert (daysIn m y <= 31) as H31.
  { clear -Hm. assert (forallb (fun m => (daysBefore m - daysBefore (m - 1) <=? 31)) months = true) as F
      by reflexivity. apply (forallb_seqZ _ _ _ m) in F; [|lia]. apply Z.leb_le in F.
    unfold daysIn. destruct (_ && _); lia. }
  specialize (T ltac:(destruct (isLeap y); cbn; auto)).
  apply (forallb_seqZ _ _ _ m) in T; [|lia]. apply (forallb_seqZ _ _ _ d) in T; [|lia].
  cbv beta in T. unfold daysIn in Hd. rewrite (proj2 (Z.leb_le _ _) (proj2 Hd)) in T. cbn [implb] in T.
  apply andb_true_iff in T as [[T1 T2]%andb_true_iff T3].
  apply bool_decide_eq_true in T1. split; [done|]. destruct (isLeap y); zbool; lia.
Qed.

(** Converting a valid date to days and back gives it back. *)
Lemma civil_of_days_of_civil y m d :
  valid_civil y m d -> civil_of_days (days_of_civil y m d) = (y, m, d).
Proof.
  intros V. destruct (month_day_yday y m d V) as [E B]. unfold civil_of_days, days_of_civil.
  rewrite (year_of_days_unique _ y); [|rewrite days_before_year_succ; lia].
  replace (_ - _) with (yday_of (isLeap y) m d) by lia. by rewrite E.
Qed.

(** Every day of a year is a valid (month, day). *)
Definition yday_table_ok : bool :=
  forallb (fun leap : bool => forallb (fun n =>
    implb (n <? if leap then 366 else 365)
      (let '(m, d) := month_day leap n in
       (1 <=? m) && (m <=? 12) && (1 <=? d) &&
       (d <=? (if (m =? 2) && leap then 29 else daysBefore m - daysBefore (m - 1))) &&
       (yday_of leap m d =? n)))
    (seqZ 0 366)) [true; false].

Lemma yday_table_checked : yday_table_ok = true.
Proof. vm_compute. reflexivity. Qed.

Lemma civil_of_days_spec n y m d :
  civil_of_days n = (y, m, d) -> valid_civil y m d /\ days_of_civil y m d = n.
Proof.
  unfold civil_of_days, days_of_civil, valid_civil. pose proof (year_of_days_spec n) as S.
  set (y0 := year_of_days n) in *. rewrite days_before_year_succ in S.
  pose proof yday_table_checked as T. unfold yday_table_ok in T. rewrite forallb_forall in T.
  specialize (T (isLeap y0) ltac:(destruct (isLeap y0); cbn; auto)).
  apply (forallb_seqZ _ _ _ (n - days_before_year y0)) in T; [|destruct (isLeap y0); lia].
  cbv beta in T.
  destruct (Z.ltb_spec (n - days_before_year y0) (if isLeap y0 then 366 else 365)); [|lia].
  cbn [implb] in T. destruct (month_day _ _) as [m0 d0] eqn:E. intros [= <- <- <-].
  rewrite !andb_true_iff, !Z.leb_le, Z.eqb_eq in T. unfold daysIn. lia.
Qed.

(** ** Fields of an instant: lemmas *)

Lemma t_civil_spec t :
  valid_civil (t_year t) (t_month t) (t_day t) /\
  days_of_civil (t_year t) (t_month t) (t_day t) = t / day_ns.
Proof.
  unfold t_year, t_month, t_day, date_fields.
  destruct (civil_of_days (t / day_ns)) as [[y m] d] eqn:E. by apply civil_of_days_spec.
Qed.

Lemma t_clock_bounds t :
  0 <= t_hour t < 24 /\ 0 <= t_min t < 60 /\ 0 <= t_sec t < 60 /\ 0 <= t_nsec t < Second.
Proof. unfold t_hour, t_min, t_sec, t_nsec, day_ns, Hour, Minute, Second. zdiv. Qed.

Lemma t_clock_sum t :
  t mod day_ns = t_hour t * Hour + t_min t * Minute + t_sec t * Second + t_nsec t.
Proof. unfold t_hour, t_min, t_sec, t_nsec, day_ns, Hour, Minute, Second. zdiv. Qed.

(** An instant is the [Date] of its fields. *)
Lemma Date_fields t :
  Date (t_year t) (t_month t) (t_day t) (t_hour t) (t_min t) (t_sec t) (t_nsec t) = t.
Proof.
  unfold Date. destruct (t_civil_spec t) as [_ ->].
  pose proof (t_clock_sum t). pose proof (Z_div_mod_eq_full t day_ns). lia.
Qed.

(** The fields of a [Date] are its arguments. *)
Lemma fields_Date y m d hh mm ss ns :
  valid_civil y m d -> 0 <= hh < 24 -> 0 <= mm < 60 -> 0 <= ss < 60 -> 0 <= ns < Second ->
  let t := Date y m d hh mm ss ns in
  t_year t = y /\ t_month t = m /\ t_day t = d /\
  t_hour t = hh /\ t_min t = mm /\ t_sec t = ss /\ t_nsec t = ns.
Proof.
  intros V Hh Hm Hs Hn t.
  set (c := hh * Hour + mm * Minute + ss * Second + ns).
  assert (t = days_of_civil y m d * day_ns + c) as Et by (unfold t, Date, c; lia).
  assert (0 <= c < day_ns) as Hc by (unfold c, day_ns, Hour, Minute, Second in *; lia).
  assert (t / day_ns = days_of_civil y m d) as Ed.
  { rewrite Et, Z.div_add_l by (unfold day_ns, Hour, Minute, Second; lia).
    rewrite Z.div_small by done. lia. }
  assert (t mod day_ns = c) as Em.
  { rewrite Et, Z.add_comm, Z_mod_plus_full, Z.mod_small by done. done. }
  unfold t_year, t_month, t_day, date_fields. rewrite Ed, civil_of_days_of_civil by done.
  do 3 (split; [done|]). unfold t_hour, t_min, t_sec, t_nsec. rewrite Em.
  clear Em Ed V. generalize dependent (days_of_civil y m d). intros z Et.
  rewrite Et. unfold c, day_ns, Hour, Minute, Second in *. zdiv.
Qed.

(** ** The order of instants is the order of their fields *)

(** A valid date as one number whose decimal digits are year, month and day. *)
Definition date_key (y m d : Z) : Z := y * 10000 + m * 100 + d.

Lemma yday_mono leap m d m' d' :
  1 <= m <= 12 -> 1 <= m' <= 12 -> m < m' ->
  1 <= d <= (if (m =? 2) && leap then 29 else daysBefore m - daysBefore (m - 1)) ->
  1 <= d' -> yday_of leap m d < yday_of leap m' d'.
Proof.
  intros Hm Hm' L Hd Hd'. unfold yday_of.
  assert (forallb (fun leap : bool => forallb (fun m => forallb (fun m' =>
    implb (m <? m')
      (daysBefore (m - 1) + (if leap && (2 <? m) then 1 else 0) +
         (if (m =? 2) && leap then 29 else daysBefore m - daysBefore (m - 1))
       <=? daysBefore (m' - 1) + (if leap && (2 <? m') then 1 else 0))) months) months)
    [true; false] = true) as F by reflexivity.
  rewrite forallb_forall in F. specialize (F leap ltac:(destruct leap; cbn; auto)).
  apply (forallb_seqZ _ _ _ m) in F; [|lia]. apply (forallb_seqZ _ _ _ m') in F; [|lia].
  cbv beta in F. rewrite (proj2 (Z.ltb_lt m m') L) in F. cbn [implb] in F. apply Z.leb_le in F. lia.
Qed.

Lemma days_of_civil_mono y m d y' m' d' :
  valid_civil y m d -> valid_civil y' m' d' ->
  y < y' \/ (y = y' /\ (m < m' \/ (m = m' /\ d < d'))) ->
  days_of_civil y m d < days_of_civil y' m' d'.
Proof.
  intros V V' H. destruct (month_day_yday y m d V) as [_ B].
  destruct (month_day_yday y' m' d' V') as [_ B']. unfold days_of_civil.
  destruct H as [H|[-> [H|[-> H]]]].
  - pose proof (days_before_year_succ y).
    assert (y + 1 = y' \/ y + 1 < y') as [<-|E] by lia; [lia|].
    apply days_before_year_mono in E. lia.
  - destruct V as [Vm Vd], V' as [Vm' Vd']. apply Zplus_lt_compat_l, yday_mono; lia || done.
  - unfold yday_of. lia.
Qed.

(** The key of an instant at minute resolution: year, month, day, hour and
    minute as one decimal number. *)
Definition minute_key (t : Time) : Z :=
  date_key (t_year t) (t_month t) (t_day t) * 10000 + t_hour t * 100 + t_min t.

Lemma valid_civil_bounds y m d : valid_civil y m d -> 1 <= m <= 12 /\ 1 <= d <= 31.
Proof.
  intros [Hm Hd]. split; [done|]. unfold daysIn in Hd.
  assert (forallb (fun m => (daysBefore m - daysBefore (m - 1) <=? 31)) months = true) as F
    by reflexivity. apply (forallb_seqZ _ _ _ m) in F; [|lia]. apply Z.leb_le in F.
  destruct (_ && _); lia.
Qed.

Lemma Truncate_minute t :
  Truncate t Minute = t / day_ns * day_ns + t_hour t * Hour + t_min t * Minute.
Proof.
  change (Truncate t Minute) with (t - t mod Minute).
  unfold t_hour, t_min, day_ns, Hour, Minute, Second. zdiv.
Qed.

Lemma minute_key_lt t u : minute_key t < minute_key u -> Truncate t Minute < Truncate u Minute.
Proof.
  intros H. destruct (t_civil_spec t) as [Vt Dt], (t_civil_spec u) as [Vu Du].
  pose proof (t_clock_bounds t) as Bt. pose proof (t_clock_bounds u) as Bu.
  pose proof (valid_civil_bounds _ _ _ Vt). pose proof (valid_civil_bounds _ _ _ Vu).
  pose proof (days_of_civil_mono _ _ _ _ _ _ Vt Vu) as M. rewrite Dt, Du in M.
  unfold minute_key, date_key in H. rewrite !Truncate_minute.
  unfold day_ns, Hour, Minute, Second in *.
  destruct (decide (t_year t = t_year u /\ t_month t = t_month u /\ t_day t = t_day u)) as [E|E].
  - destruct E as (Ey & Em & Ed). rewrite Ey, Em, Ed, Du in Dt. lia.
  - specialize (M ltac:(lia)). lia.
Qed.

Lemma minute_key_eq t u : minute_key t = minute_key u -> Truncate t Minute = Truncate u Minute.
Proof.
  intros H. destruct (t_civil_spec t) as [Vt Dt], (t_civil_spec u) as [Vu Du].
  pose proof (t_clock_bounds t). pose proof (t_clock_bounds u).
  pose proof (valid_civil_bounds _ _ _ Vt). pose proof (valid_civil_bounds _ _ _ Vu).
  unfold minute_key, date_key in H.
  assert (t_year t = t_year u /\ t_month t = t_month u /\ t_day t = t_day u /\
    t_hour t = t_hour u /\ t_min t = t_min u) as (Ey & Em & Ed & Eh & Emi) by lia.
  rewrite !Truncate_minute, Eh, Emi. rewrite Ey, Em, Ed, Du in Dt. rewrite Dt. done.
Qed.

(** The key orders the minutes as time does. *)
Lemma minute_key_lt_iff t u : minute_key t < minute_key u <-> Truncate t Minute < Truncate u Minute.
Proof.
  split; [apply minute_key_lt|]. intros H.
  destruct (Z.lt_trichotomy (minute_key t) (minute_key u)) as [L|[E|L]]; [done| |].
  - apply minute_key_eq in E. lia.
  - apply minute_key_lt in L. lia.
Qed.
