(* ===== verification/GoTimeFormat.v ===== *)
(** * Go's [time] layouts: [Format] and [Parse]

    A layout is split into literal text and standard chunks as [nextStdChunk]
    does; [Format] writes the chunks of a UTC instant and [Parse] reads them.
    The tokenizer knows the chunks of the layouts the program uses:
    partition names, the Postgres timestamp layouts and RFC 3339. *)

From S2P Require Export GoTime.

Open Scope Z_scope.

Inductive chunk :=
| Lit (s : string)
| StdLongYear          (* 2006 *)
| StdZeroMonth         (* 01 *)
| StdZeroDay           (* 02 *)
| StdHour              (* 15 *)
| StdZeroMinute        (* 04 *)
| StdZeroSecond        (* 05 *)
| StdFracSecond9 (n : nat)   (* .9, .99, ...: at most n digits, trailing zeros removed *)
| StdNumShortTZ        (* -07 *)
| StdISO8601ColonTZ.   (* Z07:00 *)

Definition RFC3339 : string := "2006-01-02T15:04:05Z07:00".
Definition RFC3339Nano : string := "2006-01-02T15:04:05.999999999Z07:00".

(** ** Splitting a layout *)

(** Number of leading ['9']s. *)
Fixpoint count_nines (s : string) : nat :=
  match s with
  | String c s' => if Ascii.eqb c "9" then S (count_nines s') else O
  | EmptyString => O
  end.

Definition head_is_digit (s : string) : bool :=
  match s with String c _ => is_digit c | EmptyString => false end.

(** The standard chunk at the head of a layout, with what follows it. *)
Definition std_chunk (s : string) : option (chunk * string) :=
  if HasPrefix s "2006" then Some (StdLongYear, str_drop 4 s)
  else if HasPrefix s "01" then Some (StdZeroMonth, str_drop 2 s)
  else if HasPrefix s "02" then Some (StdZeroDay, str_drop 2 s)
  else if HasPrefix s "15" then Some (StdHour, str_drop 2 s)
  else if HasPrefix s "04" then Some (StdZeroMinute, str_drop 2 s)
  else if HasPrefix s "05" then Some (StdZeroSecond, str_drop 2 s)
  else if HasPrefix s ".9" then
    let n := count_nines (str_drop 1 s) in
    if head_is_digit (str_drop (S n) s) then None
    else Some (StdFracSecond9 n, str_drop (S n) s)
  else if HasPrefix s "Z07:00" then Some (StdISO8601ColonTZ, str_drop 6 s)
  else if HasPrefix s "-07" then Some (StdNumShortTZ, str_drop 3 s)
  else None.

Definition cons_lit (c : ascii) (l : list chunk) : list chunk :=
  match l with
  | Lit s :: l' => Lit (String c s) :: l'
  | _ => Lit (String c EmptyString) :: l
  end.

Fixpoint layout_chunks (fuel : nat) (s : string) : list chunk :=
  match fuel, s with
  | S f, String c s' =>
      match std_chunk s with
      | Some (k, rest) => k :: layout_chunks f rest
      | None => cons_lit c (layout_chunks f s')
      end
  | _, _ => []
  end.

(** The chunks of a layout; every step consumes at least one byte. *)
Definition chunks (layout : string) : list chunk :=
  layout_chunks (String.length layout) layout.

(** ** Format *)

(** [appendInt(b, x, width)] for [x >= 0]: zero-padded to [width] digits. *)
Fixpoint zeros (n : nat) : string :=
  match n with O => EmptyString | S n' => String "0" (zeros n') end.

Definition pad (width : nat) (n : Z) : string :=
  let s := FormatUint n in (zeros (width - String.length s) ++ s)%string.

Fixpoint trim_zeros (s : string) : string :=
  match s with
  | EmptyString => EmptyString
  | String c s' =>
      match trim_zeros s' with
      | EmptyString => if Ascii.eqb c "0" then EmptyString else String c EmptyString
      | t => String c t
      end
  end.

(** The first [n] of the nine digits of nanoseconds, trailing zeros removed,
    and nothing at all when they are all zero. *)
Definition format_frac (n : nat) (ns : Z) : string :=
  match trim_zeros (str_take n (pad 9 ns)) with
  | EmptyString => EmptyString
  | ds => String "." ds
  end.

Definition format_chunk (t : Time) (k : chunk) : string :=
  match k with
  | Lit s => s
  | StdLongYear => pad 4 (t_year t)
  | StdZeroMonth => pad 2 (t_month t)
  | StdZeroDay => pad 2 (t_day t)
  | StdHour => pad 2 (t_hour t)
  | StdZeroMinute => pad 2 (t_min t)
  | StdZeroSecond => pad 2 (t_sec t)
  | StdFracSecond9 n => format_frac n (t_nsec t)
  | StdNumShortTZ => "+00"
  | StdISO8601ColonTZ => "Z"
  end.

(** [t.Format(layout)] of an instant in UTC. *)
Definition Format (layout : string) (t : Time) : string :=
  fold_right (fun k acc => (format_chunk t k ++ acc)%string) EmptyString (chunks layout).

(** ** Parse *)

(** The fields read so far ([parse] of the package): [-1] for a month or a day
    not read; the zone is an offset in seconds, or UTC for a [Z]. *)
Record fields := Fields {
  f_year : Z; f_month : Z; f_day : Z; f_hour : Z; f_min : Z; f_sec : Z; f_nsec : Z;
  f_offset : option Z; f_utc : bool }.

Definition fields0 : fields := Fields 0 (-1) (-1) 0 0 0 0 None false.

Fixpoint cutspace (s : string) : string :=
  match s with
  | String c s' => if Ascii.eqb c " " then cutspace s' else s
  | EmptyString => EmptyString
  end.

(** [skip(value, prefix)]: a run of spaces of the layout matches any non-empty
    run of spaces, or the end of the value. [in_run] says that the run the layout
    is in was already matched. *)
Fixpoint skip_from (in_run : bool) (prefix value : string) : option string :=
  match prefix with
  | EmptyString => Some value
  | String p prefix' =>
      if Ascii.eqb p " " then
        if in_run then skip_from true prefix' value
        else match value with
        | String v _ =>
            if Ascii.eqb v " " then skip_from true prefix' (cutspace value) else None
        | EmptyString => skip_from true prefix' EmptyString
        end
      else
        match value with
        | String v value' => if Ascii.eqb v p then skip_from false prefix' value' else None
        | EmptyString => None
        end
  end.

Definition skip (prefix value : string) : option string := skip_from false prefix value.

(** [getnum(s, fixed)]: one or two digits, exactly two when [fixed]. *)
Definition getnum (s : string) (fixed : bool) : option (Z * string) :=
  match s with
  | String c s' =>
      if is_digit c then
        match s' with
        | String c' s'' =>
            if is_digit c' then Some (digit_val c * 10 + digit_val c', s'')
            else if fixed then None else Some (digit_val c, s')
        | EmptyString => if fixed then None else Some (digit_val c, s')
        end
      else None
  | EmptyString => None
  end.

(** A run of digits as a number; [None] when a byte is not a digit. *)
Fixpoint digits_val (s : string) (acc : Z) : option Z :=
  match s with
  | EmptyString => Some acc
  | String c s' => if is_digit c then digits_val s' (acc * 10 + digit_val c) else None
  end.

Fixpoint span_digits (s : string) : nat :=
  match s with
  | String c s' => if is_digit c then S (span_digits s') else O
  | EmptyString => O
  end.

Definition commaOrPeriod (c : ascii) : bool := Ascii.eqb c "." || Ascii.eqb c ",".

(** A fractional second at the head of [s]: [parseNanoseconds] keeps at most
    nine of its digits. [None] when there is none. *)
Definition get_frac (s : string) : option (Z * string) :=
  match s with
  | String c s' =>
      let n := span_digits s' in
      if commaOrPeriod c && (0 <? n)%nat then
        match digits_val (str_take (Nat.min n 9) s') 0 with
        | Some v => Some (v * 10 ^ Z.of_nat (9 - n), str_drop n s')
        | None => None
        end
      else None
  | EmptyString => None
  end.

(** The next standard chunk of the rest of the layout is a fraction. *)
Fixpoint next_is_frac (l : list chunk) : bool :=
  match l with
  | Lit _ :: l' => next_is_frac l'
  | StdFracSecond9 _ :: _ => true
  | _ => false
  end.

(** A numeric zone with [hh] or [hh:mm]: seconds east of UTC. *)
Definition zone_offset (sign : ascii) (hour min : string) : option Z :=
  match getnum hour true, getnum min true with
  | Some (hr, _), Some (mm, _) =>
      if (24 <? hr) || (60 <? mm) then None
      else if Ascii.eqb sign "+" then Some ((hr * 60 + mm) * 60)
      else if Ascii.eqb sign "-" then Some (- ((hr * 60 + mm) * 60))
      else None
  | _, _ => None
  end.

Definition set_offset (f : fields) (off : Z) : fields :=
  Fields (f_year f) (f_month f) (f_day f) (f_hour f) (f_min f) (f_sec f) (f_nsec f)
    (Some off) (f_utc f).

Definition set_nsec (f : fields) (ns : Z) : fields :=
  Fields (f_year f) (f_month f) (f_day f) (f_hour f) (f_min f) (f_sec f) ns
    (f_offset f) (f_utc f).

Definition parse_zone (colon : bool) (f : fields) (value : string) : option (fields * string) :=
  match value with
  | String sign v1 =>
      if colon then
        if (String.length value <? 6)%nat || negb (HasPrefix (str_drop 2 v1) ":") then None
        else off ← zone_offset sign (str_take 2 v1) (str_take 2 (str_drop 3 v1));
             Some (set_offset f off, str_drop 5 v1)
      else
        if (String.length value <? 3)%nat then None
        else off ← zone_offset sign (str_take 2 v1) "00";
             Some (set_offset f off, str_drop 2 v1)
  | EmptyString => None
  end.

(** One chunk of the layout, the later chunks in [rest]. *)
Definition parse_chunk (k : chunk) (rest : list chunk) (f : fields) (value : string)
  : option (fields * string) :=
  match k with
  | Lit s => v ← skip s value; Some (f, v)
  | StdLongYear =>
      if (String.length value <? 4)%nat || negb (head_is_digit value) then None
      else y ← digits_val (str_take 4 value) 0;
           Some (Fields y (f_month f) (f_day f) (f_hour f) (f_min f) (f_sec f) (f_nsec f)
                   (f_offset f) (f_utc f), str_drop 4 value)
  | StdZeroMonth =>
      '(m, v) ← getnum value true;
      if (m <=? 0) || (12 <? m) then None
      else Some (Fields (f_year f) m (f_day f) (f_hour f) (f_min f) (f_sec f) (f_nsec f)
                   (f_offset f) (f_utc f), v)
  | StdZeroDay =>
      '(d, v) ← getnum value true;
      Some (Fields (f_year f) (f_month f) d (f_hour f) (f_min f) (f_sec f) (f_nsec f)
              (f_offset f) (f_utc f), v)
  | StdHour =>
      '(h, v) ← getnum value false;
      if (h <? 0) || (24 <=? h) then None
      else Some (Fields (f_year f) (f_month f) (f_day f) h (f_min f) (f_sec f) (f_nsec f)
                   (f_offset f) (f_utc f), v)
  | StdZeroMinute =>
      '(m, v) ← getnum value true;
      if (m <? 0) || (60 <=? m) then None
      else Some (Fields (f_year f) (f_month f) (f_day f) (f_hour f) m (f_sec f) (f_nsec f)
                   (f_offset f) (f_utc f), v)
  | StdZeroSecond =>
      '(s, v) ← getnum value true;
      if (s <? 0) || (60 <=? s) then None
      else
        let f' := Fields (f_year f) (f_month f) (f_day f) (f_hour f) (f_min f) s (f_nsec f)
                    (f_offset f) (f_utc f) in
        (* a fractional second that the layout does not mention *)
        match (if next_is_frac rest then None else get_frac v) with
        | Some (ns, v') => Some (set_nsec f' ns, v')
        | None => Some (f', v)
        end
  | StdFracSecond9 _ =>
      match get_frac value with
      | Some (ns, v) => Some (set_nsec f ns, v)
      | None => Some (f, value)
      end
  | StdNumShortTZ => parse_zone false f value
  | StdISO8601ColonTZ =>
      match value with
      | String c v =>
          if Ascii.eqb c "Z" then
            Some (Fields (f_year f) (f_month f) (f_day f) (f_hour f) (f_min f) (f_sec f)
                    (f_nsec f) (f_offset f) true, v)
          else parse_zone true f value
      | EmptyString => None
      end
  end.

Fixpoint parse_chunks (l : list chunk) (f : fields) (value : string) : option fields :=
  match l with
  | [] => match value with EmptyString => Some f | _ => None end   (* extra text *)
  | k :: l' => '(f', v) ← parse_chunk k l' f value; parse_chunks l' f' v
  end.

(** The end of [parse]: missing fields, day of the month, zone. *)
Definition finish_parse (f : fields) : option Time :=
  let m := if f_month f <? 0 then 1 else f_month f in
  let d := if f_day f <? 0 then 1 else f_day f in
  if (d <? 1) || (daysIn m (f_year f) <? d) then None
  else
    let t := Date (f_year f) m d (f_hour f) (f_min f) (f_sec f) (f_nsec f) in
    if f_utc f then Some t
    else match f_offset f with
    | Some off => Some (t - off * Second)
    | None => Some t
    end.

(** [time.Parse(layout, value)], the instant in UTC. *)
Definition Parse (layout value : string) : option Time :=
  f ← parse_chunks (chunks layout) fields0 value; finish_parse f.

(** ** Examples *)

Definition minute_layout : string := "20060102_1504".

Example chunks_minute_layout : chunks minute_layout =
  [StdLongYear; StdZeroMonth; StdZeroDay; Lit "_"; StdHour; StdZeroMinute].
Proof. reflexivity. Qed.

Example chunks_postgres : chunks "2006-01-02 15:04:05.999999+00" =
  [StdLongYear; Lit "-"; StdZeroMonth; Lit "-"; StdZeroDay; Lit " "; StdHour; Lit ":";
   StdZeroMinute; Lit ":"; StdZeroSecond; StdFracSecond9 6; Lit "+00"].
Proof. reflexivity. Qed.

Example chunks_rfc3339 : chunks RFC3339 =
  [StdLongYear; Lit "-"; StdZeroMonth; Lit "-"; StdZeroDay; Lit "T"; StdHour; Lit ":";
   StdZeroMinute; Lit ":"; StdZeroSecond; StdISO8601ColonTZ].
Proof. reflexivity. Qed.

Example Format_ex :
  Format minute_layout (Date 2026 2 16 14 0 0 0) = "20260216_1400"%string /\
  Format RFC3339 (Date 2026 2 16 14 30 5 0) = "2026-02-16T14:30:05Z"%string.
Proof. vm_compute. done. Qed.

Example Parse_ex :
  Parse "2006-01-02 15:04:05.999999+00" "2026-02-16 14:30:00.123456+00" =
    Some (Date 2026 2 16 14 30 0 123456000) /\
  Parse RFC3339 "2026-02-16T14:30:00.5+02:00" = Some (Date 2026 2 16 12 30 0 500000000) /\
  Parse minute_layout "20260230_1400" = None.
Proof. vm_compute. done. Qed.

(** ** Fixed-width numbers *)

(** [w] decimal digits of [n] in front of [acc]. *)
Fixpoint fixed (w : nat) (n : Z) (acc : string) : string :=
  match w with
  | O => acc
  | S w' => fixed w' (n / 10) (String (digit_char (n mod 10)) acc)
  end.

Lemma fixed_app w n acc : fixed w n acc = (fixed w n "" ++ acc)%string.
Proof.
  revert n acc. induction w as [|w IH]; intros n acc; cbn [fixed]; [done|].
  rewrite IH, (IH _ (String _ "")), str_app_assoc. done.
Qed.

Lemma fixed_0 w acc : fixed w 0 acc = (zeros w ++ acc)%string.
Proof.
  revert acc. induction w as [|w IH]; intros acc; cbn [fixed]; [done|].
  change (0 / 10) with 0. rewrite IH. change (digit_char (0 mod 10)) with "0"%char.
  clear IH. induction w; cbn in *; congruence.
Qed.

Lemma fixed_length w n acc : String.length (fixed w n acc) = (w + String.length acc)%nat.
Proof. revert n acc. induction w as [|w IH]; intros; cbn [fixed]; [done|]. rewrite IH. cbn. lia. Qed.

Lemma fmt_uint_app f n acc : fmt_uint f n acc = (fmt_uint f n "" ++ acc)%string.
Proof.
  revert n acc. induction f as [|f IH]; intros n acc; cbn [fmt_uint]; [done|].
  destruct (n <? 10); [done|]. rewrite IH, (IH _ (String _ "")), str_app_assoc. done.
Qed.

Lemma fmt_uint_fixed w f n acc :
  (0 < w <= f)%nat -> 0 <= n < 10 ^ Z.of_nat w ->
  (zeros (w - String.length (fmt_uint f n "")) ++ fmt_uint f n acc)%string = fixed w n acc.
Proof.
  revert f n acc. induction w as [|w IH]; intros [|f] n acc Hw Hn; try lia.
  cbn [fmt_uint fixed]. destruct (Z.ltb_spec n 10).
  - cbn [String.length]. rewrite Z.div_small, Z.mod_small, fixed_0 by lia.
    by replace (S w - 1)%nat with w by lia.
  - rewrite Nat2Z.inj_succ, Z.pow_succ_r in Hn by lia.
    destruct w as [|w]; [cbn in Hn; lia|].
    rewrite <- (IH f); [|lia|split; [apply Z.div_pos; lia|apply Z.div_lt_upper_bound; lia]].
    rewrite (fmt_uint_app f _ (String _ "")), str_length_app. cbn [String.length].
    by replace (S (S w) - (String.length (fmt_uint f (n / 10) "") + 1))%nat
      with (S w - String.length (fmt_uint f (n / 10) ""))%nat by lia.
Qed.

Lemma pad_fixed w n :
  (0 < w <= 20)%nat -> 0 <= n < 10 ^ Z.of_nat w -> pad w n = fixed w n "".
Proof. intros. unfold pad, FormatUint. by apply fmt_uint_fixed. Qed.

Lemma digits_val_app s s' a : digits_val (s ++ s') a = digits_val s a ≫= digits_val s'.
Proof.
  revert a. induction s as [|c s IH]; intros a; cbn; [done|]. destruct (is_digit c); [apply IH|done].
Qed.

Lemma digits_val_fixed w n :
  0 <= n < 10 ^ Z.of_nat w -> digits_val (fixed w n "") 0 = Some n.
Proof.
  revert n. induction w as [|w IH]; intros n Hn; [cbn in *; f_equal; lia|].
  cbn [fixed]. rewrite fixed_app, digits_val_app.
  rewrite Nat2Z.inj_succ, Z.pow_succ_r in Hn by lia.
  rewrite IH by (split; [apply Z.div_pos; lia|apply Z.div_lt_upper_bound; lia]).
  pose proof (Z.mod_pos_bound n 10). pose proof (Z_div_mod_eq_full n 10). cbn.
  rewrite is_digit_char, digit_val_char by lia. f_equal. lia.
Qed.

Lemma fixed2 n acc :
  0 <= n < 100 -> fixed 2 n acc = String (digit_char (n / 10)) (String (digit_char (n mod 10)) acc).
Proof. intros. cbn [fixed]. rewrite (Z.mod_small (n / 10)) by zdiv. done. Qed.

Lemma getnum_fixed2 n acc b : 0 <= n < 100 -> getnum (fixed 2 n acc) b = Some (n, acc).
Proof.
  intros. rewrite fixed2 by done. unfold getnum.
  rewrite !is_digit_char, !digit_val_char by zdiv. do 2 f_equal. zdiv.
Qed.

Lemma head_is_digit_fixed w n acc : (0 < w)%nat -> head_is_digit (fixed w n acc) = true.
Proof.
  revert n acc. induction w as [|w IH]; intros n acc H; [lia|]. cbn [fixed].
  destruct w; [|apply IH; lia]. cbn. apply is_digit_char. pose proof (Z.mod_pos_bound n 10). lia.
Qed.

(** Comparing equal-width numbers compares the numbers, then what follows. *)
Lemma compare_String c s c' s' :
  String.compare (String c s) (String c' s') =
  match Ascii.compare c c' with Eq => String.compare s s' | o => o end.
Proof. reflexivity. Qed.

Lemma Ascii_compare_val c c' : Ascii.compare c c' = (ascii_val c ?= ascii_val c').
Proof. unfold Ascii.compare, ascii_val. symmetry. apply N2Z.inj_compare. Qed.

Lemma compare_fixed w n m a b :
  0 <= n < 10 ^ Z.of_nat w -> 0 <= m < 10 ^ Z.of_nat w ->
  String.compare (fixed w n a) (fixed w m b) =
  match n ?= m with Eq => String.compare a b | o => o end.
Proof.
  revert n m a b. induction w as [|w IH]; intros n m a b Hn Hm.
  { cbn in Hn, Hm. assert (n = m) as -> by lia. rewrite Z.compare_refl. done. }
  rewrite Nat2Z.inj_succ, Z.pow_succ_r in Hn, Hm by lia. cbn [fixed].
  rewrite IH by (split; [apply Z.div_pos; lia|apply Z.div_lt_upper_bound; lia]).
  rewrite compare_String, Ascii_compare_val.
  rewrite !ascii_val_digit by zdiv.
  destruct (Z.compare_spec (n / 10) (m / 10)), (Z.compare_spec n m);
    destruct (Z.compare_spec (48 + n mod 10) (48 + m mod 10)); try done; exfalso; zdiv.
Qed.

(** ** Chunks read back what [Format] wrote *)

Section ParseChunks.
  Variables (rest : list chunk) (f : fields).

Lemma parse_long_year y acc :
  0 <= y <= 9999 ->
  parse_chunk StdLongYear rest f (fixed 4 y acc) =
  Some (Fields y (f_month f) (f_day f) (f_hour f) (f_min f) (f_sec f) (f_nsec f)
          (f_offset f) (f_utc f), acc).
Proof.
  intros Hy. unfold parse_chunk. rewrite fixed_length, head_is_digit_fixed by lia.
  cbn [Nat.ltb Nat.leb negb orb Nat.add].
  rewrite (fixed_app 4). replace 4%nat with (String.length (fixed 4 y ""))
    by (rewrite fixed_length; done).
  rewrite str_take_app_length, str_drop_app_length, fixed_length.
  change (4 + String.length "")%nat with 4%nat. by rewrite digits_val_fixed by (simpl; lia).
Qed.

Lemma parse_zero_month m acc :
  1 <= m <= 12 ->
  parse_chunk StdZeroMonth rest f (fixed 2 m acc) =
  Some (Fields (f_year f) m (f_day f) (f_hour f) (f_min f) (f_sec f) (f_nsec f)
          (f_offset f) (f_utc f), acc).
Proof.
  intros. unfold parse_chunk. rewrite getnum_fixed2 by lia. cbn [mbind option_bind].
  destruct (Z.leb_spec m 0), (Z.ltb_spec 12 m); try lia; done.
Qed.

Lemma parse_zero_day d acc :
  1 <= d <= 31 ->
  parse_chunk StdZeroDay rest f (fixed 2 d acc) =
  Some (Fields (f_year f) (f_month f) d (f_hour f) (f_min f) (f_sec f) (f_nsec f)
          (f_offset f) (f_utc f), acc).
Proof. intros. unfold parse_chunk. by rewrite getnum_fixed2 by lia. Qed.

Lemma parse_hour h acc :
  0 <= h < 24 ->
  parse_chunk StdHour rest f (fixed 2 h acc) =
  Some (Fields (f_year f) (f_month f) (f_day f) h (f_min f) (f_sec f) (f_nsec f)
          (f_offset f) (f_utc f), acc).
Proof.
  intros. unfold parse_chunk. rewrite getnum_fixed2 by lia. cbn [mbind option_bind].
  destruct (Z.ltb_spec h 0), (Z.leb_spec 24 h); try lia; done.
Qed.

Lemma parse_zero_minute m acc :
  0 <= m < 60 ->
  parse_chunk StdZeroMinute rest f (fixed 2 m acc) =
  Some (Fields (f_year f) (f_month f) (f_day f) (f_hour f) m (f_sec f) (f_nsec f)
          (f_offset f) (f_utc f), acc).
Proof.
  intros. unfold parse_chunk. rewrite getnum_fixed2 by lia. cbn [mbind option_bind].
  destruct (Z.ltb_spec m 0), (Z.leb_spec 60 m); try lia; done.
Qed.

Lemma parse_zero_second s acc :
  0 <= s < 60 -> next_is_frac rest = true ->
  parse_chunk StdZeroSecond rest f (fixed 2 s acc) =
  Some (Fields (f_year f) (f_month f) (f_day f) (f_hour f) (f_min f) s (f_nsec f)
          (f_offset f) (f_utc f), acc).
Proof.
  intros Hs Hn. unfold parse_chunk. rewrite getnum_fixed2 by lia. cbn [mbind option_bind].
  rewrite Hn. destruct (Z.ltb_spec s 0), (Z.leb_spec 60 s); try lia; done.
Qed.

Lemma parse_lit_char c acc :
  Ascii.eqb c " " = false ->
  parse_chunk (Lit (String c "")) rest f (String c acc) = Some (f, acc).
Proof. intros H. unfold parse_chunk, skip. cbn. by rewrite H, Ascii.eqb_refl. Qed.

Lemma parse_lit_space n acc :
  0 <= n < 100 -> parse_chunk (Lit " ") rest f (String " " (fixed 2 n acc)) = Some (f, fixed 2 n acc).
Proof.
  intros. rewrite fixed2 by done. unfold parse_chunk, skip. cbn.
  assert (Ascii.eqb (digit_char (n / 10)) " " = false) as ->; [|done].
  apply Ascii.eqb_neq. intros E%(f_equal ascii_val). rewrite ascii_val_digit in E by zdiv.
  change (ascii_val " ") with 32 in E. zdiv.
Qed.

End ParseChunks.

(** The last step of [Parse] on fields in range and no zone. *)
Lemma finish_parse_fields y m d hh mm ss ns :
  valid_civil y m d ->
  finish_parse (Fields y m d hh mm ss ns None false) = Some (Date y m d hh mm ss ns).
Proof.
  intros [Hm Hd]. unfold finish_parse. cbn.
  destruct (Z.ltb_spec m 0), (Z.ltb_spec d 0); try lia.
  destruct (Z.ltb_spec d 1), (Z.ltb_spec (daysIn m y) d); try lia. done.
Qed.

(** [parse_steps]: reads the chunks of a concrete layout one by one. *)
Ltac parse_steps :=
  repeat (cbn [parse_chunks mbind option_bind f_year f_month f_day f_hour f_min f_sec f_nsec
               f_offset f_utc fields0];
          first [rewrite parse_long_year by lia | rewrite parse_zero_month by lia
                | rewrite parse_zero_day by lia | rewrite parse_hour by lia
                | rewrite parse_zero_minute by lia | rewrite parse_zero_second by (lia || done)
                | rewrite parse_lit_char by done | rewrite parse_lit_space by lia]);
  cbn [parse_chunks mbind option_bind f_year f_month f_day f_hour f_min f_sec f_nsec
       f_offset f_utc fields0].

(** ** The minute layout *)

Lemma Format_minute t :
  0 <= t_year t <= 9999 ->
  Format minute_layout t =
    fixed 4 (t_year t) (fixed 2 (t_month t) (fixed 2 (t_day t)
      (String "_" (fixed 2 (t_hour t) (fixed 2 (t_min t) ""))))).
Proof.
  intros Hy. pose proof (t_clock_bounds t). destruct (t_civil_spec t) as [V _].
  apply valid_civil_bounds in V. unfold Format. rewrite chunks_minute_layout.
  cbn [fold_right format_chunk]. rewrite !pad_fixed by (try (split; simpl; lia); lia).
  rewrite str_app_nil_r, <- (fixed_app 2 (t_hour t)). cbn [String.append].
  rewrite <- (fixed_app 2 (t_day t)), <- (fixed_app 2 (t_month t)), <- (fixed_app 4). done.
Qed.

(** Reading back what [Format] wrote at minute resolution gives the instant
    rounded down to the minute. *)
Lemma Parse_Format_minute t :
  0 <= t_year t <= 9999 ->
  Parse minute_layout (Format minute_layout t) = Some (Truncate t Minute).
Proof.
  intros Hy. rewrite Format_minute by done. pose proof (t_clock_bounds t) as B.
  destruct (t_civil_spec t) as [V E]. pose proof (valid_civil_bounds _ _ _ V) as VB.
  unfold Parse. rewrite chunks_minute_layout. parse_steps.
  rewrite finish_parse_fields by done.
  f_equal. unfold Date. rewrite E, Truncate_minute. lia.
Qed.

(** The text orders the minutes of the years 0 to 9999 as time does. *)
Lemma Format_minute_compare t u :
  0 <= t_year t <= 9999 -> 0 <= t_year u <= 9999 ->
  String.compare (Format minute_layout t) (Format minute_layout u) =
  (Truncate t Minute ?= Truncate u Minute).
Proof.
  intros Ht Hu. rewrite !Format_minute by done.
  pose proof (t_clock_bounds t). pose proof (t_clock_bounds u).
  destruct (t_civil_spec t) as [Vt%valid_civil_bounds _].
  destruct (t_civil_spec u) as [Vu%valid_civil_bounds _].
  rewrite !compare_fixed by (simpl; lia). rewrite compare_String, Ascii_compare_val, Z.compare_refl.
  rewrite !compare_fixed by (simpl; lia). change (String.compare "" "") with Eq.
  transitivity (minute_key t ?= minute_key u).
  - unfold minute_key, date_key.
    destruct (Z.compare_spec (t_year t) (t_year u)), (Z.compare_spec (t_month t) (t_month u)),
      (Z.compare_spec (t_day t) (t_day u)), (Z.compare_spec (t_hour t) (t_hour u)),
      (Z.compare_spec (t_min t) (t_min u)); symmetry;
      first [apply Z.compare_eq_iff; lia | apply Z.compare_lt_iff; lia | apply Z.compare_gt_iff; lia].
  - destruct (Z.compare_spec (minute_key t) (minute_key u)) as [E|L|L]; symmetry.
    + apply Z.compare_eq_iff. by apply minute_key_eq.
    + apply Z.compare_lt_iff. by apply minute_key_lt.
    + apply Z.compare_gt_iff. by apply minute_key_lt.
Qed.

(** ** The layout of Postgres timestamps *)

Definition postgres_layout : string := "2006-01-02 15:04:05.999999+00".

Lemma zeros_app a b : zeros (a + b) = (zeros a ++ zeros b)%string.
Proof. induction a; cbn; congruence. Qed.

Lemma trim_zeros_spec s : exists k, s = (trim_zeros s ++ zeros k)%string.
Proof.
  induction s as [|c s (k & E)]; [by exists O|]. cbn. destruct (trim_zeros s) as [|c' t'] eqn:T.
  - destruct (Ascii.eqb_spec c "0") as [->|].
    + exists (S k). cbn in *. congruence.
    + exists k. cbn in *. congruence.
  - exists k. cbn in *. congruence.
Qed.

Lemma digits_val_zeros k a : digits_val (zeros k) a = Some (a * 10 ^ Z.of_nat k).
Proof.
  revert a. induction k as [|k IH]; intros a; [cbn; f_equal; lia|].
  cbn [zeros digits_val]. change (is_digit "0") with true. change (digit_val "0") with 0. cbn iota.
  rewrite IH. f_equal. rewrite Nat2Z.inj_succ, Z.pow_succ_r by lia. lia.
Qed.

Lemma digits_val_inv_app s s' a v :
  digits_val (s ++ s') a = Some v -> exists w, digits_val s a = Some w /\ digits_val s' w = Some v.
Proof. rewrite digits_val_app. destruct (digits_val s a) as [w|]; [eauto|done]. Qed.

(** A run of digits is found whole in front of a byte that is not a digit. *)
Lemma span_digits_app s a w c r :
  digits_val s a = Some w -> is_digit c = false ->
  span_digits (s ++ String c r) = String.length s.
Proof.
  revert a. induction s as [|d s IH]; intros a; cbn; [by intros _ ->|].
  destruct (is_digit d); [|done]. intros H Hc. by rewrite (IH _ H Hc).
Qed.

Lemma str_take_fixed_6 ns : str_take 6 (fixed 9 ns "") = fixed 6 (ns / 1000) "".
Proof.
  change (fixed 9 ns "") with (fixed 6 (ns / 10 / 10 / 10)
    (String (digit_char (ns / 10 / 10 mod 10)) (String (digit_char (ns / 10 mod 10))
      (String (digit_char (ns mod 10)) "")))).
  rewrite fixed_app, !Z.div_div by lia. change (10 * 10 * 10) with 1000.
  replace 6%nat with (String.length (fixed 6 (ns / 1000) "")) at 1 by (rewrite fixed_length; done).
  by rewrite str_take_app_length.
Qed.

(** The fraction that [Format] writes is read back at microsecond resolution. *)
Lemma get_frac_format ns c r :
  0 <= ns < Second -> is_digit c = false -> commaOrPeriod c = false ->
  match get_frac (format_frac 6 ns ++ String c r) with
  | Some (v, rest) => v = ns / 1000 * 1000 /\ rest = String c r
  | None => format_frac 6 ns = ""%string /\ ns / 1000 = 0
  end.
Proof.
  intros Hns Hc Hp. unfold format_frac. unfold Second in Hns.
  rewrite pad_fixed by (simpl; lia). rewrite str_take_fixed_6. set (v := ns / 1000).
  assert (0 <= v < 10 ^ Z.of_nat 6) as Hv by (unfold v; simpl; zdiv).
  pose proof (digits_val_fixed 6 v Hv) as D. pose proof (fixed_length 6 v "") as L.
  destruct (trim_zeros_spec (fixed 6 v "")) as [k E]. rewrite E in D, L.
  apply digits_val_inv_app in D as (w & D & Dz). rewrite digits_val_zeros in Dz.
  rewrite str_length_app in L. assert (String.length (zeros k) = k) as Lk
    by (clear; induction k; cbn; congruence).
  rewrite Lk in L. change (6 + String.length "")%nat with 6%nat in L.
  destruct (trim_zeros (fixed 6 v "")) as [|d t] eqn:T; [|set (ds := String d t) in *].
  - cbn. rewrite Hp. cbn. split; [done|]. cbn in D. simplify_eq. lia.
  - cbn [String.append]. unfold get_frac. rewrite (span_digits_app ds 0 w) by done.
    change (commaOrPeriod ".") with true.
    assert (0 < String.length ds)%nat as Lds by (unfold ds; cbn; lia).
    destruct (Nat.ltb_spec 0 (String.length ds)); [|lia]. cbn [andb].
    rewrite Nat.min_l by lia. rewrite str_take_app_length, D, str_drop_app_length.
    split; [|done]. injection Dz as Dz. replace (9 - String.length ds)%nat with (k + 3)%nat by lia.
    rewrite Nat2Z.inj_add, Z.pow_add_r by lia. simpl (10 ^ Z.of_nat 3). lia.
Qed.

Lemma Format_postgres t :
  0 <= t_year t <= 9999 ->
  Format postgres_layout t =
    (fixed 4 (t_year t) (String "-" (fixed 2 (t_month t) (String "-" (fixed 2 (t_day t)
      (String " " (fixed 2 (t_hour t) (String ":" (fixed 2 (t_min t) (String ":"
        (fixed 2 (t_sec t) (format_frac 6 (t_nsec t) ++ "+00"))))))))))))%string.
Proof.
  intros Hy. pose proof (t_clock_bounds t). destruct (t_civil_spec t) as [V _].
  apply valid_civil_bounds in V. unfold Format, postgres_layout. rewrite chunks_postgres.
  cbn [fold_right format_chunk]. rewrite !pad_fixed by (try (split; simpl; lia); lia).
  rewrite str_app_nil_r. cbn [String.append].
  rewrite <- (fixed_app 4), <- (fixed_app 2 (t_month t)), <- (fixed_app 2 (t_day t)),
    <- (fixed_app 2 (t_hour t)), <- (fixed_app 2 (t_min t)), <- (fixed_app 2 (t_sec t)). done.
Qed.

Lemma Truncate_microsecond t :
  Truncate t Microsecond =
  Date (t_year t) (t_month t) (t_day t) (t_hour t) (t_min t) (t_sec t) (t_nsec t / 1000 * 1000).
Proof.
  rewrite <- (Date_fields t) at 1. set (n := t_nsec t). unfold Date, Truncate.
  change (Microsecond <=? 0) with false. unfold day_ns, Hour, Minute, Second, Microsecond.
  generalize (days_of_civil (t_year t) (t_month t) (t_day t)). intros. zdiv.
Qed.

(** Reading back a Postgres timestamp gives the instant at microsecond
    resolution, the resolution of a TIMESTAMPTZ column. *)
Lemma Parse_Format_postgres t :
  0 <= t_year t <= 9999 ->
  Parse postgres_layout (Format postgres_layout t) = Some (Truncate t Microsecond).
Proof.
  intros Hy. rewrite Format_postgres by done. pose proof (t_clock_bounds t) as B.
  destruct (t_civil_spec t) as [V E]. pose proof (valid_civil_bounds _ _ _ V) as VB.
  unfold Parse, postgres_layout. rewrite chunks_postgres. parse_steps.
  cbn [parse_chunk]. pose proof (get_frac_format (t_nsec t) "+" "00") as F.
  specialize (F ltac:(lia) eq_refl eq_refl). rewrite Truncate_microsecond.
  change (format_frac 6 (t_nsec t) ++ "+00")%string
    with (format_frac 6 (t_nsec t) ++ String "+" "00")%string in *.
  destruct (get_frac _) as [[v r]|]; destruct F as [F1 F2].
  - subst v r. cbn [mbind option_bind parse_chunks parse_chunk set_nsec f_year f_month f_day
      f_hour f_min f_sec f_nsec f_offset f_utc fields0].
    change (skip "+00" (String "+" "00")) with (Some ""%string).
    cbn [mbind option_bind parse_chunks]. unfold set_nsec.
    cbn [f_year f_month f_day f_hour f_min f_sec f_offset f_utc]. by rewrite finish_parse_fields.
  - rewrite F1, F2. cbn [mbind option_bind parse_chunks parse_chunk String.append].
    change (skip "+00" (String "+" "00")) with (Some ""%string).
    cbn [mbind option_bind parse_chunks]. unfold set_nsec.
    cbn [f_year f_month f_day f_hour f_min f_sec f_offset f_utc]. by rewrite finish_parse_fields.
Qed.
