(* ===== verification/GoError.v ===== *)
(** * Go error values

    An error is built by [fmt.Errorf], with or without a wrapped error, is one of
    the sentinel values the program compares with [errors.Is], is a
    [*pgconn.PgError] (which the program looks for with [errors.As]), or comes
    from a library. The arguments of a message are kept as data: no property
    depends on how [fmt] renders them. *)

From S2P Require Export GoString.

Inductive arg := AInt (z : Z) | AStr (s : string).

Inductive error :=
| Errorf (format : string) (args : list arg)
| Wrapf (format : string) (args : list arg) (inner : error)   (* a message with %w *)
| errStandbyTimeout
| errSlotBusy
| ErrNoRows
| ContextCanceled
| ContextDeadlineExceeded
| PgError (code : string) (message : string)
| NumError (e : num_error)
| HexError (e : hex_error)
| External (message : string).

#[export] Instance arg_eq_dec : EqDecision arg.
Proof. solve_decision. Defined.

#[export] Instance hex_error_eq_dec : EqDecision hex_error.
Proof. solve_decision. Defined.

#[export] Instance error_eq_dec : EqDecision error.
Proof. solve_decision. Defined.

(** [errors.Is(err, target)] for a sentinel [target]: some error of the chain is
    the target. *)
Fixpoint errors_Is (e target : error) : bool :=
  bool_decide (e = target) ||
  match e with
  | Wrapf _ _ inner => errors_Is inner target
  | _ => false
  end.

(** [errors.As(err, &pgErr)]: the first [*pgconn.PgError] of the chain, by its
    SQLSTATE. *)
Fixpoint errors_As_PgError (e : error) : option string :=
  match e with
  | PgError code _ => Some code
  | Wrapf _ _ inner => errors_As_PgError inner
  | _ => None
  end.

Lemma errors_Is_refl e : errors_Is e e = true.
Proof. destruct e; cbn; rewrite bool_decide_true by done; done. Qed.

Lemma errors_Is_wrap f a e s : errors_Is e s = true -> errors_Is (Wrapf f a e) s = true.
Proof. intros H. cbn. rewrite H. apply orb_true_r. Qed.

#[export] Hint Resolve errors_Is_refl errors_Is_wrap : pglg.
