(* ===== verification/WalParser.v ===== *)
(** * WAL messages and outbox rows (wal_parser.go)

    [parseWALMessage] turns a message of the replication stream into one of the
    four events the driver knows; [parseInsertColumns] turns the columns of an
    INSERT into an outbox row; [toJob] turns the row into a courier job. The
    decoder of the binary protocol, [pglogrepl.ParseV2], is not code of the
    repository: it is an operation of the class [Pglogrepl]. *)

From S2P Require Export GoTimeFormat GoError.

Open Scope Z_scope.

(** ** Types of the libraries, as far as the program looks at them *)

(** A column of [pglogrepl.TupleData]: its kind byte and its data. *)
Record TupleDataColumn := { DataType : ascii; Data : string }.

(** [pglogrepl.TupleDataTypeNull]. *)
Definition TupleDataTypeNull : ascii := "n".

(** [pglogrepl.Message]: the dynamic types the switch of [parseWALMessage]
    tells apart, with the fields it reads. *)
Inductive Message :=
| RelationMessageV2 (RelationID : Z) (RelationName : string) (Columns : list string)
| RelationMessage (RelationID : Z) (RelationName : string) (Columns : list string)
| InsertMessageV2 (RelationID : Z) (Tuple : list TupleDataColumn)
| CommitMessage (TransactionEndLSN : Z)
| BeginMessage
| StreamStartMessageV2
| StreamStopMessageV2
| StreamCommitMessageV2
| StreamAbortMessageV2
| OtherMessage.

(** [pgproto3.BackendMessage]: copy data, or anything else. *)
Inductive BackendMessage :=
| CopyData (Data : string)
| OtherBackendMessage.

Record PrimaryKeepalive := { ServerWALEnd : Z; ReplyRequested : bool }.
Record XLogData := { WALStart : Z; WALData : string }.

(** The functions of [pglogrepl] and [pgconn] the program calls and cannot see:
    the decoders, the text form of an LSN, and the timeout test. *)
Class Pglogrepl := {
  ParseV2 : string -> bool -> result error Message;
  ParsePrimaryKeepaliveMessage : string -> result error PrimaryKeepalive;
  ParseXLogData : string -> result error XLogData;
  LSN_String : Z -> string;
  ParseLSN : string -> result error Z;
  pgconn_Timeout : error -> bool
}.

(** [courier.Job] and [courier.SubmitResult]. *)
Record Job := {
  CorrelationID : string; ProducerID : string; JobType : string; Payload : bytes;
  RunAt : Time; TraceID : string; Shadow : bool }.

Record SubmitResult := {
  res_CorrelationID : string; res_JobID : string; res_Err : string; res_Reason : string }.

(** ** Events *)

Record columnValue := { isNull : bool; data : string }.

(** The value [any] that [parseWALMessage] returns; nil is [None] of the option
    around it. *)
Inductive walEvent :=
| walRelation (id : Z) (name : string) (columns : list string)
| walInsert (relationID : Z) (values : list columnValue)
| walCommit (commitLSN : Z)
| walBegin.

Record parsedInsert := {
  id : Z; createdAt : Time; producerID : string; jobType : string; payload : bytes;
  runAt : Time; traceID : string; shadow : bool }.

(** The zero value [parsedInsert{}]. *)
Definition parsedInsert0 : parsedInsert :=
  {| id := 0; createdAt := zeroTime; producerID := ""; jobType := ""; payload := None;
     runAt := zeroTime; traceID := ""; shadow := false |}.

#[export] Instance parsedInsert_eq_dec : EqDecision parsedInsert.
Proof. solve_decision. Defined.

Definition set_id (n : Z) (r : parsedInsert) : parsedInsert :=
  {| id := n; createdAt := createdAt r; producerID := producerID r; jobType := jobType r;
     payload := payload r; runAt := runAt r; traceID := traceID r; shadow := shadow r |}.
Definition set_createdAt (t : Time) (r : parsedInsert) : parsedInsert :=
  {| id := id r; createdAt := t; producerID := producerID r; jobType := jobType r;
     payload := payload r; runAt := runAt r; traceID := traceID r; shadow := shadow r |}.
Definition set_producerID (s : string) (r : parsedInsert) : parsedInsert :=
  {| id := id r; createdAt := createdAt r; producerID := s; jobType := jobType r;
     payload := payload r; runAt := runAt r; traceID := traceID r; shadow := shadow r |}.
Definition set_jobType (s : string) (r : parsedInsert) : parsedInsert :=
  {| id := id r; createdAt := createdAt r; producerID := producerID r; jobType := s;
     payload := payload r; runAt := runAt r; traceID := traceID r; shadow := shadow r |}.
Definition set_payload (b : bytes) (r : parsedInsert) : parsedInsert :=
  {| id := id r; createdAt := createdAt r; producerID := producerID r; jobType := jobType r;
     payload := b; runAt := runAt r; traceID := traceID r; shadow := shadow r |}.
Definition set_runAt (t : Time) (r : parsedInsert) : parsedInsert :=
  {| id := id r; createdAt := createdAt r; producerID := producerID r; jobType := jobType r;
     payload := payload r; runAt := t; traceID := traceID r; shadow := shadow r |}.
Definition set_traceID (s : string) (r : parsedInsert) : parsedInsert :=
  {| id := id r; createdAt := createdAt r; producerID := producerID r; jobType := jobType r;
     payload := payload r; runAt := runAt r; traceID := s; shadow := shadow r |}.
Definition set_shadow (b : bool) (r : parsedInsert) : parsedInsert :=
  {| id := id r; createdAt := createdAt r; producerID := producerID r; jobType := jobType r;
     payload := payload r; runAt := runAt r; traceID := traceID r; shadow := b |}.

(** [toJob]. *)
Definition toJob (p : parsedInsert) : Job :=
  {| CorrelationID := FormatInt (id p); ProducerID := producerID p; JobType := jobType p;
     Payload := payload p; RunAt := runAt p; TraceID := traceID p; Shadow := shadow p |}.

(** [parseWALMessage]. [Ok None] is the [nil, nil] of ignored messages. *)
Definition streaming_error : error :=
  Errorf "pglg: received streaming WAL message %T but the driver does not negotiate streaming: check StartReplication PluginArgs" [].

Definition tuple_values (tuple : list TupleDataColumn) : list columnValue :=
  map (fun col => {| isNull := Ascii.eqb (DataType col) TupleDataTypeNull; data := Data col |}) tuple.

Definition parseWALMessage `{Pglogrepl} (walData : string) : result error (option walEvent) :=
  match ParseV2 walData false with
  | Err err => Err (Wrapf "pglg: parse WAL message: %w" [] err)
  | Ok msg =>
      match msg with
      | RelationMessageV2 rid name cols | RelationMessage rid name cols =>
          Ok (Some (walRelation rid name cols))
      | InsertMessageV2 rid tuple => Ok (Some (walInsert rid (tuple_values tuple)))
      | CommitMessage lsn => Ok (Some (walCommit lsn))
      | BeginMessage => Ok (Some walBegin)
      | StreamStartMessageV2 | StreamStopMessageV2 | StreamCommitMessageV2
      | StreamAbortMessageV2 => Err streaming_error
      | OtherMessage => Ok None
      end
  end.

(** ** Columns *)

(** [decodeBytea]: the text form of a BYTEA, backslash-x and hexadecimal digits;
    other inputs pass through. *)
Definition decodeBytea (s : string) : result error bytes :=
  if HasPrefix s "\x" then
    match DecodeString (str_drop 2 s) with
    | Ok b => Ok (Some b)
    | Err e => Err (HexError e)
    end
  else Ok (Some s).

(** [parseTimestamp]: the layouts are tried in order. *)
Definition timestamp_formats : list string :=
  ["2006-01-02 15:04:05.999999+00";
   "2006-01-02 15:04:05.999999-07";
   "2006-01-02 15:04:05.999999Z";
   RFC3339Nano;
   RFC3339;
   "2006-01-02 15:04:05+00";
   "2006-01-02 15:04:05-07"]%string.

Fixpoint try_formats (formats : list string) (s : string) : option Time :=
  match formats with
  | [] => None
  | f :: formats' => match Parse f s with Some t => Some t | None => try_formats formats' s end
  end.

Definition parseTimestamp (s : string) : result error Time :=
  of_option (Errorf "pglg: unrecognized timestamp format: %q" [AStr s])
    (try_formats timestamp_formats s).

(** One column of the loop of [parseInsertColumns]. *)
Definition parse_column (colName : string) (v : columnValue) (row : parsedInsert)
  : result error parsedInsert :=
  if isNull v then Ok row
  else if String.eqb colName "id" then
    match ParseInt (data v) with
    | Ok n => Ok (set_id n row)
    | Err e => Err (Wrapf "pglg: parse id: %w" [] (NumError e))
    end
  else if String.eqb colName "created_at" then
    match parseTimestamp (data v) with
    | Ok t => Ok (set_createdAt t row)
    | Err e => Err (Wrapf "pglg: parse created_at: %w" [] e)
    end
  else if String.eqb colName "producer_id" then Ok (set_producerID (data v) row)
  else if String.eqb colName "job_type" then Ok (set_jobType (data v) row)
  else if String.eqb colName "payload" then
    match decodeBytea (data v) with
    | Ok b => Ok (set_payload b row)
    | Err e => Err (Wrapf "pglg: decode payload: %w" [] e)
    end
  else if String.eqb colName "run_at" then
    match parseTimestamp (data v) with
    | Ok t => Ok (set_runAt t row)
    | Err e => Err (Wrapf "pglg: parse run_at: %w" [] e)
    end
  else if String.eqb colName "trace_id" then Ok (set_traceID (data v) row)
  else if String.eqb colName "shadow" then Ok (set_shadow (String.eqb (data v) "t") row)
  else Ok row.

(** The loop: columns and values have the same length when it runs. *)
Fixpoint parse_columns (columns : list string) (values : list columnValue) (row : parsedInsert)
  : result error parsedInsert :=
  match columns, values with
  | c :: columns', v :: values' =>
      bind_r (parse_column c v row) (parse_columns columns' values')
  | _, _ => Ok row
  end.

Definition parseInsertColumns (columns : list string) (values : list columnValue)
  : result error parsedInsert :=
  if negb (Nat.eqb (length columns) (length values)) then
    Err (Errorf "pglg: column count %d != value count %d"
      [AInt (Z.of_nat (length columns)); AInt (Z.of_nat (length values))])
  else parse_columns columns values parsedInsert0.

(** ** The buffer of the open transaction *)

Record txBuffer := { inserts : list parsedInsert }.

Definition tb_reset (tb : txBuffer) : txBuffer := {| inserts := [] |}.
Definition tb_empty (tb : txBuffer) : bool := Nat.eqb (length (inserts tb)) 0.
Definition tb_addInsert (tb : txBuffer) (p : parsedInsert) : txBuffer :=
  {| inserts := inserts tb ++ [p] |}.

(** ** Specification of the column loop

    A reference reading of a row, one field at a time by column name, with no
    loop state: the column order and the columns the program does not know do
    not matter. *)

(** The text of column [name], if the row has it and it is not NULL. *)
Fixpoint col_data (columns : list string) (values : list columnValue) (name : string)
  : option string :=
  match columns, values with
  | c :: columns', v :: values' =>
      if String.eqb c name then (if isNull v then None else Some (data v))
      else col_data columns' values' name
  | _, _ => None
  end.

Definition reads {E A} (o : option string) (dec : string -> result E A) (dflt a : A) : Prop :=
  match o with
  | None => a = dflt
  | Some s => dec s = Ok a
  end.

Definition row_reads (get : string -> option string) (row0 row : parsedInsert) : Prop :=
  reads (get "id") ParseInt (id row0) (id row) /\
  reads (get "created_at") parseTimestamp (createdAt row0) (createdAt row) /\
  reads (E := error) (get "producer_id") Ok (producerID row0) (producerID row) /\
  reads (E := error) (get "job_type") Ok (jobType row0) (jobType row) /\
  reads (get "payload") decodeBytea (payload row0) (payload row) /\
  reads (get "run_at") parseTimestamp (runAt row0) (runAt row) /\
  reads (E := error) (get "trace_id") Ok (traceID row0) (traceID row) /\
  reads (E := error) (get "shadow") (fun s => Ok (String.eqb s "t")) (shadow row0) (shadow row).

(** The text form in which the server sends an outbox row: the columns of
    sql/001_create_outbox.sql in their order, a zero [run_at] as NULL. *)
Definition outbox_columns : list string :=
  ["id"; "created_at"; "producer_id"; "job_type"; "payload"; "run_at"; "trace_id"; "shadow"]%string.

Definition text_value (s : string) : columnValue := {| isNull := false; data := s |}.
Definition null_value : columnValue := {| isNull := true; data := "" |}.

Definition bytea_text (b : bytes) : columnValue :=
  match b with
  | Some s => text_value ("\x" ++ EncodeToString s)
  | None => null_value
  end.

Definition timestamp_text (t : Time) : columnValue :=
  if IsZero t then null_value else text_value (Format postgres_layout t).

(** The columns of a row, [stamp] being the text form of a timestamp. *)
Definition outbox_values_with (stamp : Time -> columnValue) (r : parsedInsert) : list columnValue :=
  [text_value (FormatInt (id r)); stamp (createdAt r); text_value (producerID r);
   text_value (jobType r); bytea_text (payload r); stamp (runAt r);
   text_value (traceID r); text_value (if shadow r then "t" else "f")].

Definition outbox_values : parsedInsert -> list columnValue := outbox_values_with timestamp_text.

(** A row the table can hold: 64-bit identifier, timestamps of microsecond
    resolution in the years the text form covers. *)
Definition timestamp_ok (t : Time) : Prop := 0 <= t_year t <= 9999 /\ t mod Microsecond = 0.
Definition row_ok (r : parsedInsert) : Prop :=
  is_int64 (id r) /\ timestamp_ok (createdAt r) /\ timestamp_ok (runAt r).

(** ** Lemmas *)

Lemma col_data_notin columns values name : name ∉ columns -> col_data columns values name = None.
Proof.
  revert values. induction columns as [|c columns IH]; intros [|v values] H; cbn; try done.
  apply not_elem_of_cons in H as [H1 H2]. destruct (String.eqb_spec c name); [congruence|auto].
Qed.

(** A column that sets one field: the other fields are read from the rest. *)
Ltac solve_field :=
  split;
  [ intros (r1 & E & H); repeat case_match; simplify_eq/=; cbn [reads] in *; destruct_and! H;
    repeat split; (assumption || congruence)
  | intros H; cbn [reads] in H; destruct_and! H;
    repeat match goal with Hd : _ = Ok _ |- _ => rewrite Hd; clear Hd end;
    eexists; split; [reflexivity|];
    cbn [reads id createdAt producerID jobType payload runAt traceID shadow set_id set_createdAt
       set_producerID set_jobType set_payload set_runAt set_traceID set_shadow];
    repeat split; (assumption || congruence) ].

Lemma parse_columns_spec columns values row0 row :
  NoDup columns -> length columns = length values ->
  parse_columns columns values row0 = Ok row <-> row_reads (col_data columns values) row0 row.
Proof.
  revert values row0. induction columns as [|c columns IH]; intros [|v values] row0 Hnd Hlen; try done.
  - cbn. unfold row_reads, reads. cbn. destruct row0, row. cbn. split; [by intros [= -> -> -> -> -> -> -> ->]|].
    intros. destruct_and!. congruence.
  - apply NoDup_cons in Hnd as [Hc Hnd]. injection Hlen as Hlen.
    pose proof (col_data_notin columns values c Hc) as Hn.
    cbn [parse_columns]. rewrite bind_r_Ok. setoid_rewrite (IH values _ Hnd Hlen). clear IH.
    unfold row_reads, parse_column. destruct (isNull v) eqn:Hv.
    { assert (forall n, col_data (c :: columns) (v :: values) n = col_data columns values n) as E.
      { intros n. cbn. rewrite Hv. by destruct (String.eqb_spec c n) as [<-|]. }
      rewrite !E. naive_solver. }
    cbn [col_data]. rewrite Hv.
    destruct (String.eqb_spec c "id") as [->|?];
      [|destruct (String.eqb_spec c "created_at") as [->|?];
      [|destruct (String.eqb_spec c "producer_id") as [->|?];
      [|destruct (String.eqb_spec c "job_type") as [->|?];
      [|destruct (String.eqb_spec c "payload") as [->|?];
      [|destruct (String.eqb_spec c "run_at") as [->|?];
      [|destruct (String.eqb_spec c "trace_id") as [->|?];
      [|destruct (String.eqb_spec c "shadow") as [->|?]]]]]]]];
      cbn [String.eqb Ascii.eqb Bool.eqb andb]; rewrite ?Hn.
    all: solve [solve_field].
Qed.

Lemma parseTimestamp_text t :
  timestamp_ok t -> parseTimestamp (Format postgres_layout t) = Ok t.
Proof.
  intros [Hy Hm]. unfold parseTimestamp, timestamp_formats. cbn [try_formats].
  change "2006-01-02 15:04:05.999999+00"%string with postgres_layout.
  rewrite Parse_Format_postgres, Truncate_id by done. done.
Qed.

Lemma decodeBytea_text b : decodeBytea ("\x" ++ EncodeToString b) = Ok (Some b).
Proof.
  unfold decodeBytea. rewrite HasPrefix_app.
  change (str_drop 2 ("\x" ++ EncodeToString b)) with (EncodeToString b).
  by rewrite DecodeString_EncodeToString.
Qed.

Lemma outbox_columns_NoDup : NoDup outbox_columns.
Proof. apply (bool_decide_unpack _). vm_compute. exact I. Qed.

Lemma parse_column_int64 c v row row' :
  is_int64 (id row) -> parse_column c v row = Ok row' -> is_int64 (id row').
Proof.
  intros Hr. unfold parse_column. destruct (isNull v); [by intros [= <-]|].
  destruct (String.eqb c "id").
  { destruct (ParseInt (data v)) eqn:P; [|done]. intros [= <-]. by apply ParseInt_range in P. }
  repeat case_match; intros; simplify_eq; exact Hr.
Qed.

Lemma parse_columns_int64 cs vs row row' :
  is_int64 (id row) -> parse_columns cs vs row = Ok row' -> is_int64 (id row').
Proof.
  revert vs row. induction cs as [|c cs IH]; intros [|v vs] row Hr; cbn; try by intros [= <-].
  rewrite bind_r_Ok. intros (r1 & H1 & H2). eapply IH; [|exact H2]. by eapply parse_column_int64.
Qed.

(** Every row the parser returns has a 64-bit identifier. *)
Lemma parseInsertColumns_int64 cs vs row : parseInsertColumns cs vs = Ok row -> is_int64 (id row).
Proof.
  unfold parseInsertColumns. destruct (negb _); [done|]. apply parse_columns_int64.
  unfold is_int64, int64_min, int64_max. cbn. lia.
Qed.

#[export] Hint Resolve parseInsertColumns_int64 : pglg.

(** ** Properties *)

(** C25: on columns with distinct names, [parseInsertColumns] succeeds exactly
    when the counts agree and every known column that is present and not NULL
    decodes, and the row holds the decoded values, the zero value for a column
    that is absent or NULL: column order and unknown columns do not matter. *)
Theorem parseInsertColumns_spec (columns : list string) (values : list columnValue)
    (row : parsedInsert) (Hnodup : NoDup columns) :
  parseInsertColumns columns values = Ok row <->
  length columns = length values /\ row_reads (col_data columns values) parsedInsert0 row.
Proof.
  unfold parseInsertColumns. destruct (Nat.eqb_spec (length columns) (length values)); cbn [negb].
  - rewrite parse_columns_spec by done. naive_solver.
  - naive_solver.
Qed.

Lemma parseInsertColumns_spec_witness :
  NoDup ["id"; "other"; "shadow"]%string /\
  row_reads (col_data ["id"; "other"; "shadow"]%string
     [text_value "42"; text_value "x"; text_value "t"]) parsedInsert0
     (set_shadow true (set_id 42 parsedInsert0)).
Proof.
  assert (NoDup ["id"; "other"; "shadow"]%string) as H
    by (apply (bool_decide_unpack _); vm_compute; exact I).
  split; [exact H|].
  exact (proj2 (proj1 (parseInsertColumns_spec ["id"; "other"; "shadow"]%string
    [text_value "42"; text_value "x"; text_value "t"]
    (set_shadow true (set_id 42 parsedInsert0)) H) eq_refl)).
Defined.

(** A text form that is read back makes the whole row be read back. *)
Lemma parse_outbox_with (stamp : Time -> columnValue) r :
  is_int64 (id r) ->
  (forall t, t = createdAt r \/ t = runAt r ->
     reads (if isNull (stamp t) then None else Some (data (stamp t))) parseTimestamp zeroTime t) ->
  parseInsertColumns outbox_columns (outbox_values_with stamp r) = Ok r.
Proof.
  intros Hid Ht. unfold parseInsertColumns. cbn [length negb Nat.eqb outbox_columns outbox_values_with].
  apply parse_columns_spec; [apply outbox_columns_NoDup|done|].
  destruct r as [i c p j pl ra tr sh]. cbn [id createdAt producerID jobType payload runAt traceID shadow] in *.
  refine (conj _ (conj _ (conj eq_refl (conj eq_refl (conj _ (conj _ (conj eq_refl _))))))).
  - exact (ParseInt_FormatInt i Hid).
  - exact (Ht c (or_introl eq_refl)).
  - destruct pl as [pl|]; [|done]. exact (decodeBytea_text pl).
  - exact (Ht ra (or_intror eq_refl)).
  - by destruct sh.
Qed.

(** The text form of an outbox row that the table can hold is read back as the
    same row; a payload column that is NULL gives the nil slice. *)
Lemma parseInsertColumns_outbox (r : parsedInsert) :
  row_ok r -> parseInsertColumns outbox_columns (outbox_values r) = Ok r.
Proof.
  intros (Hid & Hc & Hra). apply parse_outbox_with; [done|]. intros t Ht.
  assert (timestamp_ok t) as Hok by (by destruct Ht as [-> | ->]).
  unfold timestamp_text, IsZero. destruct (Z.eqb_spec t 0); cbn [isNull data text_value null_value reads];
    [done|by apply parseTimestamp_text].
Qed.

Definition sample_row : parsedInsert :=
  {| id := 42; createdAt := Date 2026 2 16 14 30 0 123456000; producerID := "billing-service";
     jobType := "charge_customer"; payload := Some "{}"%string; runAt := zeroTime;
     traceID := "trace-abc-123"; shadow := true |}.

Example parseInsertColumns_outbox_ex :
  parseInsertColumns outbox_columns (outbox_values sample_row) = Ok sample_row.
Proof. vm_compute. reflexivity. Qed.
