(* ===== verification/SessionZone.v ===== *)
(** * Timestamps in the time zone of the session

    The server writes a TIMESTAMPTZ in the time zone of the session, and the
    driver leaves that setting as the server has it. The layouts of
    [parseTimestamp] read a zone of whole hours; a zone with minutes (+05:30)
    matches none of them. *)

From S2P Require Export WalParser.

Open Scope Z_scope.

(** ** The text of the server *)

(** The zone of an offset in minutes east of UTC: minutes only when there are any. *)
Definition zone_text (off : Z) : string :=
  String (if off <? 0 then "-"%char else "+"%char)
    (fixed 2 (Z.abs off / 60) (if Z.abs off mod 60 =? 0 then "" else String ":" (fixed 2 (Z.abs off mod 60) ""))).

Definition local_layout : string := "2006-01-02 15:04:05.999999".

(** [timestamptz_out] in a session whose zone is [off] minutes east of UTC. *)
Definition pg_text (off : Z) (t : Time) : string :=
  (Format local_layout (t + off * Minute) ++ zone_text off)%string.

Example pg_text_ex :
  pg_text 330 (Date 2026 2 16 14 30 5 250000000) = "2026-02-16 20:00:05.25+05:30"%string /\
  pg_text (-480) (Date 2026 2 16 14 30 5 0) = "2026-02-16 06:30:05-08"%string.
Proof. vm_compute. done. Qed.

(** Zones of the tz database are within 16 hours; the years are those of the
    four-digit form. *)
Definition in_zone (off : Z) (t : Time) : Prop :=
  -960 < off < 960 /\ 0 <= t_year (t + off * Minute) <= 9999 /\ t mod Microsecond = 0.

(** ** Reading it back *)

(** The layout up to the seconds, shared by all the layouts with a space. *)
Definition second_chunks : list chunk :=
  [StdLongYear; Lit "-"; StdZeroMonth; Lit "-"; StdZeroDay; Lit " "; StdHour; Lit ":";
   StdZeroMinute; Lit ":"; StdZeroSecond].

(** The fields once the seconds and their fraction are read. *)
Definition fields_of (t : Time) : fields :=
  Fields (t_year t) (t_month t) (t_day t) (t_hour t) (t_min t) (t_sec t) (t_nsec t / 1000 * 1000) None false.

Definition local_text (t : Time) (zone : string) : string :=
  (fixed 4 (t_year t) (String "-" (fixed 2 (t_month t) (String "-" (fixed 2 (t_day t)
    (String " " (fixed 2 (t_hour t) (String ":" (fixed 2 (t_min t) (String ":"
      (fixed 2 (t_sec t) (format_frac 6 (t_nsec t) ++ zone))))))))))))%string.

Lemma fixed_acc w n acc s : (fixed w n acc ++ s)%string = fixed w n (acc ++ s).
Proof. rewrite (fixed_app w n acc), (fixed_app w n (acc ++ s)). apply str_app_assoc. Qed.

Lemma Format_local t zone :
  0 <= t_year t <= 9999 -> (Format local_layout t ++ zone)%string = local_text t zone.
Proof.
  intros Hy. pose proof (t_clock_bounds t). destruct (t_civil_spec t) as [V _].
  apply valid_civil_bounds in V. unfold Format, local_layout.
  change (chunks "2006-01-02 15:04:05.999999") with (second_chunks ++ [StdFracSecond9 6]).
  cbn [second_chunks app fold_right format_chunk]. rewrite !pad_fixed by (try (split; simpl; lia); lia).
  rewrite str_app_nil_r. unfold local_text.
  repeat (rewrite fixed_acc || cbn [String.append]). done.
Qed.

(** Every layout reads the text up to the zone in the same way, with or without a
    chunk for the fraction. *)
Lemma parse_local_frac t sign z l :
  0 <= t_year t <= 9999 -> is_digit sign = false -> commaOrPeriod sign = false ->
  parse_chunks (second_chunks ++ StdFracSecond9 6 :: l) fields0 (local_text t (String sign z)) =
  parse_chunks l (fields_of t) (String sign z).
Proof.
  intros Hy Hd Hc. unfold local_text, second_chunks. cbn [app]. pose proof (t_clock_bounds t) as B.
  destruct (t_civil_spec t) as [V E]. pose proof (valid_civil_bounds _ _ _ V) as VB.
  parse_steps. cbn [parse_chunk]. pose proof (get_frac_format (t_nsec t) sign z ltac:(lia) Hd Hc) as F.
  unfold fields_of. destruct (get_frac _) as [[v r]|]; destruct F as [F1 F2].
  - by subst v r.
  - rewrite F1, F2. done.
Qed.

Lemma parse_local t sign z l :
  0 <= t_year t <= 9999 -> is_digit sign = false -> commaOrPeriod sign = false ->
  next_is_frac l = false ->
  parse_chunks (second_chunks ++ l) fields0 (local_text t (String sign z)) =
  parse_chunks l (fields_of t) (String sign z).
Proof.
  intros Hy Hd Hc Hl. unfold local_text, second_chunks. cbn [app]. pose proof (t_clock_bounds t) as B.
  destruct (t_civil_spec t) as [V E]. pose proof (valid_civil_bounds _ _ _ V) as VB.
  parse_steps. unfold parse_chunk at 1. rewrite getnum_fixed2 by lia. cbn [mbind option_bind]. rewrite Hl.
  destruct (Z.ltb_spec (t_sec t) 0), (Z.leb_spec 60 (t_sec t)); try lia. cbn [orb].
  pose proof (get_frac_format (t_nsec t) sign z ltac:(lia) Hd Hc) as F.
  unfold fields_of. destruct (get_frac _) as [[v r]|]; destruct F as [F1 F2].
  - by subst v r.
  - rewrite F1, F2. done.
Qed.

(** ISO 8601 wants a T where the server writes a space. *)
Definition date_chunks : list chunk :=
  [StdLongYear; Lit "-"; StdZeroMonth; Lit "-"; StdZeroDay; Lit "T"].

Lemma parse_local_T t zone l :
  0 <= t_year t <= 9999 -> parse_chunks (date_chunks ++ l) fields0 (local_text t zone) = None.
Proof.
  intros Hy. unfold local_text, date_chunks. cbn [app].
  destruct (t_civil_spec t) as [V E]. pose proof (valid_civil_bounds _ _ _ V) as VB.
  parse_steps. done.
Qed.

(** ** The zones

    There are finitely many; what the layouts make of each is computed. *)
Definition zones : list Z := map (fun n => Z.of_nat n - 959) (seq 0 1919).

Lemma zones_forallb (P : Z -> bool) off : forallb P zones = true -> -960 < off < 960 -> P off = true.
Proof.
  rewrite forallb_forall. intros HP Hoff. apply HP, in_map_iff. exists (Z.to_nat (off + 959)).
  split; [lia|]. apply in_seq. lia.
Qed.

Definition zone_sign (off : Z) : ascii := if off <? 0 then "-"%char else "+"%char.

Lemma zone_text_sign off : exists z, zone_text off = String (zone_sign off) z /\
  is_digit (zone_sign off) = false /\ commaOrPeriod (zone_sign off) = false.
Proof. eexists. split; [done|]. unfold zone_sign. by destruct (off <? 0). Qed.

Lemma zone_plus00 off :
  -960 < off < 960 -> skip "+00" (zone_text off) = Some ""%string <-> off = 0.
Proof.
  intros Hoff.
  pose (P := fun off => Bool.eqb (bool_decide (skip "+00" (zone_text off) = Some ""%string)) (off =? 0)).
  assert (P off = true) as HP by (apply zones_forallb; [vm_compute; reflexivity|done]).
  unfold P in HP. apply eqb_prop in HP. rewrite <- Z.eqb_eq, <- HP. symmetry. apply bool_decide_eq_true.
Qed.

Lemma zone_not_Z off : skip "Z" (zone_text off) = None.
Proof. unfold zone_text. by destruct (off <? 0). Qed.

(** The whole hours of the offset, and what is left of the text. *)
Lemma zone_short f off :
  -960 < off < 960 ->
  exists rest, parse_zone false f (zone_text off) = Some (set_offset f (Z.quot off 60 * 3600), rest) /\
    (rest = ""%string <-> off mod 60 = 0).
Proof.
  intros Hoff. pose (P := fun off => match zone_text off with
    | String sign v1 => negb (String.length (zone_text off) <? 3)%nat &&
        bool_decide (zone_offset sign (str_take 2 v1) "00" = Some (Z.quot off 60 * 3600)) &&
        Bool.eqb (String.eqb (str_drop 2 v1) "") (off mod 60 =? 0)
    | EmptyString => false end).
  assert (P off = true) as HP by (apply zones_forallb; [vm_compute; reflexivity|done]).
  unfold P, parse_zone in *. destruct (zone_text off) as [|sign v1]; [done|].
  apply andb_true_iff in HP as [[H1%negb_true_iff H2%bool_decide_eq_true]%andb_true_iff H3%eqb_prop].
  rewrite H1, H2. exists (str_drop 2 v1). split; [done|].
  destruct (String.eqb_spec (str_drop 2 v1) ""), (Z.eqb_spec (off mod 60) 0); naive_solver.
Qed.

Lemma parse_chunks_plus00 f off :
  -960 < off < 960 ->
  parse_chunks [Lit "+00"] f (zone_text off) = if off =? 0 then Some f else None.
Proof.
  intros Hoff. cbn [parse_chunks parse_chunk]. pose proof (zone_plus00 off Hoff) as Hz.
  destruct (skip _ _) as [v|]; destruct (Z.eqb_spec off 0) as [->|Hn]; cbn [mbind option_bind].
  - by injection (proj2 Hz eq_refl) as ->.
  - destruct v; [|done]. exfalso. by apply Hn, Hz.
  - by discriminate (proj2 Hz eq_refl).
  - done.
Qed.

Lemma parse_chunks_short f off :
  -960 < off < 960 ->
  parse_chunks [StdNumShortTZ] f (zone_text off) =
    if off mod 60 =? 0 then Some (set_offset f (Z.quot off 60 * 3600)) else None.
Proof.
  intros Hoff. destruct (zone_short f off Hoff) as (rest & E & Hr). cbn [parse_chunks parse_chunk].
  rewrite E. cbn [mbind option_bind]. destruct (Z.eqb_spec (off mod 60) 0) as [Hm|Hm].
  - by rewrite (proj2 Hr Hm).
  - destruct rest; [exfalso; by apply Hm, Hr|done].
Qed.

Lemma finish_zone t off :
  t_year (t + off * Minute) <= 9999 -> t mod Microsecond = 0 -> off mod 60 = 0 ->
  finish_parse (set_offset (fields_of (t + off * Minute)) (Z.quot off 60 * 3600)) = Some t.
Proof.
  intros Hy Hm Ho. set (T := t + off * Minute). destruct (t_civil_spec T) as [V _].
  pose proof (finish_parse_fields _ _ _ (t_hour T) (t_min T) (t_sec T) (t_nsec T / 1000 * 1000) V) as F.
  unfold finish_parse, set_offset, fields_of in *. cbn [f_year f_month f_day f_hour f_min f_sec f_nsec f_offset f_utc] in *.
  destruct ((_ <? 1) || _); [done|]. injection F as F. rewrite F, <- Truncate_microsecond.
  assert (T mod Microsecond = 0) as HT by (unfold T, Minute, Second, Microsecond in *; zdiv).
  rewrite Truncate_id by done. f_equal. unfold T.
  apply Z.mod_divide in Ho as [k ->]; [|done]. rewrite Z.quot_mul by done. unfold Minute. lia.
Qed.

(** A timestamp in a session zone of whole hours is read as the instant; one in
    a zone with minutes is not a timestamp to the parser. *)
Lemma parseTimestamp_in_zone off t :
  in_zone off t ->
  parseTimestamp (pg_text off t) =
    if off mod 60 =? 0 then Ok t
    else Err (Errorf "pglg: unrecognized timestamp format: %q" [AStr (pg_text off t)]).
Proof.
  intros (Hoff & Hy & Hm). unfold parseTimestamp.
  assert (try_formats timestamp_formats (pg_text off t) = if off mod 60 =? 0 then Some t else None) as ->;
    [|by destruct (off mod 60 =? 0)].
  unfold pg_text, timestamp_formats. rewrite Format_local by done. set (T := t + off * Minute) in *.
  destruct (zone_text_sign off) as (z & Ez & Hd & Hc).
  assert (forall l, parse_chunks (second_chunks ++ StdFracSecond9 6 :: l) fields0 (local_text T (zone_text off)) =
    parse_chunks l (fields_of T) (zone_text off)) as Hfrac by (intros; rewrite Ez; by apply parse_local_frac).
  assert (forall l, next_is_frac l = false -> parse_chunks (second_chunks ++ l) fields0 (local_text T (zone_text off)) =
    parse_chunks l (fields_of T) (zone_text off)) as Hsec by (intros; rewrite Ez; by apply parse_local).
  clear z Ez Hd Hc. cbn [try_formats]. unfold Parse.
  change (chunks "2006-01-02 15:04:05.999999+00") with (second_chunks ++ [StdFracSecond9 6; Lit "+00"]).
  change (chunks "2006-01-02 15:04:05.999999-07") with (second_chunks ++ [StdFracSecond9 6; StdNumShortTZ]).
  change (chunks "2006-01-02 15:04:05.999999Z") with (second_chunks ++ [StdFracSecond9 6; Lit "Z"]).
  change (chunks "2006-01-02 15:04:05+00") with (second_chunks ++ [Lit "+00"]).
  change (chunks "2006-01-02 15:04:05-07") with (second_chunks ++ [StdNumShortTZ]).
  change (chunks RFC3339) with (date_chunks ++ [StdHour; Lit ":"; StdZeroMinute; Lit ":"; StdZeroSecond; StdISO8601ColonTZ]).
  change (chunks RFC3339Nano) with (date_chunks ++ [StdHour; Lit ":"; StdZeroMinute; Lit ":"; StdZeroSecond;
    StdFracSecond9 9; StdISO8601ColonTZ]).
  rewrite !Hfrac, !Hsec, !parse_local_T, !parse_chunks_plus00, !parse_chunks_short by done.
  assert (parse_chunks [Lit "Z"] (fields_of T) (zone_text off) = None) as ->
    by (cbn [parse_chunks parse_chunk]; by rewrite zone_not_Z).
  destruct (Z.eqb_spec off 0) as [->|Hn]; cbn [mbind option_bind].
  - pose proof (finish_zone t 0 (proj2 Hy) Hm eq_refl) as F. change (Z.quot 0 60 * 3600) with 0 in F.
    fold T in F. change (0 mod 60 =? 0) with true. cbn iota.
    assert (finish_parse (fields_of T) = finish_parse (set_offset (fields_of T) 0)) as ->; [|by rewrite F].
    unfold finish_parse, set_offset, fields_of. cbn. by rewrite Z.sub_0_r.
  - destruct (Z.eqb_spec (off mod 60) 0) as [Ho|Ho]; [|done]. cbn [mbind option_bind].
    pose proof (finish_zone t off (proj2 Hy) Hm Ho) as F. fold T in F. by rewrite F.
Qed.

(** ** Rows *)

Definition stamp_in (off : Z) (t : Time) : columnValue :=
  if IsZero t then null_value else text_value (pg_text off t).

Definition outbox_values_in (off : Z) : parsedInsert -> list columnValue :=
  outbox_values_with (stamp_in off).

(** A row the table can hold; [created_at] is not NULL. *)
Definition row_in_zone (off : Z) (r : parsedInsert) : Prop :=
  is_int64 (id r) /\ createdAt r <> zeroTime /\ in_zone off (createdAt r) /\ in_zone off (runAt r).

Lemma parseInsertColumns_zone off r :
  row_in_zone off r ->
  parseInsertColumns outbox_columns (outbox_values_in off r) =
    if off mod 60 =? 0 then Ok r
    else Err (Wrapf "pglg: parse created_at: %w" []
      (Errorf "pglg: unrecognized timestamp format: %q" [AStr (pg_text off (createdAt r))])).
Proof.
  intros (Hid & Hnz & Hc & Hr). destruct (off mod 60 =? 0) eqn:Ho.
  - apply parse_outbox_with; [done|]. intros t Ht. assert (in_zone off t) as Hz by (by destruct Ht as [-> | ->]).
    unfold stamp_in, IsZero. destruct (Z.eqb_spec t 0); cbn [isNull data text_value null_value reads]; [done|].
    by rewrite parseTimestamp_in_zone, Ho.
  - unfold outbox_values_in, outbox_values_with, parseInsertColumns, outbox_columns.
    cbn [length negb Nat.eqb parse_columns]. unfold stamp_in at 1. unfold IsZero.
    destruct (Z.eqb_spec (createdAt r) 0); [done|]. unfold parse_column at 1.
    cbn [isNull data text_value]. change (String.eqb "id" "id") with true. cbn iota.
    rewrite ParseInt_FormatInt by done. cbn [bind_r]. unfold parse_column at 1.
    cbn [isNull data text_value]. change (String.eqb "created_at" "id") with false.
    change (String.eqb "created_at" "created_at") with true. cbn iota.
    by rewrite parseTimestamp_in_zone, Ho.
Qed.

(** ** Properties *)

(** C23: an outbox row that the server writes in a session zone of [off] minutes
    is read back field by field exactly when the zone is one of whole hours;
    in any other zone (India, Nepal, central Australia) no row at all can be
    read, because of its [created_at]. *)
Theorem outbox_row_in_zone (off : Z) (r : parsedInsert) (Hr : row_in_zone off r) :
  parseInsertColumns outbox_columns (outbox_values_in off r) = Ok r <-> off mod 60 = 0.
Proof.
  rewrite parseInsertColumns_zone by done. by destruct (Z.eqb_spec (off mod 60) 0).
Qed.

Lemma outbox_row_in_zone_witness :
  parseInsertColumns outbox_columns (outbox_values_in (-480) (set_runAt (Date 2026 2 17 9 0 0 0) sample_row)) =
    Ok (set_runAt (Date 2026 2 17 9 0 0 0) sample_row).
Proof.
  refine (proj2 (outbox_row_in_zone (-480) (set_runAt (Date 2026 2 17 9 0 0 0) sample_row) _) eq_refl).
  vm_compute. repeat split; discriminate.
Defined.
