(* ===== verification/Wal.v ===== *)
(** * The replication consumer (wal.go): state and pure operations

    [walConsumer] keeps the relation metadata of the stream and two positions:
    [clientXLogPos], up to where messages were received, and [flushLSN], up to
    where they were durably processed. LSNs are [uint64]. The operations that
    talk to the server are in WalIO.v. *)

From S2P Require Export WalParser.

Open Scope Z_scope.

Record relationMeta := { rel_name : string; rel_columns : list string }.

(** [conn] records whether the connection field is set. *)
Record walConsumer := {
  conn : bool;
  slotName : string;
  publicationName : string;
  relations : gmap Z relationMeta;
  clientXLogPos : Z;
  flushLSN : Z }.

(** [pglogrepl.StandbyStatusUpdate]. *)
Record StandbyStatusUpdate := {
  WALWritePosition : Z; WALFlushPosition : Z; WALApplyPosition : Z; ClientTime : Time }.

(** [pgerrcode.ObjectInUse]. *)
Definition ObjectInUse : string := "55006".

Definition mapStartReplicationError (err : error) : error :=
  match errors_As_PgError err with
  | Some code =>
      if String.eqb code ObjectInUse then errSlotBusy
      else Wrapf "pglg: start replication: %w" [] err
  | None => Wrapf "pglg: start replication: %w" [] err
  end.

Definition newWALConsumer (slotName0 publicationName0 : string) : walConsumer :=
  {| conn := false; slotName := slotName0; publicationName := publicationName0;
     relations := ∅; clientXLogPos := 0; flushLSN := 0 |}.

Definition set_conn (w : walConsumer) : walConsumer :=
  {| conn := true; slotName := slotName w; publicationName := publicationName w;
     relations := relations w; clientXLogPos := clientXLogPos w; flushLSN := flushLSN w |}.

Definition set_positions (p f : Z) (w : walConsumer) : walConsumer :=
  {| conn := conn w; slotName := slotName w; publicationName := publicationName w;
     relations := relations w; clientXLogPos := p; flushLSN := f |}.

(** The connection string of [connect]: [replication=database] as one more
    keyword, separated by a space. *)
Fixpoint last_char (s : string) : option ascii :=
  match s with
  | EmptyString => None
  | String c EmptyString => Some c
  | String _ s' => last_char s'
  end.

Definition replConnString (connString : string) : string :=
  let sep := match last_char connString with
             | Some c => if Ascii.eqb c " " then EmptyString else " "%string
             | None => EmptyString
             end in
  (connString ++ sep ++ "replication=database")%string.

(** The plugin arguments of [startStreaming]. *)
Definition pluginArgs (w : walConsumer) : list string :=
  ["proto_version '2'"; ("publication_names '" ++ publicationName w ++ "'")%string]%string.

(** The guarded update of [receiveMessage]: the position never goes back. *)
Definition advancePos (p : Z) (w : walConsumer) : walConsumer :=
  if clientXLogPos w <? p then set_positions p (flushLSN w) w else w.

Definition setFlushLSN (l : Z) (w : walConsumer) : walConsumer :=
  if flushLSN w <? l then set_positions (clientXLogPos w) l w else w.

Definition writePos (w : walConsumer) : Z := clientXLogPos w.

Definition receivedPastFlush (w : walConsumer) : bool := flushLSN w <? clientXLogPos w.

(** The end position of an XLogData message; [lsn] addition wraps at 64 bits. *)
Definition endPos (x : XLogData) : Z := uwrap64 (WALStart x + str_len (WALData x)).

Definition standbyStatusUpdate (now : Time) (w : walConsumer) : StandbyStatusUpdate :=
  let writeLSN :=
    if flushLSN w =? 0 then 0
    else if clientXLogPos w <? flushLSN w then flushLSN w
    else clientXLogPos w in
  {| WALWritePosition := writeLSN; WALFlushPosition := flushLSN w;
     WALApplyPosition := flushLSN w; ClientTime := now |}.

Definition setRelation (rid : Z) (name : string) (columns : list string) (w : walConsumer)
  : walConsumer :=
  {| conn := conn w; slotName := slotName w; publicationName := publicationName w;
     relations := <[rid := {| rel_name := name; rel_columns := columns |}]> (relations w);
     clientXLogPos := clientXLogPos w; flushLSN := flushLSN w |}.

(** [parseInsert]: [Ok None] for a relation the stream has not described. *)
Definition parseInsert (rels : gmap Z relationMeta) (relationID : Z) (values : list columnValue)
  : result error (option parsedInsert) :=
  match rels !! relationID with
  | None => Ok None
  | Some rel => bind_r (parseInsertColumns (rel_columns rel) values) (fun p => Ok (Some p))
  end.

(** ** The wire form of a status update

    [pglogrepl.SendStandbyStatusUpdate] replaces a zero flush or apply position
    by the write position before it sends the message. *)
Class StatusEncoder := { encodeStatus : StandbyStatusUpdate -> Z * Z * Z }.

Definition replaces_zero (enc : StatusEncoder) : Prop :=
  forall u, encodeStatus u =
    (WALWritePosition u,
     (if WALFlushPosition u =? 0 then WALWritePosition u else WALFlushPosition u),
     (if WALApplyPosition u =? 0 then WALWritePosition u else WALApplyPosition u)).

(** ** Lemmas *)

Lemma advancePos_spec p w :
  clientXLogPos (advancePos p w) = Z.max (clientXLogPos w) p /\
  flushLSN (advancePos p w) = flushLSN w /\ relations (advancePos p w) = relations w.
Proof. unfold advancePos. zbool; cbn; repeat split; lia. Qed.

Lemma setFlushLSN_spec l w :
  flushLSN (setFlushLSN l w) = Z.max (flushLSN w) l /\
  clientXLogPos (setFlushLSN l w) = clientXLogPos w /\ relations (setFlushLSN l w) = relations w.
Proof. unfold setFlushLSN. zbool; cbn; repeat split; lia. Qed.

Lemma setFlushLSN_conn l w : conn (setFlushLSN l w) = conn w.
Proof. unfold setFlushLSN. by destruct (_ <? _). Qed.

Lemma advancePos_conn p w : conn (advancePos p w) = conn w.
Proof. unfold advancePos. by destruct (_ <? _). Qed.

Lemma receivedPastFlush_spec w : receivedPastFlush w = true <-> flushLSN w < clientXLogPos w.
Proof. unfold receivedPastFlush. apply Z.ltb_lt. Qed.

Lemma parseInsert_int64 rels rid vs p :
  parseInsert rels rid vs = Ok (Some p) -> is_int64 (id p).
Proof.
  unfold parseInsert. destruct (rels !! rid); [|done].
  rewrite bind_r_Ok. intros (q & H & [= <-]). eauto with pglg.
Qed.

#[export] Hint Resolve parseInsert_int64 : pglg.

(** ** Properties *)

(** What the server is told is flushed is exactly [flushLSN], also
    after the encoder's replacement of zero positions, and the positions are
    ordered (apply = flush <= write); in particular a consumer that has flushed
    nothing reports zero everywhere. *)
Theorem standby_status_reports_flush (enc : StatusEncoder) (Henc : replaces_zero enc)
    (now : Time) (w : walConsumer) (Hf : 0 <= flushLSN w) :
  let '(wr, fl, ap) := encodeStatus (standbyStatusUpdate now w) in
  fl = flushLSN w /\ ap = flushLSN w /\ fl <= wr /\
  (flushLSN w <> 0 -> wr = Z.max (clientXLogPos w) (flushLSN w)) /\
  (flushLSN w = 0 -> wr = 0).
Proof.
  rewrite Henc. cbn. destruct (Z.eqb_spec (flushLSN w) 0) as [->|]; cbn; [lia|].
  destruct (Z.ltb_spec (clientXLogPos w) (flushLSN w)); lia.
Qed.

Lemma standby_status_reports_flush_witness :
  let enc := {| encodeStatus := fun u =>
    (WALWritePosition u,
     (if WALFlushPosition u =? 0 then WALWritePosition u else WALFlushPosition u),
     (if WALApplyPosition u =? 0 then WALWritePosition u else WALApplyPosition u)) |} in
  let w := set_positions 768 256 (newWALConsumer "s" "p") in
  replaces_zero enc /\ (@encodeStatus enc (standbyStatusUpdate 0 w)).1.2 = 256.
Proof.
  intros enc w. assert (replaces_zero enc) as H by (intros u; reflexivity).
  split; [exact H|].
  pose proof (standby_status_reports_flush enc H 0 w ltac:(vm_compute; discriminate)) as T.
  destruct (@encodeStatus enc (standbyStatusUpdate 0 w)) as [[wr fl] ap]. exact (proj1 T).
Defined.

(** Starting replication fails with [errSlotBusy], the error the
    run loop treats as "another replica leads", exactly when the server error
    anywhere in the chain is SQLSTATE 55006; every other error stays in the
    chain of the result. *)
Theorem mapStartReplicationError_busy (err : error) (Hs : errors_Is err errSlotBusy = false) :
  (errors_Is (mapStartReplicationError err) errSlotBusy = true <->
     errors_As_PgError err = Some ObjectInUse) /\
  (errors_As_PgError err <> Some ObjectInUse ->
     forall s, errors_Is err s = true -> errors_Is (mapStartReplicationError err) s = true).
Proof.
  unfold mapStartReplicationError. destruct (errors_As_PgError err) as [code|].
  - destruct (String.eqb_spec code ObjectInUse) as [->|Hne].
    + split; [split; [done|intros; apply errors_Is_refl]|done].
    + split; [|intros _ s H; by apply errors_Is_wrap].
      cbn. rewrite Hs. rewrite bool_decide_false by done. cbn. split; [done|congruence].
  - split; [|intros _ s H; by apply errors_Is_wrap].
    cbn. rewrite Hs. rewrite bool_decide_false by done. done.
Qed.

Lemma mapStartReplicationError_busy_witness :
  errors_Is (mapStartReplicationError (Wrapf "outer: %w" [] (PgError ObjectInUse ""))) errSlotBusy
  = true.
Proof.
  exact (proj2 (proj1 (mapStartReplicationError_busy
    (Wrapf "outer: %w" [] (PgError ObjectInUse "")) eq_refl)) eq_refl).
Defined.
