(* ===== verification/Dlq.v ===== *)
(** * Dead letters (dlq.go): pure part

    [mapResults] matches the answers of a submit to the rows of the batch and
    builds the dead-letter rows of the rejected ones; [truncate] bounds their
    error message; [insertDLQRows] builds one multi-row INSERT. *)

From S2P Require Export Wal.

Open Scope Z_scope.

Definition dlqReasonUnspecified : string := "unspecified".
Definition dlqErrorMessageMax : Z := 4096.

Record dlqRow := {
  d_id : Z; d_createdAt : Time; d_producerID : string; d_jobType : string; d_payload : bytes;
  d_runAt : Time; d_traceID : string; d_shadow : bool; d_reason : string;
  d_errorMessage : string }.

Definition truncate (s : string) (max : Z) : string :=
  if max <=? 0 then EmptyString
  else
    let s := if max <? str_len s then str_take (Z.to_nat max) s else s in
    ToValidUTF8 s.

(** The row [mapResults] appends for a rejected result. *)
Definition dlq_row_of (p : parsedInsert) (r : SubmitResult) : dlqRow :=
  let reason := if String.eqb (res_Reason r) "" then dlqReasonUnspecified else res_Reason r in
  {| d_id := id p; d_createdAt := createdAt p; d_producerID := producerID p;
     d_jobType := jobType p; d_payload := payload p; d_runAt := runAt p;
     d_traceID := traceID p; d_shadow := shadow p; d_reason := reason;
     d_errorMessage := truncate (res_Err r) dlqErrorMessageMax |}.

(** The first loop: the batch by correlation identifier. *)
Fixpoint index_inserts (inserts : list parsedInsert) (insertByID : gmap string parsedInsert)
  : result error (gmap string parsedInsert) :=
  match inserts with
  | [] => Ok insertByID
  | p :: inserts' =>
      let cid := FormatInt (id p) in
      match insertByID !! cid with
      | Some _ => Err (Errorf "pglg: duplicate CorrelationID %q among submitted inserts" [AStr cid])
      | None => index_inserts inserts' (<[cid := p]> insertByID)
      end
  end.

(** The second loop: the results in their order. *)
Fixpoint match_results (insertByID : gmap string parsedInsert) (results : list SubmitResult)
    (seen : gset string) (rows : list dlqRow) : result error (list dlqRow) :=
  match results with
  | [] => Ok rows
  | r :: results' =>
      let cid := res_CorrelationID r in
      if bool_decide (cid ∈ seen) then
        Err (Errorf "pglg: duplicate CorrelationID %q in submit results" [AStr cid])
      else
        let seen := {[cid]} ∪ seen in
        match insertByID !! cid with
        | None => Err (Errorf "pglg: unknown CorrelationID %q in submit results" [AStr cid])
        | Some p =>
            if String.eqb (res_Err r) "" then match_results insertByID results' seen rows
            else match_results insertByID results' seen (rows ++ [dlq_row_of p r])
        end
  end.

Definition mapResults (inserts : list parsedInsert) (results : list SubmitResult)
  : result error (list dlqRow) :=
  if negb (Nat.eqb (length results) (length inserts)) then
    Err (Errorf "pglg: submit returned %d results for %d submitted jobs"
      [AInt (Z.of_nat (length results)); AInt (Z.of_nat (length inserts))])
  else
    bind_r (index_inserts inserts ∅) (fun insertByID => match_results insertByID results ∅ []).

(** ** The INSERT statement *)

(** Values bound to the placeholders of a statement. *)
Inductive sqlValue :=
| SqlInt (z : Z) | SqlTime (t : Time) | SqlText (s : string) | SqlBytes (b : bytes)
| SqlBool (b : bool) | SqlNull.

#[export] Instance sqlValue_eq_dec : EqDecision sqlValue.
Proof. solve_decision. Defined.

(** A multi-row INSERT: the table, the placeholder numbers of each VALUES tuple,
    the bound arguments and the text. *)
Record insertStmt := {
  ins_table : string; ins_tuples : list (list Z); ins_args : list sqlValue; ins_query : string }.

Definition dlq_cols : Z := 10.

Definition row_args (r : dlqRow) : list sqlValue :=
  let runAt := if IsZero (d_runAt r) then SqlNull else SqlTime (d_runAt r) in
  [SqlInt (d_id r); SqlTime (d_createdAt r); SqlText (d_producerID r); SqlText (d_jobType r);
   SqlBytes (d_payload r); runAt; SqlText (d_traceID r); SqlBool (d_shadow r);
   SqlText (d_reason r); SqlText (d_errorMessage r)].

Definition row_placeholders (i : Z) : list Z :=
  let base := i * dlq_cols + 1 in
  [base; base + 1; base + 2; base + 3; base + 4; base + 5; base + 6; base + 7; base + 8; base + 9].

Definition placeholder_text (ks : list Z) : string :=
  ("(" ++ Join (map (fun k => "$" ++ FormatInt k) ks) "," ++ ")")%string.

(** The loop of [insertDLQRows] from row index [i]. *)
Fixpoint build_dlq (i : Z) (rows : list dlqRow) : list (list Z) * list sqlValue :=
  match rows with
  | [] => ([], [])
  | r :: rows' =>
      let '(tuples, args) := build_dlq (i + 1) rows' in
      (row_placeholders i :: tuples, row_args r ++ args)
  end.

Definition insertDLQRows_stmt (table : string) (rows : list dlqRow) : insertStmt :=
  let '(tuples, args) := build_dlq 0 rows in
  {| ins_table := table; ins_tuples := tuples; ins_args := args;
     ins_query := ("INSERT INTO " ++ table ++
       " (id, created_at, producer_id, job_type, payload, run_at, trace_id, shadow, reason, error_message) VALUES "
       ++ Join (map placeholder_text tuples) ",")%string |}.

(** The rows a multi-row INSERT adds: each placeholder replaced by its argument;
    [None] when a placeholder has no argument. *)
Definition bind_placeholder (args : list sqlValue) (k : Z) : option sqlValue :=
  if k <=? 0 then None else args !! Z.to_nat (k - 1).

Definition stmt_rows (s : insertStmt) : option (list (list sqlValue)) :=
  mapM (mapM (bind_placeholder (ins_args s))) (ins_tuples s).

(** ** Specification *)

(** The correlation identifier of a row. *)
Definition cid (p : parsedInsert) : string := FormatInt (id p).

(** The row of the batch with correlation identifier [c]. *)
Definition find_insert (inserts : list parsedInsert) (c : string) : option parsedInsert :=
  List.find (fun p => String.eqb (cid p) c) inserts.

(** The dead-letter row of a result, if it is a rejection, and the dead-letter
    rows of a batch: those of its rejected results in result order. *)
Definition row_of_result (get : string -> option parsedInsert) (r : SubmitResult)
  : option dlqRow :=
  if String.eqb (res_Err r) "" then None
  else (fun p => dlq_row_of p r) <$> get (res_CorrelationID r).

Definition rejected_rows (inserts : list parsedInsert) (results : list SubmitResult)
  : list dlqRow :=
  omap (row_of_result (find_insert inserts)) results.

(** ** Lemmas: the index of the batch *)

Lemma find_insert_Some inserts c p :
  find_insert inserts c = Some p -> p ∈ inserts /\ cid p = c.
Proof.
  intros H. apply List.find_some in H as [H E]. split; [by apply list_elem_of_In|].
  by apply String.eqb_eq.
Qed.

Lemma find_insert_is_Some inserts c : is_Some (find_insert inserts c) <-> c ∈ map cid inserts.
Proof.
  split.
  - intros [p [H1 H2]%find_insert_Some]. apply list_elem_of_fmap. eauto.
  - intros (p & -> & Hp)%list_elem_of_fmap. unfold find_insert.
    destruct (List.find _ _) eqn:F; [eauto|].
    eapply List.find_none in F; [|apply list_elem_of_In, Hp]. by rewrite String.eqb_refl in F.
Qed.

Lemma find_insert_cons p inserts c :
  find_insert (p :: inserts) c = if String.eqb (cid p) c then Some p else find_insert inserts c.
Proof. reflexivity. Qed.

Lemma find_insert_cid inserts p :
  NoDup (map cid inserts) -> p ∈ inserts -> find_insert inserts (cid p) = Some p.
Proof.
  induction inserts as [|q inserts IH]; intros Hnd Hp; [by apply elem_of_nil in Hp|].
  cbn [map] in Hnd. apply NoDup_cons in Hnd as [Hq Hnd]. rewrite find_insert_cons.
  apply elem_of_cons in Hp as [->|Hp]; [by rewrite String.eqb_refl|].
  destruct (String.eqb_spec (cid q) (cid p)) as [E|]; [|by apply IH].
  exfalso. apply Hq. rewrite E. by apply list_elem_of_fmap_2.
Qed.

Lemma index_inserts_spec inserts m m' :
  index_inserts inserts m = Ok m' <->
  NoDup (map cid inserts) /\ (forall p, p ∈ inserts -> m !! cid p = None) /\
  m' = foldl (fun m p => <[cid p := p]> m) m inserts.
Proof.
  revert m. induction inserts as [|p inserts IH]; intros m; cbn [index_inserts map foldl].
  { split; [intros [= <-]; split; [constructor|split; [by intros ? ?%elem_of_nil|done]]|naive_solver]. }
  fold (cid p). destruct (m !! cid p) eqn:E.
  - split; [done|]. intros (_ & H & _). specialize (H p ltac:(left)). congruence.
  - rewrite IH, NoDup_cons. split.
    + intros (Hnd & Hm & ->). split_and!; [|done| |done].
      * intros (q & Eq & Hq)%list_elem_of_fmap. specialize (Hm q Hq). rewrite <- Eq in Hm.
        by rewrite lookup_insert_eq in Hm.
      * intros q [->|Hq]%elem_of_cons; [done|]. specialize (Hm q Hq).
        by apply lookup_insert_None in Hm as [? _].
    + intros ([Hp Hnd] & Hm & ->). split_and!; [done| |done].
      intros q Hq. rewrite lookup_insert_ne; [apply Hm; by right|].
      intros Eq. apply Hp. rewrite Eq. by apply list_elem_of_fmap_2.
Qed.

Lemma foldl_insert_lookup inserts (m : gmap string parsedInsert) c :
  NoDup (map cid inserts) ->
  foldl (fun m p => <[cid p := p]> m) m inserts !! c =
  match find_insert inserts c with Some p => Some p | None => m !! c end.
Proof.
  revert m. induction inserts as [|p inserts IH]; intros m Hnd; [done|].
  cbn [map foldl] in *. apply NoDup_cons in Hnd as [Hp Hnd]. rewrite IH, find_insert_cons by done.
  destruct (String.eqb_spec (cid p) c) as [<-|Hne].
  - destruct (find_insert inserts (cid p)) as [q|] eqn:F; [|by rewrite lookup_insert_eq].
    exfalso. apply Hp, find_insert_is_Some. eauto.
  - destruct (find_insert inserts c); [done|]. by rewrite lookup_insert_ne.
Qed.

(** ** Lemmas: the results *)

Definition lookup_str (m : gmap string parsedInsert) (c : string) : option parsedInsert := m !! c.

Lemma match_results_spec (m : gmap string parsedInsert) results seen rows rows' :
  match_results m results seen rows = Ok rows' <->
  NoDup (map res_CorrelationID results) /\
  (forall r, r ∈ results -> (res_CorrelationID r ∉ seen) /\ is_Some (m !! res_CorrelationID r)) /\
  rows' = rows ++ omap (row_of_result (lookup_str m)) results.
Proof.
  revert seen rows. induction results as [|r results IH]; intros seen rows; cbn [match_results map omap list_omap].
  { rewrite app_nil_r. split; [intros [= <-]; split_and!; [constructor|by intros ? ?%elem_of_nil|done]|naive_solver]. }
  rewrite NoDup_cons. case_bool_decide as Hs.
  { split; [done|]. intros (_ & H & _). by destruct (H r ltac:(left)). }
  destruct (m !! res_CorrelationID r) as [p|] eqn:E.
  2: { split; [done|]. intros (_ & H & _). destruct (H r ltac:(left)) as [_ [? ?]]. congruence. }
  assert (forall rows1, match_results m results ({[res_CorrelationID r]} ∪ seen) rows1 = Ok rows' <->
    ((res_CorrelationID r ∉ map res_CorrelationID results) /\ NoDup (map res_CorrelationID results)) /\
    (forall r0, r0 ∈ r :: results -> (res_CorrelationID r0 ∉ seen) /\ is_Some (m !! res_CorrelationID r0)) /\
    rows' = rows1 ++ omap (row_of_result (lookup_str m)) results) as IH'.
  { intros rows1. rewrite IH. split.
    - intros (Hnd & H & ->). split_and!; [|done| |done].
      + intros (q & Eq & Hq)%list_elem_of_fmap. destruct (H q Hq) as [Hq' _]. set_solver.
      + intros q [->|Hq]%elem_of_cons; [eauto|]. destruct (H q Hq). set_solver.
    - intros ([Hn Hnd] & H & ->). split_and!; [done| |done]. intros q Hq.
      destruct (H q ltac:(by right)) as [H1 H2]. split; [|done].
      rewrite not_elem_of_union, not_elem_of_singleton. split; [|done]. intros Eq. apply Hn.
      rewrite <- Eq. by apply list_elem_of_fmap_2. }
  unfold row_of_result at 1, lookup_str at 1. rewrite E.
  destruct (String.eqb (res_Err r) "") eqn:Er; cbn [fmap option_fmap option_map].
  - apply IH'.
  - rewrite IH', <- app_assoc. done.
Qed.

(** ** Properties of the results *)

Lemma mapResults_iff (inserts : list parsedInsert) (results : list SubmitResult)
    (rows : list dlqRow) :
  mapResults inserts results = Ok rows <->
  NoDup (map cid inserts) /\
  map res_CorrelationID results ≡ₚ map cid inserts /\
  rows = rejected_rows inserts results.
Proof.
  unfold mapResults.
  assert (forall m : gmap string parsedInsert, NoDup (map cid inserts) ->
    m = foldl (fun m p => <[cid p := p]> m) ∅ inserts -> forall c, m !! c = find_insert inserts c) as Hm.
  { intros m Hnd -> c. rewrite foldl_insert_lookup by done. destruct (find_insert inserts c); [done|].
    apply lookup_empty. }
  assert (forall m : gmap string parsedInsert, (forall c, m !! c = find_insert inserts c) ->
    omap (row_of_result (lookup_str m)) results = rejected_rows inserts results) as Hr.
  { intros m H. unfold rejected_rows. apply list_omap_ext, Forall_Forall2_diag, Forall_forall.
    intros r _. unfold row_of_result, lookup_str. by rewrite H. }
  split.
  - destruct (Nat.eqb_spec (length results) (length inserts)) as [L|]; [|done]. cbn [negb].
    rewrite bind_r_Ok. intros (m & (Hnd & _ & E)%index_inserts_spec & (Hndr & Hin & ->)%match_results_spec).
    specialize (Hm m Hnd E). split_and!; [done| |by apply Hr].
    apply submseteq_length_Permutation; [|by rewrite !length_map, L].
    apply NoDup_submseteq; [done|]. intros c (r & -> & Hc)%list_elem_of_fmap.
    destruct (Hin r Hc) as [_ H]. rewrite Hm in H. by apply find_insert_is_Some.
  - intros (Hnd & Hp & ->). apply Permutation_length in Hp as L. rewrite !length_map in L.
    rewrite (proj2 (Nat.eqb_eq _ _) L). cbn [negb]. rewrite bind_r_Ok.
    eexists. rewrite index_inserts_spec, match_results_spec.
    split_and!; [done|intros; apply lookup_empty|done|by rewrite Hp| |].
    + intros r Hr'. split; [set_solver|]. rewrite (Hm _ Hnd eq_refl). apply find_insert_is_Some.
      rewrite <- Hp. by apply list_elem_of_fmap_2.
    + symmetry. apply Hr, Hm; done.
Qed.

(** Every row of the batch has exactly one result, which either accepts it or
    comes with its dead-letter row; and dead-letter rows come from rejected rows
    of the batch only. *)
Definition accounted (inserts : list parsedInsert) (results : list SubmitResult)
    (rows : list dlqRow) : Prop :=
  (forall p, p ∈ inserts -> exists r, r ∈ results /\ res_CorrelationID r = cid p /\
     (forall r', r' ∈ results -> res_CorrelationID r' = cid p -> r' = r) /\
     (res_Err r = ""%string \/ (res_Err r <> ""%string /\ dlq_row_of p r ∈ rows))) /\
  (forall d, d ∈ rows -> exists p r, p ∈ inserts /\ r ∈ results /\ res_CorrelationID r = cid p /\
     res_Err r <> ""%string /\ d = dlq_row_of p r).

Lemma NoDup_map_inj {A B} (f : A -> B) (l : list A) x y :
  NoDup (map f l) -> x ∈ l -> y ∈ l -> f x = f y -> x = y.
Proof.
  induction l as [|z l IH]; cbn; intros Hnd Hx Hy E; [by apply elem_of_nil in Hx|].
  apply NoDup_cons in Hnd as [Hz Hnd].
  apply elem_of_cons in Hx as [->|Hx]; apply elem_of_cons in Hy as [->|Hy]; auto; exfalso; apply Hz.
  - rewrite E. by apply list_elem_of_fmap_2.
  - rewrite <- E. by apply list_elem_of_fmap_2.
Qed.

Lemma mapResults_accounted_lemma inserts results rows :
  NoDup (map cid inserts) -> map res_CorrelationID results ≡ₚ map cid inserts ->
  rows = rejected_rows inserts results -> accounted inserts results rows.
Proof.
  intros Hnd Hp ->. split.
  - intros p Hin. assert (cid p ∈ map res_CorrelationID results) as (r & E & Hr)%list_elem_of_fmap
      by (rewrite Hp; by apply list_elem_of_fmap_2).
    exists r. split_and!; [done|done| |].
    + intros r' Hr' E'. eapply (NoDup_map_inj res_CorrelationID); [by rewrite Hp|done|done|congruence].
    + destruct (String.eqb_spec (res_Err r) "") as [|Hne]; [by left|right; split; [done|]].
      apply list_elem_of_omap. exists r. split; [done|]. unfold row_of_result.
      destruct (String.eqb_spec (res_Err r) ""); [done|]. rewrite <- E, find_insert_cid by done. done.
  - intros d (r & Hr & E)%list_elem_of_omap. unfold row_of_result in E. destruct (String.eqb_spec (res_Err r) ""); [done|].
    destruct (find_insert inserts (res_CorrelationID r)) as [p|] eqn:F; [|done].
    cbn in E. apply find_insert_Some in F as [F1 F2]. exists p, r. simplify_eq. done.
Qed.

Lemma mapResults_accounted inserts results rows :
  mapResults inserts results = Ok rows -> accounted inserts results rows.
Proof. intros (? & ? & ?)%mapResults_iff. by apply mapResults_accounted_lemma. Qed.

(** C5: a batch is accepted exactly when its correlation identifiers
    are distinct and the results answer each of them once, in any order; the
    dead-letter rows are then exactly those of the rejected results, in result
    order, and every row of the batch has its one answer or its dead letter.
    Every other answer is an error, so that the cursor does not move. *)
Theorem mapResults_spec (inserts : list parsedInsert) (results : list SubmitResult)
    (rows : list dlqRow) :
  (mapResults inserts results = Ok rows <->
   NoDup (map cid inserts) /\
   map res_CorrelationID results ≡ₚ map cid inserts /\
   rows = rejected_rows inserts results) /\
  (mapResults inserts results = Ok rows -> accounted inserts results rows).
Proof. split; [apply mapResults_iff|apply mapResults_accounted]. Qed.

Definition sample_result : SubmitResult :=
  {| res_CorrelationID := "0"; res_JobID := ""; res_Err := "no"; res_Reason := "" |}.

Lemma mapResults_spec_witness :
  accounted [parsedInsert0] [sample_result] [dlq_row_of parsedInsert0 sample_result].
Proof.
  exact (proj2 (mapResults_spec [parsedInsert0] [sample_result] [dlq_row_of parsedInsert0 sample_result])
    ltac:(vm_compute; reflexivity)).
Defined.

(** C31: the stored error message is valid UTF-8 of at most [max] bytes;
    of a valid message it is the longest prefix of whole characters that fits. *)
Theorem truncate_spec (s : string) (max : Z) :
  valid_utf8 (truncate s max) /\ str_len (truncate s max) <= Z.max 0 max /\
  (valid_utf8 s -> exists q, s = (truncate s max ++ q)%string /\ valid_utf8 q /\
     (q = EmptyString \/ max < str_len (truncate s max) + Z.of_nat (rune_width q))).
Proof.
  unfold truncate, str_len. destruct (Z.leb_spec max 0).
  { split_and!; [constructor|cbn; lia|]. intros V. exists s. split_and!; [done..|].
    destruct (valid_utf8_head s V) as [->|Hw]; [by left|right; cbn; lia]. }
  destruct (Z.ltb_spec max (Z.of_nat (String.length s))) as [L|L].
  - split_and!; [auto with pglg| |].
    + pose proof (ToValidUTF8_length (str_take (Z.to_nat max) s)) as B.
      rewrite str_length_take in B. lia.
    + intros V. destruct (ToValidUTF8_cut (Z.to_nat max) s V) as (q & E & Vq & Hq).
      exists q. split_and!; [done..|]. destruct Hq; [by left|right; lia].
  - split_and!; [auto with pglg| |].
    + pose proof (ToValidUTF8_length s). lia.
    + intros V. exists EmptyString. rewrite ToValidUTF8_id, str_app_nil_r by done.
      split_and!; [done|constructor|by left].
Qed.

Lemma truncate_spec_witness :
  valid_utf8 "ab" /\
  exists q, "ab"%string = (truncate "ab" 1 ++ q)%string /\ valid_utf8 q /\
     (q = EmptyString \/ 1 < str_len (truncate "ab" 1) + Z.of_nat (rune_width q)).
Proof.
  assert (valid_utf8 "ab") as V.
  { apply (valid_cons "a" "b"); [by split|]. apply (valid_cons "b" ""); [by split|constructor]. }
  split; [exact V|]. exact (proj2 (proj2 (truncate_spec "ab" 1)) V).
Defined.

(** ** The INSERT statement: lemmas *)

Lemma build_dlq_lengths i rows :
  length (build_dlq i rows).1 = length rows /\ length (build_dlq i rows).2 = (10 * length rows)%nat.
Proof.
  revert i. induction rows as [|r rows IH]; intros i; [done|]. cbn [build_dlq].
  destruct (IH (i + 1)) as [H1 H2]. destruct (build_dlq (i + 1) rows) as [ts args].
  cbn in *. lia.
Qed.

Lemma bind_placeholder_app pre args k :
  0 < k -> bind_placeholder (pre ++ args) (Z.of_nat (length pre) + k) = bind_placeholder args k.
Proof.
  intros. unfold bind_placeholder.
  destruct (Z.leb_spec (Z.of_nat (length pre) + k) 0), (Z.leb_spec k 0); try lia.
  rewrite lookup_app_r by lia. f_equal. lia.
Qed.

(** The placeholders of row [i] pick the arguments of row [i]. *)
Lemma row_placeholders_bind pre r rest i :
  i * dlq_cols = Z.of_nat (length pre) ->
  mapM (bind_placeholder (pre ++ row_args r ++ rest)) (row_placeholders i) = Some (row_args r).
Proof.
  intros E. unfold row_placeholders. rewrite E. rewrite <- !Z.add_assoc.
  change (1 + 1) with 2. change (1 + 2) with 3. change (1 + 3) with 4. change (1 + 4) with 5.
  change (1 + 5) with 6. change (1 + 6) with 7. change (1 + 7) with 8. change (1 + 8) with 9.
  change (1 + 9) with 10. cbn [mapM]. rewrite !bind_placeholder_app by lia. reflexivity.
Qed.

Lemma build_dlq_bind pre i rows rest :
  i * dlq_cols = Z.of_nat (length pre) ->
  mapM (mapM (bind_placeholder (pre ++ (build_dlq i rows).2 ++ rest))) (build_dlq i rows).1 =
  Some (map row_args rows).
Proof.
  revert pre i. induction rows as [|r rows IH]; intros pre i E; [done|]. cbn [build_dlq].
  specialize (IH (pre ++ row_args r) (i + 1)). destruct (build_dlq (i + 1) rows) as [ts args].
  cbn [fst snd] in *. cbn [mapM]. rewrite <- (app_assoc (row_args r)).
  rewrite row_placeholders_bind by done. cbn [mbind option_bind].
  rewrite <- (app_assoc pre) in IH. rewrite IH; [done|].
  rewrite length_app. unfold dlq_cols in *. cbn [row_args length]. lia.
Qed.

Lemma insertDLQRows_stmt_rows table rows :
  stmt_rows (insertDLQRows_stmt table rows) = Some (map row_args rows) /\
  ins_table (insertDLQRows_stmt table rows) = table.
Proof.
  unfold insertDLQRows_stmt, stmt_rows.
  pose proof (build_dlq_bind [] 0 rows [] eq_refl) as B. rewrite app_nil_r in B. cbn [app] in B.
  by destruct (build_dlq 0 rows).
Qed.

(** C29: the multi-row INSERT adds exactly the dead-letter rows it was
    built from, column by column and in order: its placeholders are numbered
    1 to 10n and each one names the argument of its row and column. *)
Theorem insertDLQRows_rows (table : string) (rows : list dlqRow) :
  stmt_rows (insertDLQRows_stmt table rows) = Some (map row_args rows) /\
  length (ins_args (insertDLQRows_stmt table rows)) = (10 * length rows)%nat /\
  concat (ins_tuples (insertDLQRows_stmt table rows)) = seqZ 1 (10 * Z.of_nat (length rows)).
Proof.
  split; [apply insertDLQRows_stmt_rows|]. unfold insertDLQRows_stmt.
  pose proof (build_dlq_lengths 0 rows) as [_ L].
  assert (forall i, concat (build_dlq i rows).1 = seqZ (i * 10 + 1) (10 * Z.of_nat (length rows))) as C.
  { clear. induction rows as [|r rows IH]; intros i; [done|]. cbn [build_dlq].
    specialize (IH (i + 1)). destruct (build_dlq (i + 1) rows) as [ts args]. cbn [fst snd] in *.
    cbn [concat length]. rewrite IH.
    replace (10 * Z.of_nat (S (length rows))) with (10 + 10 * Z.of_nat (length rows)) by lia.
    rewrite seqZ_app by lia. f_equal; [|f_equal; lia].
    unfold row_placeholders, dlq_cols. unfold seqZ. change (Z.to_nat 10) with 10%nat. cbn.
    repeat (apply f_equal2; [lia|]). done. }
  specialize (C 0). by destruct (build_dlq 0 rows) as [ts args].
Qed.
