(* ===== verification/DlqTypes.v ===== *)
(** * The types of the dead-letter table

    The columns of the table (sql/006_create_dlq.sql) that the driver fills, and
    the proof that the rows it builds can be stored in them. *)

From S2P Require Export Dlq.

Open Scope Z_scope.

Inductive sqlType := BIGINT | TIMESTAMPTZ | TEXT | BYTEA | BOOLEAN.

Record sqlColumn := { col_name : string; col_type : sqlType; col_notNull : bool }.

(** The columns of the INSERT with the types of CREATE TABLE. *)
Definition dlq_columns : list sqlColumn :=
  [{| col_name := "id"; col_type := BIGINT; col_notNull := true |};
   {| col_name := "created_at"; col_type := TIMESTAMPTZ; col_notNull := true |};
   {| col_name := "producer_id"; col_type := TEXT; col_notNull := true |};
   {| col_name := "job_type"; col_type := TEXT; col_notNull := true |};
   {| col_name := "payload"; col_type := BYTEA; col_notNull := true |};
   {| col_name := "run_at"; col_type := TIMESTAMPTZ; col_notNull := false |};
   {| col_name := "trace_id"; col_type := TEXT; col_notNull := true |};
   {| col_name := "shadow"; col_type := BOOLEAN; col_notNull := true |};
   {| col_name := "reason"; col_type := TEXT; col_notNull := true |};
   {| col_name := "error_message"; col_type := TEXT; col_notNull := true |}]%string.

(** ** Text

    A TEXT holds valid UTF-8 without the byte 0. *)
Fixpoint no_nul (s : string) : bool :=
  match s with
  | EmptyString => true
  | String c s' => negb (Ascii.eqb c "000") && no_nul s'
  end.

Definition text_ok (s : string) : Prop := valid_utf8 s /\ no_nul s = true.

(** A nil slice is NULL. *)
Definition has_type (c : sqlColumn) (v : sqlValue) : Prop :=
  match v with
  | SqlInt z => col_type c = BIGINT /\ is_int64 z
  | SqlTime _ => col_type c = TIMESTAMPTZ
  | SqlText s => col_type c = TEXT /\ text_ok s
  | SqlBytes (Some _) => col_type c = BYTEA
  | SqlBool _ => col_type c = BOOLEAN
  | SqlBytes None | SqlNull => col_notNull c = false
  end.

Lemma no_nul_app a b : no_nul (a ++ b) = no_nul a && no_nul b.
Proof. induction a as [|c a IH]; [done|]. cbn. by rewrite IH, andb_assoc. Qed.

Lemma no_nul_take n s : no_nul s = true -> no_nul (str_take n s) = true.
Proof.
  revert n. induction s as [|c s IH]; intros [|n]; cbn; try done.
  intros [H1 H2]%andb_true_iff. rewrite H1. by apply IH.
Qed.

Lemma no_nul_drop n s : no_nul s = true -> no_nul (str_drop n s) = true.
Proof.
  revert n. induction s as [|c s IH]; intros [|n]; cbn; try done.
  intros [H1 H2]%andb_true_iff. by apply IH.
Qed.

Lemma no_nul_ToValidUTF8 s : no_nul s = true -> no_nul (ToValidUTF8 s) = true.
Proof.
  induction s as [|c s W IH|s W IH] using rune_ind; [done| |].
  - rewrite ToValidUTF8_skip by done. cbn. intros [_ Hs]%andb_true_iff. auto.
  - intros Hs. rewrite ToValidUTF8_step by done. rewrite no_nul_app, no_nul_take by done.
    apply IH. by apply no_nul_drop.
Qed.

(** The stored message is a text whatever jack sent. *)
Lemma text_ok_truncate s max : no_nul s = true -> text_ok (truncate s max).
Proof.
  intros Hs. unfold truncate. destruct (max <=? 0); [split; [constructor|done]|].
  split; [apply ToValidUTF8_valid|apply no_nul_ToValidUTF8].
  destruct (_ <? _); [by apply no_nul_take|done].
Qed.

(** ** Rows of the outbox *)

(** What the server sends for a row of the outbox: texts, and a payload that is
    not NULL (sql/001_create_outbox.sql). *)
Definition outbox_row_sent (values : list columnValue) : Prop :=
  Forall (fun v => text_ok (data v)) values /\
  exists v, values !! 4%nat = Some v /\ isNull v = false.

Definition from_outbox (p : parsedInsert) : Prop :=
  exists values, outbox_row_sent values /\ parseInsertColumns outbox_columns values = Ok p.

(** What jack answers: texts, as its messages are. *)
Definition answer_text (r : SubmitResult) : Prop :=
  text_ok (res_Reason r) /\ no_nul (res_Err r) = true.

Record row_storable (p : parsedInsert) : Prop := {
  st_id : is_int64 (id p);
  st_producer : text_ok (producerID p);
  st_job : text_ok (jobType p);
  st_payload : payload p <> None;
  st_trace : text_ok (traceID p) }.

Lemma text_ok_empty : text_ok "".
Proof. split; [constructor|done]. Qed.

Lemma col_data_text columns values name s :
  Forall (fun v => text_ok (data v)) values -> col_data columns values name = Some s -> text_ok s.
Proof.
  intros Hv. revert columns. induction Hv as [|v values Hv _ IH]; intros [|c columns]; cbn; try done.
  destruct (String.eqb c name); [|apply IH]. destruct (isNull v); [done|]. by intros [= <-].
Qed.

Lemma reads_text columns values name (a : string) :
  Forall (fun v => text_ok (data v)) values ->
  reads (E := error) (col_data columns values name) Ok ""%string a -> text_ok a.
Proof.
  intros Hv. destruct (col_data columns values name) as [s|] eqn:E; cbn.
  - intros [= <-]. by eapply col_data_text.
  - intros ->. apply text_ok_empty.
Qed.

Lemma decodeBytea_some s b : decodeBytea s = Ok b -> b <> None.
Proof.
  unfold decodeBytea. destruct (HasPrefix _ _); [destruct (DecodeString _)|]; by intros [= <-].
Qed.

Lemma from_outbox_storable p : from_outbox p -> row_storable p.
Proof.
  intros (values & (Hv & v & Hp & Hn) & E). pose proof (parseInsertColumns_int64 _ _ _ E) as Hid.
  unfold parseInsertColumns in E. destruct (Nat.eqb_spec (length outbox_columns) (length values)) as [Hlen|]; [|done].
  apply (parse_columns_spec _ _ _ _ outbox_columns_NoDup Hlen) in E.
  destruct E as (_ & _ & Hprod & Hjob & Hpay & _ & Htr & _). split; [done|..]; try by eapply reads_text.
  destruct values as [|v0 [|v1 [|v2 [|v3 [|v4 values]]]]]; try done. injection Hp as ->.
  cbn in Hpay. rewrite Hn in Hpay. by eapply decodeBytea_some.
Qed.

(** A dead-letter row of such a row and answer fits its columns. *)
Lemma dlq_row_typed p r :
  row_storable p -> answer_text r -> Forall2 has_type dlq_columns (row_args (dlq_row_of p r)).
Proof.
  intros [Hid Hprod Hjob Hpay Htr] [Hreason Herr]. unfold row_args, dlq_columns.
  assert (text_ok (d_reason (dlq_row_of p r))) as Hreason'.
  { cbn. destruct (String.eqb _ _); [|done]. split; [|done].
    change dlqReasonUnspecified with (ToValidUTF8 dlqReasonUnspecified). apply ToValidUTF8_valid. }
  pose proof (text_ok_truncate (res_Err r) dlqErrorMessageMax Herr) as Hmsg.
  unfold row_args. repeat (apply Forall2_cons; split); try apply Forall2_nil; try done; cbn.
  - by destruct (payload p).
  - by destruct (IsZero (runAt p)).
Qed.

Lemma HasPrefix_middle a t c d : HasPrefix (a ++ t ++ c ++ d) (a ++ t ++ c) = true.
Proof.
  assert (a ++ t ++ c ++ d = (a ++ t ++ c) ++ d)%string as -> by (by rewrite !str_app_assoc).
  apply HasPrefix_app.
Qed.

(** ** Properties *)

(** C30: the types of the dead letters: when the batch comes from the outbox and
    jack answers with texts, every tuple of the INSERT has one value for each of
    the named columns, of the type of the column, and no NULL where the table
    forbids it, whatever the error messages hold. *)
Theorem dlq_statement_typed (table : string) (inserts : list parsedInsert)
    (results : list SubmitResult) (rows : list dlqRow)
    (Hin : Forall from_outbox inserts) (Hres : Forall answer_text results)
    (Hmap : mapResults inserts results = Ok rows) :
  let st := insertDLQRows_stmt table rows in
  HasPrefix (ins_query st)
    ("INSERT INTO " ++ table ++ " (" ++ Join (map col_name dlq_columns) ", " ++ ") VALUES ") = true /\
  exists tuples, stmt_rows st = Some tuples /\ length tuples = length rows /\
    Forall (Forall2 has_type dlq_columns) tuples.
Proof.
  apply mapResults_iff in Hmap as (_ & _ & ->). cbn zeta. split.
  - unfold insertDLQRows_stmt. destruct (build_dlq _ _) as [tuples args]. apply HasPrefix_middle.
  - exists (map row_args (rejected_rows inserts results)).
    split; [apply insertDLQRows_stmt_rows|]. split; [by rewrite length_map|].
    apply Forall_map, Forall_forall. intros d (r & Hr & E)%list_elem_of_omap.
    unfold row_of_result in E. destruct (String.eqb _ _); [done|].
    destruct (find_insert inserts (res_CorrelationID r)) as [p|] eqn:Ep; [|done]. injection E as <-.
    apply find_insert_Some in Ep as [Hp _]. rewrite Forall_forall in Hin. rewrite Forall_forall in Hres.
    apply dlq_row_typed; [by apply from_outbox_storable, Hin|by apply Hres].
Qed.

Definition typed_values : list columnValue :=
  outbox_values (set_runAt (Date 2026 2 17 9 0 0 0) sample_row).
Definition typed_insert : parsedInsert := set_runAt (Date 2026 2 17 9 0 0 0) sample_row.
Definition typed_result : SubmitResult :=
  {| res_CorrelationID := "42"; res_JobID := ""; res_Err := "no handler"; res_Reason := "unknown" |}%string.

Lemma ascii_text s : ToValidUTF8 s = s -> no_nul s = true -> text_ok s.
Proof. intros <- Hn. split; [apply ToValidUTF8_valid|done]. Qed.

Lemma texts_check values :
  forallb (fun v => String.eqb (ToValidUTF8 (data v)) (data v) && no_nul (data v)) values = true ->
  Forall (fun v => text_ok (data v)) values.
Proof.
  rewrite forallb_forall. intros Hv. apply Forall_forall. intros v Hin%list_elem_of_In%Hv.
  apply andb_true_iff in Hin as [E%String.eqb_eq Hn]. by apply ascii_text.
Qed.

Lemma typed_from_outbox : Forall from_outbox [typed_insert].
Proof.
  apply Forall_singleton. exists typed_values. split; [split|vm_compute; reflexivity].
  - apply texts_check. vm_compute. reflexivity.
  - eexists. split; reflexivity.
Qed.

Lemma typed_answer : Forall answer_text [typed_result].
Proof. apply Forall_singleton. split; [by apply ascii_text|done]. Qed.

Lemma dlq_statement_typed_witness :
  exists tuples, stmt_rows (insertDLQRows_stmt "t" [dlq_row_of typed_insert typed_result]) = Some tuples /\
    length tuples = 1%nat /\ Forall (Forall2 has_type dlq_columns) tuples.
Proof.
  exact (proj2 (dlq_statement_typed "t" [typed_insert] [typed_result] [dlq_row_of typed_insert typed_result]
    typed_from_outbox typed_answer ltac:(vm_compute; reflexivity))).
Defined.
