(* ===== verification/Config.v ===== *)
(** * Configuration (driver.go): defaults, validation, table names *)

From S2P Require Export GoTime GoError.

Open Scope Z_scope.

Record ReplicaConfig := { Name : string; ReplicaConnString : string; SubscriptionName : string }.

(** [Logger] and [Statsd] are interface values: the record keeps whether they
    are set. [MaxBatchSize] is an [int], the intervals are durations. *)
Record Config := {
  ConnString : string;
  SlotName : string;
  PublicationName : string;
  Schema : string;
  TablePrefix : string;
  MaxBatchSize : Z;
  BatchTimeout : Duration;
  StandbyInterval : Duration;
  PartitionInterval : Duration;
  PartitionLookAhead : Duration;
  PartitionRetention : Duration;
  PartitionMaintInterval : Duration;
  ReconnectInitialDelay : Duration;
  ReconnectMaxDelay : Duration;
  SlotBusyRetryDelay : Duration;
  SlotBusyRetryJitter : Duration;
  LeaderHeartbeatInterval : Duration;
  DLQRetention : Duration;
  DLQCleanupInterval : Duration;
  Logger : bool;
  Statsd : bool;
  Replicas : list ReplicaConfig }.

(** [if c.F == "" { c.F = d }] and [if c.F <= 0 { c.F = d }]. *)
Definition default_string (s d : string) : string := if String.eqb s "" then d else s.
Definition default_pos (z d : Z) : Z := if z <=? 0 then d else z.

Definition setDefaults (c : Config) : Config := {|
  ConnString := ConnString c;
  SlotName := SlotName c;
  PublicationName := PublicationName c;
  Schema := default_string (Schema c) "public";
  TablePrefix := default_string (TablePrefix c) "outbox";
  MaxBatchSize := default_pos (MaxBatchSize c) 100;
  BatchTimeout := default_pos (BatchTimeout c) (1 * Second);
  StandbyInterval := default_pos (StandbyInterval c) (10 * Second);
  PartitionInterval := default_pos (PartitionInterval c) (1 * Hour);
  PartitionLookAhead := default_pos (PartitionLookAhead c) (12 * Hour);
  PartitionRetention := default_pos (PartitionRetention c) (3 * Hour);
  PartitionMaintInterval := default_pos (PartitionMaintInterval c) (5 * Minute);
  ReconnectInitialDelay := default_pos (ReconnectInitialDelay c) (1 * Second);
  ReconnectMaxDelay := default_pos (ReconnectMaxDelay c) (30 * Second);
  SlotBusyRetryDelay := default_pos (SlotBusyRetryDelay c) (5 * Second);
  SlotBusyRetryJitter := default_pos (SlotBusyRetryJitter c) (1 * Second);
  LeaderHeartbeatInterval := default_pos (LeaderHeartbeatInterval c) (15 * Second);
  DLQRetention := default_pos (DLQRetention c) (30 * 24 * Hour);
  DLQCleanupInterval := default_pos (DLQCleanupInterval c) (1 * Hour);
  Logger := true;
  Statsd := true;
  Replicas := Replicas c |}.

(** The loop of [validate] over the replicas from index [i]. *)
Fixpoint validate_replicas (i : Z) (rs : list ReplicaConfig) (seen : gset string)
  : option error :=
  match rs with
  | [] => None
  | r :: rs' =>
      if String.eqb (Name r) "" then
        Some (Errorf "pglg: Replicas[%d]: Name is required" [AInt i])
      else if String.eqb (ReplicaConnString r) "" then
        Some (Errorf "pglg: Replicas[%d] (%q): ConnString is required" [AInt i; AStr (Name r)])
      else if String.eqb (SubscriptionName r) "" then
        Some (Errorf "pglg: Replicas[%d] (%q): SubscriptionName is required" [AInt i; AStr (Name r)])
      else if bool_decide (Name r ∈ seen) then
        Some (Errorf "pglg: duplicate replica name %q" [AStr (Name r)])
      else validate_replicas (i + 1) rs' ({[Name r]} ∪ seen)
  end.

(** [validate]: [None] is the nil error. *)
Definition validate (c : Config) : option error :=
  if String.eqb (ConnString c) "" then Some (Errorf "pglg: ConnString is required" [])
  else if String.eqb (SlotName c) "" then Some (Errorf "pglg: SlotName is required" [])
  else if String.eqb (PublicationName c) "" then Some (Errorf "pglg: PublicationName is required" [])
  else validate_replicas 0 (Replicas c) ∅.

Definition jobsTable (c : Config) : string := (Schema c ++ "." ++ TablePrefix c ++ "_jobs")%string.
Definition cursorTable (c : Config) : string := (Schema c ++ "." ++ TablePrefix c ++ "_cursor")%string.
Definition partitionMetaTable (c : Config) : string :=
  (Schema c ++ "." ++ TablePrefix c ++ "_partition_meta")%string.
Definition dlqTable (c : Config) : string := (Schema c ++ "." ++ TablePrefix c ++ "_dlq")%string.

(** ** Specification *)

(** What the rest of the driver relies on: every interval and the batch size
    are positive, the names are set. *)
Definition config_wf (c : Config) : Prop :=
  Schema c <> ""%string /\ TablePrefix c <> ""%string /\ 0 < MaxBatchSize c /\
  0 < BatchTimeout c /\ 0 < StandbyInterval c /\ 0 < PartitionInterval c /\
  0 < PartitionLookAhead c /\ 0 < PartitionRetention c /\ 0 < PartitionMaintInterval c /\
  0 < ReconnectInitialDelay c /\ 0 < ReconnectMaxDelay c /\ 0 < SlotBusyRetryDelay c /\
  0 < SlotBusyRetryJitter c /\ 0 < LeaderHeartbeatInterval c /\ 0 < DLQRetention c /\
  0 < DLQCleanupInterval c /\ Logger c = true /\ Statsd c = true.

Definition replica_ok (r : ReplicaConfig) : Prop :=
  Name r <> ""%string /\ ReplicaConnString r <> ""%string /\ SubscriptionName r <> ""%string.

Definition valid_config (c : Config) : Prop :=
  ConnString c <> ""%string /\ SlotName c <> ""%string /\ PublicationName c <> ""%string /\
  Forall replica_ok (Replicas c) /\ NoDup (map Name (Replicas c)).

(** ** Lemmas *)

Lemma default_pos_pos z d : 0 < d -> 0 < default_pos z d.
Proof. unfold default_pos. zbool; lia. Qed.

Lemma default_pos_id z d : 0 < z -> default_pos z d = z.
Proof. unfold default_pos. zbool; lia. Qed.

Lemma default_string_ne s d : d <> ""%string -> default_string s d <> ""%string.
Proof. unfold default_string. by destruct (String.eqb_spec s ""). Qed.

Lemma default_string_id s d : s <> ""%string -> default_string s d = s.
Proof. unfold default_string. by destruct (String.eqb_spec s ""). Qed.

#[export] Hint Resolve default_pos_pos default_string_ne : pglg.

Lemma setDefaults_wf c : config_wf (setDefaults c).
Proof.
  unfold config_wf, setDefaults. cbn [Schema TablePrefix MaxBatchSize BatchTimeout StandbyInterval
    PartitionInterval PartitionLookAhead PartitionRetention PartitionMaintInterval
    ReconnectInitialDelay ReconnectMaxDelay SlotBusyRetryDelay SlotBusyRetryJitter
    LeaderHeartbeatInterval DLQRetention DLQCleanupInterval Logger Statsd].
  unfold Hour, Minute, Second.
  split_and!; first [done | by apply default_pos_pos | by apply default_string_ne].
Qed.

(** Values that are set are kept. *)
Lemma setDefaults_id c : config_wf c -> setDefaults c = c.
Proof.
  destruct c. unfold config_wf. cbn. intros. destruct_and!. unfold setDefaults. cbn.
  rewrite !default_pos_id, !default_string_id by done. congruence.
Qed.

Lemma validate_replicas_None i rs seen :
  validate_replicas i rs seen = None <->
  Forall replica_ok rs /\ NoDup (map Name rs) /\ (forall r, r ∈ rs -> ~ Name r ∈ seen).
Proof.
  revert i seen. induction rs as [|r rs IH]; intros i seen; cbn [validate_replicas map].
  { split; [|done]. intros _. split_and!; [constructor..|by intros ? ?%elem_of_nil]. }
  rewrite Forall_cons, NoDup_cons. unfold replica_ok at 1.
  destruct (String.eqb_spec (Name r) ""); [naive_solver|].
  destruct (String.eqb_spec (ReplicaConnString r) ""); [naive_solver|].
  destruct (String.eqb_spec (SubscriptionName r) ""); [naive_solver|].
  case_bool_decide as Hs.
  { split; [done|]. intros (_ & _ & H). by destruct (H r ltac:(left)). }
  rewrite IH. split.
  - intros (Hf & Hnd & H). split_and!; try done.
    + intros (q & Eq & Hq)%list_elem_of_fmap. specialize (H q Hq). set_solver.
    + intros q [->|Hq]%elem_of_cons; [done|]. specialize (H q Hq). set_solver.
  - intros ([_ Hf] & [Hn Hnd] & H). split_and!; try done. intros q Hq.
    specialize (H q ltac:(by right)). rewrite elem_of_union, elem_of_singleton.
    intros [Eq|]; [|done]. apply Hn. rewrite <- Eq. by apply list_elem_of_fmap_2.
Qed.

(** ** Properties *)

(** After [setDefaults] every interval and the batch size are
    positive and the names are set, whatever the configuration was; values that
    were already set are kept, so that applying it again changes nothing. *)
Theorem setDefaults_spec (c : Config) :
  config_wf (setDefaults c) /\
  setDefaults (setDefaults c) = setDefaults c /\
  (config_wf c -> setDefaults c = c).
Proof. split_and!; auto using setDefaults_wf, setDefaults_id. Qed.

Definition sample_config : Config := setDefaults {|
  ConnString := "host=db"; SlotName := "s"; PublicationName := "p"; Schema := ""; TablePrefix := "";
  MaxBatchSize := 2; BatchTimeout := 0; StandbyInterval := 0; PartitionInterval := 0;
  PartitionLookAhead := 0; PartitionRetention := 0; PartitionMaintInterval := 0;
  ReconnectInitialDelay := 0; ReconnectMaxDelay := 0; SlotBusyRetryDelay := 0;
  SlotBusyRetryJitter := 0; LeaderHeartbeatInterval := 0; DLQRetention := 0;
  DLQCleanupInterval := 0; Logger := false; Statsd := false; Replicas := [] |}.

Lemma setDefaults_spec_witness : config_wf sample_config /\ setDefaults sample_config = sample_config.
Proof.
  split; [exact (proj1 (setDefaults_spec _))|].
  exact (proj2 (proj2 (setDefaults_spec sample_config)) (proj1 (setDefaults_spec _))).
Defined.

(** [validate] accepts exactly the configurations whose required
    names are set and whose replicas are complete and named apart. *)
Lemma validate_None (c : Config) : validate c = None <-> valid_config c.
Proof.
  unfold validate, valid_config.
  destruct (String.eqb_spec (ConnString c) ""); [naive_solver|].
  destruct (String.eqb_spec (SlotName c) ""); [naive_solver|].
  destruct (String.eqb_spec (PublicationName c) ""); [naive_solver|].
  rewrite validate_replicas_None. set_solver.
Qed.
