(* ===== verification/Effects.v ===== *)
(** * Effects: the world of a driver and its state monad

    A driver acts on a [World]: the durable database and the trace of what it
    did. What it cannot decide (the clock, cancellation, the messages of the
    server, the answers of jack-service, failures of any call) is an
    environment: a function from the number of external calls made so far to
    the answer. A theorem for every environment is a theorem for every run. *)

From S2P Require Export Dlq.

Open Scope Z_scope.

(** ** The database

    The rows the driver keeps: per (cursor table, slot) the last LSN, and the
    rows of dead-letter tables in insertion order. *)
Record Db := {
  db_cursor : gmap (string * string) Z;
  db_dlq : list (string * list sqlValue) }.

(** The statements of a flush, with the text that is sent as an LSN. *)
Inductive stmt :=
| UpsertCursor (table slot : string) (lsn_text : string)
| InsertRows (s : insertStmt).

(** The text form of the server's type pg_lsn: input and output functions. *)
Class PgLsn := { pg_lsn_in : string -> option Z; pg_lsn_out : Z -> string }.

(** INSERT ... ON CONFLICT (slot_name) DO UPDATE ... WHERE EXCLUDED.last_lsn >
    last_lsn. *)
Definition upsert_greater (k : string * string) (l : Z) (m : gmap (string * string) Z)
  : gmap (string * string) Z :=
  match m !! k with
  | None => <[k := l]> m
  | Some old => if old <? l then <[k := l]> m else m
  end.

(** The effect of a statement; [None] when the server rejects it. *)
Definition apply_stmt `{PgLsn} (s : stmt) (db : Db) : option Db :=
  match s with
  | UpsertCursor table slot text =>
      l ← pg_lsn_in text;
      Some {| db_cursor := upsert_greater (table, slot) l (db_cursor db); db_dlq := db_dlq db |}
  | InsertRows ins =>
      rows ← stmt_rows ins;
      Some {| db_cursor := db_cursor db;
              db_dlq := db_dlq db ++ map (fun r => (ins_table ins, r)) rows |}
  end.

(** An open transaction: the database as it sees it and what it executed. *)
Record Tx := { tx_view : Db; tx_stmts : list stmt }.

(** ** The trace *)

(** The value of a metric: a count, or a duration reported in seconds or hours. *)
Inductive mvalue := MCount (n : Z) | MSeconds (d : Duration) | MHours (d : Duration).

Inductive metric :=
| Incr (name : string) (tags : list string)
| Gauge (name : string) (value : mvalue) (tags : list string)
| Distribution (name : string) (value : mvalue) (tags : list string).

(** [EvStart l]: the server accepted the start of replication from [l]. *)
Inductive Event :=
| EvStart (start : Z)
| EvReceive (m : BackendMessage)
| EvStatus (u : StandbyStatusUpdate)
| EvSubmit (jobs : list Job) (answer : result error (list SubmitResult))
| EvCommit (stmts : list stmt)
| EvMetric (m : metric).

(** The fields of [Driver] that change while it runs: the leader flag, whether
    the wake-up channel of the maintenance holds a token, and whether standby
    was logged. *)
Record Driver := { isLeader : bool; maintWake : bool; standbyLogged : bool }.

Record World := { w_tick : nat; w_db : Db; w_trace : list Event; w_drv : Driver }.

Definition tick (w : World) : World :=
  {| w_tick := S (w_tick w); w_db := w_db w; w_trace := w_trace w; w_drv := w_drv w |}.
Definition add_event (e : Event) (w : World) : World :=
  {| w_tick := w_tick w; w_db := w_db w; w_trace := w_trace w ++ [e]; w_drv := w_drv w |}.
Definition set_db (db : Db) (w : World) : World :=
  {| w_tick := w_tick w; w_db := db; w_trace := w_trace w; w_drv := w_drv w |}.
Definition set_drv (d : Driver) (w : World) : World :=
  {| w_tick := w_tick w; w_db := w_db w; w_trace := w_trace w; w_drv := d |}.

(** ** The environment *)

(** A commit that fails may have been applied all the same. *)
Inductive commit_answer := CommitOk | CommitFailed (e : error) (applied : bool).

Class Env := {
  env_now : nat -> Time;
  env_ctx_err : nat -> option error;
  env_receive : nat -> Time -> result error BackendMessage;
  env_send_status : nat -> StandbyStatusUpdate -> option error;
  env_submit : nat -> list Job -> result error (list SubmitResult);
  env_begin : nat -> option error;
  env_exec : nat -> stmt -> option error;
  env_commit : nat -> commit_answer;
  env_query : nat -> option error;
  env_connect : nat -> string -> option error;
  env_identify : nat -> option error;
  env_start_replication : nat -> string -> Z -> list string -> option error;
  env_close : nat -> option error;
  (* waiting for a timer: the error of the context if that is done first *)
  env_timer : nat -> Duration -> option error;
  env_rand : nat -> Z
}.

(** ** The monad *)

Definition ST (S A : Type) : Type := S -> A * S.

#[export] Instance ST_ret S : MRet (ST S) := fun A a w => (a, w).
#[export] Instance ST_bind S : MBind (ST S) := fun A B k m w => let '(a, w') := m w in k a w'.

Abbreviation M := (ST World).

(** Go functions that return an error. *)
Abbreviation ME A := (M (result error A)).

(** [bindE f m k], written [do? x := m orelse f; k]: run [m]; on an error [e]
    return [f e]. *)
Definition bindE {S A B} (f : error -> error) (m : ST S (result error A))
    (k : A -> ST S (result error B)) : ST S (result error B) :=
  r ← m; match r with Ok a => k a | Err e => mret (Err (f e)) end.

Notation "'do?' x := m 'orelse' f ; k" := (bindE f m (fun x => k))
  (at level 10, x pattern, m at level 100, f at level 100, k at level 200, only parsing)
  : pglg_scope.

Open Scope pglg_scope.

(** The identity wrapper: [return err]. *)
Definition same (e : error) : error := e.

(** One external call: its answer and the next tick. *)
Definition ask {A} (answer : nat -> A) : M A := fun w => (answer (w_tick w), tick w).
Definition emit (e : Event) : M unit := fun w => (tt, add_event e w).
Definition get_db : M Db := fun w => (w_db w, w).
Definition put_db (db : Db) : M unit := fun w => (tt, set_db db w).
Definition get_drv : M Driver := fun w => (w_drv w, w).
Definition put_drv (d : Driver) : M unit := fun w => (tt, set_drv d w).

Definition metric_out (m : metric) : M unit := emit (EvMetric m).

(** ** Calls to the outside *)

Section Primitives.
  Context `{Env, PgLsn}.

Definition time_Now : M Time := ask env_now.
Definition ctx_Err : M (option error) := ask env_ctx_err.

Definition conn_ReceiveMessage (deadline : Time) : ME BackendMessage :=
  r ← ask (fun n => env_receive n deadline);
  match r with
  | Ok m => emit (EvReceive m) ≫= fun _ => mret (Ok m)
  | Err e => mret (Err e)
  end.

(** A status update is in the trace once it was handed to the connection. *)
Definition SendStandbyStatusUpdate (u : StandbyStatusUpdate) : ME unit :=
  r ← ask (fun n => env_send_status n u);
  match r with
  | None => emit (EvStatus u) ≫= fun _ => mret (Ok tt)
  | Some e => mret (Err e)
  end.

Definition submit (jobs : list Job) : ME (list SubmitResult) :=
  r ← ask (fun n => env_submit n jobs);
  emit (EvSubmit jobs r) ≫= fun _ => mret r.

Definition pool_Begin : ME Tx :=
  r ← ask env_begin;
  match r with
  | Some e => mret (Err e)
  | None => db ← get_db; mret (Ok {| tx_view := db; tx_stmts := [] |})
  end.

Definition sql_error : error := External "SQL error".

Definition tx_Exec (tx : Tx) (s : stmt) : ME Tx :=
  r ← ask (fun n => env_exec n s);
  match r with
  | Some e => mret (Err e)
  | None =>
      match apply_stmt s (tx_view tx) with
      | Some db => mret (Ok {| tx_view := db; tx_stmts := tx_stmts tx ++ [s] |})
      | None => mret (Err sql_error)
      end
  end.

Definition tx_Commit (tx : Tx) : ME unit :=
  r ← ask env_commit;
  match r with
  | CommitOk => put_db (tx_view tx) ≫= fun _ => emit (EvCommit (tx_stmts tx)) ≫= fun _ => mret (Ok tt)
  | CommitFailed e true =>
      put_db (tx_view tx) ≫= fun _ => emit (EvCommit (tx_stmts tx)) ≫= fun _ => mret (Err e)
  | CommitFailed e false => mret (Err e)
  end.

(** SELECT last_lsn::text FROM table WHERE slot_name = slot, scanned as a row. *)
Definition query_cursor (table slot : string) : ME string :=
  r ← ask env_query;
  match r with
  | Some e => mret (Err e)
  | None =>
      db ← get_db;
      match db_cursor db !! (table, slot) with
      | Some l => mret (Ok (pg_lsn_out l))
      | None => mret (Err ErrNoRows)
      end
  end.

End Primitives.

(** ** Weakest preconditions *)

Definition wp {S A} (m : ST S A) (Q : A -> S -> Prop) (w : S) : Prop :=
  let '(a, w') := m w in Q a w'.

Lemma wp_ret {S A} (a : A) Q (w : S) : Q a w -> wp (mret a) Q w.
Proof. done. Qed.

Lemma wp_bind {S A B} (m : ST S A) (k : A -> ST S B) Q w :
  wp m (fun a => wp (k a) Q) w -> wp (m ≫= k) Q w.
Proof. unfold wp, mbind, ST_bind. by destruct (m w). Qed.

Lemma wp_mono {S A} (m : ST S A) (P Q : A -> S -> Prop) w :
  wp m P w -> (forall a w', P a w' -> Q a w') -> wp m Q w.
Proof. unfold wp. destruct (m w). auto. Qed.

Lemma wp_bindE {S A B} f (m : ST S (result error A)) (k : A -> ST S (result error B)) Q w :
  wp m (fun r w' => match r with Ok a => wp (k a) Q w' | Err e => Q (Err (f e)) w' end) w ->
  wp (bindE f m k) Q w.
Proof.
  intros H. apply wp_bind. eapply wp_mono; [exact H|]. intros [a|e] w' H'; [done|].
  by apply wp_ret.
Qed.

Lemma wp_ask {A} (answer : nat -> A) Q w : Q (answer (w_tick w)) (tick w) -> wp (ask answer) Q w.
Proof. done. Qed.

Lemma wp_emit e Q w : Q tt (add_event e w) -> wp (emit e) Q w.
Proof. done. Qed.
Lemma wp_get_db Q w : Q (w_db w) w -> wp get_db Q w.
Proof. done. Qed.
Lemma wp_put_db db Q w : Q tt (set_db db w) -> wp (put_db db) Q w.
Proof. done. Qed.
Lemma wp_get_drv Q w : Q (w_drv w) w -> wp get_drv Q w.
Proof. done. Qed.
Lemma wp_put_drv d Q w : Q tt (set_drv d w) -> wp (put_drv d) Q w.
Proof. done. Qed.

(** A frame: a world from which only external calls were made. *)
Definition same_state (w w' : World) : Prop :=
  w_db w' = w_db w /\ w_trace w' = w_trace w /\ w_drv w' = w_drv w.

#[export] Instance same_state_po : PreOrder same_state.
Proof. split; [done|intros w1 w2 w3 (?&?&?) (?&?&?); split_and!; congruence]. Qed.

(** ** Automation

    [wp_step] runs the next primitive of a program. *)
Ltac wp_step :=
  match goal with
  | |- wp (mbind _ _) _ _ => apply wp_bind
  | |- wp (bindE _ _ _) _ _ => apply wp_bindE
  | |- wp (mret _) _ _ => apply wp_ret
  | |- wp (ask _) _ _ => apply wp_ask
  | |- wp (emit _) _ _ => apply wp_emit
  | |- wp (metric_out _) _ _ => apply wp_emit
  | |- wp get_db _ _ => apply wp_get_db
  | |- wp (put_db _) _ _ => apply wp_put_db
  | |- wp get_drv _ _ => apply wp_get_drv
  | |- wp (put_drv _) _ _ => apply wp_put_drv
  end; cbn beta iota.
