(* ===== verification/WalIO.v ===== *)
(** * The replication consumer (wal.go): operations on the connection

    The operations of [walConsumer] that talk to the server. The consumer is a
    Go pointer that they update in place: they take it and return it beside
    their error, because a caller that goes on after an error sees the update. *)

From S2P Require Export Effects.

Open Scope Z_scope.
Open Scope pglg_scope.

Section WalIO.
  Context `{Env, Pglogrepl, PgLsn}.

(** [connect]. *)
Definition connect (connString : string) (w : walConsumer) : ME walConsumer :=
  r ← ask (fun n => env_connect n (replConnString connString));
  match r with
  | Some e => mret (Err (Wrapf "pglg: replication connect: %w" [] e))
  | None => mret (Ok (set_conn w))
  end.

(** [startStreaming]. *)
Definition startStreaming (startLSN : Z) (w : walConsumer) : ME walConsumer :=
  if negb (conn w) then mret (Err (Errorf "pglg: invalid connection type" []))
  else
    r ← ask env_identify;
    match r with
    | Some e => mret (Err (Wrapf "pglg: identify system: %w" [] e))
    | None =>
        r ← ask (fun n => env_start_replication n (slotName w) startLSN (pluginArgs w));
        match r with
        | Some e => mret (Err (mapStartReplicationError e))
        | None =>
            emit (EvStart startLSN) ≫= fun _ =>
            mret (Ok (set_positions startLSN startLSN w))
        end
    end.

(** [sendStandbyStatus]. *)
Definition sendStandbyStatus (w : walConsumer) : ME unit :=
  now ← time_Now;
  SendStandbyStatusUpdate (standbyStatusUpdate now w).

(** The keepalive and XLogData cases of [receiveMessage], on the data after the
    first byte. A nil payload is [Ok None]. *)
Definition handleKeepalive (rest : string) (w : walConsumer) : M (walConsumer * result error bytes) :=
  match ParsePrimaryKeepaliveMessage rest with
  | Err e => mret (w, Err (Wrapf "pglg: parse keepalive: %w" [] e))
  | Ok pkm =>
      let w := advancePos (ServerWALEnd pkm) w in
      if ReplyRequested pkm then
        r ← sendStandbyStatus w;
        match r with
        | Err e => mret (w, Err e)
        | Ok _ => mret (w, Ok None)
        end
      else mret (w, Ok None)
  end.

Definition handleXLogData (rest : string) (w : walConsumer) : walConsumer * result error bytes :=
  match ParseXLogData rest with
  | Err e => (w, Err (Wrapf "pglg: parse xlog data: %w" [] e))
  | Ok xld => (advancePos (endPos xld) w, Ok (Some (WALData xld)))
  end.

(** [pglogrepl.PrimaryKeepaliveMessageByteID] and [XLogDataByteID]. *)
Definition PrimaryKeepaliveMessageByteID : ascii := "k".
Definition XLogDataByteID : ascii := "w".

(** [receiveMessage]. *)
Definition receiveMessage (deadline : Time) (w : walConsumer) : M (walConsumer * result error bytes) :=
  r ← conn_ReceiveMessage deadline;
  match r with
  | Err e =>
      if pgconn_Timeout e then mret (w, Err errStandbyTimeout)
      else mret (w, Err (Wrapf "pglg: receive message: %w" [] e))
  | Ok (CopyData (String c rest)) =>
      if Ascii.eqb c PrimaryKeepaliveMessageByteID then handleKeepalive rest w
      else if Ascii.eqb c XLogDataByteID then mret (handleXLogData rest w)
      else mret (w, Ok None)
  | Ok _ => mret (w, Ok None)
  end.

(** [close]: its error is ignored by the caller. *)
Definition close (w : walConsumer) : M (option error) :=
  if conn w then ask env_close else mret None.

End WalIO.
