(* ===== verification/Store.v ===== *)
(** * The durable state of the driver (cursor.go, dlq.go, persistFlushResult)

    The cursor row of a slot is read at the start of a session and written, in
    one transaction with the dead-letter rows of a batch, when the batch is
    flushed. *)

From S2P Require Export WalIO Config.

Open Scope Z_scope.
Open Scope pglg_scope.

Section Store.
  Context `{Env, Pglogrepl, PgLsn}.
  Variable cfg : Config.

(** The key of the driver's cursor row. *)
Definition cursor_key : string * string := (cursorTable cfg, SlotName cfg).

(** [readCursor]. *)
Definition readCursor : ME Z :=
  r ← query_cursor (cursorTable cfg) (SlotName cfg);
  match r with
  | Err e =>
      if errors_Is e ErrNoRows then mret (Ok 0)
      else mret (Err (Wrapf "pglg: read cursor: %w" [] e))
  | Ok lsnStr =>
      match ParseLSN lsnStr with
      | Err e => mret (Err (Wrapf "pglg: parse cursor LSN %q: %w" [AStr lsnStr] e))
      | Ok parsed => mret (Ok parsed)
      end
  end.

(** [writeCursorTx]. *)
Definition writeCursorTx (tx : Tx) (l : Z) : ME Tx :=
  do? tx := tx_Exec tx (UpsertCursor (cursorTable cfg) (SlotName cfg) (LSN_String l))
    orelse Wrapf "pglg: write cursor: %w" [];
  mret (Ok tx).

(** [insertDLQRows]. *)
Definition insertDLQRows (tx : Tx) (table : string) (rows : list dlqRow) : ME Tx :=
  match rows with
  | [] => mret (Ok tx)
  | _ :: _ =>
      do? tx := tx_Exec tx (InsertRows (insertDLQRows_stmt table rows))
        orelse Wrapf "pglg: insert dlq: %w" [];
      mret (Ok tx)
  end.

(** [persistFlushResult]. The deferred rollback leaves no trace: before a
    commit nothing has reached the database. *)
Definition persistFlushResult (dlqRows : list dlqRow) (commitLSN : Z) : ME unit :=
  do? tx := pool_Begin orelse Wrapf "pglg: begin flush tx: %w" [];
  do? tx := insertDLQRows tx (dlqTable cfg) dlqRows orelse same;
  do? tx := writeCursorTx tx commitLSN orelse same;
  do? _ := tx_Commit tx orelse Wrapf "pglg: commit flush tx: %w" [];
  mret (Ok tt).

End Store.

(** The documented behaviour of the LSN text form that the driver relies on:
    the server reads what [pglogrepl] prints and the other way round. *)
Class LsnLaws `{Pglogrepl, PgLsn} : Prop := {
  lsn_in_text l : is_uint64 l -> pg_lsn_in (LSN_String l) = Some l;
  lsn_out_text l : is_uint64 l -> ParseLSN (pg_lsn_out l) = Ok l }.

(** A query that fails does not fail by the error of an empty result. *)
Class QueryLaws `{Env} : Prop := {
  query_error n e : env_query n = Some e -> errors_Is e ErrNoRows = false }.

Section StoreSpec.
  Context `{Env, Pglogrepl, PgLsn} {Hlsn : LsnLaws} {Hquery : QueryLaws}.
  Variable cfg : Config.

(** ** Specification of the durable state *)

(** The cursor as the driver reads it: 0 when there is no row. *)
Definition cursor_db (db : Db) : Z := default 0 (db_cursor db !! cursor_key cfg).
Definition cursor_of (w : World) : Z := cursor_db (w_db w).

(** What a flush of [rows] up to [l] leaves in the database: the rows, and the
    cursor if that moves it forward. *)
Definition flushed_db (rows : list dlqRow) (l : Z) (db : Db) : Db :=
  {| db_cursor := upsert_greater (cursor_key cfg) l (db_cursor db);
     db_dlq := db_dlq db ++ map (fun r => (dlqTable cfg, row_args r)) rows |}.

Lemma upsert_greater_lookup k l m :
  0 <= l -> default 0 (upsert_greater k l m !! k) = Z.max (default 0 (m !! k)) l.
Proof.
  intros. unfold upsert_greater. destruct (m !! k) as [old|] eqn:E; cbn.
  - destruct (Z.ltb_spec old l); rewrite ?lookup_insert_eq, ?E; cbn; lia.
  - rewrite lookup_insert_eq. cbn. lia.
Qed.

Lemma upsert_greater_other k k' l m : k <> k' -> upsert_greater k l m !! k' = m !! k'.
Proof.
  intros. unfold upsert_greater. destruct (m !! k); [destruct (_ <? _); [|done]|];
    by rewrite lookup_insert_ne.
Qed.

Lemma cursor_flushed rows l db :
  0 <= l -> cursor_db (flushed_db rows l db) = Z.max (cursor_db db) l.
Proof. apply upsert_greater_lookup. Qed.

(** ** Lemmas *)

Lemma wp_tx_Exec tx s Q w :
  (forall e w', same_state w w' -> Q (Err e) w') ->
  (forall w', same_state w w' -> forall db, apply_stmt s (tx_view tx) = Some db ->
     Q (Ok {| tx_view := db; tx_stmts := tx_stmts tx ++ [s] |}) w') ->
  wp (tx_Exec tx s) Q w.
Proof.
  intros He Hok. unfold tx_Exec. repeat wp_step.
  destruct (env_exec _ _); repeat wp_step; [by apply He|].
  destruct (apply_stmt _ _) eqn:E; repeat wp_step; [by apply Hok|by apply He].
Qed.

Lemma wp_insertDLQRows tx rows Q w :
  (forall e w', same_state w w' -> Q (Err e) w') ->
  (forall w' stmts, same_state w w' ->
     Q (Ok {| tx_view := {| db_cursor := db_cursor (tx_view tx);
                db_dlq := db_dlq (tx_view tx) ++ map (fun r => (dlqTable cfg, row_args r)) rows |};
              tx_stmts := stmts |}) w') ->
  wp (insertDLQRows tx (dlqTable cfg) rows) Q w.
Proof.
  intros He Hok. destruct rows as [|r rows]; cbn [insertDLQRows].
  - wp_step. specialize (Hok w (tx_stmts tx) ltac:(done)). cbn in Hok. rewrite app_nil_r in Hok.
    by destruct tx as [[] ?].
  - wp_step. apply wp_tx_Exec; [by intros; apply He|]. intros w' Hw db Hdb. wp_step.
    cbn [apply_stmt] in Hdb. destruct (insertDLQRows_stmt_rows (dlqTable cfg) (r :: rows)) as [E1 E2].
    rewrite E1, E2 in Hdb. cbn [mbind option_bind] in Hdb. injection Hdb as <-.
    rewrite map_map. by apply Hok.
Qed.

(** [persistFlushResult] is atomic: either nothing changes and it reports an
    error, or the database is [flushed_db]; success is the latter. *)
Lemma persistFlushResult_spec rows l Q w :
  is_uint64 l ->
  (forall e w', same_state w w' -> Q (Err e) w') ->
  (forall r stmts w', w_db w' = flushed_db rows l (w_db w) ->
     w_trace w' = w_trace w ++ [EvCommit stmts] -> w_drv w' = w_drv w -> Q r w') ->
  wp (persistFlushResult cfg rows l) Q w.
Proof.
  intros Hl He Hok. unfold persistFlushResult, pool_Begin. repeat wp_step.
  destruct (env_begin _); repeat wp_step; [by apply He|].
  apply wp_insertDLQRows; [by intros; apply He|]. intros w1 st1 Hw1.
  wp_step. unfold writeCursorTx. wp_step.
  apply wp_tx_Exec; [intros e w2 Hw2; apply He; by transitivity w1|]. intros w2 Hw2 db Hdb.
  cbn [apply_stmt tx_view] in Hdb. rewrite lsn_in_text in Hdb by done.
  cbn [mbind option_bind db_cursor db_dlq] in Hdb. injection Hdb as <-.
  assert (same_state w w2) as (Ed & Et & Edr) by (transitivity w1; [exact Hw1|exact Hw2]).
  wp_step. wp_step. unfold tx_Commit. repeat wp_step.
  assert (forall stmts, w_trace w2 ++ [EvCommit stmts] = w_trace w ++ [EvCommit stmts]) as Et' by (intros; by rewrite Et).
  destruct (env_commit _) as [|e []]; repeat wp_step.
  1-2: eapply Hok; [done|apply Et'|done].
  by apply He.
Qed.

(** Reading the cursor gives [cursor_of], or an error. *)
Lemma readCursor_spec Q w :
  is_uint64 (cursor_of w) ->
  (forall e w', same_state w w' -> Q (Err e) w') ->
  (forall w', same_state w w' -> Q (Ok (cursor_of w)) w') ->
  wp (readCursor cfg) Q w.
Proof.
  intros Hc He Hok. unfold readCursor, query_cursor. repeat wp_step.
  destruct (env_query _) as [e|] eqn:E; repeat wp_step.
  { rewrite (query_error _ _ E). by apply He. }
  unfold cursor_of, cursor_db, cursor_key in *. cbn [w_db tick].
  destruct (db_cursor (w_db w) !! _) as [l|]; repeat wp_step.
  - rewrite lsn_out_text by done. by apply Hok.
  - cbn. by apply Hok.
Qed.

End StoreSpec.
