(* ===== verification/Driver.v ===== *)
(** * The streaming session (driver.go)

    [flushBatch], the helpers of the receive loop and [processWALStream]: one
    [Definition] per phase of the loop body, composed as the body composes
    them. The locals of [processWALStream] are a record; the loop runs on fuel,
    one unit per iteration, and [None] says that it is still running. *)

From S2P Require Export Store.

Open Scope Z_scope.
Open Scope pglg_scope.

(** The locals of [processWALStream]. *)
Record stream := {
  st_wal : walConsumer;
  st_buf : txBuffer;
  pendingInserts : list parsedInsert;
  pendingCommitLSN : Z;
  inTx : bool;
  nextBatchAt : Time;
  nextStandbyAt : Time }.

Definition set_wal (w : walConsumer) (s : stream) : stream :=
  {| st_wal := w; st_buf := st_buf s; pendingInserts := pendingInserts s;
     pendingCommitLSN := pendingCommitLSN s; inTx := inTx s;
     nextBatchAt := nextBatchAt s; nextStandbyAt := nextStandbyAt s |}.
Definition set_buf (b : txBuffer) (s : stream) : stream :=
  {| st_wal := st_wal s; st_buf := b; pendingInserts := pendingInserts s;
     pendingCommitLSN := pendingCommitLSN s; inTx := inTx s;
     nextBatchAt := nextBatchAt s; nextStandbyAt := nextStandbyAt s |}.
Definition set_pending (p : list parsedInsert) (s : stream) : stream :=
  {| st_wal := st_wal s; st_buf := st_buf s; pendingInserts := p;
     pendingCommitLSN := pendingCommitLSN s; inTx := inTx s;
     nextBatchAt := nextBatchAt s; nextStandbyAt := nextStandbyAt s |}.
Definition set_commitLSN (l : Z) (s : stream) : stream :=
  {| st_wal := st_wal s; st_buf := st_buf s; pendingInserts := pendingInserts s;
     pendingCommitLSN := l; inTx := inTx s;
     nextBatchAt := nextBatchAt s; nextStandbyAt := nextStandbyAt s |}.
Definition set_inTx (b : bool) (s : stream) : stream :=
  {| st_wal := st_wal s; st_buf := st_buf s; pendingInserts := pendingInserts s;
     pendingCommitLSN := pendingCommitLSN s; inTx := b;
     nextBatchAt := nextBatchAt s; nextStandbyAt := nextStandbyAt s |}.
Definition set_nextBatchAt (t : Time) (s : stream) : stream :=
  {| st_wal := st_wal s; st_buf := st_buf s; pendingInserts := pendingInserts s;
     pendingCommitLSN := pendingCommitLSN s; inTx := inTx s;
     nextBatchAt := t; nextStandbyAt := nextStandbyAt s |}.
Definition set_nextStandbyAt (t : Time) (s : stream) : stream :=
  {| st_wal := st_wal s; st_buf := st_buf s; pendingInserts := pendingInserts s;
     pendingCommitLSN := pendingCommitLSN s; inTx := inTx s;
     nextBatchAt := nextBatchAt s; nextStandbyAt := t |}.

Definition nextReceiveDeadline (nextBatchAt nextStandbyAt : Time) : Time :=
  if IsZero nextBatchAt || Before nextStandbyAt nextBatchAt then nextStandbyAt else nextBatchAt.

Definition canAdvanceIdleFlush (pendingInserts : list parsedInsert) (buf : txBuffer) (inTx : bool)
  : bool :=
  Nat.eqb (length pendingInserts) 0 && tb_empty buf && negb inTx.

Section Driver.
  Context `{Env, Pglogrepl, PgLsn}.
  Variable cfg : Config.

(** [recordRowAge]; [time.Since(t)] reads the clock. *)
Definition recordRowAge (p : parsedInsert) : M unit :=
  if IsZero (createdAt p) then mret tt
  else
    now ← time_Now;
    metric_out (Distribution "jack.courier.row.age" (MSeconds (Sub now (createdAt p)))
      [("job_type:" ++ jobType p)%string]).

Fixpoint recordRowAges (ps : list parsedInsert) : M unit :=
  match ps with
  | [] => mret tt
  | p :: ps' => recordRowAge p ≫= fun _ => recordRowAges ps'
  end.

(** The metrics of the dead-letter rows of a flush. *)
Fixpoint dlqWriteMetrics (rows : list dlqRow) : M unit :=
  match rows with
  | [] => mret tt
  | r :: rows' =>
      metric_out (Incr "jack.courier.dlq.write"
        [("job_type:" ++ d_jobType r)%string; ("reason:" ++ d_reason r)%string]) ≫= fun _ =>
      dlqWriteMetrics rows'
  end.

(** The end of [flushBatch], after the cursor was persisted. *)
Definition flushReport (w : walConsumer) (dlqRows : list dlqRow) (flushStart : Time) : M unit :=
  _ ← sendStandbyStatus w;   (* a failure is only logged *)
  dlqWriteMetrics dlqRows ≫= fun _ =>
  metric_out (Incr "jack.courier.flush.count" ["status:success"%string]) ≫= fun _ =>
  now ← time_Now;
  metric_out (Distribution "jack.courier.flush.duration" (MSeconds (Sub now flushStart)) []) ≫= fun _ =>
  if Nat.ltb 0 (length dlqRows) then
    metric_out (Distribution "jack.courier.flush.failed_jobs" (MCount (Z.of_nat (length dlqRows))) [])
  else mret tt.

Definition flushError {A} (e : error) : ME A :=
  metric_out (Incr "jack.courier.flush.count" ["status:error"%string]) ≫= fun _ => mret (Err e).

(** [flushBatch]. The consumer is returned; on an error it is unchanged. *)
Definition flushBatch (w : walConsumer) (inserts : list parsedInsert) (commitLSN : Z)
  : ME walConsumer :=
  match inserts with
  | [] => mret (Ok w)
  | _ :: _ =>
      let jobs := map toJob inserts in
      metric_out (Distribution "jack.courier.flush.batch_size" (MCount (Z.of_nat (length jobs))) []) ≫= fun _ =>
      flushStart ← time_Now;
      r ← submit jobs;
      match r with
      | Err e => flushError (Wrapf "pglg: submit failed: %w" [] e)
      | Ok results =>
          match mapResults inserts results with
          | Err e => flushError (Wrapf "pglg: jack response inconsistent: %w" [] e)
          | Ok dlqRows =>
              do? _ := persistFlushResult cfg dlqRows commitLSN orelse same;
              let w := setFlushLSN commitLSN w in
              flushReport w dlqRows flushStart ≫= fun _ =>
              mret (Ok w)
          end
      end
  end.

(** ** The loop body *)

(** The batch deadline: flush what is pending. It returns the instant the rest
    of the body compares with. *)
Definition batchDue (s : stream) : ME (stream * Time) :=
  now ← time_Now;
  if negb (IsZero (nextBatchAt s)) && negb (Before now (nextBatchAt s)) then
    do? s := (if Nat.ltb 0 (length (pendingInserts s)) then
                do? w := flushBatch (st_wal s) (pendingInserts s) (pendingCommitLSN s) orelse same;
                mret (Ok (set_pending [] (set_wal w s)))
              else mret (Ok s)) orelse same;
    now ← time_Now;
    mret (Ok (set_nextBatchAt zeroTime s, now))
  else mret (Ok (s, now)).

(** The idle advance of the cursor. *)
Definition idleFlush (s : stream) : ME stream :=
  if canAdvanceIdleFlush (pendingInserts s) (st_buf s) (inTx s) && receivedPastFlush (st_wal s) then
    let flushLSN := writePos (st_wal s) in
    do? _ := persistFlushResult cfg [] flushLSN orelse same;
    mret (Ok (set_wal (setFlushLSN flushLSN (st_wal s)) s))
  else mret (Ok s).

(** The standby deadline. *)
Definition standbyDue (s : stream) (now : Time) : ME stream :=
  if negb (Before now (nextStandbyAt s)) then
    do? s := idleFlush s orelse same;
    do? _ := sendStandbyStatus (st_wal s) orelse Wrapf "pglg: standby status: %w" [];
    now ← time_Now;
    mret (Ok (set_nextStandbyAt (GoTime.Add now (StandbyInterval cfg)) s))
  else mret (Ok s).

(** The case [*walCommit] of the switch. *)
Definition handleCommit (commitLSN : Z) (s : stream) : ME stream :=
  let wasPendingEmpty := Nat.eqb (length (pendingInserts s)) 0 in
  recordRowAges (inserts (st_buf s)) ≫= fun _ =>
  let s := set_pending (pendingInserts s ++ inserts (st_buf s)) s in
  let s := if pendingCommitLSN s <? commitLSN then set_commitLSN commitLSN s else s in
  let s := set_inTx false (set_buf (tb_reset (st_buf s)) s) in
  s ← (if wasPendingEmpty && Nat.ltb 0 (length (pendingInserts s)) then
         now ← time_Now;
         mret (set_nextBatchAt (GoTime.Add now (BatchTimeout cfg)) s)
       else mret s);
  if MaxBatchSize cfg <=? Z.of_nat (length (pendingInserts s)) then
    do? w := flushBatch (st_wal s) (pendingInserts s) (pendingCommitLSN s) orelse same;
    mret (Ok (set_nextBatchAt zeroTime (set_pending [] (set_wal w s))))
  else mret (Ok s).

(** The switch over the event. *)
Definition handleEvent (ev : walEvent) (s : stream) : ME stream :=
  match ev with
  | walBegin => mret (Ok (set_inTx true s))
  | walRelation rid name columns =>
      mret (Ok (set_wal (setRelation rid name columns (st_wal s)) s))
  | walInsert relationID values =>
      match parseInsert (relations (st_wal s)) relationID values with
      | Err _ => metric_out (Incr "jack.courier.parse.error" []) ≫= fun _ => mret (Ok s)
      | Ok (Some job) => mret (Ok (set_buf (tb_addInsert (st_buf s) job) s))
      | Ok None => mret (Ok s)
      end
  | walCommit commitLSN => handleCommit commitLSN s
  end.

(** From the received data to the switch. *)
Definition handleData (walData : string) (s : stream) : ME stream :=
  match parseWALMessage walData with
  | Err _ => metric_out (Incr "jack.courier.wal.parse.error" []) ≫= fun _ => mret (Ok s)
  | Ok None => mret (Ok s)
  | Ok (Some ev) => handleEvent ev s
  end.

(** The receive of the loop body. *)
Definition receiveNext (s : stream) : ME stream :=
  wr ← receiveMessage (nextReceiveDeadline (nextBatchAt s) (nextStandbyAt s)) (st_wal s);
  let s := set_wal wr.1 s in
  match wr.2 with
  | Err e =>
      if errors_Is e errStandbyTimeout then mret (Ok s)
      else mret (Err (Wrapf "pglg: receive: %w" [] e))
  | Ok None => mret (Ok s)
  | Ok (Some walData) => handleData walData s
  end.

(** One iteration. An error is the [return] of the function. *)
Definition iteration (s : stream) : ME stream :=
  e ← ctx_Err;
  match e with
  | Some e => mret (Err e)
  | None =>
      do? sn := batchDue s orelse same;
      do? s := standbyDue sn.1 sn.2 orelse same;
      receiveNext s
  end.

(** The locals at the start of the loop. *)
Definition stream0 (w : walConsumer) (startLSN : Z) (nextStandbyAt : Time) : stream :=
  {| st_wal := w; st_buf := {| inserts := [] |}; pendingInserts := [];
     pendingCommitLSN := startLSN; inTx := false; nextBatchAt := zeroTime;
     nextStandbyAt := nextStandbyAt |}.

(** The loop only ends by an error. *)
Fixpoint streamLoop (fuel : nat) (s : stream) : M (option error) :=
  match fuel with
  | O => mret None
  | S fuel =>
      r ← iteration s;
      match r with
      | Err e => mret (Some e)
      | Ok s => streamLoop fuel s
      end
  end.

Definition processWALStream (fuel : nat) (w : walConsumer) (startLSN : Z) : M (option error) :=
  now ← time_Now;
  streamLoop fuel (stream0 w startLSN (GoTime.Add now (StandbyInterval cfg))).

End Driver.
