(* ===== verification/Backoff.v ===== *)
(** * Reconnect delays (backoff.go)

    [next] computes with [float64]. The values it meets are non-negative and far
    from the subnormal range, so a float is a mantissa and an exponent, or an
    infinity; every operation rounds to 53 bits, ties to even. *)

From S2P Require Export GoTime.

Open Scope Z_scope.

Module Backoff.

(** ** Non-negative [float64] *)

Inductive f64 := Fin (m e : Z) | Inf | NaN.

(** The mantissa [m] in units of 2^k, rounded to nearest, ties to even. *)
Definition round_shift (m k : Z) : Z :=
  let q := m / 2 ^ k in
  let r := m mod 2 ^ k in
  if 2 * r <? 2 ^ k then q
  else if 2 ^ k <? 2 * r then q + 1
  else if Z.even q then q else q + 1.

(** How many bits of [m] do not fit in 53. *)
Definition excess (m : Z) : Z := Z.max 0 (Z.log2 m - 52).

Definition round53 (m e : Z) : f64 :=
  let k := excess m in
  let q := round_shift m k in
  if 1024 <=? Z.log2 q + e + k then Inf else Fin q (e + k).

Definition float64_of_int (z : Z) : f64 := round53 z 0.

Definition fmul (a b : f64) : f64 :=
  match a, b with
  | Fin m e, Fin m' e' => round53 (m * m') (e + e')
  | Inf, Fin m _ | Fin m _, Inf => if m =? 0 then NaN else Inf
  | Inf, Inf => Inf
  | NaN, _ | _, NaN => NaN
  end.

Definition fadd (a b : f64) : f64 :=
  match a, b with
  | Fin m e, Fin m' e' =>
      let l := Z.min e e' in round53 (m * 2 ^ (e - l) + m' * 2 ^ (e' - l)) l
  | NaN, _ | _, NaN => NaN
  | _, _ => Inf
  end.

(** [a > b]. *)
Definition fgt (a b : f64) : bool :=
  match a, b with
  | Fin m e, Fin m' e' => let l := Z.min e e' in m' * 2 ^ (e' - l) <? m * 2 ^ (e - l)
  | Inf, Fin _ _ => true
  | _, _ => false
  end.

(** [math.Pow(2.0, float64(n))] for an integer [n >= 0]. *)
Definition math_Pow2 (n : Z) : f64 := if 1024 <=? n then Inf else Fin 1 n.

(** Conversion to an integer: towards zero. Out of range is not defined by the
    language; the value is that of amd64. *)
Definition int64_of_float (a : f64) : Z :=
  match a with
  | Fin m e =>
      let v := if 0 <=? e then m * 2 ^ e else m / 2 ^ (- e) in
      if v <=? int64_max then v else int64_min
  | _ => int64_min
  end.

(** ** The backoff *)

(** The multiplier is the 2.0 of its only construction, in [Run]. *)
Record backoff := { initial : Duration; max : Duration; attempt : Z }.

(** [rand.Float64()] is [k / 2^53]. *)
Definition next (k : Z) (b : backoff) : Duration * backoff :=
  let d := fmul (float64_of_int (initial b)) (math_Pow2 (attempt b)) in
  let d := if fgt d (float64_of_int (max b)) then float64_of_int (max b) else d in
  let b := {| initial := initial b; max := max b; attempt := attempt b + 1 |} in
  let jitter := fadd (Fin 3 (-2)) (fmul (Fin k (-53)) (Fin 1 (-2))) in
  (int64_of_float (fmul d jitter), b).

Definition reset (b : backoff) : backoff :=
  {| initial := initial b; max := max b; attempt := 0 |}.

(** ** Specification *)

(** The delay without jitter: doubled at every attempt, capped. *)
Definition nominal (b : backoff) : Z := Z.min (initial b * 2 ^ attempt b) (max b).

Definition backoff_wf (b : backoff) : Prop :=
  0 < initial b < 2 ^ 53 /\ 0 < max b < 2 ^ 53 /\ 0 <= attempt b.

Example next_0 : next 0 {| initial := 1000000000; max := 30000000000; attempt := 0 |} =
  (750000000, {| initial := 1000000000; max := 30000000000; attempt := 1 |}).
Proof. vm_compute. reflexivity. Qed.
Example next_big : (next (2^53-1) {| initial := 1000000000; max := 30000000000; attempt := 2000 |}).1 =
  30000000000.
Proof. vm_compute. reflexivity. Qed.

(** ** Rounding *)

Lemma excess_nonneg m : 0 <= excess m.
Proof. unfold excess. lia. Qed.

(** A mantissa that fits is kept. *)
Lemma excess_small m : 0 <= m < 2 ^ 53 -> excess m = 0.
Proof.
  intros. unfold excess. destruct (Z.eq_dec m 0) as [->|]; [done|].
  assert (Z.log2 m < 53) by (apply Z.log2_lt_pow2; lia). lia.
Qed.

Lemma round_shift_0 m : round_shift m 0 = m.
Proof. unfold round_shift. rewrite Z.div_1_r, Z.mod_1_r. done. Qed.

(** Rounding moves by at most half a unit. *)
Lemma round_shift_near m k :
  0 <= k -> 2 * m - 2 ^ k <= 2 * (round_shift m k * 2 ^ k) <= 2 * m + 2 ^ k.
Proof.
  intros Hk. unfold round_shift. pose proof (Z.pow_pos_nonneg 2 k ltac:(lia) Hk) as Hp.
  pose proof (Z_div_mod_eq_full m (2 ^ k)) as E. pose proof (Z.mod_pos_bound m (2 ^ k) Hp) as B.
  set (p := 2 ^ k) in *. set (q := m / p) in *. set (r := m mod p) in *. clearbody p q r.
  destruct (Z.ltb_spec (2 * r) p); [nia|]. destruct (Z.ltb_spec p (2 * r)); [nia|].
  destruct (Z.even q); nia.
Qed.

(** Rounding does not pass a multiple of the unit. *)
Lemma round_shift_le m k x : 0 <= k -> m <= x * 2 ^ k -> round_shift m k <= x.
Proof.
  intros Hk Hm. pose proof (round_shift_near m k Hk). pose proof (Z.pow_pos_nonneg 2 k ltac:(lia) Hk).
  unfold round_shift in *. pose proof (Z_div_mod_eq_full m (2 ^ k)) as E.
  pose proof (Z.mod_pos_bound m (2 ^ k) ltac:(lia)) as B.
  set (p := 2 ^ k) in *. set (q := m / p) in *. set (r := m mod p) in *. clearbody p q r.
  assert (q <= x) by nia.
  destruct (Z.ltb_spec (2 * r) p); [done|]. assert (q < x) by nia.
  destruct (Z.ltb_spec p (2 * r)); [lia|]. destruct (Z.even q); lia.
Qed.

Lemma round53_fit m e : 0 <= m < 2 ^ 53 -> e < 971 -> round53 m e = Fin m e.
Proof.
  intros Hm He. unfold round53. rewrite excess_small, round_shift_0, !Z.add_0_r by lia.
  assert (Z.log2 m < 53).
  { destruct (Z.eq_dec m 0) as [->|]; [done|]. apply Z.log2_lt_pow2; lia. }
  destruct (Z.leb_spec 1024 (Z.log2 m + e)); [lia|done].
Qed.

(** ** The jitter is between 3/4 and 1, in units of 2^-53 *)

Lemma jitter_range k :
  0 <= k < 2 ^ 53 ->
  exists j, fadd (Fin 3 (-2)) (fmul (Fin k (-53)) (Fin 1 (-2))) = Fin j (-53) /\
    3 * 2 ^ 51 <= j <= 2 ^ 53.
Proof.
  intros Hk. cbn [fmul]. rewrite Z.mul_1_r, round53_fit by lia.
  cbn [fadd]. change (Z.min (-2) (-53 + -2)) with (-55). change (-2 - -55) with 53.
  change (-53 + -2 - -55) with 0. rewrite Z.pow_0_r, Z.mul_1_r. set (m := 3 * 2 ^ 53 + k).
  assert (excess m = 2) as E.
  { unfold excess, m. rewrite (Z.log2_unique (3 * 2 ^ 53 + k) 54); lia. }
  unfold round53. rewrite E. exists (round_shift m 2).
  assert (3 * 2 ^ 51 <= round_shift m 2 <= 2 ^ 53) as B.
  { split; [|apply round_shift_le; unfold m; lia].
    pose proof (round_shift_near m 2 ltac:(lia)). unfold m in *. lia. }
  assert (Z.log2 (round_shift m 2) <= 53) by (apply Z.lt_succ_r, Z.log2_lt_pow2; lia).
  destruct (Z.leb_spec 1024 (Z.log2 (round_shift m 2) + -55 + 2)); [lia|done].
Qed.

(** ** The delay *)

(** The truncation of [d * jitter] for the float [m0 * 2^n] and jitter [j]. *)
Lemma scaled_range m0 n j :
  0 < m0 -> 0 <= n -> m0 * 2 ^ n < 2 ^ 53 -> 3 * 2 ^ 51 <= j <= 2 ^ 53 ->
  let delay := int64_of_float (fmul (Fin m0 n) (Fin j (-53))) in
  3 * (m0 * 2 ^ n) <= 4 * delay + 5 /\ delay <= m0 * 2 ^ n.
Proof.
  intros Hm Hn HD Hj. pose proof (Z.pow_pos_nonneg 2 n ltac:(lia) Hn) as Hpn.
  assert (n < 53) as Hn53 by (apply (Z.pow_lt_mono_r_iff 2); nia).
  assert (Z.log2 m0 < 53 - n) as Hlog.
  { apply Z.log2_lt_pow2; [done|]. replace 53 with (53 - n + n) in HD by lia.
    rewrite Z.pow_add_r in HD by lia. nia. }
  cbn [fmul]. unfold round53. set (m := m0 * j). set (k := excess m). set (q := round_shift m k).
  assert (m <= m0 * 2 ^ 53) as Hm1 by (unfold m; nia).
  assert (0 <= k <= 53 - n) as Hk.
  { unfold k, excess. split; [lia|].
    assert (Z.log2 m <= Z.log2 (m0 * 2 ^ 53)) by (by apply Z.log2_le_mono).
    rewrite Z.log2_mul_pow2 in * by lia. lia. }
  assert (q * 2 ^ k <= m0 * 2 ^ 53) as Hup.
  { replace (m0 * 2 ^ 53) with (m0 * 2 ^ (53 - k) * 2 ^ k)
      by (rewrite <- Z.mul_assoc, <- Z.pow_add_r by lia; do 2 f_equal; lia).
    apply Z.mul_le_mono_nonneg_r; [lia|]. apply round_shift_le; [lia|].
    rewrite <- Z.mul_assoc, <- Z.pow_add_r by lia. replace (53 - k + k) with 53 by lia. lia. }
  pose proof (round_shift_near m k ltac:(lia)) as Hnear. fold q in Hnear.
  assert (2 ^ k <= 2 ^ (53 - n)) as Hkn by (apply Z.pow_le_mono_r; lia).
  assert (2 ^ (53 - n) * 2 ^ n = 2 ^ 53) as Hsplit
    by (rewrite <- Z.pow_add_r by lia; f_equal; lia).
  pose proof (Z.pow_pos_nonneg 2 k ltac:(lia) ltac:(lia)) as Hpk.
  assert (0 < 2 ^ (53 - n)) as HpN by (apply Z.pow_pos_nonneg; lia).
  assert (0 <= q) as Hq0 by nia.
  assert (Z.log2 q < 1000) as Hlq.
  { destruct (Z.eq_dec q 0) as [->|]; [done|]. apply Z.log2_lt_pow2; [lia|].
    apply Z.le_lt_trans with (m0 * 2 ^ 53); [nia|]. 
    assert (m0 < 2 ^ 53) by nia. apply Z.lt_trans with (2 ^ 53 * 2 ^ 53); [nia|].
    rewrite <- Z.pow_add_r by lia. apply Z.pow_lt_mono_r; lia. }
  destruct (Z.leb_spec 1024 (Z.log2 q + (n + -53) + k)); [lia|]. cbn [int64_of_float].
  assert ((if 0 <=? n + -53 + k then q * 2 ^ (n + -53 + k) else q / 2 ^ (- (n + -53 + k))) =
    q * 2 ^ k / 2 ^ (53 - n)) as ->.
  { destruct (Z.leb_spec 0 (n + -53 + k)).
    - assert (2 ^ k = 2 ^ (n + -53 + k) * 2 ^ (53 - n)) as ->
        by (rewrite <- Z.pow_add_r by lia; f_equal; lia).
      rewrite Z.mul_assoc, Z.div_mul by lia. done.
    - assert (2 ^ (53 - n) = 2 ^ (- (n + -53 + k)) * 2 ^ k) as ->
        by (rewrite <- Z.pow_add_r by lia; f_equal; lia).
      assert (0 < 2 ^ (- (n + -53 + k))) by (apply Z.pow_pos_nonneg; lia).
      rewrite Z.div_mul_cancel_r by lia. done. }
  set (v := q * 2 ^ k / 2 ^ (53 - n)).
  pose proof (Z_div_mod_eq_full (q * 2 ^ k) (2 ^ (53 - n))) as Ev. fold v in Ev.
  pose proof (Z.mod_pos_bound (q * 2 ^ k) (2 ^ (53 - n)) HpN) as Hmod.
  assert (v <= m0 * 2 ^ n) as Hv by nia.
  destruct (Z.leb_spec v int64_max); [|unfold int64_max in *; lia].
  split; [|done]. assert (3 * (m0 * 2 ^ n) * 2 ^ (53 - n) <= 4 * m) by (unfold m; nia). nia.
Qed.

(** C28: whatever the random number, the delay is at most the nominal one
    (the initial delay doubled at each attempt, capped at the maximum) and at
    least three quarters of it up to rounding; the attempt counter grows by one,
    so that without [reset] the nominal delay never shrinks. *)
Theorem backoff_next_bounds (k : Z) (b : backoff) (Hk : 0 <= k < 2 ^ 53) (Hb : backoff_wf b) :
  3 * nominal b <= 4 * (next k b).1 + 5 /\ (next k b).1 <= nominal b /\
  (next k b).2 = {| initial := initial b; max := max b; attempt := attempt b + 1 |} /\
  nominal b <= nominal (next k b).2 <= max b.
Proof.
  destruct Hb as ([Hi0 Hi] & [Hm0 Hm] & Ha). unfold next.
  destruct (jitter_range k Hk) as (j & -> & Hj). cbn [fst snd].
  unfold float64_of_int. rewrite !round53_fit by lia.
  pose proof (Z.pow_pos_nonneg 2 (attempt b) ltac:(lia) Ha) as Hp.
  assert (nominal b <= nominal {| initial := initial b; max := max b; attempt := attempt b + 1 |}
    <= max b) as Hmono.
  { unfold nominal. cbn. rewrite Z.pow_add_r by lia. nia. }
  assert (forall m0 n, 0 < m0 -> 0 <= n -> m0 * 2 ^ n = nominal b ->
    3 * nominal b <= 4 * int64_of_float (fmul (Fin m0 n) (Fin j (-53))) + 5 /\
    int64_of_float (fmul (Fin m0 n) (Fin j (-53))) <= nominal b) as Hs.
  { intros m0 n ? ? E. rewrite <- E. apply scaled_range; try done. unfold nominal in E. lia. }
  set (d := if fgt _ _ then _ else _).
  assert (exists m0 n, d = Fin m0 n /\ 0 < m0 /\ 0 <= n /\ m0 * 2 ^ n = nominal b) as (m0 & n & -> & ? & ? & ?).
  { assert (forall n, 0 <= n -> fgt (Fin (initial b) n) (Fin (max b) 0) = (max b <? initial b * 2 ^ n)) as Hgt.
    { intros n' Hn'. cbn [fgt]. rewrite Z.min_r by lia. rewrite !Z.sub_0_r, Z.mul_1_r. done. }
    assert (1024 <= attempt b -> max b < initial b * 2 ^ attempt b) as Hbig.
    { intros. assert (2 ^ 53 <= 2 ^ attempt b) by (apply Z.pow_le_mono_r; lia). nia. }
    unfold d, math_Pow2, nominal. destruct (Z.leb_spec 1024 (attempt b)).
    - cbn [fmul]. destruct (Z.eqb_spec (initial b) 0); [lia|]. cbn [fgt].
      exists (max b), 0. rewrite Z.min_r by lia. split_and!; [done..|lia].
    - cbn [fmul]. rewrite Z.mul_1_r, Z.add_0_l. destruct (decide (attempt b < 971)).
      + rewrite round53_fit, Hgt by lia. destruct (Z.ltb_spec (max b) (initial b * 2 ^ attempt b)).
        * exists (max b), 0. rewrite Z.min_r by lia. split_and!; [done..|lia].
        * exists (initial b), (attempt b). rewrite Z.min_l by lia. done.
      + unfold round53. rewrite excess_small, round_shift_0 by lia.
        assert (max b < initial b * 2 ^ attempt b).
        { assert (2 ^ 53 <= 2 ^ attempt b) by (apply Z.pow_le_mono_r; lia). nia. }
        exists (max b), 0. rewrite Z.min_r by lia. split_and!; [|done..|lia].
        destruct (_ <=? _); [done|]. rewrite Z.add_0_r, Hgt by lia.
        by rewrite (proj2 (Z.ltb_lt _ _)). }
  destruct (Hs m0 n) as [? ?]; [done..|]. split_and!; try done; apply Hmono.
Qed.

Lemma backoff_next_bounds_witness :
  let b := {| initial := 1 * Second; max := 30 * Second; attempt := 3 |} in
  3 * nominal b <= 4 * (next 12345 b).1 + 5 /\ (next 12345 b).1 <= nominal b.
Proof.
  intros b. assert (backoff_wf b) as Hb by (unfold backoff_wf, b, Second; cbn; lia).
  pose proof (backoff_next_bounds 12345 b ltac:(lia) Hb) as (H1 & H2 & _). split; [exact H1|exact H2].
Defined.

End Backoff.
