(* ===== verification/GoDuration.v ===== *)
(** * [time.ParseDuration]

    Signed sums of numbers with a unit. A fraction is scaled in float64, with the
    arithmetic of [Backoff]. *)

From S2P Require Export Backoff GoError GoTimeFormat.

Open Scope Z_scope.

(** ** Division of [float64]

    The quotient to at least 54 bits, with a last bit that says whether there is
    a remainder, and then rounded: the correctly rounded quotient. *)
Definition fdiv (a b : Backoff.f64) : Backoff.f64 :=
  match a, b with
  | Backoff.Fin m e, Backoff.Fin m' e' =>
      if m' =? 0 then (if m =? 0 then Backoff.NaN else Backoff.Inf)
      else
        let k := Z.max 0 (55 + Z.log2 m' - Z.log2 m) in
        let q := m * 2 ^ k / m' in
        let sticky := if m * 2 ^ k mod m' =? 0 then 0 else 1 in
        Backoff.round53 (2 * q + sticky) (e - e' - k - 1)
  | Backoff.Inf, Backoff.Fin _ _ => Backoff.Inf
  | Backoff.Fin _ _, Backoff.Inf => Backoff.Fin 0 0
  | _, _ => Backoff.NaN
  end.

(** ** The parts of the text *)

Definition overflow63 : Z := 2 ^ 63.

(** [leadingInt]: the value of the digits at the head; an error when it is
    larger than 2^63. *)
Fixpoint leadingInt (s : string) (x : Z) : option (Z * string) :=
  match s with
  | String c s' =>
      if is_digit c then
        if overflow63 / 10 <? x then None
        else
          let x := x * 10 + digit_val c in
          if overflow63 <? x then None else leadingInt s' x
      else Some (x, s)
  | EmptyString => Some (x, s)
  end.

(** [leadingFraction]: the digits at the head as a value and its scale; digits
    that do not fit are dropped. *)
Fixpoint leadingFraction (s : string) (x : Z) (scale : Backoff.f64) (overflow : bool)
  : Z * Backoff.f64 * string :=
  match s with
  | String c s' =>
      if is_digit c then
        if overflow then leadingFraction s' x scale true
        else if (overflow63 - 1) / 10 <? x then leadingFraction s' x scale true
        else
          let y := x * 10 + digit_val c in
          if overflow63 <? y then leadingFraction s' x scale true
          else leadingFraction s' y (Backoff.fmul scale (Backoff.float64_of_int 10)) false
      else (x, scale, s)
  | EmptyString => (x, scale, s)
  end.

(** The unit: everything up to the next point or digit. *)
Definition ends_unit (c : ascii) : bool := Ascii.eqb c "." || is_digit c.

Fixpoint span_unit (s : string) : string * string :=
  match s with
  | String c s' =>
      if ends_unit c then (EmptyString, s)
      else let '(u, r) := span_unit s' in (String c u, r)
  | EmptyString => (EmptyString, EmptyString)
  end.

(** The micro sign (U+00B5) and the Greek letter mu (U+03BC), in UTF-8. *)
Definition micro : string := String (ascii_of_nat 194) (String (ascii_of_nat 181) "s").
Definition mu : string := String (ascii_of_nat 206) (String (ascii_of_nat 188) "s").

Definition unitMap (u : string) : option Duration :=
  if String.eqb u "ns" then Some Nanosecond
  else if String.eqb u "us" || String.eqb u micro || String.eqb u mu then Some Microsecond
  else if String.eqb u "ms" then Some Millisecond
  else if String.eqb u "s" then Some Second
  else if String.eqb u "m" then Some Minute
  else if String.eqb u "h" then Some Hour
  else None.

(** [uint64(float64(f) * (float64(unit) / scale))]. *)
Definition scaled (f unit : Z) (scale : Backoff.f64) : Z :=
  Backoff.int64_of_float
    (Backoff.fmul (Backoff.float64_of_int f) (fdiv (Backoff.float64_of_int unit) scale)).

(** One number with its unit, added to [d]; [None] for every error. *)
Definition parse_number (s : string) (d : Z) : option (Z * string) :=
  let starts := match s with String c _ => ends_unit c | EmptyString => false end in
  if negb starts then None
  else
    '(v, s1) ← leadingInt s 0;
    let pre := negb (String.length s1 =? String.length s)%nat in
    let '(f, scale, s2, post) :=
      match s1 with
      | String "." r =>
          let '(f, scale, r') := leadingFraction r 0 (Backoff.Fin 1 0) false in
          (f, scale, r', negb (String.length r' =? String.length r)%nat)
      | _ => (0, Backoff.Fin 1 0, s1, false)
      end in
    if negb pre && negb post then None
    else
      let '(u, rest) := span_unit s2 in
      if String.eqb u "" then None
      else
        unit ← unitMap u;
        if overflow63 / unit <? v then None
        else
          let v := v * unit in
          let v' := if 0 <? f then v + scaled f unit scale else v in
          if overflow63 <? v' then None
          else
            let d := d + v' in
            if overflow63 <? d then None else Some (d, rest).

(** The loop; every number consumes at least one byte. *)
Fixpoint parse_numbers (fuel : nat) (s : string) (d : Z) : option Z :=
  match s, fuel with
  | EmptyString, _ => Some d
  | _, O => None
  | _, S fuel => '(d, rest) ← parse_number s d; parse_numbers fuel rest d
  end.

(** [time.ParseDuration]: [-Duration(d)] of 2^63 is the smallest duration. *)
Definition ParseDuration (s : string) : option Duration :=
  let '(neg, body) :=
    match s with
    | String c r =>
        if Ascii.eqb c "-" then (true, r) else if Ascii.eqb c "+" then (false, r) else (false, s)
    | EmptyString => (false, s)
    end in
  if String.eqb body "0" then Some 0
  else if String.eqb body "" then None
  else
    d ← parse_numbers (String.length body) body 0;
    if neg then Some (- d) else if overflow63 - 1 <? d then None else Some d.

Example ParseDuration_ex :
  map ParseDuration ["1.5s"; "2h45m"; "-.5ms"; "0"; "1"; "3d"; "."; "1.000000001h"; "0.1s"; "9223372036854775807ns"]%string =
  [Some 1500000000; Some (2 * Hour + 45 * Minute); Some (-500000); Some 0; None; None; None;
   Some 3600000003600; Some 100000000; Some int64_max].
Proof. vm_compute. reflexivity. Qed.

(** ** Whole numbers of units *)

(** A number and the text of its unit. *)
Definition part : Type := Z * string.

Definition part_text (p : part) : string := (FormatUint p.1 ++ p.2)%string.
Definition parts_text (ps : list part) : string := fold_right (fun p acc => part_text p ++ acc)%string ""%string ps.
Definition part_value (p : part) : Z := p.1 * default 0 (unitMap p.2).
Definition parts_value (ps : list part) : Z := fold_right (fun p acc => part_value p + acc) 0 ps.

Definition part_ok (p : part) : Prop := 0 <= p.1 <= int64_max /\ is_Some (unitMap p.2).

Lemma leadingInt_fmt f n acc :
  0 <= n < 10 ^ Z.of_nat f -> n <= int64_max ->
  leadingInt (fmt_uint f n acc) 0 = leadingInt acc n.
Proof.
  unfold int64_max. revert n acc. induction f as [|f IH]; intros n acc Hn Hmax; [cbn in *; f_equal; lia|].
  assert (Hstep : forall x d r, 0 <= d <= 9 -> 0 <= x -> x * 10 + d <= 2 ^ 63 - 1 ->
    leadingInt (String (digit_char d) r) x = leadingInt r (x * 10 + d)).
  { intros x d r Hd Hx Hle. cbn [leadingInt]. rewrite is_digit_char, digit_val_char by lia.
    unfold overflow63. change (2 ^ 63 / 10) with 922337203685477580.
    destruct (Z.ltb_spec 922337203685477580 x); [lia|].
    destruct (Z.ltb_spec (2 ^ 63) (x * 10 + d)); [lia|done]. }
  cbn [fmt_uint]. destruct (Z.ltb_spec n 10).
  - rewrite Hstep by lia. done.
  - rewrite Nat2Z.inj_succ, Z.pow_succ_r in Hn by lia. pose proof (Z.mod_pos_bound n 10).
    pose proof (Z_div_mod_eq_full n 10). assert (0 <= n / 10) by (apply Z.div_pos; lia).
    rewrite IH; [|split; [done|apply Z.div_lt_upper_bound; lia]|lia].
    rewrite Hstep by lia. f_equal. lia.
Qed.

(** What may follow a unit. *)
Definition unit_end (s : string) : Prop :=
  match s with EmptyString => True | String c _ => ends_unit c = true end.

Lemma unit_text_spec u unit rest :
  unitMap u = Some unit -> unit_end rest ->
  span_unit (u ++ rest) = (u, rest) /\ u <> ""%string /\ 0 < unit /\
  exists c r, u = String c r /\ is_digit c = false /\ Ascii.eqb c "." = false.
Proof.
  assert (Hrest : unit_end rest -> span_unit rest = (""%string, rest)).
  { destruct rest; [done|]. cbn. by intros ->. }
  unfold unitMap. intros Hu Hr. specialize (Hrest Hr).
  repeat match type of Hu with (if ?b then _ else _) = _ => destruct b eqn:?Eb end; simplify_eq;
    repeat match goal with
    | E : (_ || _) = true |- _ => apply orb_true_iff in E as [E|E]
    | E : String.eqb _ _ = true |- _ => apply String.eqb_eq in E; subst u
    end; cbn [String.append span_unit micro mu];
    rewrite ?Hrest; (split_and!; [by cbn; rewrite ?Hrest|done|reflexivity|by do 2 eexists]).
Qed.

(** One number with its unit is read as its value. *)
Lemma parse_number_part p rest d unit :
  part_ok p -> unitMap p.2 = Some unit -> unit_end rest ->
  0 <= d -> d + p.1 * unit <= int64_max ->
  parse_number (part_text p ++ rest) d = Some (d + p.1 * unit, rest).
Proof.
  destruct p as [n u]. intros [Hn _] Hu Hr Hd Hsum. cbn [fst snd] in *.
  destruct (unit_text_spec u unit rest Hu Hr) as (Hspan & Hne & Hpos & c & r & -> & Hc & Hdot).
  assert (Htext : (part_text (n, String c r) ++ rest)%string = fmt_uint 20 n (String c r ++ rest)).
  { unfold part_text, FormatUint. cbn [fst snd]. rewrite str_app_assoc. by rewrite <- fmt_uint_app. }
  assert (Hlead : leadingInt (part_text (n, String c r) ++ rest) 0 = Some (n, String c r ++ rest)%string).
  { rewrite Htext, leadingInt_fmt by (unfold int64_max in *; lia). cbn. by rewrite Hc. }
  assert (Hhead : exists c0 s0, (part_text (n, String c r) ++ rest)%string = String c0 s0 /\ ends_unit c0 = true).
  { rewrite Htext. destruct (fmt_uint_head 20 n (String c r ++ rest)) as (dd & s0 & -> & Hdd); [lia|lia|].
    do 2 eexists. split; [done|]. unfold ends_unit. rewrite is_digit_char by done. apply orb_true_r. }
  assert (Hlen : (String.length (String c r ++ rest) =? String.length (part_text (n, String c r) ++ rest))%nat = false).
  { apply Nat.eqb_neq. unfold part_text, FormatUint. cbn [fst snd].
    destruct (fmt_uint_head 20 n "") as (dd & s0 & -> & _); [lia|lia|].
    cbn [String.append String.length]. rewrite !str_length_app. cbn [String.length]. lia. }
  unfold parse_number. destruct Hhead as (c0 & s0 & E0 & Hc0). rewrite Hlead.
  cbn [mbind option_bind]. rewrite Hlen, E0, Hc0. cbn [negb].
  replace (match (String c r ++ rest)%string with
           | String "." r0 => let '(f, scale, r') := leadingFraction r0 0 (Backoff.Fin 1 0) false in
               (f, scale, r', negb (String.length r' =? String.length r0)%nat)
           | _ => (0, Backoff.Fin 1 0, (String c r ++ rest)%string, false) end)
    with (0, Backoff.Fin 1 0, (String c r ++ rest)%string, false).
  2: { cbn [String.append]. destruct c as [[] [] [] [] [] [] [] []]; done. }
  cbn [negb andb]. rewrite Hspan. destruct (String.eqb_spec (String c r) ""); [done|]. rewrite Hu.
  cbn [mbind option_bind]. unfold overflow63, int64_max in *.
  assert (n <= 2 ^ 63 / unit) by (apply Z.div_le_lower_bound; lia).
  destruct (Z.ltb_spec (2 ^ 63 / unit) n); [lia|]. cbn [Z.ltb Z.compare].
  destruct (Z.ltb_spec (2 ^ 63) (n * unit)); [lia|].
  destruct (Z.ltb_spec (2 ^ 63) (d + n * unit)); [lia|done].
Qed.

(** ** Sums of parts *)

Lemma part_value_nonneg p : part_ok p -> 0 <= part_value p.
Proof.
  intros [[Hn _] [unit Hu]]. unfold part_value. rewrite Hu. cbn [default].
  destruct (unit_text_spec _ _ ""%string Hu I) as (_ & _ & ? & _). apply Z.mul_nonneg_nonneg; [exact Hn|by apply Z.lt_le_incl].
Qed.

Lemma parts_value_nonneg ps : Forall part_ok ps -> 0 <= parts_value ps.
Proof.
  induction 1 as [|p ps Hp _ IH]; [done|]. cbn [parts_value fold_right]. fold (parts_value ps).
  pose proof (part_value_nonneg p Hp). lia.
Qed.

Lemma part_text_head p rest : part_ok p ->
  exists d s, (part_text p ++ rest)%string = String (digit_char d) s /\ 0 <= d <= 9.
Proof.
  intros [Hn _]. unfold part_text, FormatUint.
  destruct (fmt_uint_head 20 p.1 "") as (d & s & -> & Hd); [lia|lia|]. cbn. eauto.
Qed.

Lemma parts_end ps : Forall part_ok ps -> unit_end (parts_text ps).
Proof.
  intros [|p ps' Hp _]; [done|]. cbn [parts_text fold_right].
  destruct (part_text_head p (fold_right (fun p acc => part_text p ++ acc)%string ""%string ps') Hp)
    as (d & s & -> & Hd).
  cbn. unfold ends_unit. rewrite is_digit_char by done. apply orb_true_r.
Qed.

Lemma parse_numbers_parts fuel ps d :
  Forall part_ok ps -> (List.length ps <= fuel)%nat -> 0 <= d -> d + parts_value ps <= int64_max ->
  parse_numbers fuel (parts_text ps) d = Some (d + parts_value ps).
Proof.
  intros Hps. revert fuel d. induction Hps as [|p ps Hp Hps IH]; intros fuel d Hf Hd Hsum.
  { cbn. destruct fuel; f_equal; lia. }
  pose proof (part_value_nonneg p Hp). pose proof (parts_value_nonneg ps Hps).
  destruct fuel as [|fuel]; [cbn in Hf; lia|].
  cbn [parts_value fold_right] in Hsum. fold (parts_value ps) in Hsum.
  destruct (part_text_head p (parts_text ps) Hp) as (c & s0 & E0 & _).
  destruct Hp as [Hn [unit Hu]] eqn:EHp.
  assert (Hpv : part_value p = p.1 * unit) by (unfold part_value; by rewrite Hu).
  pose proof (parse_number_part p (parts_text ps) d unit (conj Hn (ex_intro _ unit Hu)) Hu
    (parts_end ps Hps) Hd ltac:(lia)) as Hnum.
  cbn [parts_text fold_right]. fold (parts_text ps). rewrite E0 in *. cbn [parse_numbers].
  rewrite Hnum. cbn [mbind option_bind]. rewrite <- Hpv.
  rewrite IH by (cbn in Hf; lia). cbn [parts_value fold_right]. fold (parts_value ps). f_equal. lia.
Qed.

Lemma parts_length ps : Forall part_ok ps ->
  (List.length ps <= String.length (parts_text ps))%nat /\
  (ps <> [] -> (2 <= String.length (parts_text ps))%nat).
Proof.
  induction 1 as [|p ps Hp Hps [IH _]]; [done|]. cbn [parts_text fold_right List.length].
  fold (parts_text ps). rewrite str_length_app. unfold part_text. rewrite str_length_app.
  destruct Hp as [Hn [unit Hu]]. destruct (unit_text_spec _ _ ""%string Hu I) as (_ & _ & _ & c & r & -> & _).
  unfold FormatUint. destruct (fmt_uint_head 20 p.1 "") as (d & s & -> & _); [lia|lia|].
  cbn [String.length]. lia.
Qed.

(** The reading of such a text, with and without a sign. *)
Lemma ParseDuration_text (ps : list part) (Hps : Forall part_ok ps) (Hne : ps <> [])
    (Hsum : parts_value ps <= int64_max) :
  ParseDuration (parts_text ps) = Some (parts_value ps) /\
  ParseDuration ("+" ++ parts_text ps) = Some (parts_value ps) /\
  ParseDuration ("-" ++ parts_text ps) = Some (- parts_value ps).
Proof.
  destruct (parts_length ps Hps) as [Hlen Htwo]. specialize (Htwo Hne).
  assert (Hloop : parse_numbers (String.length (parts_text ps)) (parts_text ps) 0 = Some (parts_value ps))
    by (rewrite parse_numbers_parts; done || lia).
  assert (E1 : String.eqb (parts_text ps) "0" = false)
    by (apply String.eqb_neq; intros E; rewrite E in Htwo; cbn in Htwo; lia).
  assert (E2 : String.eqb (parts_text ps) "" = false)
    by (apply String.eqb_neq; intros E; rewrite E in Htwo; cbn in Htwo; lia).
  assert (Hmax : (overflow63 - 1 <? parts_value ps) = false)
    by (apply Z.ltb_ge; unfold overflow63, int64_max in *; lia).
  generalize dependent (parts_value ps). intros v _ Hloop Hmax. split_and!.
  - destruct ps as [|p ps]; [done|]. apply Forall_cons in Hps as [Hp _].
    unfold ParseDuration. destruct (part_text_head p (parts_text ps) Hp) as (d & s & E & Hd).
    cbn [parts_text fold_right] in *. fold (parts_text ps) in *. rewrite E in *.
    destruct (digit_char_not_sign d Hd) as [-> ->]. rewrite E1, E2, Hloop. cbn. by rewrite Hmax.
  - unfold ParseDuration. cbn [String.append]. cbn [Ascii.eqb Bool.eqb]. rewrite E1, E2, Hloop. cbn.
    by rewrite Hmax.
  - unfold ParseDuration. cbn [String.append]. cbn [Ascii.eqb Bool.eqb]. by rewrite E1, E2, Hloop.
Qed.

(** A text of whole numbers with units, in any order and number,
    is read as the sum of its parts when that is a duration, with an
    optional sign; and the loop over the numbers never runs out of fuel. *)
Theorem ParseDuration_parts (ps : list part) (Hps : Forall part_ok ps) (Hne : ps <> [])
    (Hsum : parts_value ps <= int64_max) :
  ParseDuration (parts_text ps) = Some (parts_value ps) /\
  ParseDuration ("+" ++ parts_text ps) = Some (parts_value ps) /\
  ParseDuration ("-" ++ parts_text ps) = Some (- parts_value ps).
Proof. by apply ParseDuration_text. Qed.

Definition sample_parts : list part := [(1, "h"); (30, "m"); (5, "ms")]%string.

Lemma ParseDuration_parts_witness :
  parts_text sample_parts = "1h30m5ms"%string /\
  ParseDuration "-1h30m5ms" = Some (- (Hour + 30 * Minute + 5 * Millisecond)).
Proof.
  split; [vm_compute; reflexivity|].
  refine (proj2 (proj2 (ParseDuration_parts sample_parts _ ltac:(discriminate) _))).
  - repeat constructor; vm_compute; (discriminate || eauto).
  - vm_compute. discriminate.
Defined.
