(* ===== verification/Environ.v ===== *)
(** * Building a driver (driver.go, ConfigFromEnv and New; the pools that Run closes)

    A configuration is read from environment variables, completed, checked, and
    turned into a driver with one connection pool per database. Pools are a
    resource: the model keeps which are open. *)

From S2P Require Export Config GoDuration.

Open Scope Z_scope.

(** ** [ConfigFromEnv] *)

(** [os.Getenv]: the empty string for a variable that is not set. *)
Definition Getenv : Type := string -> string.

Definition duration_error : error := External "time: invalid duration".

Section Environ.
  Variable getenv : Getenv.

(** [if v := os.Getenv(name); v != "" { ... }]: zero when it is empty. *)
Definition env_int (name : string) (wrap : string) : result error Z :=
  if String.eqb (getenv name) "" then Ok 0
  else match ParseInt (getenv name) with
       | Ok n => Ok n
       | Err e => Err (Wrapf wrap [] (NumError e))
       end.

Definition env_duration (name : string) (wrap : string) : result error Duration :=
  if String.eqb (getenv name) "" then Ok 0
  else match ParseDuration (getenv name) with
       | Some d => Ok d
       | None => Err (Wrapf wrap [] duration_error)
       end.

(** The replica of the environment. *)
Definition env_replicas : list ReplicaConfig :=
  let dsn := getenv "PGLG_REPLICA_CONN_STRING" in
  if String.eqb dsn "" then []
  else [{| Name := getenv "PGLG_REPLICA_NAME"; ReplicaConnString := dsn;
           SubscriptionName := getenv "PGLG_REPLICA_SUBSCRIPTION" |}].

Definition ConfigFromEnv : result error Config :=
  bind_r (env_int "PGLG_MAX_BATCH_SIZE" "pglg: invalid PGLG_MAX_BATCH_SIZE: %w") (fun maxBatchSize =>
  bind_r (env_duration "PGLG_BATCH_TIMEOUT" "pglg: invalid PGLG_BATCH_TIMEOUT: %w") (fun batchTimeout =>
  bind_r (env_duration "PGLG_STANDBY_INTERVAL" "pglg: invalid PGLG_STANDBY_INTERVAL: %w") (fun standbyInterval =>
  bind_r (env_duration "PGLG_DLQ_RETENTION" "pglg: invalid PGLG_DLQ_RETENTION: %w") (fun dlqRetention =>
  bind_r (env_duration "PGLG_DLQ_CLEANUP_INTERVAL" "pglg: invalid PGLG_DLQ_CLEANUP_INTERVAL: %w") (fun dlqCleanupInterval =>
  Ok {| ConnString := getenv "PGLG_CONN_STRING"; SlotName := getenv "PGLG_SLOT_NAME";
        PublicationName := getenv "PGLG_PUBLICATION_NAME"; Schema := getenv "PGLG_SCHEMA";
        TablePrefix := getenv "PGLG_TABLE_PREFIX"; MaxBatchSize := maxBatchSize;
        BatchTimeout := batchTimeout; StandbyInterval := standbyInterval; PartitionInterval := 0;
        PartitionLookAhead := 0; PartitionRetention := 0; PartitionMaintInterval := 0;
        ReconnectInitialDelay := 0; ReconnectMaxDelay := 0; SlotBusyRetryDelay := 0;
        SlotBusyRetryJitter := 0; LeaderHeartbeatInterval := 0; DLQRetention := dlqRetention;
        DLQCleanupInterval := dlqCleanupInterval; Logger := false; Statsd := false;
        Replicas := env_replicas |}))))).

End Environ.

(** ** Pools *)

(** The pools made so far, numbered in order, and those that are open. *)
Record Pools := { made : nat; open : gset nat }.

Record replicaPool := { rp_name : string; rp_pool : nat; rp_subscriptionName : string }.

Record DriverValue := { d_cfg : Config; d_pool : nat; d_replicaPools : list replicaPool }.

Section New.
  (* [pgxpool.New], by the number of the pool *)
  Variable pool_error : nat -> string -> option error.

Definition pgxpool_New (connString : string) (s : Pools) : result error nat * Pools :=
  match pool_error (made s) connString with
  | Some e => (Err e, {| made := S (made s); open := open s |})
  | None => (Ok (made s), {| made := S (made s); open := {[made s]} ∪ open s |})
  end.

Definition Close (p : nat) (s : Pools) : Pools := {| made := made s; open := open s ∖ {[p]} |}.

Definition close_replicas (rps : list replicaPool) (s : Pools) : Pools :=
  foldl (fun s r => Close (rp_pool r) s) s rps.

(** The loop over the replicas, with the pools made before. *)
Fixpoint replica_loop (pool : nat) (rs : list ReplicaConfig) (replicaPools : list replicaPool) (s : Pools)
  : result error (list replicaPool) * Pools :=
  match rs with
  | [] => (Ok replicaPools, s)
  | r :: rs =>
      match pgxpool_New (ReplicaConnString r) s with
      | (Err e, s) =>
          (Err (Wrapf "pglg: create replica pool %q: %w" [AStr (Name r)] e),
           Close pool (close_replicas replicaPools s))
      | (Ok p, s) =>
          replica_loop pool rs
            (replicaPools ++ [{| rp_name := Name r; rp_pool := p;
                                 rp_subscriptionName := SubscriptionName r |}]) s
      end
  end.

Definition New (cfg : Config) (s : Pools) : result error DriverValue * Pools :=
  let cfg := setDefaults cfg in
  match validate cfg with
  | Some e => (Err e, s)
  | None =>
      match pgxpool_New (ConnString cfg) s with
      | (Err e, s) => (Err (Wrapf "pglg: create pool: %w" [] e), s)
      | (Ok pool, s) =>
          match replica_loop pool (Replicas cfg) [] s with
          | (Err e, s) => (Err e, s)
          | (Ok rps, s) => (Ok {| d_cfg := cfg; d_pool := pool; d_replicaPools := rps |}, s)
          end
      end
  end.

(** What [Run] defers: the pools are closed when it returns. *)
Definition close_pools (d : DriverValue) (s : Pools) : Pools :=
  close_replicas (d_replicaPools d) (Close (d_pool d) s).

(** ** Lemmas *)

Lemma close_replicas_open rps s :
  open (close_replicas rps s) = open s ∖ list_to_set (map rp_pool rps) /\
  made (close_replicas rps s) = made s.
Proof.
  revert s. induction rps as [|r rps IH]; intros s; cbn [close_replicas foldl map list_to_set].
  { split; [set_solver|done]. }
  destruct (IH (Close (rp_pool r) s)) as [E1 E2]. unfold close_replicas in *.
  rewrite E1, E2. cbn. split; [set_solver|done].
Qed.

(** Open pools were made. *)
Definition pools_ok (s : Pools) : Prop := forall p, p ∈ open s -> (p < made s)%nat.

(** The pools that belong to a driver under construction. *)
Definition owned (pool : nat) (rps : list replicaPool) : gset nat :=
  {[pool]} ∪ list_to_set (map rp_pool rps).

Definition replica_view (r : replicaPool) : string * string := (rp_name r, rp_subscriptionName r).
Definition config_view (r : ReplicaConfig) : string * string := (Name r, SubscriptionName r).

Lemma replica_loop_spec pool rs rps s o :
  pools_ok s -> open s = owned pool rps ∪ o -> owned pool rps ## o ->
  NoDup (pool :: map rp_pool rps) ->
  match replica_loop pool rs rps s with
  | (Err _, s') => open s' = o
  | (Ok rps', s') => open s' = owned pool rps' ∪ o /\ owned pool rps' ## o /\
      NoDup (pool :: map rp_pool rps') /\ map replica_view rps' = map replica_view rps ++ map config_view rs
  end.
Proof.
  revert rps s. induction rs as [|r rs IH]; intros rps s Hok Ho Hd Hn; cbn [replica_loop].
  { cbn [map]. by rewrite app_nil_r. }
  unfold pgxpool_New. destruct (pool_error (made s) _) as [e|] eqn:Ep.
  - cbn [Close open]. rewrite (proj1 (close_replicas_open _ _)). cbn [open].
    rewrite Ho. unfold owned in *. set_solver.
  - assert (Hfresh : made s ∉ open s) by (intros ?%Hok; lia).
    set (rp := {| rp_name := Name r; rp_pool := made s; rp_subscriptionName := SubscriptionName r |}).
    assert (Eo : owned pool (rps ++ [rp]) = {[made s]} ∪ owned pool rps).
    { unfold owned. rewrite map_app, list_to_set_app_L. cbn. set_solver. }
    set (s1 := {| made := S (made s); open := {[made s]} ∪ open s |}).
    assert (P1 : pools_ok s1).
    { intros p. cbn. rewrite elem_of_union, elem_of_singleton. intros [->|?%Hok]; lia. }
    assert (P2 : open s1 = owned pool (rps ++ [rp]) ∪ o) by (cbn; rewrite Eo, Ho; set_solver).
    assert (P3 : owned pool (rps ++ [rp]) ## o) by (rewrite Eo; rewrite Ho in Hfresh; set_solver).
    assert (P4 : NoDup (pool :: map rp_pool (rps ++ [rp]))).
    { rewrite map_app. cbn [map rp_pool rp]. rewrite app_comm_cons. apply NoDup_app.
      split_and!; [done| |apply NoDup_singleton]. intros p Hp ->%list_elem_of_singleton.
      apply Hfresh. rewrite Ho. unfold owned. apply elem_of_cons in Hp. set_solver. }
    specialize (IH (rps ++ [rp]) s1 P1 P2 P3 P4). clearbody s1.
    destruct (replica_loop pool rs (rps ++ [rp]) s1) as [[rps'|e] s']; [|done].
    destruct IH as (Q1 & Q2 & Q3 & Q4). split_and!; try done. by rewrite Q4, map_app, <- app_assoc.
Qed.

(** C32: [New] gives a driver exactly when the completed configuration is
    valid and every pool could be made; its configuration is complete and valid, it
    has one pool of its own for the primary and for each replica, in the order of the
    configuration; and an error leaves open what was open before, as does the
    end of [Run], which closes the pools. *)
Theorem New_pools (cfg : Config) (s : Pools) (Hs : pools_ok s) :
  match New cfg s with
  | (Err e, s') => open s' = open s
  | (Ok d, s') =>
      d_cfg d = setDefaults cfg /\ config_wf (d_cfg d) /\ valid_config (d_cfg d) /\
      map replica_view (d_replicaPools d) = map config_view (Replicas cfg) /\
      NoDup (d_pool d :: map rp_pool (d_replicaPools d)) /\
      owned (d_pool d) (d_replicaPools d) ## open s /\
      open s' = owned (d_pool d) (d_replicaPools d) ∪ open s /\
      open (close_pools d s') = open s
  end.
Proof.
  unfold New. destruct (validate (setDefaults cfg)) as [e|] eqn:Ev; [done|].
  apply validate_None in Ev. unfold pgxpool_New. destruct (pool_error (made s) _) as [e|]; [done|].
  set (s1 := {| made := S (made s); open := {[made s]} ∪ open s |}).
  assert (Hfresh : made s ∉ open s) by (intros ?%Hs; lia).
  assert (P1 : pools_ok s1).
  { intros p. cbn. rewrite elem_of_union, elem_of_singleton. intros [->|?%Hs]; lia. }
  pose proof (replica_loop_spec (made s) (Replicas (setDefaults cfg)) [] s1 (open s) P1
    ltac:(unfold owned; cbn; set_solver) ltac:(unfold owned; cbn; set_solver) (NoDup_singleton _)) as Hl.
  destruct (replica_loop (made s) _ [] s1) as [[rps|e] s']; [|done].
  destruct Hl as (Q1 & Q2 & Q3 & Q4). cbn [d_cfg d_pool d_replicaPools].
  split_and!; try done; [apply setDefaults_wf|].
  unfold close_pools. rewrite (proj1 (close_replicas_open _ _)). cbn [d_replicaPools d_pool Close open].
  rewrite Q1. unfold owned in *. set_solver.
Qed.

End New.

(** ** From the environment to a driver *)

(** A variable is unset or holds an integer, or a duration. *)
Definition holds_int (v : string) : Prop := v = ""%string \/ exists n, ParseInt v = Ok n.
Definition holds_duration (v : string) : Prop := v = ""%string \/ is_Some (ParseDuration v).

Lemma env_int_Ok getenv name wrap :
  (exists n, env_int getenv name wrap = Ok n) <-> holds_int (getenv name).
Proof.
  unfold env_int, holds_int. destruct (String.eqb_spec (getenv name) ""); [naive_solver|].
  destruct (ParseInt _); naive_solver.
Qed.

Lemma env_duration_Ok getenv name wrap :
  (exists d, env_duration getenv name wrap = Ok d) <-> holds_duration (getenv name).
Proof.
  unfold env_duration, holds_duration. destruct (String.eqb_spec (getenv name) ""); [naive_solver|].
  destruct (ParseDuration _); [naive_solver|]. split; [naive_solver|]. by intros [|[? [=]]].
Qed.

Section FromEnv.
  Variable getenv : Getenv.

(** The configuration with the values read for the five optional variables. *)
Definition env_config (n : Z) (d1 d2 d3 d4 : Duration) : Config :=
  {| ConnString := getenv "PGLG_CONN_STRING"; SlotName := getenv "PGLG_SLOT_NAME";
     PublicationName := getenv "PGLG_PUBLICATION_NAME"; Schema := getenv "PGLG_SCHEMA";
     TablePrefix := getenv "PGLG_TABLE_PREFIX"; MaxBatchSize := n; BatchTimeout := d1;
     StandbyInterval := d2; PartitionInterval := 0; PartitionLookAhead := 0; PartitionRetention := 0;
     PartitionMaintInterval := 0; ReconnectInitialDelay := 0; ReconnectMaxDelay := 0;
     SlotBusyRetryDelay := 0; SlotBusyRetryJitter := 0; LeaderHeartbeatInterval := 0; DLQRetention := d3;
     DLQCleanupInterval := d4; Logger := false; Statsd := false; Replicas := env_replicas getenv |}.

Lemma ConfigFromEnv_read n d1 d2 d3 d4 :
  (forall w, env_int getenv "PGLG_MAX_BATCH_SIZE" w = Ok n) ->
  (forall w, env_duration getenv "PGLG_BATCH_TIMEOUT" w = Ok d1) ->
  (forall w, env_duration getenv "PGLG_STANDBY_INTERVAL" w = Ok d2) ->
  (forall w, env_duration getenv "PGLG_DLQ_RETENTION" w = Ok d3) ->
  (forall w, env_duration getenv "PGLG_DLQ_CLEANUP_INTERVAL" w = Ok d4) ->
  ConfigFromEnv getenv = Ok (env_config n d1 d2 d3 d4).
Proof. intros E0 E1 E2 E3 E4. unfold ConfigFromEnv. by rewrite E0, E1, E2, E3, E4. Qed.

Lemma env_valid n d1 d2 d3 d4 :
  valid_config (setDefaults (env_config n d1 d2 d3 d4)) <->
  getenv "PGLG_CONN_STRING" <> ""%string /\ getenv "PGLG_SLOT_NAME" <> ""%string /\
  getenv "PGLG_PUBLICATION_NAME" <> ""%string /\
  (getenv "PGLG_REPLICA_CONN_STRING" <> ""%string ->
   getenv "PGLG_REPLICA_NAME" <> ""%string /\ getenv "PGLG_REPLICA_SUBSCRIPTION" <> ""%string).
Proof.
  unfold valid_config. cbn [ConnString SlotName PublicationName Replicas setDefaults env_config].
  unfold env_replicas. destruct (String.eqb_spec (getenv "PGLG_REPLICA_CONN_STRING") "") as [E|E].
  - rewrite E. split; [naive_solver|]. intros (? & ? & ? & _). by repeat constructor.
  - rewrite Forall_singleton. unfold replica_ok. cbn. split; [naive_solver|].
    intros (? & ? & ? & Hr). destruct (Hr E). split_and!; try done. apply NoDup_singleton.
Qed.

End FromEnv.

(** C34: the environment gives a valid configuration exactly when the three required
    variables are set, a replica with a connection string has a name and a
    subscription, and each of the five optional variables is unset or holds
    an integer or a duration; nothing else in the environment matters. *)
Theorem ConfigFromEnv_accepts (getenv : Getenv) :
  (exists cfg, ConfigFromEnv getenv = Ok cfg /\ valid_config (setDefaults cfg)) <->
  (getenv "PGLG_CONN_STRING" <> ""%string /\ getenv "PGLG_SLOT_NAME" <> ""%string /\
   getenv "PGLG_PUBLICATION_NAME" <> ""%string /\
   (getenv "PGLG_REPLICA_CONN_STRING" <> ""%string ->
    getenv "PGLG_REPLICA_NAME" <> ""%string /\ getenv "PGLG_REPLICA_SUBSCRIPTION" <> ""%string)) /\
  holds_int (getenv "PGLG_MAX_BATCH_SIZE") /\
  Forall (fun name => holds_duration (getenv name))
    ["PGLG_BATCH_TIMEOUT"; "PGLG_STANDBY_INTERVAL"; "PGLG_DLQ_RETENTION"; "PGLG_DLQ_CLEANUP_INTERVAL"]%string.
Proof.
  split.
  - intros (cfg & (n & E0 & (d1 & E1 & (d2 & E2 & (d3 & E3 & (d4 & E4 & [= <-])%bind_r_Ok)%bind_r_Ok)%bind_r_Ok)%bind_r_Ok)%bind_r_Ok & Hv).
    apply env_valid in Hv. split; [exact Hv|]. split; [by eapply (proj1 (env_int_Ok _ _ _)); eauto|].
    rewrite !Forall_cons, Forall_nil. split_and!; [..|done]; eapply (proj1 (env_duration_Ok _ _ _)); eauto.
  - intros (Hv & Hn & Hd). rewrite !Forall_cons in Hd. destruct Hd as (H1 & H2 & H3 & H4 & _).
    assert (Hint : exists n, forall w, env_int getenv "PGLG_MAX_BATCH_SIZE" w = Ok n).
    { unfold env_int, holds_int in *. destruct (String.eqb_spec (getenv "PGLG_MAX_BATCH_SIZE") "") as [E|E]; [eauto|].
      destruct Hn as [|[n ->]]; [done|eauto]. }
    assert (Hdur : forall name, holds_duration (getenv name) ->
      exists d, forall w, env_duration getenv name w = Ok d).
    { intros name. unfold env_duration, holds_duration. destruct (String.eqb_spec (getenv name) ""); [eauto|].
      intros [|[d ->]]; [done|eauto]. }
    destruct Hint as [n E0], (Hdur _ H1) as [d1 E1], (Hdur _ H2) as [d2 E2], (Hdur _ H3) as [d3 E3],
      (Hdur _ H4) as [d4 E4].
    exists (env_config getenv n d1 d2 d3 d4). split; [by apply ConfigFromEnv_read|by apply env_valid].
Qed.

(** ** Writing a configuration to the environment *)

Definition duration_text (d : Duration) : string :=
  if d =? 0 then ""%string else (FormatInt d ++ "ns")%string.

(** The first replica, as the environment can hold one. *)
Definition replica_field (f : ReplicaConfig -> string) (c : Config) : string :=
  match Replicas c with r :: _ => f r | [] => ""%string end.

Definition env_table (c : Config) : list (string * string) :=
  [("PGLG_CONN_STRING", ConnString c); ("PGLG_SLOT_NAME", SlotName c);
   ("PGLG_PUBLICATION_NAME", PublicationName c); ("PGLG_SCHEMA", Schema c);
   ("PGLG_TABLE_PREFIX", TablePrefix c); ("PGLG_MAX_BATCH_SIZE", FormatInt (MaxBatchSize c));
   ("PGLG_BATCH_TIMEOUT", duration_text (BatchTimeout c));
   ("PGLG_STANDBY_INTERVAL", duration_text (StandbyInterval c));
   ("PGLG_DLQ_RETENTION", duration_text (DLQRetention c));
   ("PGLG_DLQ_CLEANUP_INTERVAL", duration_text (DLQCleanupInterval c));
   ("PGLG_REPLICA_CONN_STRING", replica_field ReplicaConnString c);
   ("PGLG_REPLICA_NAME", replica_field Name c);
   ("PGLG_REPLICA_SUBSCRIPTION", replica_field SubscriptionName c)]%string.

Definition env_of (c : Config) : Getenv := fun name =>
  match List.find (fun kv => String.eqb name kv.1) (env_table c) with
  | Some kv => kv.2
  | None => ""%string
  end.

Definition duration_fits (d : Duration) : Prop := - int64_max <= d <= int64_max.

Lemma ParseDuration_FormatInt d :
  duration_fits d -> ParseDuration (FormatInt d ++ "ns") = Some d.
Proof.
  intros Hd. unfold duration_fits in Hd.
  assert (Hp : forall n, 0 <= n <= int64_max ->
    ParseDuration (FormatUint n ++ "ns") = Some n /\ ParseDuration ("-" ++ FormatUint n ++ "ns") = Some (- n)).
  { intros n Hn.
    destruct (ParseDuration_text [(n, "ns"%string)]) as (E1 & _ & E2).
    - repeat constructor; [apply Hn|apply Hn|by eexists].
    - done.
    - change (parts_value [(n, "ns"%string)]) with (n * 1 + 0). lia.
    - change (parts_value [(n, "ns"%string)]) with (n * 1 + 0) in *.
      unfold parts_text, part_text in *. cbn [fold_right fst snd] in *.
      rewrite str_app_nil_r in *. rewrite E1, E2. split; f_equal; lia. }
  unfold FormatInt. destruct (Z.ltb_spec d 0).
  - destruct (Hp (- d)) as [_ E]; [lia|]. cbn in *. rewrite E. f_equal. lia.
  - apply (Hp d). lia.
Qed.

(** What the environment can express: at most one replica, with a connection
    string; numbers and durations of 64 bits; nothing else set. *)
Record expressible (c : Config) : Prop := {
  ex_batch : is_int64 (MaxBatchSize c);
  ex_durations : Forall duration_fits
    [BatchTimeout c; StandbyInterval c; DLQRetention c; DLQCleanupInterval c];
  ex_replicas : Replicas c = [] \/ exists r, Replicas c = [r] /\ ReplicaConnString r <> ""%string;
  ex_rest : c = {| ConnString := ConnString c; SlotName := SlotName c;
    PublicationName := PublicationName c; Schema := Schema c; TablePrefix := TablePrefix c;
    MaxBatchSize := MaxBatchSize c; BatchTimeout := BatchTimeout c; StandbyInterval := StandbyInterval c;
    PartitionInterval := 0; PartitionLookAhead := 0; PartitionRetention := 0;
    PartitionMaintInterval := 0; ReconnectInitialDelay := 0; ReconnectMaxDelay := 0;
    SlotBusyRetryDelay := 0; SlotBusyRetryJitter := 0; LeaderHeartbeatInterval := 0;
    DLQRetention := DLQRetention c; DLQCleanupInterval := DLQCleanupInterval c; Logger := false;
    Statsd := false; Replicas := Replicas c |} }.

Lemma FormatInt_ne i : FormatInt i <> ""%string.
Proof.
  unfold FormatInt, FormatUint. destruct (Z.ltb_spec i 0); [done|].
  by destruct (fmt_uint_head 20 i "") as (d & s & -> & _); [lia|lia|].
Qed.

Lemma env_duration_text getenv name wrap d :
  getenv name = duration_text d -> duration_fits d -> env_duration getenv name wrap = Ok d.
Proof.
  intros E Hd. unfold env_duration. rewrite E. unfold duration_text.
  destruct (Z.eqb_spec d 0) as [->|]; [done|].
  destruct (String.eqb_spec (FormatInt d ++ "ns") "") as [E'|].
  - apply (f_equal String.length) in E'. rewrite str_length_app in E'. cbn in E'. lia.
  - by rewrite ParseDuration_FormatInt.
Qed.

(** C33: a configuration that the environment can express, written to
    the environment, is read back as it was. *)
Theorem ConfigFromEnv_round_trip (c : Config) (Hc : expressible c) :
  ConfigFromEnv (env_of c) = Ok c.
Proof.
  destruct Hc as [Hb Hd Hr Hrest]. rewrite !Forall_cons in Hd. destruct Hd as (H1 & H2 & H3 & H4 & _).
  rewrite (ConfigFromEnv_read (env_of c) (MaxBatchSize c) (BatchTimeout c) (StandbyInterval c)
    (DLQRetention c) (DLQCleanupInterval c)); [|intros w|intros w; apply env_duration_text; [reflexivity|assumption]..].
  - f_equal. etransitivity; [|symmetry; exact Hrest].
    assert (Er : env_replicas (env_of c) = Replicas c); [|unfold env_config; by rewrite Er].
    unfold env_replicas. change (env_of c "PGLG_REPLICA_CONN_STRING") with (replica_field ReplicaConnString c).
    change (env_of c "PGLG_REPLICA_NAME") with (replica_field Name c).
    change (env_of c "PGLG_REPLICA_SUBSCRIPTION") with (replica_field SubscriptionName c).
    unfold replica_field. destruct Hr as [->|([nm cs sub] & -> & Hcs)]; [done|]. cbn in *.
    by destruct (String.eqb_spec cs "").
  - unfold env_int. change (env_of c "PGLG_MAX_BATCH_SIZE") with (FormatInt (MaxBatchSize c)).
    destruct (String.eqb_spec (FormatInt (MaxBatchSize c)) "") as [E|]; [by apply FormatInt_ne in E|].
    by rewrite ParseInt_FormatInt.
Qed.

(** ** Witnesses *)

Definition sample_env_config : Config :=
  {| ConnString := "host=db"; SlotName := "s"; PublicationName := "p"; Schema := ""; TablePrefix := "billing";
     MaxBatchSize := 250; BatchTimeout := 1500 * Millisecond; StandbyInterval := 0; PartitionInterval := 0;
     PartitionLookAhead := 0; PartitionRetention := 0; PartitionMaintInterval := 0;
     ReconnectInitialDelay := 0; ReconnectMaxDelay := 0; SlotBusyRetryDelay := 0;
     SlotBusyRetryJitter := 0; LeaderHeartbeatInterval := 0; DLQRetention := - Second;
     DLQCleanupInterval := Hour; Logger := false; Statsd := false;
     Replicas := [{| Name := "eu"; ReplicaConnString := "host=eu"; SubscriptionName := "sub" |}] |}.

Lemma sample_expressible : expressible sample_env_config.
Proof.
  split; [by split|by repeat constructor|right; by eexists|done].
Qed.

Lemma ConfigFromEnv_round_trip_witness :
  env_of sample_env_config "PGLG_BATCH_TIMEOUT" = "1500000000ns"%string /\
  ConfigFromEnv (env_of sample_env_config) = Ok sample_env_config.
Proof.
  split; [vm_compute; reflexivity|].
  exact (ConfigFromEnv_round_trip sample_env_config sample_expressible).
Defined.

Lemma ConfigFromEnv_accepts_witness :
  env_of sample_env_config "PGLG_MAX_BATCH_SIZE" = "250"%string /\
  holds_int (env_of sample_env_config "PGLG_MAX_BATCH_SIZE").
Proof.
  split; [vm_compute; reflexivity|].
  refine (proj1 (proj2 (proj1 (ConfigFromEnv_accepts (env_of sample_env_config)) _))).
  exists sample_env_config. split; [vm_compute; reflexivity|].
  apply validate_None. vm_compute. reflexivity.
Defined.

(** The second of two replicas cannot be reached: everything is closed again. *)
Definition two_replicas : Config :=
  {| ConnString := "host=db"; SlotName := "s"; PublicationName := "p"; Schema := ""; TablePrefix := "";
     MaxBatchSize := 0; BatchTimeout := 0; StandbyInterval := 0; PartitionInterval := 0;
     PartitionLookAhead := 0; PartitionRetention := 0; PartitionMaintInterval := 0;
     ReconnectInitialDelay := 0; ReconnectMaxDelay := 0; SlotBusyRetryDelay := 0;
     SlotBusyRetryJitter := 0; LeaderHeartbeatInterval := 0; DLQRetention := 0;
     DLQCleanupInterval := 0; Logger := false; Statsd := false;
     Replicas := [{| Name := "eu"; ReplicaConnString := "host=eu"; SubscriptionName := "a" |};
                  {| Name := "us"; ReplicaConnString := "host=us"; SubscriptionName := "b" |}] |}.

Definition us_down (_ : nat) (dsn : string) : option error :=
  if String.eqb dsn "host=us" then Some (External "parse error") else None.

Lemma New_pools_witness :
  (exists e, (New us_down two_replicas {| made := 0; open := ∅ |}).1 = Err e) /\
  open (New us_down two_replicas {| made := 0; open := ∅ |}).2 = ∅.
Proof.
  split; [eexists; vm_compute; reflexivity|].
  exact (New_pools us_down two_replicas {| made := 0; open := ∅ |} (fun p H => match not_elem_of_empty p H with end)).
Defined.
