(* ===== verification/Run.v ===== *)
(** * The life of a driver (driver.go): leadership, sessions, [Run]

    [Run] repeats sessions for ever: it stops when its context is cancelled,
    waits a fixed delay with jitter while another consumer holds the slot, and a
    growing delay after any other error. *)

From S2P Require Export Driver Backoff.

Open Scope Z_scope.
Open Scope pglg_scope.

Section Run.
  Context `{Env, Pglogrepl, PgLsn}.
  Variable cfg : Config.

(** ** Leadership *)

Definition Role (d : Driver) : string := if isLeader d then "leader" else "standby".

Definition emitLeaderGauge : M unit :=
  d ← get_drv;
  metric_out (Gauge "jack.courier.leader.is_leader" (MCount (if isLeader d then 1 else 0)) []).

(** [CompareAndSwap(false, true)] and what follows it; the send on [maintWake]
    does not block: a token that is already there stays alone. *)
Definition acquireLeadership : M unit :=
  d ← get_drv;
  if isLeader d then mret tt
  else
    put_drv {| isLeader := true; maintWake := maintWake d; standbyLogged := false |} ≫= fun _ =>
    metric_out (Incr "jack.courier.leader.acquired" []) ≫= fun _ =>
    emitLeaderGauge ≫= fun _ =>
    put_drv {| isLeader := true; maintWake := true; standbyLogged := false |}.

Definition relinquishLeadership (reason : string) : M unit :=
  d ← get_drv;
  if isLeader d then
    put_drv {| isLeader := false; maintWake := maintWake d; standbyLogged := standbyLogged d |} ≫= fun _ =>
    metric_out (Incr "jack.courier.leader.relinquished" [("reason:" ++ reason)%string]) ≫= fun _ =>
    emitLeaderGauge
  else mret tt.

(** ** A session *)

(** From the start of replication to the end of [runOnce]. [None] is a stream
    that is still running. *)
Definition session (fuel : nat) (startLSN : Z) (w : walConsumer) : M (option error) :=
  r ← startStreaming startLSN w;
  match r with
  | Err e => mret (Some e)
  | Ok w => acquireLeadership ≫= fun _ => processWALStream cfg fuel w startLSN
  end.

(** [runOnce]: it never returns nil, because the stream only ends by an error.
    The deferred close runs once the connection was made. *)
Definition runOnce (fuel : nat) : M (option error) :=
  r ← readCursor cfg;
  match r with
  | Err e => mret (Some (Wrapf "pglg: read cursor: %w" [] e))
  | Ok startLSN =>
      r ← connect (ConnString cfg) (newWALConsumer (SlotName cfg) (PublicationName cfg));
      match r with
      | Err e => mret (Some e)
      | Ok w =>
          out ← session fuel startLSN w;
          match out with
          | None => mret None
          | Some e => close w ≫= fun _ => mret (Some e)
          end
      end
  end.

(** ** The loop of [Run] *)

(** [rand.Int64N(n)]. *)
Definition rand_Int64N (n : Z) : M Z := k ← ask env_rand; mret (k mod n).

(** [select] on the context and a timer: the context's error, or the timer. *)
Definition wait_timer (d : Duration) : M (option error) := ask (fun n => env_timer n d).

(** [bo.wait]. *)
Definition backoff_wait (bo : Backoff.backoff) : M (Backoff.backoff * option error) :=
  k ← ask env_rand;
  let '(d, bo) := Backoff.next (k mod 2 ^ 53) bo in
  e ← wait_timer d;
  mret (bo, e).

(** The case of a busy slot, up to [continue]. *)
Definition slotBusy : M (option error) :=
  relinquishLeadership "slot_busy" ≫= fun _ =>
  d ← get_drv;
  put_drv {| isLeader := isLeader d; maintWake := maintWake d; standbyLogged := true |} ≫= fun _ =>
  k ← rand_Int64N (2 * SlotBusyRetryJitter cfg + 1);
  wait_timer (SlotBusyRetryDelay cfg + (k - SlotBusyRetryJitter cfg)).

(** [Run] for [sessions] turns of its loop and [fuel] turns of each stream;
    [Some r] says that it returned [r], whose [None] is nil. *)
Fixpoint runLoop (sessions fuel : nat) (bo : Backoff.backoff) : M (option (option error)) :=
  match sessions with
  | O => mret None
  | S sessions =>
      out ← runOnce fuel;
      match out with
      | None => mret None
      | Some err =>
          c ← ctx_Err;
          match c with
          | Some _ =>
              relinquishLeadership "shutdown" ≫= fun _ =>
              c ← ctx_Err; mret (Some c)
          | None =>
              if errors_Is err errSlotBusy then
                e ← slotBusy;
                match e with
                | Some e => mret (Some (Some e))
                | None => runLoop sessions fuel bo
                end
              else
                metric_out (Incr "jack.courier.wal.reconnect" []) ≫= fun _ =>
                be ← backoff_wait bo;
                match be.2 with
                | Some e => mret (Some (Some e))
                | None => runLoop sessions fuel be.1
                end
          end
      end
  end.

Definition Run (sessions fuel : nat) : M (option (option error)) :=
  runLoop sessions fuel {| Backoff.initial := ReconnectInitialDelay cfg;
    Backoff.max := ReconnectMaxDelay cfg; Backoff.attempt := 0 |}.

End Run.
