(* ===== verification/Node.v ===== *)
(** * An instance as a sequence of actions

    [Run] cut at the points where another process may act on the shared
    database: reading the cursor, opening the stream, one iteration of the
    stream, the end of a session, the waits between sessions, and a crash.
    [runLoop_acts] says that every run is a sequence of these actions. The
    converse is not asked: [act] does not say in which order [Run] does them
    outside a session, so what is proved of every sequence of actions holds of
    more than the runs. *)

From S2P Require Export Run.

Open Scope Z_scope.
Open Scope pglg_scope.

(** A process that has just been started: what [New] leaves in the fields that change. *)
Definition fresh_driver : Driver :=
  {| isLeader := false; maintWake := false; standbyLogged := false |}.

(** Where an instance stands between two actions. *)
Inductive phase :=
  | Idle                      (* outside [runOnce] *)
  | HasCursor (startLSN : Z)  (* the cursor was read, nothing is connected *)
  | Streaming (s : stream).   (* at the head of the receive loop *)

Inductive action :=
  | ARead                     (* [readCursor] *)
  | AOpen                     (* from [connect] to the head of the loop *)
  | AIterate                  (* one iteration of the loop *)
  | AClose (w : walConsumer)  (* the deferred close *)
  | APoll                     (* [ctx.Err] *)
  | AShutdown                 (* the cancelled case of [Run] *)
  | ABusy                     (* the busy slot case of [Run] *)
  | ARetry (bo : Backoff.backoff)  (* the other errors *)
  | ACrash.                   (* the process is killed and started again *)

Section Node.
  Context `{Env, Pglogrepl, PgLsn}.
  Variable cfg : Config.

(** From [connect] to the head of the loop of [processWALStream]; the deferred
    close when the stream cannot be started. *)
Definition openSession (startLSN : Z) : ME stream :=
  r ← connect (ConnString cfg) (newWALConsumer (SlotName cfg) (PublicationName cfg));
  match r with
  | Err e => mret (Err e)
  | Ok w =>
      r ← startStreaming startLSN w;
      match r with
      | Err e => close w ≫= fun _ => mret (Err e)
      | Ok wl =>
          acquireLeadership ≫= fun _ =>
          now ← time_Now;
          mret (Ok (stream0 wl startLSN (GoTime.Add now (StandbyInterval cfg))))
      end
  end.

(** On to the next phase, or out of [runOnce]. *)
Definition andthen {A} (next : A -> phase) (r : result error A) : phase :=
  match r with Ok a => next a | Err _ => Idle end.

Definition act (a : action) (ph : phase) : M phase :=
  match a, ph with
  | ARead, Idle => r ← readCursor cfg; mret (andthen HasCursor r)
  | AOpen, HasCursor l => r ← openSession l; mret (andthen Streaming r)
  | AIterate, Streaming s => r ← iteration cfg s; mret (andthen Streaming r)
  | AClose w, Idle => _ ← close w; mret Idle
  | APoll, Idle => _ ← ctx_Err; mret Idle
  | AShutdown, Idle => _ ← relinquishLeadership "shutdown"; mret Idle
  | ABusy, Idle => _ ← slotBusy cfg; mret Idle
  | ARetry bo, Idle =>
      _ ← (metric_out (Incr "jack.courier.wal.reconnect" []) ≫= fun _ => backoff_wait bo); mret Idle
  | ACrash, _ => put_drv fresh_driver ≫= fun _ => mret Idle
  | _, _ => mret ph
  end.

Fixpoint acts (l : list action) (ph : phase) : M phase :=
  match l with
  | [] => mret ph
  | a :: l => ph ← act a ph; acts l ph
  end.

Lemma acts_app l1 l2 ph w :
  acts (l1 ++ l2) ph w = let '(ph', w') := acts l1 ph w in acts l2 ph' w'.
Proof.
  revert ph w. induction l1 as [|a l1 IH]; intros ph w; [done|]. cbn [acts app].
  unfold mbind, ST_bind. destruct (act a ph w) as [ph1 w1]. apply IH.
Qed.

(** ** A run is a sequence of actions *)

(** [(ph, w)] is reached from [x] without a crash. *)
Definition reached (x : phase * World) (ph : phase) (w : World) : Prop :=
  exists l, Forall (fun a => a <> ACrash) l /\ acts l x.1 x.2 = (ph, w).

Lemma reached_refl ph w : reached (ph, w) ph w.
Proof. by exists []. Qed.

(** The next action runs the program [m] and goes where [f] says. *)
Lemma wp_reached {A} (m : M A) (f : A -> phase) a x ph w :
  act a ph = (r ← m; mret (f r)) -> a <> ACrash -> reached x ph w ->
  wp m (fun r w' => reached x (f r) w') w.
Proof.
  intros Ea Ha (l & Hl & E). unfold wp. destruct (m w) as [r w'] eqn:Em.
  exists (l ++ [a]). split; [apply Forall_app; by repeat constructor|].
  rewrite acts_app, E. cbn [acts]. rewrite Ea. unfold mbind, ST_bind. by rewrite Em.
Qed.

(** [runOnce] through [openSession]. *)
Lemma runOnce_phases fuel w :
  runOnce cfg fuel w =
  (r ← readCursor cfg;
   match r with
   | Err e => mret (Some (Wrapf "pglg: read cursor: %w" [] e))
   | Ok l =>
       r ← openSession l;
       match r with
       | Err e => mret (Some e)
       | Ok s =>
           out ← streamLoop cfg fuel s;
           match out with
           | None => mret None
           | Some e =>
               _ ← close (set_conn (newWALConsumer (SlotName cfg) (PublicationName cfg)));
               mret (Some e)
           end
       end
   end) w.
Proof.
  unfold runOnce, openSession, session, processWALStream, connect.
  unfold mbind, ST_bind, mret, ST_ret. destruct (readCursor cfg w) as [[l|e] w1]; [|done].
  cbn [ask]. destruct (env_connect _ _); [done|]. set (w0 := set_conn _).
  destruct (startStreaming l w0 _) as [[wl|e] w2]; [|done].
  destruct (acquireLeadership w2) as [[] w3]. by destruct (time_Now w3) as [now w4].
Qed.

Definition stopped {A} x (r : option A) (w : World) : Prop :=
  match r with Some _ => reached x Idle w | None => exists ph, reached x ph w end.

Lemma streamLoop_acts fuel s x w :
  reached x (Streaming s) w -> wp (streamLoop cfg fuel s) (stopped x) w.
Proof.
  revert s w. induction fuel as [|fuel IH]; intros s w Hx; cbn [streamLoop]; wp_step; [by eexists|].
  eapply wp_mono; [by apply (wp_reached _ (andthen Streaming) AIterate x (Streaming s))|].
  intros [s'|e] w' Hx'; [by apply IH|by wp_step].
Qed.

(** The actions outside [runOnce]. *)
Lemma wp_idle {A} (m : M A) a x w :
  act a Idle = (_ ← m; mret Idle) -> a <> ACrash -> reached x Idle w ->
  wp m (fun _ => reached x Idle) w.
Proof. apply (wp_reached m (fun _ => Idle)). Qed.

Lemma runOnce_acts fuel x w : reached x Idle w -> wp (runOnce cfg fuel) (stopped x) w.
Proof.
  intros Hx. unfold wp. rewrite runOnce_phases.
  match goal with |- match ?m w with _ => _ end => change (wp m (stopped x) w) end.
  wp_step. eapply wp_mono; [by apply (wp_reached _ (andthen HasCursor) ARead x Idle)|].
  intros [l|e] w1 Hw1; [|by wp_step]. wp_step.
  eapply wp_mono; [by apply (wp_reached _ (andthen Streaming) AOpen x (HasCursor l))|].
  intros [s|e] w2 Hw2; [|by wp_step]. wp_step.
  eapply wp_mono; [by apply streamLoop_acts|]. intros [e|] w3 Hw3; [|by wp_step]. wp_step.
  eapply wp_mono; [by eapply (wp_idle _ (AClose _))|]. intros c w4 Hw4. by wp_step.
Qed.

Lemma runLoop_acts sessions fuel bo x w :
  reached x Idle w -> wp (runLoop cfg sessions fuel bo) (stopped x) w.
Proof.
  revert bo w. induction sessions as [|n IH]; intros bo w Hx; cbn [runLoop]; wp_step; [by eexists|].
  eapply wp_mono; [by apply runOnce_acts|]. intros [err|] w1 Hw1; [|by wp_step]. wp_step.
  eapply wp_mono; [by apply (wp_idle _ APoll x)|]. intros [c|] w2 Hw2.
  { wp_step. eapply wp_mono; [by apply (wp_idle _ AShutdown x)|]. intros ? w3 Hw3. wp_step.
    eapply wp_mono; [by apply (wp_idle _ APoll x)|]. intros ? w4 Hw4. by wp_step. }
  destruct (errors_Is err errSlotBusy).
  { wp_step. eapply wp_mono; [by apply (wp_idle _ ABusy x)|].
    intros [e|] w3 Hw3; [by wp_step|by apply IH]. }
  pose proof (wp_idle (metric_out (Incr "jack.courier.wal.reconnect" []) ≫= fun _ => backoff_wait bo)
    (ARetry bo) x w2) as Hr.
  unfold wp in *. revert Hr. unfold mbind, ST_bind. destruct (metric_out _ w2) as [[] w3].
  cbn [act]. destruct (backoff_wait bo w3) as [[bo' [e|]] w4]; intros Hr; [by apply Hr|].
  apply (IH bo' w4). by apply Hr.
Qed.

End Node.
