(* ===== verification/History.v ===== *)
(** * What a trace says: the reference reading of a run

    A specification of the driver that does not mention its loop, its deadlines
    or its buffers: [hist] reads the events of a trace one by one and keeps the
    transactions the server has completed since the start of the session, the
    open one, the highest position the server reported, and the batches whose
    answers were committed. [delivers] says when the trace is one of a server
    that sends the transactions of a log in order. *)

From S2P Require Export Driver.

Open Scope Z_scope.

Record history := {
  h_start : Z;                                  (* where the session started *)
  h_rels : gmap Z relationMeta;
  h_open : list parsedInsert;                   (* rows of the open transaction *)
  h_inTx : bool;
  h_txs : list (Z * list parsedInsert);         (* completed in this session *)
  h_pos : Z;                                    (* highest position the server named *)
  h_cand : option (list Job * list SubmitResult); (* answered, not committed *)
  h_acked : list (list Job * list SubmitResult);  (* committed, in all sessions *)
  h_sent : list Job }.                          (* jobs of those of this session *)

Definition history0 : history :=
  {| h_start := 0; h_rels := ∅; h_open := []; h_inTx := false; h_txs := []; h_pos := 0;
     h_cand := None; h_acked := []; h_sent := [] |}.

Section History.
  Context `{Pglogrepl}.

(** What a message says: a position of the server (the end of its WAL in a
    keepalive, the start of the message otherwise) and an event. How far the
    driver thinks a message reaches is not part of it. *)
Definition payload_event (walData : string) : option walEvent :=
  match parseWALMessage walData with Ok ev => ev | Err _ => None end.

Definition message_view (m : BackendMessage) : option Z * option walEvent :=
  match m with
  | CopyData (String c rest) =>
      if Ascii.eqb c PrimaryKeepaliveMessageByteID then
        match ParsePrimaryKeepaliveMessage rest with
        | Ok pkm => (Some (ServerWALEnd pkm), None)
        | Err _ => (None, None)
        end
      else if Ascii.eqb c XLogDataByteID then
        match ParseXLogData rest with
        | Ok x => (Some (WALStart x), payload_event (WALData x))
        | Err _ => (None, None)
        end
      else (None, None)
  | _ => (None, None)
  end.

Definition see_pos (p : option Z) (h : history) : history :=
  {| h_start := h_start h; h_rels := h_rels h; h_open := h_open h; h_inTx := h_inTx h;
     h_txs := h_txs h; h_pos := match p with Some p => Z.max (h_pos h) p | None => h_pos h end;
     h_cand := h_cand h; h_acked := h_acked h; h_sent := h_sent h |}.

Definition set_stream_of (rels : gmap Z relationMeta) (opn : list parsedInsert) (tx : bool)
    (txs : list (Z * list parsedInsert)) (h : history) : history :=
  {| h_start := h_start h; h_rels := rels; h_open := opn; h_inTx := tx; h_txs := txs;
     h_pos := h_pos h; h_cand := h_cand h; h_acked := h_acked h; h_sent := h_sent h |}.

Definition see_event (ev : walEvent) (h : history) : history :=
  match ev with
  | walBegin => set_stream_of (h_rels h) (h_open h) true (h_txs h) h
  | walRelation rid name cols =>
      set_stream_of (<[rid := {| rel_name := name; rel_columns := cols |}]> (h_rels h))
        (h_open h) (h_inTx h) (h_txs h) h
  | walInsert rid values =>
      match parseInsert (h_rels h) rid values with
      | Ok (Some p) => set_stream_of (h_rels h) (h_open h ++ [p]) (h_inTx h) (h_txs h) h
      | _ => h
      end
  | walCommit l => set_stream_of (h_rels h) [] false (h_txs h ++ [(l, h_open h)]) h
  end.

Definition set_acks (cand : option (list Job * list SubmitResult))
    (acked : list (list Job * list SubmitResult)) (sent : list Job) (h : history) : history :=
  {| h_start := h_start h; h_rels := h_rels h; h_open := h_open h; h_inTx := h_inTx h;
     h_txs := h_txs h; h_pos := h_pos h; h_cand := cand; h_acked := acked; h_sent := sent |}.

Definition hist_event (h : history) (e : Event) : history :=
  match e with
  | EvStart l =>
      {| h_start := l; h_rels := ∅; h_open := []; h_inTx := false; h_txs := []; h_pos := l;
         h_cand := None; h_acked := h_acked h; h_sent := [] |}
  | EvReceive m =>
      let h := see_pos (message_view m).1 h in
      match (message_view m).2 with Some ev => see_event ev h | None => h end
  | EvSubmit jobs (Ok results) => set_acks (Some (jobs, results)) (h_acked h) (h_sent h) h
  | EvSubmit _ (Err _) => set_acks None (h_acked h) (h_sent h) h
  | EvCommit _ =>
      match h_cand h with
      | Some b => set_acks None (h_acked h ++ [b]) (h_sent h ++ b.1) h
      | None => h
      end
  | EvStatus _ | EvMetric _ => h
  end.

Definition hist (tr : list Event) : history := foldl hist_event history0 tr.

(** ** The server's side *)

(** Nothing is open: every transaction the server began is completed. *)
Definition quiet (h : history) : bool := negb (h_inTx h) && Nat.eqb (length (h_open h)) 0.

(** The rows of completed transactions, in order. *)
Definition tx_rows (txs : list (Z * list parsedInsert)) : list parsedInsert := concat (map snd txs).

(** The transactions of the log a session from [start] receives: those that
    commit after it. *)
Definition log_after (start : Z) (log : list (Z * list parsedInsert)) :=
  filter (fun t => start < t.1) log.

(** A moment of a session agrees with the log: what is completed is a prefix of
    what the session has to deliver; and when nothing is open, the positions the
    server has named are below the transactions it still has to deliver. *)
Definition snapshot_ok (log : list (Z * list parsedInsert)) (h : history) : bool :=
  let due := log_after (h_start h) log in
  let k := length (h_txs h) in
  bool_decide (h_txs h = take k due) &&
  (negb (quiet h) || forallb (fun t => h_pos h <? t.1) (drop k due)).

Definition log_sorted (log : list (Z * list parsedInsert)) : Prop :=
  StronglySorted (fun t u => t.1 < u.1) log.

(** Logical replication of [log]: commit order, nothing skipped, no position
    named that was not sent - at every moment of the trace. *)
Definition delivers (log : list (Z * list parsedInsert)) (tr : list Event) : Prop :=
  log_sorted log /\ forall n, snapshot_ok log (hist (take n tr)) = true.

(** An XLogData message that was received. *)
Definition taken (tr : list Event) (x : XLogData) : Prop :=
  exists rest, EvReceive (CopyData (String XLogDataByteID rest)) ∈ tr /\ ParseXLogData rest = Ok x.

(** The driver has read past position [c]: it committed a flush while nothing was
    open and every transaction and every position that the server had sent in the
    session was below [c]; but a message was received whose decoded length, added to
    its start as if it were a length of WAL, reaches [c]. *)
Definition read_past (tr : list Event) (c : Z) : Prop :=
  exists n stmts x, tr !! n = Some (EvCommit stmts) /\ taken (take n tr) x /\
    let h := hist (take n tr) in
    quiet h = true /\ h_start h < c /\ (forall u, u ∈ h_txs h -> u.1 < c) /\ h_pos h < c /\
    WALStart x <= h_pos h /\ c <= WALStart x + str_len (WALData x).

(** In a session the committed batches are, in commit order and once each, the
    rows of the first completed transactions. *)
Definition sent_ok (h : history) : Prop :=
  exists k, (k <= length (h_txs h))%nat /\ h_sent h = map toJob (tx_rows (take k (h_txs h))).

(** ** Lemmas *)

Lemma hist_snoc tr e : hist (tr ++ [e]) = hist_event (hist tr) e.
Proof. apply foldl_snoc. Qed.

Lemma taken_prefix tr tr' x : tr `prefix_of` tr' -> taken tr x -> taken tr' x.
Proof. intros [tr1 ->] (rest & Hin & E). exists rest. split; [|done]. apply elem_of_app. by left. Qed.

Lemma read_past_prefix tr tr' c : tr `prefix_of` tr' -> read_past tr c -> read_past tr' c.
Proof.
  intros [tr1 ->] (n & stmts & x & Hn & Hx). exists n, stmts, x.
  pose proof (lookup_lt_Some _ _ _ Hn). rewrite lookup_app_l, take_app_le by lia. done.
Qed.

(** The commit that reads past a position. *)
Lemma read_past_commit tr stmts x c :
  taken tr x -> quiet (hist tr) = true -> h_start (hist tr) < c ->
  (forall u, u ∈ h_txs (hist tr) -> u.1 < c) -> h_pos (hist tr) < c ->
  WALStart x <= h_pos (hist tr) -> c <= WALStart x + str_len (WALData x) ->
  read_past (tr ++ [EvCommit stmts]) c.
Proof.
  intros. exists (length tr), stmts, x.
  rewrite take_app_length, list_lookup_middle by done. by split_and!.
Qed.

(** To check that a trace does not read past a position. *)
Definition taken_reaches (from c : Z) (e : Event) : bool :=
  match e with
  | EvReceive (CopyData (String b rest)) =>
      Ascii.eqb b XLogDataByteID &&
      match ParseXLogData rest with
      | Ok x => (WALStart x <=? from) && (c <=? WALStart x + str_len (WALData x))
      | Err _ => false
      end
  | _ => false
  end.

Definition read_past_check (tr : list Event) (c : Z) : bool :=
  existsb (fun n =>
    match tr !! n with
    | Some (EvCommit _) =>
        let h := hist (take n tr) in
        quiet h && (h_pos h <? c) && existsb (taken_reaches (h_pos h) c) (take n tr)
    | _ => false
    end) (seq 0 (length tr)).

Lemma read_past_checked tr c : read_past tr c -> read_past_check tr c = true.
Proof.
  intros (n & stmts & x & Hn & (rest & Hin & Ex) & Hq & _ & _ & Hp & Hle & Hc). unfold read_past_check.
  apply existsb_exists. exists n. split; [apply in_seq; apply lookup_lt_Some in Hn; lia|].
  rewrite Hn, Hq. cbn [andb]. apply andb_true_iff. split; [by apply Z.ltb_lt|].
  apply existsb_exists. eexists. split; [by apply list_elem_of_In|]. cbn [taken_reaches].
  rewrite Ascii.eqb_refl, Ex. cbn [andb]. apply andb_true_iff. split; by apply Z.leb_le.
Qed.

Lemma delivers_prefix log tr tr' : delivers log (tr ++ tr') -> delivers log tr.
Proof.
  intros [Hs Hd]. split; [done|]. intros n. destruct (decide (n <= length tr)%nat).
  - specialize (Hd n). by rewrite take_app_le in Hd by done.
  - specialize (Hd (length tr)). rewrite take_app_length in Hd. rewrite take_ge by lia. done.
Qed.

Lemma delivers_now log tr :
  delivers log tr -> log_sorted log /\ snapshot_ok log (hist tr) = true.
Proof. intros [Hs Hd]. split; [done|]. specialize (Hd (length tr)). by rewrite firstn_all in Hd. Qed.

(** To check a trace it is enough to look at its finitely many moments. *)
Lemma delivers_check log tr :
  log_sorted log ->
  forallb (fun n => snapshot_ok log (hist (take n tr))) (seq 0 (S (length tr))) = true ->
  delivers log tr.
Proof.
  intros Hs Hc. split; [done|]. intros n. rewrite forallb_forall in Hc.
  destruct (decide (n <= length tr)%nat).
  - apply (Hc n). apply in_seq. lia.
  - rewrite take_ge by lia. rewrite <- (firstn_all tr). apply (Hc (length tr)). apply in_seq. lia.
Qed.

Lemma tx_rows_snoc txs t : tx_rows (txs ++ [t]) = tx_rows txs ++ t.2.
Proof. unfold tx_rows. rewrite map_app, concat_app. cbn. by rewrite app_nil_r. Qed.

Lemma tx_rows_split k txs : tx_rows (take k txs) ++ tx_rows (drop k txs) = tx_rows txs.
Proof. unfold tx_rows. by rewrite <- concat_app, <- map_app, take_drop. Qed.

Lemma elem_of_tx_rows p txs : p ∈ tx_rows txs <-> exists t, t ∈ txs /\ p ∈ t.2.
Proof.
  unfold tx_rows. rewrite list_elem_of_In, in_concat. split.
  - intros (rows & (t & <- & Ht)%in_map_iff & Hp). exists t. by rewrite !list_elem_of_In.
  - intros (t & Ht & Hp). exists t.2. rewrite in_map_iff, <- !list_elem_of_In.
    split; [|done]. exists t. by rewrite <- list_elem_of_In.
Qed.

Definition is_commit (e : Event) : bool := match e with EvCommit _ => true | _ => false end.

Lemma sent_ok_event h e : is_commit e = false -> sent_ok h -> sent_ok (hist_event h e).
Proof.
  intros He (k & Hk & Es). destruct e as [l|m| |jobs [results|]|stmts|]; cbn in *; try done; try by exists k.
  - by exists O.
  - destruct (message_view m) as [p [[rid name cols|rid vs|l|]|]]; cbn; try by exists k.
    + destruct (parseInsert _ _ _) as [[]|]; by exists k.
    + exists k. cbn. rewrite length_app, take_app_le by done. split; [cbn; lia|done].
Qed.

Lemma sent_ok_app tr tr' :
  Forall (fun e => is_commit e = false) tr' -> sent_ok (hist tr) -> sent_ok (hist (tr ++ tr')).
Proof.
  induction tr' as [|e tr' IH] using rev_ind; intros Hf Hs; [by rewrite app_nil_r|].
  apply Forall_snoc in Hf as [Hf He]. rewrite app_assoc, hist_snoc. auto using sent_ok_event.
Qed.

(** The completed transactions and the ones to come: a transaction of the log
    after the start of the session is either completed, or later than every
    completed one and, when nothing is open, than the reported position. *)
Lemma snapshot_split log h t :
  log_sorted log -> snapshot_ok log h = true -> t ∈ log -> h_start h < t.1 ->
  t ∈ h_txs h \/
  ((forall u, u ∈ h_txs h -> u.1 < t.1) /\ (quiet h = true -> h_pos h < t.1)).
Proof.
  intros Hs Hok Ht Hst. unfold snapshot_ok in Hok. apply andb_true_iff in Hok as [Htk Hq].
  apply bool_decide_eq_true in Htk. set (due := log_after (h_start h) log) in *.
  assert (t ∈ due) as Hd by (by apply list_elem_of_filter).
  rewrite <- (take_drop (length (h_txs h)) due), <- Htk in Hd.
  apply elem_of_app in Hd as [Hd|Hd]; [by left|right]. split.
  - intros u Hu. assert (StronglySorted (fun t u : Z * list parsedInsert => t.1 < u.1) due) as Hsd.
    { unfold due, log_after. clear -Hs. induction Hs as [|x l Hs IH Hx]; [constructor|].
      rewrite filter_cons. case_decide; [|done]. constructor; [done|].
      rewrite Forall_forall in *. intros y [_ Hy]%list_elem_of_filter. auto. }
    rewrite <- (take_drop (length (h_txs h)) due), <- Htk in Hsd.
    generalize dependent (drop (length (h_txs h)) due). intros rest _ Hd Hsd.
    revert Hu Hsd. clear -Hd. induction (h_txs h) as [|x l IH]; [by intros ?%elem_of_nil|].
    cbn [app]. intros Hu Hsd. inversion Hsd as [|? ? Hsd' Hf]; subst. rewrite Forall_forall in Hf.
    apply elem_of_cons in Hu as [->|Hu]; [|by apply IH].
    apply Hf, elem_of_app. by right.
  - intros Hqt. rewrite Hqt in Hq. cbn in Hq. rewrite forallb_forall in Hq.
    apply list_elem_of_In in Hd. by apply Z.ltb_lt, Hq.
Qed.

End History.
