(* ===== verification/Calm.v ===== *)
(** * Programs that only observe

    A program is [Calm f] when it leaves the database as it is and adds to the
    trace only metrics and status updates with flush position [f]: the frame condition of everything the driver does between the
    steps that matter. *)

From S2P Require Export History Run.

Open Scope Z_scope.
Open Scope pglg_scope.

Definition calm_event (f : Z) (e : Event) : Prop :=
  match e with
  | EvMetric _ => True
  | EvStatus u => WALFlushPosition u = f
  | _ => False
  end.

Definition ext (f : Z) (w w' : World) : Prop :=
  w_db w' = w_db w /\
  exists tr, w_trace w' = w_trace w ++ tr /\ Forall (calm_event f) tr.

#[export] Instance ext_po f : PreOrder (ext f).
Proof.
  split.
  - intros w. split_and!; [done..|]. exists []. by rewrite app_nil_r.
  - intros w1 w2 w3 (?&t1&E1&H1) (?&t2&E2&H2). split_and!; [congruence..|].
    exists (t1 ++ t2). rewrite E2, E1, app_assoc. split; [done|]. by apply Forall_app.
Qed.

Lemma ext_tick f w : ext f w (tick w).
Proof. split_and!; [done..|]. exists []. by rewrite app_nil_r. Qed.

Lemma ext_event f e w : calm_event f e -> ext f w (add_event e w).
Proof. intros. split_and!; [done..|]. exists [e]. split; [done|]. by constructor. Qed.

Definition Calm {A} (f : Z) (m : M A) : Prop := forall w, ext f w (m w).2.

Lemma wp_calm {A} f (m : M A) Q w :
  Calm f m -> (forall a w', ext f w w' -> Q a w') -> wp m Q w.
Proof. intros Hm HQ. unfold wp. specialize (Hm w). destruct (m w). by apply HQ. Qed.

Lemma calm_ret {A} f (a : A) : Calm f (mret a).
Proof. intros w. cbn. reflexivity. Qed.

Lemma calm_bind {A B} f (m : M A) (k : A -> M B) :
  Calm f m -> (forall a, Calm f (k a)) -> Calm f (m ≫= k).
Proof.
  intros Hm Hk w. specialize (Hm w). unfold mbind, ST_bind. destruct (m w) as [a w1].
  etransitivity; [exact Hm|apply Hk].
Qed.

Lemma calm_ask {A} f (answer : nat -> A) : Calm f (ask answer).
Proof. intros w. apply ext_tick. Qed.

Lemma calm_emit f e : calm_event f e -> Calm f (emit e).
Proof. intros Hc w. by apply ext_event. Qed.

Lemma calm_metric f m : Calm f (metric_out m).
Proof. by apply calm_emit. Qed.

Lemma calm_get_drv f : Calm f get_drv.
Proof. intros w. cbn. reflexivity. Qed.

Lemma calm_put_drv f d : Calm f (put_drv d).
Proof. intros w. split_and!; [done..|]. exists []. by rewrite app_nil_r. Qed.

#[export] Hint Resolve calm_ret calm_ask calm_metric calm_get_drv calm_put_drv : pglg.

(** [calm]: decomposes a program into its primitives. *)
Ltac calm :=
  repeat first
    [ progress intros
    | done
    | solve [auto with pglg]
    | apply calm_bind
    | break_match ].

Section Calm.
  Context `{Env, Pglogrepl, PgLsn}.

Lemma calm_sendStandbyStatus w : Calm (flushLSN w) (sendStandbyStatus w).
Proof.
  unfold sendStandbyStatus, time_Now, SendStandbyStatusUpdate. calm.
  by apply calm_emit.
Qed.

Lemma calm_recordRowAges f ps : Calm f (recordRowAges ps).
Proof. induction ps as [|p ps IH]; cbn [recordRowAges]; unfold recordRowAge, time_Now; calm. Qed.

Lemma calm_dlqWriteMetrics f rows : Calm f (dlqWriteMetrics rows).
Proof. induction rows as [|r rows IH]; cbn [dlqWriteMetrics]; calm. Qed.

Lemma calm_flushReport w rows t : Calm (flushLSN w) (flushReport w rows t).
Proof.
  unfold flushReport, time_Now. apply calm_bind; [apply calm_sendStandbyStatus|intros _].
  apply calm_bind; [apply calm_dlqWriteMetrics|]. calm.
Qed.

Lemma calm_acquireLeadership f : Calm f acquireLeadership.
Proof. unfold acquireLeadership, emitLeaderGauge. calm. Qed.

Lemma calm_relinquishLeadership f reason : Calm f (relinquishLeadership reason).
Proof. unfold relinquishLeadership, emitLeaderGauge. calm. Qed.

Lemma calm_slotBusy f cfg : Calm f (slotBusy cfg).
Proof.
  unfold slotBusy, rand_Int64N, wait_timer. apply calm_bind; [apply calm_relinquishLeadership|]. calm.
Qed.

Lemma calm_backoff_wait f bo : Calm f (backoff_wait bo).
Proof. unfold backoff_wait, wait_timer. calm. Qed.

(** ** What calm programs keep *)

Lemma hist_app_calm f tr tr' : Forall (calm_event f) tr' -> hist (tr ++ tr') = hist tr.
Proof.
  induction tr' as [|e tr' IH] using rev_ind; intros Hc; [by rewrite app_nil_r|].
  apply Forall_snoc in Hc as [Ht He]. rewrite app_assoc, hist_snoc, IH by done. by destruct e.
Qed.

Lemma ext_hist f w w' : ext f w w' -> hist (w_trace w') = hist (w_trace w).
Proof. intros (_ & tr & -> & Hc). by eapply hist_app_calm. Qed.

End Calm.

#[export] Hint Resolve calm_sendStandbyStatus calm_recordRowAges calm_dlqWriteMetrics
  calm_flushReport calm_acquireLeadership calm_relinquishLeadership calm_slotBusy
  calm_backoff_wait : pglg.
