(* ===== verification/DriverSafety.v ===== *)
(** * No committed row is lost

    The invariant of a streaming session. The locals of the loop agree with the
    reference reading of the trace ([synced]); the database and the trace agree
    with the log of the server ([wgood]): every row the durable cursor covers was
    answered by jack, and is in the dead-letter table when it was rejected,
    unless the driver read past its transaction ([read_past]). *)

From S2P Require Export Calm.

Open Scope Z_scope.
Open Scope pglg_scope.

(** LSNs that come out of the decoders are 64-bit. *)
Class DecoderLaws `{Pglogrepl} : Prop := {
  ParseV2_lsn s b l : ParseV2 s b = Ok (CommitMessage l) -> is_uint64 l;
  Keepalive_lsn s k : ParsePrimaryKeepaliveMessage s = Ok k -> is_uint64 (ServerWALEnd k);
  XLogData_lsn s x : ParseXLogData s = Ok x -> is_uint64 (WALStart x) }.

Lemma payload_commit_uint64 `{DecoderLaws} s l :
  payload_event s = Some (walCommit l) -> is_uint64 l.
Proof.
  unfold payload_event, parseWALMessage. intros E.
  destruct (ParseV2 s false) as [[]|] eqn:E'; simplify_eq. by eapply ParseV2_lsn.
Qed.

Lemma endPos_uint64 x : is_uint64 (endPos x).
Proof. apply uwrap64_range. Qed.

(** The end that the driver computes is at most the start and the length. *)
Lemma endPos_le `{DecoderLaws} s x :
  ParseXLogData s = Ok x -> endPos x <= WALStart x + str_len (WALData x).
Proof.
  intros [Hx _]%XLogData_lsn. unfold endPos, uwrap64, str_len. apply Z.mod_le; lia.
Qed.

Section Safety.
  Context `{Env, Pglogrepl, PgLsn} {Hlsn : LsnLaws} {Hquery : QueryLaws} {Hdec : DecoderLaws}.
  Variable cfg : Config.
  (** The transactions of the server, and where the cursor stood at the start. *)
  Variable log : list (Z * list parsedInsert).
  Variable c0 : Z.

  Abbreviation cursor_of := (Store.cursor_of cfg).

(** ** Statements *)

(** A row is accounted for: it was in a batch whose results were committed, its
    result is an acceptance, or a rejection with its dead-letter row stored. *)
Definition accounted_in (acks : list (list Job * list SubmitResult)) (db : Db) (p : parsedInsert) : Prop :=
  exists jobs results r,
    (jobs, results) ∈ acks /\ toJob p ∈ jobs /\ r ∈ results /\
    res_CorrelationID r = CorrelationID (toJob p) /\
    (res_Err r = ""%string \/
     (res_Err r <> ""%string /\ (dlqTable cfg, row_args (dlq_row_of p r)) ∈ db_dlq db)).

(** The batches whose answers were committed in any of the traces. *)
Definition acked_by (trs : list (list Event)) : list (list Job * list SubmitResult) :=
  trs ≫= fun tr => h_acked (hist tr).

(** By this instance alone. *)
Definition accounted_row (w : World) (p : parsedInsert) : Prop :=
  accounted_in (h_acked (hist (w_trace w))) (w_db w) p.

  (** The traces of other instances, and a state of the database that it has
      grown from: nothing for an instance alone. *)
  Variable others : list (list Event).
  Variable base : Db.

Definition accounted_all (w : World) (p : parsedInsert) : Prop :=
  accounted_in (acked_by others ++ h_acked (hist (w_trace w))) (w_db w) p.

(** The tables only grow: rows stay, the cursor does not go back. *)
Definition db_le (db db' : Db) : Prop :=
  (forall x, x ∈ db_dlq db -> x ∈ db_dlq db') /\ Store.cursor_db cfg db <= Store.cursor_db cfg db'.

Lemma db_le_refl db : db_le db db.
Proof. split; [done|lia]. Qed.
Lemma db_le_trans db1 db2 db3 : db_le db1 db2 -> db_le db2 db3 -> db_le db1 db3.
Proof. intros [] []. split; [auto|lia]. Qed.

(** Somebody read past a position. *)
Definition past_all (w : World) (c : Z) : Prop :=
  read_past (w_trace w) c \/ exists tr, tr ∈ others /\ read_past tr c.

(** Every row of every transaction of the log that the cursor has passed, unless
    somebody read past the transaction. *)
Definition covered (w : World) : Prop :=
  forall t p, t ∈ log -> c0 < t.1 <= cursor_of w -> p ∈ t.2 ->
    accounted_all w p \/ past_all w t.1.

Definition status_ok (w : World) : Prop :=
  forall u, EvStatus u ∈ w_trace w -> WALFlushPosition u <= cursor_of w.

Record wgood (w : World) : Prop := {
  g_status : status_ok w;
  g_cov : delivers log (w_trace w) -> covered w;
  g_sent : sent_ok (hist (w_trace w));
  g_cur : is_uint64 (cursor_of w);
  g_c0 : c0 <= cursor_of w;
  g_base : db_le base (w_db w) }.

(** The highest LSN the pending batch commits. *)
Definition commit_high (h : history) : Z := foldl Z.max (h_start h) (map fst (h_txs h)).

(** The batch is the rows of the transactions since the last flush. *)
Definition batch_split (h : history) (pending : list parsedInsert) (w : World) : Prop :=
  exists k, (k <= length (h_txs h))%nat /\ pending = tx_rows (drop k (h_txs h)) /\
    h_sent h = map toJob (tx_rows (take k (h_txs h))) /\
    forall p, p ∈ tx_rows (take k (h_txs h)) -> accounted_all w p.

(** The received position of the driver: one that the server named, or one that
    it reached by the length of a message. *)
Definition pos_read (h : history) (pos : Z) (w : World) : Prop :=
  pos <= h_pos h \/
  exists x, taken (w_trace w) x /\ WALStart x <= h_pos h /\ pos <= WALStart x + str_len (WALData x).

Record synced (h : history) (s : stream) (w : World) : Prop := {
  sy_rels : relations (st_wal s) = h_rels h;
  sy_open : inserts (st_buf s) = h_open h;
  sy_tx : inTx s = h_inTx h;
  sy_pos : pos_read h (clientXLogPos (st_wal s)) w;
  sy_start : h_start h <= cursor_of w;
  sy_lsn : pendingCommitLSN s = commit_high h;
  sy_flush : flushLSN (st_wal s) <= cursor_of w;
  sy_cand : h_cand h = None;
  sy_batch : batch_split h (pendingInserts s) w;
  sy_u1 : is_uint64 (pendingCommitLSN s);
  sy_u2 : is_uint64 (clientXLogPos (st_wal s)) }.

Definition good (s : stream) (w : World) : Prop :=
  wgood w /\ synced (hist (w_trace w)) s w.

(** The postcondition of a part of the session: the invariant, or an error in a
    world that is still good. *)
Definition post (r : result error stream) (w : World) : Prop :=
  match r with Ok s => good s w | Err _ => wgood w end.

(** ** Worlds only grow *)

Record grows (w w' : World) : Prop := {
  gr_acked b : b ∈ h_acked (hist (w_trace w)) -> b ∈ h_acked (hist (w_trace w'));
  gr_dlq x : x ∈ db_dlq (w_db w) -> x ∈ db_dlq (w_db w');
  gr_cursor : cursor_of w <= cursor_of w';
  gr_trace : w_trace w `prefix_of` w_trace w' }.

Lemma grows_accounted w w' p : grows w w' -> accounted_all w p -> accounted_all w' p.
Proof.
  intros [Ha Hd _ _] (jobs & results & r & ? & ? & ? & ? & Hr).
  exists jobs, results, r. split_and!; [|done..|naive_solver].
  rewrite elem_of_app in *. naive_solver.
Qed.

Lemma grows_past w w' c : grows w w' -> past_all w c -> past_all w' c.
Proof. intros Hg [?|?]; [left|by right]. by eapply read_past_prefix; [apply gr_trace|]. Qed.

Lemma grows_covered w w' p c :
  grows w w' -> accounted_all w p \/ past_all w c -> accounted_all w' p \/ past_all w' c.
Proof. intros Hg [|]; [left; by eapply grows_accounted|right; by eapply grows_past]. Qed.

Lemma pos_read_grows h pos w w' : grows w w' -> pos_read h pos w -> pos_read h pos w'.
Proof. intros Hg [?|(x & Hx & ?)]; [by left|right]. exists x. split; [by eapply taken_prefix; [apply Hg|]|done]. Qed.

Lemma hist_event_acked h e b : b ∈ h_acked h -> b ∈ h_acked (hist_event h e).
Proof.
  intros Hb. destruct e as [|m| |jobs [results|]|stmts|]; cbn; try done.
  - destruct (message_view m) as [p [[]|]]; cbn; try done. by destruct (parseInsert _ _ _) as [[]|].
  - destruct (h_cand h); [|done]. apply elem_of_app. by left.
Qed.

Lemma grows_event e w w' :
  w_db w' = w_db w -> w_trace w' = w_trace w ++ [e] -> grows w w'.
Proof.
  intros Hd Ht. split.
  - intros b. rewrite Ht, hist_snoc. apply hist_event_acked.
  - by rewrite Hd.
  - unfold Store.cursor_of. by rewrite Hd.
  - rewrite Ht. by eexists.
Qed.

Lemma grows_same w w' : w_db w' = w_db w -> w_trace w' = w_trace w -> grows w w'.
Proof.
  intros Hd Ht. split; [by rewrite Ht|by rewrite Hd|unfold Store.cursor_of; by rewrite Hd|by rewrite Ht].
Qed.

Lemma grows_ext f w w' : ext f w w' -> grows w w'.
Proof.
  intros Hx. split; [by rewrite (ext_hist _ _ _ Hx)|by rewrite (proj1 Hx)| |].
  - unfold Store.cursor_of. by rewrite (proj1 Hx).
  - destruct Hx as (_ & tr & -> & _). by eexists.
Qed.

(** [wgood] and [synced] along growth that leaves the database alone. *)
Lemma wgood_db_same w w' tr :
  w_db w' = w_db w -> w_trace w' = w_trace w ++ tr -> grows w w' ->
  Forall (fun e => is_commit e = false) tr ->
  (forall u, EvStatus u ∈ tr -> WALFlushPosition u <= cursor_of w) -> wgood w -> wgood w'.
Proof.
  intros Hd Ht Hg Hnc Hu [Hst Hcov Hsent Hcu Hc0 Hb]. assert (cursor_of w' = cursor_of w) as Ec
    by (unfold Store.cursor_of; by rewrite Hd).
  split; rewrite ?Ec, ?Hd; [|intros Hdel|rewrite Ht; by apply sent_ok_app|done..].
  - intros u. rewrite Ht, elem_of_app, Ec. intros [|]; auto.
  - intros t p Ht' Hc Hp. rewrite Ec in Hc. eapply grows_covered; [exact Hg|].
    eapply Hcov; [|done..]. rewrite Ht in Hdel. by eapply delivers_prefix.
Qed.

Lemma wgood_ext f w w' : ext f w w' -> f <= cursor_of w -> wgood w -> wgood w'.
Proof.
  intros Hx Hf. pose proof Hx as (Hd & tr & Ht & Hc). eapply wgood_db_same; [done..| | |].
  - by eapply grows_ext.
  - eapply Forall_impl; [exact Hc|]. by intros [].
  - intros u Hu. rewrite Forall_forall in Hc. apply (Hc _) in Hu. cbn in Hu. lia.
Qed.

Lemma batch_split_grows h pending w w' :
  grows w w' -> batch_split h pending w -> batch_split h pending w'.
Proof. intros Hg (k & ? & ? & ? & Ha). exists k. split_and!; eauto using grows_accounted. Qed.

Lemma synced_grows h s w w' : grows w w' -> synced h s w -> synced h s w'.
Proof.
  intros Hg []. pose proof (gr_cursor _ _ Hg). split; try done; try lia.
  - by eapply pos_read_grows.
  - by eapply batch_split_grows.
Qed.

Lemma good_ext f s w w' : ext f w w' -> f <= cursor_of w -> good s w -> good s w'.
Proof.
  intros Hx Hf [Hw Hs]. split; [by eapply wgood_ext|]. rewrite (ext_hist _ _ _ Hx).
  eapply synced_grows; [by eapply grows_ext|done].
Qed.

Lemma wgood_same w w' : same_state w w' -> wgood w -> wgood w'.
Proof.
  intros (Hd & Ht & _). apply (wgood_db_same _ _ []); [done|by rewrite app_nil_r|by apply grows_same|constructor|].
  by intros u ?%elem_of_nil.
Qed.

Lemma good_same s w w' : same_state w w' -> good s w -> good s w'.
Proof.
  intros Hw [Hg Hs]. split; [by eapply wgood_same|]. destruct Hw as (Hd & Ht & _). rewrite Ht.
  eapply synced_grows; [by apply grows_same|done].
Qed.

(** ** Commits *)

Lemma commit_high_lt h l :
  h_start h < l -> (forall u, u ∈ h_txs h -> u.1 < l) -> commit_high h < l.
Proof.
  unfold commit_high. generalize (h_start h) as st. induction (h_txs h) as [|x txs IH]; [done|].
  intros st Hst Hall. cbn. apply IH.
  - specialize (Hall x ltac:(left)). lia.
  - intros u Hu. apply Hall. by right.
Qed.

Lemma grows_commit w w' rows l stmts :
  0 <= l -> w_db w' = flushed_db cfg rows l (w_db w) ->
  w_trace w' = w_trace w ++ [EvCommit stmts] -> grows w w'.
Proof.
  intros Hl Hd Ht. split.
  - intros b. rewrite Ht, hist_snoc. apply hist_event_acked.
  - intros x. rewrite Hd. cbn. rewrite elem_of_app. by left.
  - unfold Store.cursor_of. rewrite Hd, cursor_flushed by done. lia.
  - rewrite Ht. by eexists.
Qed.

(** A flush keeps the world good when what it covers is accounted for and what
    is still to come lies above it. *)
Lemma wgood_commit w w' rows l stmts :
  let h := hist (w_trace w) in
  is_uint64 l -> w_db w' = flushed_db cfg rows l (w_db w) ->
  w_trace w' = w_trace w ++ [EvCommit stmts] -> wgood w -> h_start h <= cursor_of w ->
  sent_ok (hist_event h (EvCommit stmts)) ->
  (forall p, p ∈ tx_rows (h_txs h) -> accounted_all w' p) ->
  (forall t, h_start h < t -> (forall u, u ∈ h_txs h -> u.1 < t) ->
     (quiet h = true -> h_pos h < t) -> l < t \/ quiet h = true /\ exists x, taken (w_trace w) x /\ WALStart x <= h_pos h /\
       t <= WALStart x + str_len (WALData x)) ->
  wgood w'.
Proof.
  intros h Hl Hd Ht [Hst Hcov _ Hcu Hc0 Hb] Hstart Hsent Hacc Habove.
  assert (cursor_of w' = Z.max (cursor_of w) l) as Ec.
  { unfold Store.cursor_of. rewrite Hd. apply cursor_flushed. unfold is_uint64 in Hl. lia. }
  assert (grows w w') as Hg by (eapply grows_commit; [|done..]; unfold is_uint64 in Hl; lia).
  split.
  - intros u. rewrite Ht, elem_of_app, list_elem_of_singleton, Ec. intros [Hu|[=]].
    specialize (Hst u Hu). lia.
  - intros Hdel t p Hin Hc Hp. rewrite Ec in Hc. rewrite Ht in Hdel. apply delivers_prefix in Hdel.
    destruct (Z.le_gt_cases t.1 (cursor_of w)) as [Hle|Hgt].
    { eapply grows_covered; [exact Hg|]. eapply Hcov; [done..| |done]. lia. }
    apply delivers_now in Hdel as [Hs Hok].
    destruct (snapshot_split log _ t Hs Hok Hin ltac:(fold h; lia)) as [Htx|[Ha Hq]].
    + left. apply Hacc, elem_of_tx_rows. eauto.
    + destruct (Habove t.1 ltac:(lia) Ha Hq) as [?|(Hqt & x & Hx & ? & ?)]; [lia|].
      right. left. rewrite Ht. apply (read_past_commit _ _ x); auto. fold h. lia.
  - by rewrite Ht, hist_snoc.
  - rewrite Ec. unfold is_uint64 in *. lia.
  - lia.
  - destruct Hb as [Hbd Hbc]. destruct Hg as [_ Hgd Hgc _].
    unfold Store.cursor_of in Hgc. split; [auto|lia].
Qed.

Lemma toJob_cid p : CorrelationID (toJob p) = cid p.
Proof. reflexivity. Qed.

(** The rows of a committed batch are accounted for. *)
Lemma accounted_batch w w' stmts batch results rows l p :
  h_cand (hist (w_trace w)) = Some (map toJob batch, results) ->
  w_db w' = flushed_db cfg rows l (w_db w) -> w_trace w' = w_trace w ++ [EvCommit stmts] ->
  accounted batch results rows -> p ∈ batch -> accounted_all w' p.
Proof.
  intros Hc Hd Ht [Hacc _] Hp. destruct (Hacc p Hp) as (r & Hr & Er & _ & Herr).
  exists (map toJob batch), results, r. rewrite Ht, hist_snoc, Hd. cbn. rewrite Hc.
  split_and!; [set_solver|by apply list_elem_of_fmap_2|done|done|].
  destruct Herr as [|[? Hin]]; [by left|right]. split; [done|]. apply elem_of_app. right.
  apply list_elem_of_fmap. eauto.
Qed.

(** After a flush of everything that is completed, the batch is empty. *)
Lemma synced_flushed h s l w' a :
  is_uint64 l -> l <= cursor_of w' -> synced h s w' ->
  (forall p, p ∈ tx_rows (h_txs h) -> accounted_all w' p) ->
  synced (set_acks None a (map toJob (tx_rows (h_txs h))) h)
    (set_pending [] (set_wal (setFlushLSN l (st_wal s)) s)) w'.
Proof.
  intros Hl Hle [] Hacc. destruct (setFlushLSN_spec l (st_wal s)) as (Ef & Ep & Er).
  split; cbn; rewrite ?Ef, ?Ep, ?Er; try done; [lia|].
  exists (length (h_txs h)). cbn. rewrite drop_all, take_ge by lia. done.
Qed.

(** ** The operations keep the invariant *)

Lemma good_submit_error s w jobs e : good s w -> good s (add_event (EvSubmit jobs (Err e)) w).
Proof.
  intros [Hg Hs]. set (w' := add_event _ w).
  assert (grows w w') as Hgr by (by apply (grows_event (EvSubmit jobs (Err e)))). split.
  - apply (wgood_db_same w _ [EvSubmit jobs (Err e)]); [done|done|done|by repeat constructor| |done].
    by intros u [=]%list_elem_of_singleton.
  - unfold w'. cbn [w_trace add_event]. rewrite hist_snoc. eapply synced_grows in Hs; [|exact Hgr].
    destruct Hs. by split.
Qed.

Lemma wgood_submit w jobs r : wgood w -> wgood (add_event (EvSubmit jobs r) w).
Proof.
  intros Hg. apply (wgood_db_same w _ [EvSubmit jobs r]); [done|done| |by repeat constructor| |done].
  - by apply (grows_event (EvSubmit jobs r)).
  - by intros u [=]%list_elem_of_singleton.
Qed.

(** The rows of the completed transactions, once the pending ones are. *)
Lemma batch_split_all h pending w w' :
  grows w w' -> batch_split h pending w -> (forall p, p ∈ pending -> accounted_all w' p) ->
  (forall p, p ∈ tx_rows (h_txs h) -> accounted_all w' p) /\
  h_sent h ++ map toJob pending = map toJob (tx_rows (h_txs h)).
Proof.
  intros Hgr (k & _ & Ep & Es & Hk) Hp. rewrite <- (tx_rows_split k), map_app, <- Es, <- Ep.
  split; [|done]. intros p [Hin|Hin]%elem_of_app; [|by apply Hp].
  eapply grows_accounted; [exact Hgr|]. by apply Hk.
Qed.

Lemma set_acks_twice c a t c' a' t' h : set_acks c a t (set_acks c' a' t' h) = set_acks c a t h.
Proof. done. Qed.

(** One committed flush of the pending batch. *)
Lemma good_flushed h s w w' results rows stmts :
  hist (w_trace w) = set_acks (Some (map toJob (pendingInserts s), results)) (h_acked h) (h_sent h) h ->
  accounted (pendingInserts s) results rows ->
  w_db w' = flushed_db cfg rows (pendingCommitLSN s) (w_db w) ->
  w_trace w' = w_trace w ++ [EvCommit stmts] -> wgood w -> synced h s w ->
  good (set_pending [] (set_wal (setFlushLSN (pendingCommitLSN s) (st_wal s)) s)) w'.
Proof.
  intros Hh Hacc Hd Ht Hg Hs. pose proof (sy_u1 _ _ _ Hs) as Hu.
  assert (0 <= pendingCommitLSN s) as Hu0 by (unfold is_uint64 in Hu; lia).
  pose proof (grows_commit w w' rows _ stmts Hu0 Hd Ht) as Hgr.
  destruct (batch_split_all _ _ _ _ Hgr (sy_batch _ _ _ Hs)) as [Hall Hsent].
  { intros p Hp. eapply accounted_batch; [by rewrite Hh|exact Hd|exact Ht|exact Hacc|done]. }
  split.
  - eapply wgood_commit; [exact Hu|exact Hd|exact Ht|done| | | |]; rewrite Hh; cbn [h_start h_txs h_pos set_acks].
    + exact (sy_start _ _ _ Hs).
    + exists (length (h_txs h)). cbn. rewrite Hsent, take_ge by lia. done.
    + exact Hall.
    + intros t Hst Ha _. left. rewrite (sy_lsn _ _ _ Hs). by apply commit_high_lt.
  - rewrite Ht, hist_snoc, Hh. cbn [hist_event h_cand set_acks h_acked h_sent fst].
    rewrite set_acks_twice, Hsent. apply synced_flushed; [done| |by eapply synced_grows|exact Hall].
    unfold Store.cursor_of. rewrite Hd, cursor_flushed by done. lia.
Qed.

Lemma set_pending_nil s : pendingInserts s = [] -> set_pending [] (set_wal (st_wal s) s) = s.
Proof. destruct s. cbn. by intros ->. Qed.

Lemma good_tick s w : good s w -> good s (tick w).
Proof. by apply good_same. Qed.
Lemma good_metric s w m : good s w -> good s (add_event (EvMetric m) w).
Proof.
  intros Hg. eapply (good_ext (flushLSN (st_wal s))); [by apply ext_event| |done].
  apply (sy_flush _ _ _ (proj2 Hg)).
Qed.
Lemma good_wgood s w : good s w -> wgood w.
Proof. by intros []. Qed.
Lemma wgood_metric w m : wgood w -> wgood (add_event (EvMetric m) w).
Proof.
  intros Hg. eapply (wgood_ext (cursor_of w)); [by apply ext_event|lia|done].
Qed.

Hint Resolve good_tick good_metric good_submit_error good_wgood wgood_metric wgood_submit : pglg.

Lemma flushBatch_good s w :
  good s w ->
  wp (flushBatch cfg (st_wal s) (pendingInserts s) (pendingCommitLSN s))
    (fun r => post (match r with Ok wl => Ok (set_pending [] (set_wal wl s)) | Err e => Err e end)) w.
Proof.
  intros Hg. unfold flushBatch. destruct (pendingInserts s) as [|p ps] eqn:Ep.
  { wp_step. cbn. by rewrite set_pending_nil. }
  rewrite <- Ep. clear p ps Ep. unfold time_Now, submit, flushError. repeat wp_step.
  destruct (env_submit _ _) as [results|e]; [|repeat wp_step; cbn; eauto 8 with pglg].
  destruct (mapResults _ _) as [rows|e] eqn:Em; [|repeat wp_step; cbn; eauto 8 with pglg].
  match goal with |- context [add_event (EvSubmit ?j ?r) ?w0] =>
    assert (good s w0) as Hg0 by eauto 8 with pglg; revert Hg0; generalize w0 end.
  intros w0 [Hg0 Hs0]. set (w1 := add_event (EvSubmit _ _) _).
  assert (wgood w1) as Hg1 by (unfold w1; auto with pglg).
  assert (synced (hist (w_trace w0)) s w1) as Hs1.
  { eapply synced_grows; [|exact Hs0].
    by apply (grows_event (EvSubmit (map toJob (pendingInserts s)) (Ok results))). }
  wp_step. apply persistFlushResult_spec; [apply (sy_u1 _ _ _ Hs0)| |].
  { intros e w' Hw'. cbn. by eapply wgood_same. }
  intros r stmts w2 Hd Ht _.
  assert (good (set_pending [] (set_wal (setFlushLSN (pendingCommitLSN s) (st_wal s)) s)) w2) as Hg2.
  { eapply good_flushed; [|by apply mapResults_accounted|exact Hd|exact Ht|exact Hg1|exact Hs1].
    unfold w1. cbn [w_trace add_event]. by rewrite hist_snoc. }
  destruct r as [_|e]; [|cbn; by eapply good_wgood].
  wp_step. eapply wp_calm; [apply calm_flushReport|]. intros _ w3 Hx. wp_step. cbn.
  eapply good_ext; [exact Hx| |exact Hg2]. apply (sy_flush _ _ _ (proj2 Hg2)).
Qed.

(** The deadlines do not matter for the invariant. *)
Lemma good_nextBatchAt s w t : good s w -> good (set_nextBatchAt t s) w.
Proof. intros [Hg []]. split; [done|]. split; done. Qed.
Lemma good_nextStandbyAt s w t : good s w -> good (set_nextStandbyAt t s) w.
Proof. intros [Hg []]. split; [done|]. split; done. Qed.

Hint Resolve good_nextBatchAt good_nextStandbyAt : pglg.

(** A [do?] with the error passed on. *)
Lemma wp_post_bind (m : ME stream) (k : stream -> ME stream) f w :
  wp m post w -> (forall s w', good s w' -> wp (k s) post w') -> wp (bindE f m k) post w.
Proof.
  intros Hm Hk. wp_step. eapply wp_mono; [exact Hm|]. intros [s|e] w' Hp; [by apply Hk|exact Hp].
Qed.

Lemma flush_step s w (f : stream -> stream) :
  (forall s' w', good s' w' -> good (f s') w') -> good s w ->
  wp (bindE same (flushBatch cfg (st_wal s) (pendingInserts s) (pendingCommitLSN s))
    (fun wl => mret (Ok (f (set_pending [] (set_wal wl s)))))) post w.
Proof.
  intros Hf Hg. wp_step. eapply wp_mono; [by apply flushBatch_good|].
  intros [wl|e] w' Hp; [|exact Hp]. wp_step. by apply Hf.
Qed.

Lemma batchDue_good s w :
  good s w ->
  wp (batchDue cfg s) (fun r => post (match r with Ok sn => Ok sn.1 | Err e => Err e end)) w.
Proof.
  intros Hg. unfold batchDue, time_Now. repeat wp_step.
  destruct (_ && _); repeat wp_step; [|cbn; eauto with pglg].
  eapply (wp_mono _ post).
  - destruct (Nat.ltb _ _); [|wp_step; cbn; eauto with pglg].
    apply (flush_step s _ (fun s => s)); eauto with pglg.
  - intros [s'|e] w' Hp; repeat wp_step; [|exact Hp]. cbn. eauto with pglg.
Qed.

Lemma idle_quiet s h w :
  canAdvanceIdleFlush (pendingInserts s) (st_buf s) (inTx s) = true -> synced h s w ->
  pendingInserts s = [] /\ quiet h = true.
Proof.
  unfold canAdvanceIdleFlush, tb_empty, quiet. intros Hi Hs.
  rewrite (sy_open _ _ _ Hs), (sy_tx _ _ _ Hs) in Hi.
  apply andb_true_iff in Hi as [[Hp%Nat.eqb_eq Ho]%andb_true_iff Ht].
  rewrite Ho, Ht. by destruct (pendingInserts s).
Qed.

Lemma idleFlush_good s w : good s w -> wp (idleFlush cfg s) post w.
Proof.
  intros Hg. unfold idleFlush. destruct (_ && _) eqn:Hi; [|by wp_step].
  apply andb_true_iff in Hi as [Hi _]. destruct (idle_quiet _ _ _ Hi (proj2 Hg)) as [Ep Hq].
  wp_step. apply persistFlushResult_spec.
  - apply (sy_u2 _ _ _ (proj2 Hg)).
  - intros e w' Hw. cbn. eapply wgood_same; [exact Hw|]. eauto with pglg.
  - intros r stmts w' Hd Ht _. unfold writePos in *. pose proof Hg as [Hw Hs].
    pose proof (sy_u2 _ _ _ Hs) as Hu.
    assert (0 <= clientXLogPos (st_wal s)) as Hu0 by (unfold is_uint64 in Hu; lia).
    pose proof (grows_commit w w' [] _ stmts Hu0 Hd Ht) as Hgr.
    destruct (batch_split_all _ _ _ _ Hgr (sy_batch _ _ _ Hs)) as [Hall Hsent].
    { rewrite Ep. by intros p ?%elem_of_nil. }
    rewrite Ep in Hsent. cbn in Hsent. rewrite app_nil_r in Hsent.
    pose proof (sy_cand _ _ _ Hs) as Hc.
    assert (good (set_pending [] (set_wal (setFlushLSN (clientXLogPos (st_wal s)) (st_wal s)) s)) w') as Hg'.
    { split.
      - eapply wgood_commit; [exact Hu|exact Hd|exact Ht|done|by apply (sy_start _ _ _ Hs)| |exact Hall|].
        + cbn. rewrite Hc. exact (g_sent _ Hw).
        + intros t _ _ Ha. specialize (Ha Hq). destruct (sy_pos _ _ _ Hs) as [?|(x & Hx & ? & ?)]; [left; lia|].
          destruct (Z.lt_ge_cases (clientXLogPos (st_wal s)) t); [by left|right].
          split; [done|]. exists x. split_and!; [done|lia|lia].
      - rewrite Ht, hist_snoc. cbn [hist_event]. rewrite Hc.
        replace (hist (w_trace w)) with (set_acks None (h_acked (hist (w_trace w)))
          (map toJob (tx_rows (h_txs (hist (w_trace w))))) (hist (w_trace w)))
          by (rewrite <- Hsent, <- Hc; by destruct (hist (w_trace w))).
        apply synced_flushed; [done| |by eapply synced_grows|exact Hall].
        unfold Store.cursor_of. rewrite Hd, cursor_flushed by done. lia. }
    destruct r; [wp_step; cbn|cbn; eauto with pglg].
    by destruct s; cbn in *; subst.
Qed.

Lemma standbyDue_good s now w : good s w -> wp (standbyDue cfg s now) post w.
Proof.
  intros Hg. unfold standbyDue. destruct (negb _); [|by wp_step].
  apply wp_post_bind; [by apply idleFlush_good|]. clear s w Hg. intros s w Hg. wp_step.
  eapply wp_calm; [apply calm_sendStandbyStatus|]. intros r w' Hx.
  assert (good s w') as Hg' by (eapply good_ext; [exact Hx| |done]; apply (sy_flush _ _ _ (proj2 Hg))).
  destruct r; [|cbn; eauto with pglg]. unfold time_Now. repeat wp_step. cbn. eauto with pglg.
Qed.

(** ** Events *)

Lemma batch_split_snoc h l pending w :
  batch_split h pending w ->
  batch_split (see_event (walCommit l) h) (pending ++ h_open h) w.
Proof.
  intros (k & Hk & -> & Es & Ha). exists k. cbn [h_txs h_sent see_event set_stream_of].
  rewrite length_app, drop_app_le, take_app_le, tx_rows_snoc by done. split_and!; [lia|done..].
Qed.

(** The locals after the bookkeeping of a commit. *)
Definition committed (l : Z) (s : stream) : stream :=
  let s := set_pending (pendingInserts s ++ inserts (st_buf s)) s in
  let s := if pendingCommitLSN s <? l then set_commitLSN l s else s in
  set_inTx false (set_buf (tb_reset (st_buf s)) s).

Lemma synced_committed h l s w :
  is_uint64 l -> synced h s w -> synced (see_event (walCommit l) h) (committed l s) w.
Proof.
  intros Hl []. assert (commit_high (see_event (walCommit l) h) = Z.max (commit_high h) l) as Eh.
  { unfold commit_high. cbn. rewrite map_app. cbn. by rewrite foldl_snoc. }
  unfold committed. cbn [pendingCommitLSN set_pending].
  pose proof (batch_split_snoc h l _ w sy_batch0) as Hb. rewrite <- sy_open0 in Hb.
  destruct (Z.ltb_spec (pendingCommitLSN s) l); split; cbn -[see_event commit_high];
    try rewrite Eh; try done; lia.
Qed.

Lemma handleCommit_good h l s w :
  is_uint64 l -> wgood w -> hist (w_trace w) = see_event (walCommit l) h -> synced h s w ->
  wp (handleCommit cfg l s) post w.
Proof.
  intros Hl Hg Hh Hs. unfold handleCommit. wp_step.
  eapply (wp_calm (flushLSN (st_wal s))); [apply calm_recordRowAges|]. intros _ w1 Hx.
  fold (committed l s). set (s1 := committed l s). assert (good s1 w1) as Hg1.
  { eapply good_ext; [exact Hx| |].
    - pose proof (sy_flush _ _ _ Hs). unfold s1, committed.
      cbn [pendingCommitLSN set_pending]. by destruct (pendingCommitLSN s <? l).
    - split; [done|]. rewrite Hh. by apply synced_committed. }
  clearbody s1. clear Hs Hh Hg Hx w. wp_step.
  eapply (wp_mono _ (fun s2 w2 => good s2 w2)).
  { destruct (_ && _); unfold time_Now; repeat wp_step; eauto with pglg. }
  intros s2 w2 Hg2. destruct (_ <=? _); [|by wp_step].
  apply (flush_step s2 w2 (set_nextBatchAt zeroTime)); eauto with pglg.
Qed.

Lemma handleEvent_good h ev s w :
  (forall l, ev = walCommit l -> is_uint64 l) ->
  wgood w -> hist (w_trace w) = see_event ev h -> synced h s w ->
  wp (handleEvent cfg ev s) post w.
Proof.
  intros Hl Hg Hh Hs. destruct ev as [rid name cols|rid values|l|]; cbn [handleEvent].
  - wp_step. cbn. split; [done|]. rewrite Hh. destruct Hs. split; cbn; try done. by rewrite sy_rels0.
  - rewrite (sy_rels _ _ _ Hs). cbn [see_event] in Hh.
    destruct (parseInsert _ _ _) as [[p|]|e]; repeat wp_step; cbn.
    + split; [done|]. rewrite Hh. destruct Hs. split; cbn; try done. by rewrite sy_open0.
    + split; [done|]. by rewrite Hh.
    + apply good_metric. split; [done|]. by rewrite Hh.
  - eapply handleCommit_good; eauto.
  - wp_step. cbn. split; [done|]. rewrite Hh. destruct Hs. split; done.
Qed.

Lemma handleData_good h d s w :
  wgood w -> hist (w_trace w) = match payload_event d with Some ev => see_event ev h | None => h end ->
  synced h s w -> wp (handleData cfg d s) post w.
Proof.
  intros Hg Hh Hs. unfold handleData. pose proof (payload_commit_uint64 d) as Hu.
  unfold payload_event in *. destruct (parseWALMessage d) as [[ev|]|e]; repeat wp_step.
  - eapply handleEvent_good; [|done..]. intros l ->. by apply Hu.
  - cbn. split; [done|]. by rewrite Hh.
  - cbn. apply good_metric. split; [done|]. by rewrite Hh.
Qed.

(** ** Receiving *)

Lemma synced_pos h p q s w :
  is_uint64 q -> pos_read (see_pos (Some p) h) q w -> synced h s w ->
  synced (see_pos (Some p) h) (set_wal (advancePos q (st_wal s)) s) w.
Proof.
  intros Hq Hp []. destruct (advancePos_spec q (st_wal s)) as (Ep & Ef & Er).
  assert (pos_read (see_pos (Some p) h) (clientXLogPos (st_wal s)) w) as Hold.
  { destruct sy_pos0 as [?|(x & Hx & ? & ?)]; [left; cbn; lia|right].
    exists x. cbn. split_and!; [done|lia|done]. }
  split; cbn -[see_pos]; rewrite ?Ep, ?Ef, ?Er; try done; [|unfold is_uint64 in *; lia].
  destruct (Z.max_spec (clientXLogPos (st_wal s)) q) as [[_ ->]|[_ ->]]; done.
Qed.

Lemma synced_id h s w : synced h s w -> synced h (set_wal (st_wal s) s) w.
Proof. intros []. by split. Qed.

Lemma see_pos_None h : see_pos None h = h.
Proof. by destruct h. Qed.

(** The data of a message and the trace agree: [h'] is the history up to the
    position, the event of the data is the rest. *)
Definition received (s : stream) (wr : walConsumer * result error bytes) (w : World) : Prop :=
  wgood w /\ exists h, synced h (set_wal wr.1 s) w /\
    hist (w_trace w) =
      match wr.2 with
      | Ok (Some d) => match payload_event d with Some ev => see_event ev h | None => h end
      | _ => h
      end.

Lemma wgood_receive w m : wgood w -> wgood (add_event (EvReceive m) w).
Proof.
  intros Hg. apply (wgood_db_same w _ [EvReceive m]); [done|done|by apply (grows_event (EvReceive m))|by repeat constructor| |done].
  by intros u [=]%list_elem_of_singleton.
Qed.

(** After a message without data the session is in its invariant again, so that
    a status update may follow. *)
Lemma keepalive_good rest p s w :
  ParsePrimaryKeepaliveMessage rest = Ok p -> wgood w -> synced (hist (w_trace w)) s w ->
  wp (if ReplyRequested p then
        r ← sendStandbyStatus (st_wal s);
        match r with Err e => mret (st_wal s, Err e) | Ok _ => mret (st_wal s, Ok None) end
      else mret (st_wal s, Ok None)) (received s) w.
Proof.
  intros _ Hg Hs. destruct (ReplyRequested p).
  - wp_step. eapply wp_calm; [apply calm_sendStandbyStatus|]. intros r w' Hx.
    assert (good s w') as [Hg' Hs'] by (eapply good_ext; [exact Hx|apply (sy_flush _ _ _ Hs)|done]).
    apply synced_id in Hs'.
    destruct r; wp_step; (split; [done|]); by exists (hist (w_trace w')).
  - wp_step. split; [done|]. exists (hist (w_trace w)). split; [by apply synced_id|done].
Qed.

Lemma receiveMessage_good dl s w :
  good s w -> wp (receiveMessage dl (st_wal s)) (received s) w.
Proof.
  intros Hg. unfold receiveMessage, conn_ReceiveMessage. repeat wp_step. cbn [w_tick tick].
  assert (good s (tick w)) as Hgt by eauto with pglg. revert Hgt. generalize (tick w). intros w1 [Hg1 Hs1].
  clear Hg. destruct (env_receive _ _) as [m|e]; repeat wp_step.
  2: { destruct (pgconn_Timeout e); wp_step; (split; [done|]); eexists; by split; [apply synced_id|]. }
  apply (wgood_receive _ m) in Hg1.
  assert (grows w1 (add_event (EvReceive m) w1)) as Hgr by (by apply (grows_event (EvReceive m))).
  eapply synced_grows in Hs1; [|exact Hgr].
  assert (hist (w_trace (add_event (EvReceive m) w1)) =
    let h := see_pos (message_view m).1 (hist (w_trace w1)) in
    match (message_view m).2 with Some ev => see_event ev h | None => h end) as Hh
    by (cbn [w_trace add_event]; by rewrite hist_snoc).
  assert (forall rest x, m = CopyData (String XLogDataByteID rest) -> ParseXLogData rest = Ok x ->
    taken (w_trace (add_event (EvReceive m) w1)) x) as Htk.
  { intros rest x -> E. exists rest. split; [|done]. apply elem_of_app. right. by left. }
  revert Hg1 Hs1 Hh Htk. generalize (hist (w_trace w1)) as h. generalize (add_event (EvReceive m) w1) as w2.
  clear Hgr w w1. intros w h Hg Hs Hh Htk.
  assert ((message_view m) = (None, None) -> forall x, (forall d, x <> Ok (Some d)) ->
    received s (st_wal s, x) w) as Hnone.
  { intros E x Hx. rewrite E in Hh. cbn [fst snd] in Hh. rewrite see_pos_None in Hh. split; [done|]. exists h.
    split; [by apply synced_id|]. rewrite Hh. cbn. destruct x as [[d|]|]; try done. by destruct (Hx d). }
  destruct m as [[|c rest]|]; [wp_step; by apply Hnone| |wp_step; by apply Hnone].
  cbn [message_view] in *. destruct (Ascii.eqb c _).
  { unfold handleKeepalive. destruct (ParsePrimaryKeepaliveMessage rest) as [k|e] eqn:Ek.
    2: { wp_step. by apply Hnone. }
    apply (keepalive_good rest k (set_wal (advancePos (ServerWALEnd k) (st_wal s)) s)); [done..|].
    cbn in Hh. rewrite Hh. apply synced_pos; [by eapply Keepalive_lsn|left; cbn; lia|done]. }
  destruct (Ascii.eqb_spec c XLogDataByteID) as [->|]; [|wp_step; by apply Hnone].
  unfold handleXLogData. wp_step. destruct (ParseXLogData rest) as [x|e] eqn:Ex; [|by apply Hnone].
  split; [done|]. exists (see_pos (Some (WALStart x)) h). cbn [fst snd] in *.
  split; [|exact Hh]. apply synced_pos; [apply endPos_uint64| |done].
  right. exists x. split; [by eapply Htk|]. split; [cbn; lia|by eapply endPos_le].
Qed.

Lemma set_wal_set_wal a b s : set_wal a (set_wal b s) = set_wal a s.
Proof. done. Qed.

Lemma receiveNext_good s w : good s w -> wp (receiveNext cfg s) post w.
Proof.
  intros Hg. unfold receiveNext. wp_step. eapply wp_mono; [by apply receiveMessage_good|].
  intros [wl r] w' (Hg' & h & Hs & Hh). cbn [fst snd] in *. destruct r as [[d|]|e].
  - by eapply handleData_good.
  - wp_step. cbn. split; [done|]. by rewrite Hh.
  - destruct (errors_Is _ _); wp_step; cbn; [|done]. split; [done|]. by rewrite Hh.
Qed.

Lemma iteration_good s w : good s w -> wp (iteration cfg s) post w.
Proof.
  intros Hg. unfold iteration, ctx_Err. repeat wp_step. destruct (env_ctx_err _).
  { wp_step. by eapply good_wgood, good_tick. }
  wp_step. eapply wp_mono; [by apply batchDue_good, good_tick|].
  intros [[s1 now]|e] w1 Hp; [|exact Hp]. cbn [fst snd] in *.
  apply wp_post_bind; [by apply standbyDue_good|]. intros s2 w2 Hg2. by apply receiveNext_good.
Qed.

Lemma streamLoop_good fuel s w :
  good s w -> wp (streamLoop cfg fuel s) (fun _ => wgood) w.
Proof.
  revert s w. induction fuel as [|fuel IH]; intros s w Hg; cbn [streamLoop].
  { wp_step. eauto with pglg. }
  wp_step. eapply wp_mono; [by apply iteration_good|]. intros [s'|e] w' Hp; [by apply IH|].
  by wp_step.
Qed.

End Safety.
