(* ===== verification/RunSafety.v ===== *)
(** * Safety of [Run]

    The invariant of the sessions carried through every action of an instance,
    and through [Run], which is a sequence of actions. *)

From S2P Require Export DriverSafety Node.

Open Scope Z_scope.
Open Scope pglg_scope.

Section RunSafety.
  Context `{Env, Pglogrepl, PgLsn} {Hlsn : LsnLaws} {Hquery : QueryLaws} {Hdec : DecoderLaws}.
  Variable cfg : Config.
  Variable log : list (Z * list parsedInsert).
  Variable c0 : Z.
  Variable others : list (list Event).
  Variable base : Db.

  Abbreviation wgood := (wgood cfg log c0 others base).
  Abbreviation good := (good cfg log c0 others base).
  Abbreviation cursor_of := (cursor_of cfg).

Lemma wgood_calm {A} (m : M A) (w : World) :
  (forall f, Calm f m) -> wgood w -> wp m (fun _ => wgood) w.
Proof.
  intros Hc Hg. eapply (wp_calm (cursor_of w)); [apply Hc|]. intros a w' Hx.
  eapply wgood_ext; [exact Hx|lia|done].
Qed.

Lemma wgood_db_trace w w' : w_db w' = w_db w -> w_trace w' = w_trace w -> wgood w -> wgood w'.
Proof.
  intros Hd Ht. apply (wgood_db_same _ _ _ _ _ _ _ []); [done|by rewrite app_nil_r|by apply grows_same|constructor|].
  by intros u ?%elem_of_nil.
Qed.

Lemma wgood_tick w : wgood w -> wgood (tick w).
Proof. by apply wgood_db_trace. Qed.

Hint Resolve wgood_tick : pglg.

(** The start of a session, at a position the durable cursor has reached. *)
Lemma good_start w wl l t :
  wgood w -> relations wl = ∅ -> is_uint64 l -> l <= cursor_of w ->
  good (stream0 (set_positions l l wl) l t) (add_event (EvStart l) w).
Proof.
  intros Hg Hr Hl Hle. set (w' := add_event _ w). assert (cursor_of w' = cursor_of w) as Ec by done.
  split.
  - apply (wgood_db_same _ _ _ _ _ w _ [EvStart l]); [done|done|by apply (grows_event _ (EvStart l))|by repeat constructor| |done].
    by intros u [=]%list_elem_of_singleton.
  - unfold w'. cbn [w_trace add_event]. rewrite hist_snoc. fold w'.
    split; cbn; rewrite ?Ec; try done; try lia; [left; cbn; lia|].
    exists O. split_and!; [cbn; lia|done|done|]. by intros p ?%elem_of_nil.
Qed.

(** The invariant of an instance between two actions. *)
Definition node_ok (ph : phase) (w : World) : Prop :=
  wgood w /\
  match ph with
  | Idle => True
  | HasCursor l => is_uint64 l /\ l <= cursor_of w
  | Streaming s => synced cfg others (hist (w_trace w)) s w
  end.

Lemma node_ok_idle w : wgood w -> node_ok Idle w.
Proof. by split. Qed.

Lemma node_ok_post (m : ME stream) w :
  wp m (post cfg log c0 others base) w -> wp m (fun r => node_ok (andthen Streaming r)) w.
Proof. intros Hm. eapply wp_mono; [exact Hm|]. intros [s|e] w' Hp; [exact Hp|by apply node_ok_idle]. Qed.

Lemma readCursor_node_ok w :
  wgood w -> wp (readCursor cfg) (fun r => node_ok (andthen HasCursor r)) w.
Proof.
  intros Hg. apply readCursor_spec.
  - apply (g_cur _ _ _ _ _ _ Hg).
  - intros e w' (Hd & Ht & _). split; [|done]. by eapply wgood_db_trace.
  - intros w' (Hd & Ht & _). assert (wgood w') as Hg' by (by eapply wgood_db_trace).
    assert (cursor_of w' = cursor_of w) as <- by (unfold Store.cursor_of; by rewrite Hd).
    split; [done|]. split; [apply (g_cur _ _ _ _ _ _ Hg')|lia].
Qed.

Lemma openSession_good l w :
  wgood w -> is_uint64 l -> l <= cursor_of w ->
  wp (openSession cfg l) (post cfg log c0 others base) w.
Proof.
  intros Hg Hl Hle. unfold openSession, connect. repeat wp_step.
  destruct (env_connect _ _); repeat wp_step; [cbn; auto with pglg|].
  set (wl := set_conn _). unfold startStreaming. cbn [conn set_conn wl negb]. repeat wp_step.
  assert (forall w' e, wgood w' -> wp (close wl ≫= fun _ => mret (Err e)) (post cfg log c0 others base) w') as Hclose.
  { intros w' e Hw'. unfold close. destruct (conn wl); repeat wp_step; cbn; auto with pglg. }
  destruct (env_identify _); repeat wp_step; [apply Hclose; auto with pglg|].
  destruct (env_start_replication _ _ _ _); repeat wp_step; [apply Hclose; auto with pglg|].
  set (w1 := tick (tick (tick w))).
  assert (wgood w1) as Hg1 by (unfold w1; auto with pglg).
  pose proof (fun t => good_start w1 wl l t Hg1 eq_refl Hl Hle) as Hs. set (w2 := add_event _ w1) in *.
  eapply (wp_calm l); [apply calm_acquireLeadership|]. intros _ w3 Hx.
  unfold time_Now. repeat wp_step. cbn [post].
  apply good_tick. eapply good_ext; [exact Hx|exact Hle|apply Hs].
Qed.

Lemma wgood_then {A} (m : M A) w :
  (forall f, Calm f m) -> wgood w -> wp (_ ← m; mret Idle) node_ok w.
Proof.
  intros Hc Hg. wp_step. eapply wp_mono; [by apply wgood_calm|].
  intros ? w' Hg'. wp_step. by apply node_ok_idle.
Qed.

(** Every action keeps the invariant. *)
Lemma act_node_ok a ph w : node_ok ph w -> wp (act cfg a ph) node_ok w.
Proof.
  intros [Hg Hph]. destruct a; destruct ph; cbn [act]; try (wp_step; by split);
    try (repeat wp_step; apply node_ok_idle; eapply wgood_db_trace; [| |exact Hg]; done);
    try (apply wgood_then; [intros; unfold close; calm|done]).
  - wp_step. eapply wp_mono; [by apply readCursor_node_ok|]. intros r w' Hw'. by wp_step.
  - wp_step. destruct Hph. eapply wp_mono; [eapply node_ok_post; by apply openSession_good|].
    intros r w' Hw'. by wp_step.
  - wp_step. eapply wp_mono; [eapply node_ok_post; by apply iteration_good|]. intros r w' Hw'. by wp_step.
Qed.

Lemma acts_node_ok l ph w : node_ok ph w -> wp (acts cfg l ph) node_ok w.
Proof.
  revert ph w. induction l as [|a l IH]; intros ph w Hw; cbn [acts]; wp_step; [done|].
  eapply wp_mono; [by apply act_node_ok|]. intros ph' w' Hw'. by apply IH.
Qed.

Lemma runLoop_wgood sessions fuel bo w :
  wgood w -> wp (runLoop cfg sessions fuel bo) (fun _ => wgood) w.
Proof.
  intros Hg. eapply wp_mono; [apply runLoop_acts, reached_refl|].
  assert (forall ph w', reached cfg (Idle, w) ph w' -> wgood w') as Hr.
  { intros ph w' (l & _ & E). pose proof (acts_node_ok l Idle w (node_ok_idle _ Hg)) as Hw.
    cbn [fst snd] in E. unfold wp in Hw. rewrite E in Hw. exact (proj1 Hw). }
  intros [r|] w' Hw'; [by apply Hr in Hw'|]. destruct Hw' as [ph Hw']. by apply Hr in Hw'.
Qed.

(** The world before [Run]: any database, an empty trace. *)
Definition world0 (db : Db) : World :=
  {| w_tick := 0; w_db := db; w_trace := [];
     w_drv := {| isLeader := false; maintWake := false; standbyLogged := false |} |}.

Lemma wgood_world0 db :
  is_uint64 (cursor_db cfg db) -> c0 = cursor_db cfg db -> db_le cfg base db -> wgood (world0 db).
Proof.
  intros Hu -> Hb. split; [by intros u ?%elem_of_nil| | |done| |done].
  - intros _ t p _ [? Hle] _. unfold Store.cursor_of in Hle. cbn in Hle. lia.
  - by exists O.
  - unfold Store.cursor_of. cbn. lia.
Qed.

Lemma Run_wgood sessions fuel db :
  is_uint64 (cursor_db cfg db) -> c0 = cursor_db cfg db -> db_le cfg base db ->
  wgood (Run cfg sessions fuel (world0 db)).2.
Proof.
  intros Hu Hc Hb. pose proof (runLoop_wgood sessions fuel
    {| Backoff.initial := ReconnectInitialDelay cfg; Backoff.max := ReconnectMaxDelay cfg;
       Backoff.attempt := 0 |} _ (wgood_world0 db Hu Hc Hb)) as Hw.
  unfold wp in Hw. unfold Run. by destruct (runLoop _ _ _ _ _).
Qed.

End RunSafety.
