(* ===== verification/Sample.v ===== *)
(** * A concrete environment

    A small codec and a scripted environment: the inputs at which the theorems
    with hypotheses about the outside are applied. The codec writes an LSN in
    decimal and a replication message as one letter and its arguments. *)

From S2P Require Export RunSafety.

Open Scope Z_scope.

(** ** The codec *)

Definition col (s : string) : TupleDataColumn := {| DataType := "t"; Data := s |}.

Definition toy_ParseV2 (s : string) (_ : bool) : result error Message :=
  match s with
  | String "R" _ => Ok (RelationMessageV2 1 "outbox_jobs" ["id"; "job_type"])
  | String "B" _ => Ok BeginMessage
  | String "I" rest => Ok (InsertMessageV2 1 [col rest; col "send_mail"])
  | String "C" (String c _) => Ok (CommitMessage (ascii_val c))
  | String "X" _ => Ok StreamStartMessageV2
  | _ => Ok OtherMessage
  end%string.

#[export] Instance toy_pglogrepl : Pglogrepl := {
  ParseV2 := toy_ParseV2;
  ParsePrimaryKeepaliveMessage s :=
    match s with
    | String c rest => Ok {| ServerWALEnd := ascii_val c; ReplyRequested := String.eqb rest "r" |}
    | EmptyString => Err (External "short keepalive")
    end;
  ParseXLogData s :=
    match s with
    | String c rest => Ok {| WALStart := ascii_val c; WALData := rest |}
    | EmptyString => Err (External "short xlog data")
    end;
  LSN_String := FormatUint;
  ParseLSN s := match ParseUint s with Ok z => Ok z | Err e => Err (NumError e) end;
  pgconn_Timeout e := bool_decide (e = ContextDeadlineExceeded) }.

#[export] Instance toy_pglsn : PgLsn := {
  pg_lsn_in s := match ParseUint s with Ok z => Some z | Err _ => None end;
  pg_lsn_out := FormatUint }.

#[export] Instance toy_lsn_laws : LsnLaws.
Proof. split; intros l Hl; cbn [pg_lsn_in LSN_String ParseLSN pg_lsn_out toy_pglsn toy_pglogrepl];
    by rewrite ParseUint_FormatUint. Qed.

Lemma ascii_val_uint64 c : is_uint64 (ascii_val c).
Proof. pose proof (ascii_val_bound c). unfold is_uint64, uint64_max. lia. Qed.

#[export] Instance toy_decoder_laws : DecoderLaws.
Proof.
  split.
  - intros s b l. cbn. unfold toy_ParseV2. intros E.
    repeat match type of E with context [match ?x with _ => _ end] => destruct x end;
      simplify_eq; apply ascii_val_uint64.
  - intros [|c rest] k E; cbn in E; simplify_eq. cbn. apply ascii_val_uint64.
  - intros [|c rest] x E; cbn in E; simplify_eq. cbn. apply ascii_val_uint64.
Qed.

(** ** The environment *)

Definition chr (n : nat) (s : string) : string := String (ascii_of_nat n) s.
Definition xlog (start : nat) (body : string) : BackendMessage := CopyData (String "w" (chr start body)).
Definition keepalive (pos : nat) : BackendMessage := CopyData (String "k" (chr pos "r")).

Definition answer (j : Job) : SubmitResult :=
  {| res_CorrelationID := CorrelationID j; res_JobID := "job";
     res_Err := if String.eqb (CorrelationID j) "8" then "no handler" else "";
     res_Reason := "" |}%string.

(** Messages by the number of the call that receives them; cancellation from
    call [stop] on; the clock advances 100 ms per call. *)
Definition scripted (script : list (nat * result error BackendMessage)) (stop : nat) : Env := {|
  env_now n := (Z.of_nat n + 1) * (100 * Millisecond);
  env_ctx_err n := if Nat.ltb n stop then None else Some ContextCanceled;
  env_receive n _ :=
    match List.find (fun x => Nat.eqb x.1 n) script with
    | Some (_, r) => r
    | None => Err ContextDeadlineExceeded
    end;
  env_send_status _ _ := None;
  env_submit _ jobs := Ok (rev (map answer jobs));
  env_begin _ := None;
  env_exec _ _ := None;
  env_commit _ := CommitOk;
  env_query _ := None;
  env_connect _ _ := None;
  env_identify _ := None;
  env_start_replication _ _ _ _ := None;
  env_close _ := None;
  env_timer n _ := if Nat.ltb n stop then None else Some ContextCanceled;
  env_rand n := Z.of_nat n |}.

#[export] Instance scripted_query script stop : @QueryLaws (scripted script stop).
Proof. split. done. Qed.

Definition db0 : Db := {| db_cursor := ∅; db_dlq := [] |}.

(** ** A run with a failure

    Two transactions of the server. The first one is flushed at the size bound,
    with one row rejected; then the connection breaks; the second session starts
    at the durable cursor and flushes the other transaction at the batch
    deadline; then the run is cancelled. *)

Definition outbox_row (n : Z) : parsedInsert := set_jobType "send_mail" (set_id n parsedInsert0).

Definition sample_log : list (Z * list parsedInsert) :=
  [(16, [outbox_row 7; outbox_row 8]); (40, [outbox_row 9])].

Definition sample_script : list (nat * result error BackendMessage) :=
  [(7, Ok (xlog 1 "R")); (10, Ok (xlog 2 "B")); (13, Ok (xlog 3 "I7")); (16, Ok (xlog 4 "I8"));
   (19, Ok (xlog 9 (String "C" (chr 16 "")))); (32, Err (External "connection reset"));
   (44, Ok (xlog 20 "R")); (47, Ok (xlog 21 "B")); (50, Ok (xlog 22 "I9"));
   (53, Ok (xlog 30 (String "C" (chr 40 ""))))]%nat.

Definition sample_env : Env := scripted sample_script 85.

Definition sample_world : World := (@Run sample_env _ _ sample_config 5 60 (world0 db0)).2.

Lemma sample_delivers : delivers sample_log (w_trace sample_world).
Proof.
  apply delivers_check.
  - repeat constructor.
  - vm_compute. reflexivity.
Qed.

Example sample_cursor : cursor_db sample_config (w_db sample_world) = 40.
Proof. vm_compute. reflexivity. Qed.
