(* ===== verification/EndToEnd.v ===== *)
(** * The theorems about whole runs

    What [Run] guarantees, for every environment, and the runs at which the
    hypotheses hold. *)

From S2P Require Export Sample.

Open Scope Z_scope.

(** Without other instances. *)
Lemma past_alone `{Pglogrepl} cfg w p c :
  accounted_all cfg [] w p \/ past_all [] w c -> accounted_row cfg w p \/ read_past (w_trace w) c.
Proof. intros [Ha|[Hp|(tr & ?%not_elem_of_nil & _)]]; [by left|by right|done]. Qed.

Section Theorems.
  Context `{Env, Pglogrepl, PgLsn} {Hlsn : LsnLaws} {Hquery : QueryLaws} {Hdec : DecoderLaws}.


(** No status update of a run ever carries a flush position above the
    durable cursor, so the server keeps every WAL record the cursor has not
    passed; and the cursor itself never goes back. *)
Theorem status_below_cursor (cfg : Config) (db : Db) (sessions fuel : nat)
    (Hu : is_uint64 (cursor_db cfg db)) :
  let w := (Run cfg sessions fuel (world0 db)).2 in
  (forall u, EvStatus u ∈ w_trace w -> WALFlushPosition u <= cursor_db cfg (w_db w)) /\
  cursor_db cfg db <= cursor_db cfg (w_db w).
Proof.
  intros w. pose proof (Run_wgood cfg [] _ [] db sessions fuel db Hu eq_refl (db_le_refl cfg db)) as Hw.
  split; [exact (g_status _ _ _ _ _ _ Hw)|exact (g_c0 _ _ _ _ _ _ Hw)].
Qed.

(** C3: within a session, the batches whose answers were committed are exactly
    the rows of the first completed transactions: in commit order, once each,
    and no transaction is split. *)
Theorem batches_in_commit_order (cfg : Config) (db : Db) (sessions fuel : nat)
    (Hu : is_uint64 (cursor_db cfg db)) :
  let h := hist (w_trace (Run cfg sessions fuel (world0 db)).2) in
  exists k, (k <= length (h_txs h))%nat /\ h_sent h = map toJob (tx_rows (take k (h_txs h))).
Proof. exact (g_sent _ _ _ _ _ _ (Run_wgood cfg [] _ [] db sessions fuel db Hu eq_refl (db_le_refl cfg db))). Qed.

End Theorems.

(** ** The theorems at the sample run *)

Lemma sample_start : is_uint64 (cursor_db sample_config db0).
Proof. vm_compute. split; discriminate. Qed.

Lemma or_not_past (P : Prop) tr c : read_past_check tr c = false -> P \/ read_past tr c -> P.
Proof. by intros Hc [?|?%read_past_checked]; [|congruence]. Qed.

Lemma sample_not_past : read_past_check (w_trace sample_world) 16 = false.
Proof. vm_compute. reflexivity. Qed.


Definition sample_status : StandbyStatusUpdate :=
  {| WALWritePosition := 16; WALFlushPosition := 16; WALApplyPosition := 16; ClientTime := 28 * (100 * Millisecond) |}.

Lemma status_below_cursor_witness :
  EvStatus sample_status ∈ w_trace sample_world /\
  WALFlushPosition sample_status <= cursor_db sample_config (w_db sample_world).
Proof.
  assert (EvStatus sample_status ∈ w_trace sample_world) as Hin
    by (apply (list_elem_of_lookup_2 _ 11); vm_compute; reflexivity).
  split; [exact Hin|].
  exact (proj1 (status_below_cursor (H := sample_env) sample_config db0 5 60 sample_start) _ Hin).
Defined.

Lemma batches_in_commit_order_witness :
  let h := hist (w_trace sample_world) in
  exists k, (k <= length (h_txs h))%nat /\ h_sent h = map toJob (tx_rows (take k (h_txs h))).
Proof. exact (batches_in_commit_order (H := sample_env) sample_config db0 5 60 sample_start). Defined.

(** ** The exception *)

(** Transaction 16 carries a row whose text is 61 bytes long; the next commit
    is at 40. *)
Definition long_row : string := "I0000000000000000000000000000000000000000000000000000000000007".

Definition overshoot_script : list (nat * result error BackendMessage) :=
  [(7, Ok (xlog 1 "R")); (10, Ok (xlog 2 "B")); (13, Ok (xlog 3 long_row));
   (16, Ok (xlog 9 (String "C" (chr 16 ""))))]%nat.

Definition overshoot_log : list (Z * list parsedInsert) :=
  [(16, [outbox_row 7]); (40, [outbox_row 9])].

Definition overshoot_world : World :=
  (@Run (scripted overshoot_script 300) _ _ sample_config 5 300 (world0 db0)).2.

(** No batch of [w] whose answer was committed has a job numbered [c]. *)
Definition no_batch_has (c : string) (w : World) : bool :=
  forallb (fun b => forallb (fun j => negb (String.eqb (CorrelationID j) c)) b.1)
    (h_acked (hist (w_trace w))).

Lemma no_batch_not_accounted cfg w p :
  no_batch_has (cid p) w = true -> ~ accounted_row cfg w p.
Proof.
  unfold no_batch_has. rewrite forallb_forall. intros Hb (jobs & results & r & Hin & Hj & _).
  apply list_elem_of_In in Hin. specialize (Hb _ Hin). cbn [fst] in Hb.
  rewrite forallb_forall in Hb. apply list_elem_of_In in Hj. specialize (Hb _ Hj).
  by rewrite toJob_cid, String.eqb_refl in Hb.
Qed.

(** The exception occurs: [receiveMessage] takes the length of the decoded
    message for a length of WAL. In this run the server delivers in order and
    nothing above 16 was committed so far; still the idle advance moves the
    durable cursor to 65, beyond the transaction that commits at 40 and that was
    never received. *)
Lemma xlog_length_overshoots :
  delivers overshoot_log (w_trace overshoot_world) /\
  cursor_db sample_config (w_db overshoot_world) = 65 /\
  (40, [outbox_row 9]) ∈ overshoot_log /\ ~ accounted_row sample_config overshoot_world (outbox_row 9).
Proof.
  split_and!.
  - apply delivers_check; [repeat constructor|vm_compute; reflexivity].
  - vm_compute. reflexivity.
  - right. left.
  - apply no_batch_not_accounted. vm_compute. reflexivity.
Qed.

Section Idle.
  Context `{Env, Pglogrepl, PgLsn} {Hlsn : LsnLaws} {Hquery : QueryLaws}.

(** C4: what causes it: after a message [x] has been received and the batch and
    the open transaction are empty, an idle advance that succeeds leaves the
    durable cursor at the start of [x] plus its decoded length or above,
    whatever the server still has to send below that. *)
Theorem idle_advance_takes_length (cfg : Config) (s : stream) (rest : string) (x : XLogData) (w : World)
    (Hx : ParseXLogData rest = Ok x)
    (Hidle : canAdvanceIdleFlush (pendingInserts s) (st_buf s) (inTx s) = true)
    (Hu : is_uint64 (clientXLogPos (st_wal s))) (Hf : flushLSN (st_wal s) <= cursor_of cfg w) :
  let '(r, w') := idleFlush cfg (set_wal (handleXLogData rest (st_wal s)).1 s) w in
  is_Ok r = true -> endPos x <= cursor_of cfg w'.
Proof.
  unfold handleXLogData. rewrite Hx. cbn [fst]. destruct (advancePos_spec (endPos x) (st_wal s)) as (Ep & Ef & _).
  set (wl := advancePos _ _) in *. pose proof (endPos_uint64 x) as Hxu.
  change (wp (idleFlush cfg (set_wal wl s))
    (fun r w' => is_Ok r = true -> endPos x <= cursor_of cfg w') w).
  unfold idleFlush. cbn [pendingInserts st_buf inTx st_wal set_wal]. rewrite Hidle. cbn [andb].
  unfold receivedPastFlush. destruct (Z.ltb_spec (flushLSN wl) (clientXLogPos wl)); [|wp_step; intros _; lia].
  wp_step. unfold writePos. apply persistFlushResult_spec.
  - rewrite Ep. unfold is_uint64 in *. lia.
  - by intros e w' _.
  - intros [_|e] stmts w' Hd _ _; [wp_step|done]. intros _. unfold cursor_of. rewrite Hd.
    rewrite cursor_flushed by (unfold is_uint64 in *; lia). lia.
Qed.

End Idle.

(** A message of 62 bytes at position 16 moves the cursor to 78. *)
Definition long_message : string := chr 16 long_row.

Lemma idle_advance_takes_length_witness :
  let s := stream0 (set_conn (newWALConsumer "s" "p")) 0 (100 * Second) in
  let '(r, w') := idleFlush (H := sample_env) sample_config
    (set_wal (handleXLogData long_message (st_wal s)).1 s) (world0 db0) in
  is_Ok r = true /\ 78 <= cursor_of sample_config w'.
Proof.
  cbn zeta. pose proof (idle_advance_takes_length (H := sample_env) sample_config
    (stream0 (set_conn (newWALConsumer "s" "p")) 0 (100 * Second)) long_message
    {| WALStart := 16; WALData := long_row |} (world0 db0) eq_refl eq_refl
    ltac:(vm_compute; split; discriminate) ltac:(vm_compute; discriminate)) as T.
  destruct (idleFlush _ _ _) as [r w'] eqn:E.
  assert (is_Ok r = true) as Hr.
  { change r with (r, w').1. rewrite <- E. vm_compute. reflexivity. }
  split; [exact Hr|exact (T Hr)].
Defined.
