(* ===== verification/SkippedRows.v ===== *)
(** * Rows that the driver leaves out

    What becomes of a transaction whose rows cannot be read because of the time
    zone of the session: the loop counts them and goes on, and the cursor may
    pass them. *)

From S2P Require Export EndToEnd SessionZone.

Open Scope Z_scope.
Open Scope pglg_scope.

(** The events of a transaction, handled one after the other. *)
Section SkippedRows.
  Context `{Env, Pglogrepl, PgLsn}.
  Variable cfg : Config.

Fixpoint handleEvents (evs : list walEvent) (s : stream) : ME stream :=
  match evs with
  | [] => mret (Ok s)
  | ev :: evs => do? s := handleEvent cfg ev s orelse same; handleEvents evs s
  end.

(** One transaction that inserts [rs] into relation [rid], in a session whose
    zone is [off] minutes east of UTC. *)
Definition tx_events (rid off : Z) (rs : list parsedInsert) (l : Z) : list walEvent :=
  walBegin :: map (fun r => walInsert rid (outbox_values_in off r)) rs ++ [walCommit l].

Definition parse_error_event : Event := EvMetric (Incr "jack.courier.parse.error" []).

Definition add_events (es : list Event) (w : World) : World :=
  {| w_tick := w_tick w; w_db := w_db w; w_trace := w_trace w ++ es; w_drv := w_drv w |}.

Lemma add_event_events e es w : add_events es (add_event e w) = add_events (e :: es) w.
Proof. unfold add_events. cbn. by rewrite <- app_assoc. Qed.

Lemma add_events_nil w : add_events [] w = w.
Proof. unfold add_events. rewrite app_nil_r. by destruct w. Qed.

Lemma handleEvents_app evs1 evs2 s w :
  handleEvents (evs1 ++ evs2) s w =
  let '(r, w1) := handleEvents evs1 s w in
  match r with Ok s1 => handleEvents evs2 s1 w1 | Err e => (Err e, w1) end.
Proof.
  revert s w. induction evs1 as [|ev evs1 IH]; intros s w; [done|]. cbn [handleEvents app].
  unfold bindE, mbind, ST_bind. destruct (handleEvent cfg ev s w) as [[s1|e] w1]; [apply IH|done].
Qed.

(** The rows are counted and nothing else happens. *)
Lemma inserts_skipped rid m off rs s w :
  relations (st_wal s) !! rid = Some m -> rel_columns m = outbox_columns ->
  off mod 60 <> 0 -> Forall (row_in_zone off) rs ->
  handleEvents (map (fun r => walInsert rid (outbox_values_in off r)) rs) s w =
    (Ok s, add_events (repeat parse_error_event (length rs)) w).
Proof.
  intros Hm Hcols Hoff Hrs. revert w. induction Hrs as [|r rs Hr _ IH]; intros w.
  { cbn [map handleEvents length repeat]. by rewrite add_events_nil. }
  cbn [map handleEvents length repeat]. unfold bindE, mbind, ST_bind. cbn [handleEvent].
  unfold parseInsert. rewrite Hm, Hcols, (parseInsertColumns_zone off r Hr).
  destruct (Z.eqb_spec (off mod 60) 0); [done|]. cbn [bind_r].
  unfold metric_out, emit, mbind, ST_bind, mret, ST_ret. cbn beta iota.
  rewrite IH. by rewrite add_event_events.
Qed.

(** The commit of a transaction without rows. *)
Lemma handleCommit_empty l s w :
  pendingInserts s = [] -> inserts (st_buf s) = [] -> 0 < MaxBatchSize cfg ->
  handleCommit cfg l s w = (Ok (committed l s), w).
Proof.
  intros Hp Hb Hmax. unfold handleCommit. fold (committed l s). rewrite Hp, Hb.
  assert (pendingInserts (committed l s) = []) as Ec.
  { unfold committed. rewrite Hp, Hb. cbn [app]. by destruct (_ <? l). }
  cbn [recordRowAges]. unfold mbind, ST_bind, mret, ST_ret. rewrite Ec. cbn [length Nat.eqb Nat.ltb Nat.leb andb Z.of_nat].
  rewrite Ec. change (Z.of_nat (length [])) with 0. by rewrite (proj2 (Z.leb_gt _ _) Hmax).
Qed.

(** C24: in a session zone with minutes every transaction vanishes: the rows are
    counted as parse errors, nothing reaches the batch, jack or the dead-letter
    table; the commit raises the position of the batch, and the session is then
    idle, so that the next standby deadline moves the durable cursor past the transaction. *)
Theorem zone_minutes_rows_skipped (rid off l : Z) (m : relationMeta) (rs : list parsedInsert)
    (s : stream) (w : World)
    (Hm : relations (st_wal s) !! rid = Some m) (Hcols : rel_columns m = outbox_columns)
    (Hoff : off mod 60 <> 0) (Hrs : Forall (row_in_zone off) rs)
    (Hp : pendingInserts s = []) (Hb : inserts (st_buf s) = []) (Hmax : 0 < MaxBatchSize cfg) :
  exists s', handleEvents (tx_events rid off rs l) s w = (Ok s', add_events (repeat parse_error_event (length rs)) w) /\
    pendingInserts s' = [] /\ pendingCommitLSN s' = Z.max (pendingCommitLSN s) l /\
    canAdvanceIdleFlush (pendingInserts s') (st_buf s') (inTx s') = true.
Proof.
  exists (committed l (set_inTx true s)). split.
  - unfold tx_events. cbn [handleEvents handleEvent]. unfold bindE at 1. unfold mbind at 1, ST_bind at 1, mret at 1, ST_ret at 1.
    cbn beta iota. rewrite handleEvents_app, (inserts_skipped rid m off) by done.
    cbn [handleEvents handleEvent]. unfold bindE, mbind, ST_bind. by rewrite handleCommit_empty.
  - unfold committed, canAdvanceIdleFlush, tb_empty. cbn [pendingCommitLSN set_pending set_inTx].
    destruct (Z.ltb_spec (pendingCommitLSN s) l) as [E|E]; cbn; rewrite Hp, Hb; split_and!; cbn; try done; lia.
Qed.

End SkippedRows.

(** ** A session in India

    Two rows of a transaction that commits at 16, written with +05:30. *)
Definition india_row : parsedInsert := set_createdAt (Date 2026 2 16 14 30 0 0) (outbox_row 7).

Definition outbox_stream : stream :=
  stream0 (setRelation 1 "outbox_jobs" outbox_columns (newWALConsumer "s" "p")) 0 (10 * Second).

Lemma zone_minutes_rows_skipped_witness :
  exists s', handleEvents (H := sample_env) sample_config (tx_events 1 330 [india_row; india_row] 16) outbox_stream
      (world0 db0) = (Ok s', add_events [parse_error_event; parse_error_event] (world0 db0)) /\
    pendingInserts s' = [] /\ pendingCommitLSN s' = 16 /\
    canAdvanceIdleFlush (pendingInserts s') (st_buf s') (inTx s') = true.
Proof.
  refine (@zone_minutes_rows_skipped sample_env toy_pglogrepl toy_pglsn sample_config 1 330 16
    {| rel_name := "outbox_jobs"; rel_columns := outbox_columns |} [india_row; india_row]
    outbox_stream (world0 db0) eq_refl eq_refl _ _ eq_refl eq_refl eq_refl).
  - vm_compute. discriminate.
  - repeat constructor; vm_compute; discriminate.
Defined.
