(* ===== verification/Fleet.v ===== *)
(** * A fleet: instances that take over from each other

    Several instances share one slot and one database. The server lets one of
    them stream at a time, so a history of the fleet is a sequence of runs, each
    by a fresh process on the database and the server that the last one left. A
    run may stop anywhere between two iterations (a crash), fail at any call, or
    return. *)

From S2P Require Export EndToEnd.

Open Scope Z_scope.
Open Scope pglg_scope.

(** A run of an instance: its configuration, and where it is cut off. *)
Record instance := { i_cfg : Config; i_sessions : nat; i_fuel : nat }.

Section Fleet.
  Context `{Env, Pglogrepl, PgLsn}.

Definition run_instance (i : instance) (w : World) : World :=
  (Run (i_cfg i) (i_sessions i) (i_fuel i) (set_drv fresh_driver w)).2.

Definition fleet (insts : list instance) (w : World) : World := foldl (fun w i => run_instance i w) w insts.

(** Instances of one deployment: the same tables and slot. *)
Definition same_deployment (cfg cfg' : Config) : Prop :=
  Schema cfg' = Schema cfg /\ TablePrefix cfg' = TablePrefix cfg /\ SlotName cfg' = SlotName cfg.

Context {Hlsn : LsnLaws} {Hquery : QueryLaws} {Hdec : DecoderLaws}.
Variable cfg : Config.
Variable log : list (Z * list parsedInsert).

(** The invariant looks at a configuration only through its tables and slot. *)
Lemma same_deployment_key cfg' :
  same_deployment cfg cfg' -> cursor_key cfg' = cursor_key cfg /\ dlqTable cfg' = dlqTable cfg.
Proof. intros (E1 & E2 & E3). unfold cursor_key, cursorTable, dlqTable. by rewrite E1, E2, E3. Qed.

Lemma wgood_deployment cfg' c0 others base w :
  same_deployment cfg cfg' -> wgood cfg log c0 others base w <-> wgood cfg' log c0 others base w.
Proof.
  intros Hs. pose proof (same_deployment_key cfg' Hs) as [Ek Ed].
  split; intros [Q1 Q2 Q3 Q4 Q5 Q6]; split;
    unfold status_ok, covered, accounted_all, accounted_in, db_le, cursor_of, cursor_db in *;
    rewrite ?Ek, ?Ed in *; done.
Qed.

Lemma run_instance_wgood i c0 others base w :
  same_deployment cfg (i_cfg i) -> wgood cfg log c0 others base w ->
  wgood cfg log c0 others base (run_instance i w).
Proof.
  intros Hs Hw. apply (wgood_deployment _ _ _ _ _ Hs) in Hw. apply (wgood_deployment _ _ _ _ _ Hs).
  assert (Hw0 : wgood (i_cfg i) log c0 others base (set_drv fresh_driver w))
    by (eapply wgood_db_trace; [| |exact Hw]; done).
  pose proof (runLoop_wgood (i_cfg i) log c0 others base (i_sessions i) (i_fuel i)
    {| Backoff.initial := ReconnectInitialDelay (i_cfg i); Backoff.max := ReconnectMaxDelay (i_cfg i);
       Backoff.attempt := 0 |} _ Hw0) as Hr.
  unfold wp in Hr. unfold run_instance, Run. by destruct (runLoop _ _ _ _ _).
Qed.

Lemma fleet_wgood insts c0 others base w :
  Forall (fun i => same_deployment cfg (i_cfg i)) insts -> wgood cfg log c0 others base w ->
  wgood cfg log c0 others base (fleet insts w).
Proof.
  intros His. revert w. induction His as [|i insts Hi _ IH]; intros w Hw; [done|].
  cbn [fleet foldl]. apply IH. by apply run_instance_wgood.
Qed.

(** Over any sequence of instances of one deployment, however each of
    them ends: the durable cursor never goes back and no instance ever tells the
    server a flush position above it; and when the server delivers its
    transactions in commit order to each of them, every row of every transaction that the
    cursor has passed since the first one started was answered by jack in a committed
    batch, with its dead letter stored when it was rejected. *)
Theorem fleet_no_row_lost (insts : list instance) (db : Db)
    (His : Forall (fun i => same_deployment cfg (i_cfg i)) insts) (Hu : is_uint64 (cursor_db cfg db)) :
  let w := fleet insts (world0 db) in
  cursor_db cfg db <= cursor_db cfg (w_db w) /\
  (forall u, EvStatus u ∈ w_trace w -> WALFlushPosition u <= cursor_db cfg (w_db w)) /\
  (delivers log (w_trace w) ->
   forall t p, t ∈ log -> cursor_db cfg db < t.1 <= cursor_db cfg (w_db w) -> p ∈ t.2 ->
   accounted_row cfg w p \/ read_past (w_trace w) t.1).
Proof.
  intros w. pose proof (fleet_wgood insts _ [] db (world0 db) His (wgood_world0 cfg log _ [] db db Hu eq_refl (db_le_refl cfg db))) as Hw.
  split_and!; [exact (g_c0 _ _ _ _ _ _ Hw)|exact (g_status _ _ _ _ _ _ Hw)|].
  intros Hdel t p Ht Hc Hp. apply past_alone. exact (g_cov _ _ _ _ _ _ Hw Hdel t p Ht Hc Hp).
Qed.

End Fleet.

(** ** A crash and a take-over

    The first instance flushes transaction 16 and is killed; the second one, with
    batches of one row, starts at the durable cursor, flushes transaction 40 and is cancelled. *)
Definition fleet_script : list (nat * result error BackendMessage) :=
  [(7, Ok (xlog 1 "R")); (10, Ok (xlog 2 "B")); (13, Ok (xlog 3 "I7")); (16, Ok (xlog 4 "I8"));
   (19, Ok (xlog 9 (String "C" (chr 16 ""))));
   (37, Ok (xlog 20 "R")); (40, Ok (xlog 21 "B")); (43, Ok (xlog 22 "I9"));
   (46, Ok (xlog 30 (String "C" (chr 40 ""))))]%nat.

Definition fleet_env : Env := scripted fleet_script 85.

Definition second_config : Config :=
  {| ConnString := "host=db2"; SlotName := SlotName sample_config; PublicationName := "p";
     Schema := Schema sample_config; TablePrefix := TablePrefix sample_config; MaxBatchSize := 1;
     BatchTimeout := Second; StandbyInterval := 10 * Second; PartitionInterval := Hour;
     PartitionLookAhead := 12 * Hour; PartitionRetention := 3 * Hour; PartitionMaintInterval := 5 * Minute;
     ReconnectInitialDelay := Second; ReconnectMaxDelay := 30 * Second; SlotBusyRetryDelay := 5 * Second;
     SlotBusyRetryJitter := Second; LeaderHeartbeatInterval := 15 * Second; DLQRetention := 30 * 24 * Hour;
     DLQCleanupInterval := Hour; Logger := true; Statsd := true; Replicas := [] |}.

Definition sample_fleet : list instance :=
  [{| i_cfg := sample_config; i_sessions := 1; i_fuel := 5 |};
   {| i_cfg := second_config; i_sessions := 3; i_fuel := 60 |}].

Definition fleet_world : World := fleet (H:=fleet_env) sample_fleet (world0 db0).

Lemma sample_fleet_deployment : Forall (fun i => same_deployment sample_config (i_cfg i)) sample_fleet.
Proof. repeat constructor. Qed.

Lemma fleet_delivers : delivers sample_log (w_trace fleet_world).
Proof.
  apply delivers_check.
  - repeat constructor.
  - vm_compute. reflexivity.
Qed.

Lemma fleet_not_past : read_past_check (w_trace fleet_world) 40 = false.
Proof. vm_compute. reflexivity. Qed.

Lemma fleet_no_row_lost_witness :
  cursor_db sample_config (w_db fleet_world) = 40 /\
  accounted_row sample_config fleet_world (outbox_row 9).
Proof.
  split; [vm_compute; reflexivity|].
  refine (or_not_past _ _ _ fleet_not_past (proj2 (proj2 (fleet_no_row_lost (H:=fleet_env) sample_config sample_log sample_fleet db0
    sample_fleet_deployment sample_start)) fleet_delivers (40, [outbox_row 9]) (outbox_row 9) _ _ _)).
  - right. left.
  - split; vm_compute; [reflexivity|discriminate].
  - left.
Defined.
