(* ===== verification/Steps.v ===== *)
(** * Programs as steps of a relation

    A relation between worlds that every call to the outside and every event of
    a kind respects is respected by every part of a session: one traversal of
    the programs serves every frame condition of this shape. *)

From S2P Require Export RunSafety.

Open Scope Z_scope.
Open Scope pglg_scope.

(** The metrics that announce a change of leadership. *)
Definition leader_event (e : Event) : bool :=
  match e with
  | EvMetric (Incr n _) =>
      String.eqb n "jack.courier.leader.acquired" || String.eqb n "jack.courier.leader.relinquished"
  | EvMetric (Gauge n _ _) => String.eqb n "jack.courier.leader.is_leader"
  | _ => false
  end.

(** The events that happen between sessions, or that begin one. *)
Definition turn_event (e : Event) : bool :=
  match e with
  | EvStart _ => true
  | EvMetric (Incr n _) => String.eqb n "jack.courier.wal.reconnect"
  | _ => false
  end.

(** [R] relates a world to what calls, changes of the database and the events of
    a session make of it. *)
Class StepRel (R : World -> World -> Prop) : Prop := {
  step_po :: PreOrder R;
  step_tick w : R w (tick w);
  step_event e w : leader_event e = false -> turn_event e = false -> R w (add_event e w);
  step_db db w : R w (set_db db w) }.

(** The same with every event but those of leadership. *)
Class RunRel (R : World -> World -> Prop) : Prop := {
  run_po :: PreOrder R;
  run_tick w : R w (tick w);
  run_event e w : leader_event e = false -> R w (add_event e w);
  run_db db w : R w (set_db db w) }.

#[export] Instance run_step_rel R `{!RunRel R} : StepRel R.
Proof. split; [apply _|apply run_tick|intros; by apply run_event|apply run_db]. Qed.

Definition Steps {A} (R : World -> World -> Prop) (m : M A) : Prop := forall w, R w (m w).2.

Section Rules.
  Context {R : World -> World -> Prop} {HR : StepRel R}.

Lemma steps_bind {A B} (m : M A) (k : A -> M B) :
  Steps R m -> (forall a, Steps R (k a)) -> Steps R (m ≫= k).
Proof.
  intros Hm Hk w. specialize (Hm w). unfold mbind, ST_bind. destruct (m w) as [a w1].
  etransitivity; [exact Hm|apply Hk].
Qed.

Lemma steps_ret {A} (a : A) : Steps R (mret a).
Proof. intros w. reflexivity. Qed.

Lemma steps_bindE {A B} f (m : ME A) (k : A -> ME B) :
  Steps R m -> (forall a, Steps R (k a)) -> Steps R (bindE f m k).
Proof. intros Hm Hk. apply steps_bind; [done|]. intros [a|e]; [apply Hk|apply steps_ret]. Qed.

Lemma steps_ask {A} (answer : nat -> A) : Steps R (ask answer).
Proof. intros w. apply step_tick. Qed.
Lemma steps_emit e : leader_event e = false -> turn_event e = false -> Steps R (emit e).
Proof. intros He Ht w. by apply step_event. Qed.
Lemma steps_metric m :
  leader_event (EvMetric m) = false -> turn_event (EvMetric m) = false -> Steps R (metric_out m).
Proof. apply steps_emit. Qed.
Lemma steps_get_db : Steps R get_db.
Proof. intros w. reflexivity. Qed.
Lemma steps_put_db db : Steps R (put_db db).
Proof. intros w. apply step_db. Qed.
Lemma steps_get_drv : Steps R get_drv.
Proof. intros w. reflexivity. Qed.

Lemma wp_steps {A} (m : M A) Q w :
  Steps R m -> (forall a w', R w w' -> Q a w') -> wp m Q w.
Proof. intros Hm HQ. unfold wp. specialize (Hm w). destruct (m w). by apply HQ. Qed.

End Rules.

Lemma run_emit {R} `{!RunRel R} e : leader_event e = false -> Steps R (emit e).
Proof. intros He w. by apply run_event. Qed.
Lemma run_metric {R} `{!RunRel R} m : leader_event (EvMetric m) = false -> Steps R (metric_out m).
Proof. apply run_emit. Qed.

#[export] Hint Resolve steps_ret steps_ask steps_get_db steps_put_db steps_get_drv : pglg.

(** [steps]: decomposes a program into its primitives; the events it emits are
    checked by evaluation. *)
Ltac steps :=
  repeat first
    [ progress intros
    | solve [eauto with pglg typeclass_instances]
    | apply steps_bind
    | apply steps_bindE
    | eapply steps_metric; reflexivity
    | eapply steps_emit; reflexivity
    | eapply run_metric; reflexivity
    | eapply run_emit; reflexivity
    | progress cbn beta iota zeta
    | break_match ].

Section Steps.
  Context `{Env, Pglogrepl, PgLsn} {R : World -> World -> Prop} {HR : StepRel R}.
  Variable cfg : Config.

Lemma steps_sendStandbyStatus w : Steps R (sendStandbyStatus w).
Proof. unfold sendStandbyStatus, time_Now, SendStandbyStatusUpdate. steps. Qed.
Hint Resolve steps_sendStandbyStatus : pglg.

Lemma steps_tx_Exec tx s : Steps R (tx_Exec tx s).
Proof. unfold tx_Exec. steps. Qed.
Hint Resolve steps_tx_Exec : pglg.

Lemma steps_insertDLQRows tx t rows : Steps R (insertDLQRows tx t rows).
Proof. destruct rows; cbn [insertDLQRows]; steps. Qed.
Hint Resolve steps_insertDLQRows : pglg.

Lemma steps_persist rows l : Steps R (persistFlushResult cfg rows l).
Proof. unfold persistFlushResult, pool_Begin, writeCursorTx, tx_Commit. steps. Qed.
Hint Resolve steps_persist : pglg.

Lemma steps_recordRowAges ps : Steps R (recordRowAges ps).
Proof. induction ps; cbn [recordRowAges]; unfold recordRowAge, time_Now; steps. Qed.
Lemma steps_dlqWriteMetrics rows : Steps R (dlqWriteMetrics rows).
Proof. induction rows; cbn [dlqWriteMetrics]; steps. Qed.
Hint Resolve steps_recordRowAges steps_dlqWriteMetrics : pglg.

Lemma steps_flushReport w rows t : Steps R (flushReport w rows t).
Proof. unfold flushReport, time_Now. steps. Qed.
Hint Resolve steps_flushReport : pglg.

Lemma steps_flushBatch w ps l : Steps R (flushBatch cfg w ps l).
Proof. unfold flushBatch, time_Now, submit, flushError. destruct ps; steps. Qed.
Hint Resolve steps_flushBatch : pglg.

Lemma steps_batchDue s : Steps R (batchDue cfg s).
Proof. unfold batchDue, time_Now. steps. Qed.
Lemma steps_standbyDue s now : Steps R (standbyDue cfg s now).
Proof. unfold standbyDue, idleFlush, time_Now. steps. Qed.
Lemma steps_receiveMessage dl w : Steps R (receiveMessage dl w).
Proof. unfold receiveMessage, conn_ReceiveMessage, handleKeepalive. steps. Qed.
Hint Resolve steps_batchDue steps_standbyDue steps_receiveMessage : pglg.

Lemma steps_handleData d s : Steps R (handleData cfg d s).
Proof. unfold handleData, handleEvent, handleCommit, time_Now. steps. Qed.
Hint Resolve steps_handleData : pglg.

Lemma steps_receiveNext s : Steps R (receiveNext cfg s).
Proof. unfold receiveNext. steps. Qed.
Hint Resolve steps_receiveNext : pglg.

Lemma steps_iteration s : Steps R (iteration cfg s).
Proof. unfold iteration, ctx_Err. steps. Qed.
Hint Resolve steps_iteration : pglg.

Lemma steps_streamLoop fuel s : Steps R (streamLoop cfg fuel s).
Proof. revert s. induction fuel; intros s; cbn [streamLoop]; steps. Qed.
Hint Resolve steps_streamLoop : pglg.

Lemma steps_processWALStream fuel w l : Steps R (processWALStream cfg fuel w l).
Proof. unfold processWALStream, time_Now. steps. Qed.

Lemma steps_readCursor : Steps R (readCursor cfg).
Proof. unfold readCursor, query_cursor. steps. Qed.
Lemma steps_connect c w : Steps R (connect c w).
Proof. unfold connect. steps. Qed.
Lemma steps_startStreaming `{!RunRel R} l w : Steps R (startStreaming l w).
Proof. unfold startStreaming. steps. Qed.
Lemma steps_close w : Steps R (close w).
Proof. unfold close. steps. Qed.
Lemma steps_backoff_wait bo : Steps R (backoff_wait bo).
Proof. unfold backoff_wait, wait_timer. steps. Qed.

End Steps.

#[export] Hint Resolve steps_sendStandbyStatus steps_persist steps_flushReport steps_flushBatch
  steps_batchDue steps_standbyDue steps_receiveNext steps_iteration steps_streamLoop
  steps_processWALStream steps_readCursor steps_connect steps_startStreaming steps_close
  steps_backoff_wait : pglg.


