(* ===== verification/Cluster.v ===== *)
(** * A cluster: instances that run at the same time

    Several instances on one database, their actions interleaved in any order.
    This is what the server cannot rule out: an instance whose connection was
    taken over goes on until it notices, and flushes its batch while the next
    one already streams from the cursor. [Fleet] is the case where one stops
    before the next one starts. *)

From S2P Require Export Fleet Steps.

Open Scope Z_scope.
Open Scope pglg_scope.

(** ** Instances and their shared state *)

Record node := {
  n_cfg : Config;
  n_phase : phase;
  n_trace : list Event;   (* what this instance did *)
  n_drv : Driver }.

(** The calls of all the instances are numbered together. *)
Record cluster := { c_tick : nat; c_db : Db; c_nodes : list node }.

Definition node0 (cfg : Config) : node :=
  {| n_cfg := cfg; n_phase := Idle; n_trace := []; n_drv := fresh_driver |}.

Definition cluster0 (cfgs : list Config) (db : Db) : cluster :=
  {| c_tick := 0; c_db := db; c_nodes := map node0 cfgs |}.

Definition view (c : cluster) (nd : node) : World :=
  {| w_tick := c_tick c; w_db := c_db c; w_trace := n_trace nd; w_drv := n_drv nd |}.

Section Cluster.
  Context `{Env, Pglogrepl, PgLsn}.

(** One instance acts; the others see the database it leaves. *)
Definition cluster_step (c : cluster) (ia : nat * action) : cluster :=
  match c_nodes c !! ia.1 with
  | None => c
  | Some nd =>
      let '(ph, w) := act (n_cfg nd) ia.2 (n_phase nd) (view c nd) in
      {| c_tick := w_tick w; c_db := w_db w;
         c_nodes := <[ia.1 := {| n_cfg := n_cfg nd; n_phase := ph; n_trace := w_trace w;
                                 n_drv := w_drv w |}]> (c_nodes c) |}
  end.

Definition run_schedule (sch : list (nat * action)) (c : cluster) : cluster :=
  foldl cluster_step c sch.

Definition traces_of (c : cluster) : list (list Event) := map n_trace (c_nodes c).

(** The batches whose answers any of them committed. *)
Definition acks_of (c : cluster) : list (list Job * list SubmitResult) := acked_by (traces_of c).

(** Some instance has read past a position. *)
Definition cluster_read_past (c : cluster) (pos : Z) : Prop :=
  exists nd, nd ∈ c_nodes c /\ read_past (n_trace nd) pos.

(** ** Traces only grow *)

Definition trace_grows (w w' : World) : Prop := w_trace w `prefix_of` w_trace w'.

#[local] Instance trace_grows_rel : RunRel trace_grows.
Proof.
  split; [split| | |]; try by intros.
  - by exists []; rewrite app_nil_r.
  - intros w1 w2 w3. unfold trace_grows. apply transitivity.
  - intros w. by exists []; rewrite app_nil_r.
  - intros e w _. by eexists.
  - intros db w. by exists []; rewrite app_nil_r.
Qed.

Lemma steps_of_calm {A} (m : M A) : (forall f, Calm f m) -> Steps trace_grows m.
Proof. intros Hc w. destruct (Hc 0 w) as (_ & tr & E & _). by exists tr. Qed.

Lemma steps_act cfg a ph : Steps trace_grows (act cfg a ph).
Proof.
  assert (Steps trace_grows acquireLeadership) by (apply steps_of_calm; auto with pglg).
  assert (forall r, Steps trace_grows (relinquishLeadership r)) by (intros; apply steps_of_calm; auto with pglg).
  assert (Steps trace_grows (slotBusy cfg)) by (apply steps_of_calm; auto with pglg).
  assert (Steps trace_grows (put_drv fresh_driver)) by (apply steps_of_calm; auto with pglg).
  destruct a, ph; cbn [act]; unfold openSession, time_Now, ctx_Err; steps.
Qed.

Lemma hist_app_acked tr tr' b : b ∈ h_acked (hist tr) -> b ∈ h_acked (hist (tr ++ tr')).
Proof.
  intros Hb. induction tr' as [|e tr' IH] using rev_ind; [by rewrite app_nil_r|].
  rewrite app_assoc, hist_snoc. by apply hist_event_acked.
Qed.

(** ** The invariant *)

Context {Hlsn : LsnLaws} {Hquery : QueryLaws} {Hdec : DecoderLaws}.
Variable cfg : Config.
Variable log : list (Z * list parsedInsert).
Variable c0 : Z.

Abbreviation node_ok := (node_ok cfg log c0).

Lemma accounted_in_mono acks acks' db db' p :
  acks ⊆ acks' -> db_le cfg db db' -> accounted_in cfg acks db p -> accounted_in cfg acks' db' p.
Proof.
  intros Ha [Hd _] (jobs & results & r & Hb & ? & ? & ? & Hr).
  exists jobs, results, r. split_and!; [by apply Ha|done..|naive_solver].
Qed.

(** What another instance did leaves the invariant of this one. *)
Lemma node_ok_share others others' base ph w w' :
  w_trace w' = w_trace w -> db_le cfg (w_db w) (w_db w') -> is_uint64 (cursor_of cfg w') ->
  acked_by others ⊆ acked_by others' -> (delivers log (w_trace w') -> covered cfg log c0 others' w') ->
  node_ok others base ph w -> node_ok others' (w_db w') ph w'.
Proof.
  intros Ht Hle Hu Ha Hcov [[Q1 _ Q3 _ Q5 _] Hph].
  assert (cursor_of cfg w <= cursor_of cfg w') as Hc by apply Hle. split.
  - split; [|done|by rewrite Ht|done|lia|apply db_le_refl].
    intros u. rewrite Ht. intros Hst%Q1. lia.
  - destruct ph as [|l|s]; [done|by destruct Hph; split; [|lia]|].
    rewrite Ht. destruct Hph. split; try done; try lia; [by unfold pos_read in *; rewrite Ht|].
    destruct sy_batch as (k & ? & ? & ? & Hall). exists k. split_and!; [done..|].
    intros p Hp%Hall. unfold accounted_all in *. rewrite Ht. eapply accounted_in_mono; [|exact Hle|exact Hp].
    intros b. rewrite !elem_of_app. intros [|]; auto.
Qed.

Lemma node_ok_deployment cfg' others base ph w :
  same_deployment cfg cfg' -> node_ok others base ph w <-> RunSafety.node_ok cfg' log c0 others base ph w.
Proof.
  intros Hs. unfold RunSafety.node_ok. rewrite (wgood_deployment _ _ cfg') by done.
  pose proof (same_deployment_key cfg cfg' Hs) as [Ek Ed].
  split; intros [Hg Hph]; (split; [done|]); destruct ph as [|l|s]; try done;
    unfold cursor_of, cursor_db in *; rewrite ?Ek in *; try done; destruct Hph; split;
    unfold batch_split, accounted_all, accounted_in, cursor_of, cursor_db in *; by rewrite ?Ek, ?Ed in *.
Qed.

(** Every transaction of the log that the cursor has passed is accounted for by
    the nodes together, unless one of them read past it. *)
Definition cluster_covered (c : cluster) : Prop :=
  forall t p, t ∈ log -> c0 < t.1 <= cursor_db cfg (c_db c) -> p ∈ t.2 ->
    accounted_in cfg (acks_of c) (c_db c) p \/ cluster_read_past c t.1.

Definition cluster_ok (c : cluster) : Prop :=
  c0 <= cursor_db cfg (c_db c) /\ cluster_covered c /\
  forall nd, nd ∈ c_nodes c ->
    same_deployment cfg (n_cfg nd) /\ node_ok (traces_of c) (c_db c) (n_phase nd) (view c nd).

(** Nothing is asked of the server when the log is empty. *)
Definition server_ok (c : cluster) : Prop :=
  log = [] \/ Forall (fun nd => delivers log (n_trace nd)) (c_nodes c).

Lemma elem_of_insert (l : list node) i x y : x ∈ <[i:=y]> l -> x = y \/ x ∈ l.
Proof.
  intros [j Hj]%list_elem_of_lookup. destruct (decide (i = j)) as [->|Hn].
  - left. apply list_lookup_insert_Some in Hj. naive_solver.
  - right. rewrite list_lookup_insert_ne in Hj by done. by eapply list_elem_of_lookup_2.
Qed.

(** The cluster after node [i], which was [nd], has become [nd'] on [db]. *)
Definition cluster_with (c : cluster) (t : nat) (db : Db) (i : nat) (nd' : node) : cluster :=
  {| c_tick := t; c_db := db; c_nodes := <[i := nd']> (c_nodes c) |}.

Lemma elem_of_acks b c : b ∈ acks_of c <-> exists nd, nd ∈ c_nodes c /\ b ∈ h_acked (hist (n_trace nd)).
Proof.
  unfold acks_of, acked_by, traces_of. rewrite list_elem_of_bind. split.
  - intros (tr & Hb & (nd & -> & Hnd)%list_elem_of_fmap). by exists nd.
  - intros (nd & Hnd & Hb). exists (n_trace nd). split; [done|]. by apply list_elem_of_fmap_2.
Qed.

Lemma elem_of_with c t db i nd nd' :
  c_nodes c !! i = Some nd -> nd' ∈ c_nodes (cluster_with c t db i nd').
Proof.
  intros Hi. apply (list_elem_of_lookup_2 _ i), list_lookup_insert_eq, lookup_lt_is_Some. by eexists.
Qed.

Lemma acks_of_own c t db i nd nd' :
  c_nodes c !! i = Some nd ->
  h_acked (hist (n_trace nd')) ⊆ acks_of (cluster_with c t db i nd').
Proof.
  intros Hi b Hb. apply elem_of_acks. exists nd'. split; [by eapply elem_of_with|done].
Qed.

Lemma acks_of_grow c t db i nd nd' :
  c_nodes c !! i = Some nd -> n_trace nd `prefix_of` n_trace nd' ->
  acks_of c ⊆ acks_of (cluster_with c t db i nd').
Proof.
  intros Hi [tr Ht] b (x & [j Hj]%list_elem_of_lookup & Hb)%elem_of_acks.
  destruct (decide (i = j)) as [<-|Hn].
  - eapply acks_of_own; [done|]. rewrite Ht. apply hist_app_acked. by simplify_eq.
  - apply elem_of_acks. exists x. split; [|done]. apply (list_elem_of_lookup_2 _ j).
    cbn. by rewrite list_lookup_insert_ne.
Qed.

Lemma past_of_grow c t db i nd nd' pos :
  c_nodes c !! i = Some nd -> n_trace nd `prefix_of` n_trace nd' ->
  cluster_read_past c pos -> cluster_read_past (cluster_with c t db i nd') pos.
Proof.
  intros Hi Ht (x & [j Hj]%list_elem_of_lookup & Hx). destruct (decide (i = j)) as [<-|Hn].
  - exists nd'. split; [by eapply elem_of_with|]. simplify_eq. by eapply read_past_prefix.
  - exists x. split; [|done]. apply (list_elem_of_lookup_2 _ j). cbn. by rewrite list_lookup_insert_ne.
Qed.

Lemma covered_view c nd : cluster_covered c -> covered cfg log c0 (traces_of c) (view c nd).
Proof.
  intros Hc t p Ht Hcur Hp. destruct (Hc t p Ht Hcur Hp) as [Ha|(x & Hx & Hr)].
  - left. eapply accounted_in_mono; [|apply db_le_refl|exact Ha]. intros b Hb. apply elem_of_app. by left.
  - right. right. exists (n_trace x). split; [by apply list_elem_of_fmap_2|done].
Qed.

Lemma cluster_step_ok c ia :
  cluster_ok c -> server_ok (cluster_step c ia) -> cluster_ok (cluster_step c ia).
Proof.
  intros (Hc0 & Hcov0 & Hok). destruct ia as [i a]. unfold cluster_step. cbn [fst snd].
  destruct (c_nodes c !! i) as [nd|] eqn:Hi; [|by split].
  destruct (Hok nd) as [Hs Hn]; [by eapply list_elem_of_lookup_2|].
  apply (node_ok_deployment _ _ _ _ _ Hs) in Hn.
  pose proof (act_node_ok _ _ _ _ _ a _ _ Hn) as Hw. pose proof (steps_act (n_cfg nd) a (n_phase nd) (view c nd)) as Htr.
  unfold wp in Hw. destruct (act _ _ _ _) as [ph w]. cbn [snd] in Htr. clear Hn.
  apply (node_ok_deployment _ _ _ _ _ Hs) in Hw. pose proof (g_base _ _ _ _ _ _ (proj1 Hw)) as Hb.
  pose proof (g_cur _ _ _ _ _ _ (proj1 Hw)) as Hu. set (nd' := {| n_cfg := _ |}).
  pose proof (acks_of_own c (w_tick w) (w_db w) i nd nd' Hi) as Hown.
  pose proof (acks_of_grow c (w_tick w) (w_db w) i nd nd' Hi Htr) as Hgr.
  fold (cluster_with c (w_tick w) (w_db w) i nd'). set (c' := cluster_with _ _ _ _ _) in *.
  intros Hserver. assert (cluster_covered c') as Hcov.
  { intros t p Ht Hcur Hp. destruct Hserver as [->|Hdel]; [by apply not_elem_of_nil in Ht|].
    rewrite Forall_forall in Hdel.
    assert (delivers log (w_trace w)) as Hd by (by apply (Hdel nd'); eapply elem_of_with).
    destruct (g_cov _ _ _ _ _ _ (proj1 Hw) Hd t p Ht Hcur Hp) as [Ha|[Hp'|(tr & (x & -> & Hx)%list_elem_of_fmap & Hr)]].
    - left. eapply accounted_in_mono; [|apply db_le_refl|exact Ha]. intros b [Hb'|Hb']%elem_of_app; auto.
    - right. exists nd'. split; [by eapply elem_of_with|done].
    - right. apply (past_of_grow c _ _ i nd); [done..|]. by exists x. }
  split_and!; [exact (g_c0 _ _ _ _ _ _ (proj1 Hw))|exact Hcov|]. intros x [->|Hx]%elem_of_insert.
  - split; [done|]. apply (node_ok_share (traces_of c) _ (c_db c) _ w (view c' nd')); try done.
    intros _. by apply covered_view.
  - destruct (Hok x Hx) as [Hsx Hnx]. split; [done|].
    apply (node_ok_share (traces_of c) _ (c_db c) _ (view c x) (view c' x)); try done.
    intros _. by apply covered_view.
Qed.

(** ** Whole schedules *)

Lemma server_ok_step c ia : server_ok (cluster_step c ia) -> server_ok c.
Proof.
  intros [->|Hdel]; [by left|right]. destruct ia as [i a]. unfold cluster_step in Hdel. cbn [fst snd] in Hdel.
  destruct (c_nodes c !! i) as [nd|] eqn:Hi; [|done].
  pose proof (steps_act (n_cfg nd) a (n_phase nd) (view c nd)) as Htr.
  destruct (act _ _ _ _) as [ph w]. cbn [snd] in Htr. rewrite Forall_forall in *. intros x Hx.
  apply list_elem_of_lookup in Hx as [j Hj]. destruct (decide (i = j)) as [<-|Hn].
  - simplify_eq. destruct Htr as [tr Htr]. apply (delivers_prefix _ _ tr).
    change (delivers log (w_trace (view c nd) ++ tr)). rewrite <- Htr.
    apply (Hdel {| n_cfg := n_cfg nd; n_phase := ph; n_trace := w_trace w; n_drv := w_drv w |}).
    by apply (elem_of_with c (w_tick w) (w_db w) i nd).
  - apply Hdel, (list_elem_of_lookup_2 _ j). cbn. by rewrite list_lookup_insert_ne.
Qed.

Lemma run_schedule_snoc sch ia c : run_schedule (sch ++ [ia]) c = cluster_step (run_schedule sch c) ia.
Proof. apply foldl_snoc. Qed.

Lemma schedule_ok sch c : cluster_ok c -> server_ok (run_schedule sch c) -> cluster_ok (run_schedule sch c).
Proof.
  intros Hc. induction sch as [|ia sch IH] using rev_ind; [done|]. rewrite run_schedule_snoc.
  intros Hs. apply cluster_step_ok; [|done]. by eapply IH, server_ok_step.
Qed.

Lemma cluster0_ok cfgs db :
  Forall (same_deployment cfg) cfgs -> is_uint64 (cursor_db cfg db) -> c0 = cursor_db cfg db ->
  cluster_ok (cluster0 cfgs db).
Proof.
  intros Hs Hu Hc. split_and!; [cbn; lia|intros t p _; cbn; lia|]. intros nd (cfg' & -> & Hcfg)%list_elem_of_fmap.
  rewrite Forall_forall in Hs. split; [by apply Hs|]. apply node_ok_idle.
  by apply (wgood_world0 cfg log c0 _ db db Hu Hc (db_le_refl cfg db)).
Qed.

End Cluster.

Section ClusterTheorem.
  Context `{Env, Pglogrepl, PgLsn} {Hlsn : LsnLaws} {Hquery : QueryLaws} {Hdec : DecoderLaws}.

(** The facts that do not depend on the server may start anywhere. *)
Lemma cluster_ok_rebase cfg c0 c :
  cluster_ok cfg [] c0 c -> cluster_ok cfg [] (cursor_db cfg (c_db c)) c.
Proof.
  intros (_ & _ & Hok). split_and!; [lia|by intros t p ?%not_elem_of_nil|]. intros nd [Hs [Hw Hph]]%Hok. split; [done|]. split; [|done].
  destruct Hw. split; try done. by intros _ t p ?%not_elem_of_nil.
Qed.


(** ** [Run] is a schedule *)

(** The actions of node [i] alone. *)
Lemma schedule_of_acts l c i nd :
  c_nodes c !! i = Some nd ->
  let '(ph, w) := acts (n_cfg nd) l (n_phase nd) (view c nd) in
  run_schedule (map (pair i) l) c =
    cluster_with c (w_tick w) (w_db w) i
      {| n_cfg := n_cfg nd; n_phase := ph; n_trace := w_trace w; n_drv := w_drv w |}.
Proof.
  revert c nd. induction l as [|a l IH]; intros c nd Hi.
  - destruct c as [t db nodes], nd. cbn. unfold cluster_with. cbn. f_equal.
    symmetry. by apply list_insert_id.
  - cbn [acts map run_schedule foldl]. unfold mbind, ST_bind.
    assert (cluster_step c (i, a) = let '(ph, w) := act (n_cfg nd) a (n_phase nd) (view c nd) in
      cluster_with c (w_tick w) (w_db w) i
        {| n_cfg := n_cfg nd; n_phase := ph; n_trace := w_trace w; n_drv := w_drv w |}) as ->
      by (unfold cluster_step; cbn [fst snd]; by rewrite Hi).
    destruct (act _ _ _ _) as [ph w]. set (nd' := {| n_cfg := _ |}).
    assert (c_nodes (cluster_with c (w_tick w) (w_db w) i nd') !! i = Some nd') as Hi'
      by (apply list_lookup_insert_eq, lookup_lt_is_Some; by eexists).
    specialize (IH _ nd' Hi'). destruct w. cbn in *. destruct (acts _ _ _ _) as [ph' w'].
    fold (run_schedule (map (pair i) l) (cluster_with c w_tick w_db i nd')). rewrite IH.
    unfold cluster_with. cbn. f_equal. apply list_insert_insert_eq.
Qed.

(** The actions may come in any order, so a cluster does more than its instances
    can. It does not do less: a run of [Run] that nobody interrupts is a schedule
    of its cluster, without a crash. From an instance that is outside a session it leads to the database,
    the trace and the fields that [Run] leaves, and a run that has returned is
    outside a session again. *)
Lemma Run_is_schedule (c : cluster) (i : nat) (nd : node) (sessions fuel : nat)
    (Hi : c_nodes c !! i = Some nd) (Hidle : n_phase nd = Idle) :
  let '(r, w) := Run (n_cfg nd) sessions fuel (view c nd) in
  exists l ph, Forall (fun a => a <> ACrash) l /\ (r <> None -> ph = Idle) /\
    run_schedule (map (pair i) l) c =
      cluster_with c (w_tick w) (w_db w) i
        {| n_cfg := n_cfg nd; n_phase := ph; n_trace := w_trace w; n_drv := w_drv w |}.
Proof.
  pose proof (runLoop_acts (n_cfg nd) sessions fuel
    {| Backoff.initial := ReconnectInitialDelay (n_cfg nd); Backoff.max := ReconnectMaxDelay (n_cfg nd);
       Backoff.attempt := 0 |} _ _ (reached_refl (n_cfg nd) Idle (view c nd))) as Hr.
  unfold wp in Hr. unfold Run. destruct (runLoop _ _ _ _ _) as [r w].
  assert (exists ph, (r <> None -> ph = Idle) /\ reached (n_cfg nd) (Idle, view c nd) ph w) as (ph & Hph & l & Hl & E).
  { destruct r as [r|]; [by exists Idle|]. destruct Hr as [ph Hr]. by exists ph. }
  exists l, ph. split_and!; [done..|]. pose proof (schedule_of_acts l c i nd Hi) as Hs.
  rewrite Hidle in Hs. cbn [fst snd] in E. by rewrite E in Hs.
Qed.

End ClusterTheorem.

(** ** A take-over that the first instance does not notice

    Both instances receive transaction 16; the second one flushes it at once and
    goes on to transaction 40; only then the first one reaches its batch
    deadline and flushes its copy. Jack sees the rows twice, and the cursor stays at 40. *)
Definition late_config : Config :=
  {| ConnString := "host=db1"; SlotName := SlotName sample_config; PublicationName := "p";
     Schema := Schema sample_config; TablePrefix := TablePrefix sample_config; MaxBatchSize := 10;
     BatchTimeout := Second; StandbyInterval := 10 * Second; PartitionInterval := Hour;
     PartitionLookAhead := 12 * Hour; PartitionRetention := 3 * Hour; PartitionMaintInterval := 5 * Minute;
     ReconnectInitialDelay := Second; ReconnectMaxDelay := 30 * Second; SlotBusyRetryDelay := 5 * Second;
     SlotBusyRetryJitter := Second; LeaderHeartbeatInterval := 15 * Second; DLQRetention := 30 * 24 * Hour;
     DLQCleanupInterval := Hour; Logger := true; Statsd := true; Replicas := [] |}.

Definition tx16 (at_calls : list nat) : list (nat * result error BackendMessage) :=
  combine at_calls [Ok (xlog 1 "R"); Ok (xlog 2 "B"); Ok (xlog 3 "I7"); Ok (xlog 4 "I8");
                    Ok (xlog 9 (String "C" (chr 16 "")))].
Definition tx40 (at_calls : list nat) : list (nat * result error BackendMessage) :=
  combine at_calls [Ok (xlog 20 "R"); Ok (xlog 21 "B"); Ok (xlog 22 "I9");
                    Ok (xlog 30 (String "C" (chr 40 "")))].

Definition takeover_env : Env :=
  scripted (tx16 [7; 10; 13; 16; 19] ++ tx16 [28; 31; 34; 37; 40] ++ tx40 [53; 56; 59; 62])%nat 300.

Definition takeover : list (nat * action) :=
  ([(0, ARead); (0, AOpen)] ++ repeat (0, AIterate) 5 ++
   [(1, ARead); (1, AOpen)] ++ repeat (1, AIterate) 9 ++ [(0, AIterate)])%nat.

Abbreviation takeover_cluster :=
  (run_schedule (H := takeover_env) takeover (cluster0 [late_config; second_config] db0)).

Lemma delivers_nodes_check log nodes :
  log_sorted log ->
  forallb (fun nd => forallb (fun n => snapshot_ok log (hist (take n (n_trace nd))))
    (seq 0 (S (length (n_trace nd))))) nodes = true ->
  Forall (fun nd => delivers log (n_trace nd)) nodes.
Proof.
  intros Hs Hb. rewrite forallb_forall in Hb. apply Forall_forall. intros nd Hnd.
  by apply delivers_check, Hb, list_elem_of_In.
Qed.

Lemma takeover_delivers : Forall (fun nd => delivers sample_log (n_trace nd)) (c_nodes takeover_cluster).
Proof. apply delivers_nodes_check; [repeat constructor|vm_compute; reflexivity]. Qed.

Lemma takeover_not_past :
  forallb (fun nd => negb (read_past_check (n_trace nd) 16)) (c_nodes takeover_cluster) = true.
Proof. vm_compute. reflexivity. Qed.

Lemma not_cluster_past c pos :
  forallb (fun nd => negb (read_past_check (n_trace nd) pos)) (c_nodes c) = true -> cluster_read_past c pos -> False.
Proof.
  rewrite forallb_forall. intros Hb (nd & Hnd%list_elem_of_In%Hb & Hp%read_past_checked). by rewrite Hp in Hnd.
Qed.

