(* ===== verification/DriverLive.v ===== *)
(** * Progress and bounds of the receive loop

    Cancellation ends the loop and [Run]; the pending batch stays below its
    size bound and has a deadline; a batch whose deadline has passed is
    submitted by the next iteration. *)

From S2P Require Export Steps Sample.

Open Scope Z_scope.
Open Scope pglg_scope.

(** ** Time and the trace only grow *)

Definition later (w w' : World) : Prop :=
  (w_tick w <= w_tick w')%nat /\ w_trace w `prefix_of` w_trace w'.

#[export] Instance later_po : PreOrder later.
Proof.
  split; [intros w; split; [lia|done]|].
  intros w1 w2 w3 [] []. split; [lia|by etransitivity].
Qed.

#[export] Instance later_steps : RunRel later.
Proof.
  split; [apply _|intros w; split; [cbn; lia|done]| |intros db w; by split].
  intros e w _. split; [done|by exists [e]].
Qed.

Lemma later_put_drv d : Steps later (put_drv d).
Proof. by intros w. Qed.
Lemma later_emit e : Steps later (emit e).
Proof. intros w. split; [done|by exists [e]]. Qed.
Lemma later_metric m : Steps later (metric_out m).
Proof. apply later_emit. Qed.

#[export] Hint Resolve later_put_drv later_emit later_metric : pglg.

Lemma later_acquire : Steps later acquireLeadership.
Proof. unfold acquireLeadership, emitLeaderGauge. steps. Qed.
Lemma later_relinquish reason : Steps later (relinquishLeadership reason).
Proof. unfold relinquishLeadership, emitLeaderGauge. steps. Qed.

#[export] Hint Resolve later_acquire later_relinquish : pglg.

(** ** Cancellation *)

(** A context stays done, and is done from call [N] on. *)
Class CancelledAt `{Env} (N : nat) : Prop := {
  cancelled_stable n m : (n <= m)%nat -> is_Some (env_ctx_err n) -> is_Some (env_ctx_err m);
  cancelled_at : is_Some (env_ctx_err N) }.

Section Cancellation.
  Context `{Env, Pglogrepl, PgLsn} (N : nat) {Hcancel : CancelledAt N}.
  Variable cfg : Config.

Lemma cancelled_from n : (N <= n)%nat -> exists e, env_ctx_err n = Some e.
Proof. intros. apply (cancelled_stable N n); [done|apply cancelled_at]. Qed.

(** An iteration makes a call, and ends the loop when the context is done. *)
Lemma iteration_progress s w :
  wp (iteration cfg s) (fun r w' => (w_tick w < w_tick w')%nat /\
    ((N <= w_tick w)%nat -> exists e, r = Err e)) w.
Proof.
  unfold iteration, ctx_Err. repeat wp_step. destruct (env_ctx_err (w_tick w)) as [e|] eqn:E.
  - wp_step. split; [cbn; lia|eauto].
  - eapply (wp_steps (R := later)); [steps|]. intros r w' [Ht _]. cbn in Ht. split; [lia|].
    intros Hn. destruct (cancelled_from _ Hn). congruence.
Qed.

Lemma streamLoop_ends fuel s w :
  (N - w_tick w < fuel)%nat ->
  wp (streamLoop cfg fuel s) (fun r w' => (w_tick w <= w_tick w')%nat /\ is_Some r) w.
Proof.
  revert s w. induction fuel as [|fuel IH]; intros s w Hf; [lia|]. cbn [streamLoop]. wp_step.
  eapply wp_mono; [apply iteration_progress|]. intros [s'|e] w' [Ht Hn].
  - destruct (decide (N <= w_tick w)%nat) as [Hle|]; [destruct (Hn Hle) as [? [=]]|].
    eapply wp_mono; [apply IH; lia|]. intros r w2 [? ?]. split; [lia|done].
  - wp_step. split; [lia|eauto].
Qed.

Lemma session_ends fuel l wl w :
  (N < fuel)%nat ->
  wp (session cfg fuel l wl) (fun r w' => (w_tick w <= w_tick w')%nat /\ is_Some r) w.
Proof.
  intros Hf. unfold session. wp_step.
  eapply (wp_steps (R := later)); [steps|]. intros [wl'|e] w1 [Ht1 _]; [|wp_step; eauto].
  wp_step. eapply (wp_steps (R := later)); [steps|]. intros _ w2 [Ht2 _].
  unfold processWALStream, time_Now. repeat wp_step.
  eapply wp_mono; [apply streamLoop_ends; lia|]. intros r w3 [Ht3 Hr]. cbn in Ht3.
  split; [lia|done].
Qed.

Lemma runOnce_ends fuel w :
  (N < fuel)%nat ->
  wp (runOnce cfg fuel) (fun r w' => (w_tick w < w_tick w')%nat /\ is_Some r) w.
Proof.
  intros Hf. unfold runOnce. wp_step.
  eapply (wp_mono _ (fun r w' => (w_tick w < w_tick w')%nat)).
  { unfold readCursor, query_cursor. repeat wp_step. destruct (env_query _); repeat wp_step;
      [|destruct (db_cursor _ !! _); repeat wp_step].
    all: eapply (wp_steps (R := later)); [steps|]; intros r w' [Ht _]; cbn in Ht; lia. }
  intros [lsn|e] w1 Ht1; [|wp_step; split; [lia|eauto]].
  unfold connect. repeat wp_step. destruct (env_connect _ _); repeat wp_step.
  { split; [cbn; lia|eauto]. }
  eapply wp_mono; [by apply session_ends|]. cbn [w_tick tick].
  intros r w2 [Ht2 [e ->]]. unfold close. wp_step.
  eapply (wp_steps (R := later)); [steps|]. intros _ w3 [Ht3 _]. wp_step. split; [lia|eauto].
Qed.

Lemma runLoop_ends sessions fuel bo w :
  (N - w_tick w < sessions)%nat -> (N < fuel)%nat ->
  wp (runLoop cfg sessions fuel bo) (fun r _ => exists e, r = Some (Some e)) w.
Proof.
  intros Hs Hf. revert bo w Hs. induction sessions as [|n IH]; intros bo w Hs; [lia|].
  cbn [runLoop]. wp_step. eapply wp_mono; [by apply runOnce_ends|]. intros r w1 [Ht1 [err ->]].
  unfold ctx_Err. repeat wp_step. destruct (env_ctx_err (w_tick w1)) as [e|] eqn:Ee.
  - wp_step. eapply (wp_steps (R := later)); [steps|].
    intros _ w2 [Ht2 _]. repeat wp_step. cbn in Ht2.
    destruct (cancelled_stable (w_tick w1) (w_tick w2) ltac:(lia) ltac:(eauto)) as [e' ->]. eauto.
  - destruct (decide (N <= w_tick w1)%nat) as [Hle|]; [destruct (cancelled_from _ Hle); congruence|].
    destruct (errors_Is err errSlotBusy); wp_step.
    + eapply (wp_steps (R := later)); [unfold slotBusy, rand_Int64N, wait_timer; steps|].
      intros [e|] w2 [Ht2 _]; [wp_step; eauto|]. apply IH. cbn in Ht2. lia.
    + eapply (wp_steps (R := later)); [steps|]. intros _ w2 [Ht2 _]. wp_step.
      eapply (wp_steps (R := later)); [steps|].
      intros [bo' [e|]] w3 [Ht3 _]; cbn [fst snd]; [wp_step; eauto|]. apply IH. cbn in Ht2. lia.
Qed.

End Cancellation.

(** ** Bounds of the pending batch *)

(** At the head of the loop: fewer rows than the maximum, and a deadline
    whenever there are any. *)
Definition batch_bounded (cfg : Config) (s : stream) : Prop :=
  Z.of_nat (length (pendingInserts s)) < MaxBatchSize cfg /\
  (pendingInserts s <> [] -> nextBatchAt s <> 0).

Class ClockLaws `{Env} : Prop := { clock_positive n : 0 < env_now n }.

Section Bounds.
  Context `{Env, Pglogrepl, PgLsn} {Hclock : ClockLaws}.
  Variable cfg : Config.
  Hypothesis Hcfg : config_wf cfg.

Definition bounded_post (r : result error stream) (_ : World) : Prop :=
  match r with Ok s => batch_bounded cfg s | Err _ => True end.

Lemma wp_any {A} (m : M A) Q w : (forall a w', Q a w') -> wp m Q w.
Proof. intros HQ. unfold wp. destruct (m w). apply HQ. Qed.

Lemma bounded_empty s : pendingInserts s = [] -> batch_bounded cfg s.
Proof.
  intros E. split; [|congruence]. rewrite E. cbn. unfold config_wf in Hcfg. lia.
Qed.

Lemma batchDue_bounded s w :
  batch_bounded cfg s ->
  wp (batchDue cfg s) (fun r w => bounded_post (match r with Ok sn => Ok sn.1 | Err e => Err e end) w) w.
Proof.
  intros Hs. unfold batchDue, time_Now. repeat wp_step.
  destruct (_ && _); repeat wp_step; [|done].
  eapply (wp_mono _ (fun r _ => match r with Ok s' => pendingInserts s' = [] | Err _ => True end)).
  - destruct (pendingInserts s) eqn:E; cbn [length Nat.ltb Nat.leb]; repeat wp_step; [done|].
    apply wp_any. intros [wl|e] w'; by repeat wp_step.
  - intros [s'|e] w' Hp; repeat wp_step; [|done]. cbn. by apply bounded_empty.
Qed.

Lemma standbyDue_bounded s now w :
  batch_bounded cfg s -> wp (standbyDue cfg s now) bounded_post w.
Proof.
  intros Hs. unfold standbyDue. destruct (negb _); [|by wp_step]. wp_step.
  eapply (wp_mono _ bounded_post).
  - unfold idleFlush. destruct (_ && _); repeat wp_step; [|done].
    apply wp_any. intros [u|e] w'; by repeat wp_step.
  - intros [s'|e] w' Hp; [|done]. wp_step. apply wp_any. intros [u|e] w2; [|done].
    unfold time_Now. by repeat wp_step.
Qed.

Lemma handleCommit_bounded l s w :
  batch_bounded cfg s -> wp (handleCommit cfg l s) bounded_post w.
Proof.
  intros [Hsize Hdl]. unfold handleCommit. wp_step. apply wp_any. intros _ w1.
  set (s1 := set_inTx _ _).
  assert (pendingInserts s1 = pendingInserts s ++ inserts (st_buf s) /\ nextBatchAt s1 = nextBatchAt s)
    as [Ep En] by (unfold s1; cbn; by destruct (_ <? l)).
  clearbody s1. wp_step.
  eapply (wp_mono _ (fun s2 _ => pendingInserts s2 <> [] -> nextBatchAt s2 <> 0)).
  - unfold time_Now. destruct (pendingInserts s) as [|p ps] eqn:E0; cbn [length Nat.eqb andb].
    + destruct (pendingInserts s1) eqn:E1; cbn [length Nat.ltb Nat.leb]; repeat wp_step; [congruence|].
      cbn. intros _. pose proof (clock_positive (w_tick w1)). unfold GoTime.Add.
      unfold config_wf in Hcfg. lia.
    + wp_step. intros _. rewrite En. by apply Hdl.
  - intros s2 w2 Hd2. destruct (Z.leb_spec (MaxBatchSize cfg) (Z.of_nat (length (pendingInserts s2)))).
    + wp_step. apply wp_any. intros [wl|e] w3; [|done]. wp_step. by apply bounded_empty.
    + wp_step. by split.
Qed.

Lemma receiveNext_bounded s w :
  batch_bounded cfg s -> wp (receiveNext cfg s) bounded_post w.
Proof.
  intros Hs. unfold receiveNext. wp_step. apply wp_any. intros [wl [[d|]|e]] w1; cbn [fst snd].
  - unfold handleData. destruct (parseWALMessage d) as [[ev|]|e]; repeat wp_step; try done.
    destruct ev as [rid name cols|rid vs|l|]; cbn [handleEvent]; repeat wp_step; try done.
    + destruct (parseInsert _ _ _) as [[p|]|e]; by repeat wp_step.
    + by apply handleCommit_bounded.
  - by wp_step.
  - destruct (errors_Is _ _); by wp_step.
Qed.

Lemma iteration_bounded s w :
  batch_bounded cfg s -> wp (iteration cfg s) bounded_post w.
Proof.
  intros Hs. unfold iteration, ctx_Err. repeat wp_step. destruct (env_ctx_err _); [by wp_step|].
  wp_step. eapply wp_mono; [by apply batchDue_bounded|]. intros [[s1 now]|e] w1 Hp; [|done].
  wp_step. eapply wp_mono; [by apply standbyDue_bounded|]. intros [s2|e] w2 Hp2; [|done].
  by apply receiveNext_bounded.
Qed.

End Bounds.
