(* ===== verification/DriverTheorems.v ===== *)
(** * Theorems on flushes, the loop and cancellation

    The contracts of [persistFlushResult], [readCursor] and [flushBatch], the
    bounds of the pending batch at every reachable head of the loop, and the
    end of [Run] after a cancellation. *)

From S2P Require Export DriverLive EndToEnd.

Open Scope Z_scope.
Open Scope pglg_scope.

Section Flush.
  Context `{Env, Pglogrepl, PgLsn} {Hlsn : LsnLaws} {Hquery : QueryLaws}.
  Variable cfg : Config.

(** C7: a flush is atomic. Either the database is as before and the
    flush reports an error, or the dead-letter rows are appended, in order, and
    the cursor of this slot is the maximum of its old value and the new one,
    with every other cursor row untouched; success is always the latter. *)
Theorem persistFlushResult_atomic (rows : list dlqRow) (l : Z) (w : World) (Hl : is_uint64 l) :
  let '(r, w') := persistFlushResult cfg rows l w in
  (w_db w' = w_db w /\ is_Ok r = false) \/
  (db_dlq (w_db w') = db_dlq (w_db w) ++ map (fun d => (dlqTable cfg, row_args d)) rows /\
   cursor_of cfg w' = Z.max (cursor_of cfg w) l /\
   forall k, k <> cursor_key cfg -> db_cursor (w_db w') !! k = db_cursor (w_db w) !! k).
Proof.
  change (wp (persistFlushResult cfg rows l) (fun r w' =>
    (w_db w' = w_db w /\ is_Ok r = false) \/
    (db_dlq (w_db w') = db_dlq (w_db w) ++ map (fun d => (dlqTable cfg, row_args d)) rows /\
     cursor_of cfg w' = Z.max (cursor_of cfg w) l /\
     forall k, k <> cursor_key cfg -> db_cursor (w_db w') !! k = db_cursor (w_db w) !! k)) w).
  apply persistFlushResult_spec; [done|intros e w' (Hd & _); left; by rewrite Hd|].
  intros r stmts w' Hd _ _. right. unfold Store.cursor_of. rewrite Hd.
  split_and!; [done| |].
  - apply cursor_flushed. unfold is_uint64 in Hl. lia.
  - intros k Hk. by apply upsert_greater_other.
Qed.

(** C8: what a successful flush writes is what the next session reads:
    the cursor row makes the round trip through its text form, unless the flush
    was older than the cursor. *)
Theorem cursor_round_trip (rows : list dlqRow) (l : Z) (w w' : World)
    (Hl : is_uint64 l) (Hnew : cursor_of cfg w <= l)
    (Hflush : persistFlushResult cfg rows l w = (Ok tt, w')) :
  env_query (w_tick w') = None -> (readCursor cfg w').1 = Ok l.
Proof.
  intros Hq. assert (cursor_of cfg w' = l) as Ec.
  { assert (wp (persistFlushResult cfg rows l) (fun r w' => r = Ok tt -> cursor_of cfg w' = l) w) as Hw.
    { apply persistFlushResult_spec; [done|by intros|]. intros r stmts w1 Hd _ _ _.
      unfold Store.cursor_of in *. rewrite Hd, cursor_flushed by (unfold is_uint64 in Hl; lia). lia. }
    unfold wp in Hw. rewrite Hflush in Hw. by apply Hw. }
  unfold readCursor, query_cursor, mbind, ST_bind, ask. rewrite Hq. cbn [get_db].
  unfold get_db. cbn [w_db tick]. unfold Store.cursor_of, cursor_db, cursor_key in Ec.
  destruct (db_cursor (w_db w') !! _) as [l'|]; cbn in Ec.
  - subst l'. cbn [mret ST_ret]. unfold mret, ST_ret. by rewrite lsn_out_text.
  - unfold mret, ST_ret. by rewrite <- Ec.
Qed.

(** C6: a flush that succeeds has stored exactly the dead-letter rows
    of the rejections and moved the cursor and the consumer to [commitLSN]; a
    flush that fails has left the database as it was, or was stored although its
    commit reported an error. *)
Theorem flushBatch_spec (wl : walConsumer) (ps : list parsedInsert) (l : Z) (w : World)
    (Hl : is_uint64 l) (Hps : ps <> []) :
  let '(r, w') := flushBatch cfg wl ps l w in
  let stored := exists results rows, env_submit (S (w_tick w)) (map toJob ps) = Ok results /\
    mapResults ps results = Ok rows /\ w_db w' = flushed_db cfg rows l (w_db w) in
  match r with
  | Ok wl' => wl' = setFlushLSN l wl /\ stored
  | Err e => w_db w' = w_db w \/ stored
  end.
Proof.
  match goal with |- let '(r, w') := ?m w in @?Q r w' =>
    change (wp m (fun r w' => let '(r, w') := (r, w') in Q r w') w) end.
  cbn beta iota zeta. unfold flushBatch, time_Now, submit, flushError. destruct ps as [|p0 ps0]; [done|].
  set (ps := p0 :: ps0) in *. repeat wp_step. cbn [w_tick tick add_event].
  destruct (env_submit _ _) as [results|e] eqn:Es; [|repeat wp_step; by left].
  destruct (mapResults _ _) as [rows|e] eqn:Em; [|repeat wp_step; by left].
  wp_step. apply persistFlushResult_spec; [done|intros e w' (Hd & _); by left|].
  intros r stmts w' Hd _ _. cbn [w_db add_event tick] in Hd. destruct r as [u|e]; [|right; eauto].
  wp_step. eapply wp_calm; [apply calm_flushReport|]. intros _ w2 [Hd2 _]. wp_step.
  split; [done|]. exists results, rows. split_and!; [done..|congruence].
Qed.

End Flush.

(** ** The loop *)

Section Loop.
  Context `{Env, Pglogrepl, PgLsn} {Hclock : ClockLaws}.
  Variable cfg : Config.

(** The heads of the loop a session reaches. *)
Inductive loop_head (wl : walConsumer) (l : Z) (t : Time) (w0 : World) : stream -> World -> Prop :=
| head_start : loop_head wl l t w0 (stream0 wl l t) w0
| head_next s w s' w' :
    loop_head wl l t w0 s w -> iteration cfg s w = (Ok s', w') -> loop_head wl l t w0 s' w'.

(** C11: at every head of the loop the pending batch is smaller than
    [MaxBatchSize], and if it is not empty the next receive waits no longer than
    the batch deadline. *)
Theorem pending_batch_bounded (Hcfg : config_wf cfg) (wl : walConsumer) (l : Z) (t : Time)
    (w0 : World) (s : stream) (w : World) (Hreach : loop_head wl l t w0 s w) :
  Z.of_nat (length (pendingInserts s)) < MaxBatchSize cfg /\
  (pendingInserts s <> [] ->
     nextReceiveDeadline (nextBatchAt s) (nextStandbyAt s) <= nextBatchAt s).
Proof.
  assert (batch_bounded cfg s) as [Hsize Hdl].
  { induction Hreach as [|s w s' w' _ IH Hit]; [by apply bounded_empty|].
    pose proof (iteration_bounded cfg Hcfg s w IH) as Hb. unfold wp in Hb. by rewrite Hit in Hb. }
  split; [done|]. intros Hne. specialize (Hdl Hne). unfold nextReceiveDeadline, IsZero, Before.
  destruct (Z.eqb_spec (nextBatchAt s) 0); [done|]. cbn [orb].
  destruct (Z.ltb_spec (nextStandbyAt s) (nextBatchAt s)); lia.
Qed.

(** That some answer to [jobs] was received. *)
Definition submitted (jobs : list Job) (w : World) : Prop :=
  exists answer, EvSubmit jobs answer ∈ w_trace w.

Lemma submitted_later {A} jobs (m : M A) w :
  submitted jobs w -> Steps later m -> wp m (fun _ => submitted jobs) w.
Proof.
  intros [a Hin] Hm. eapply (wp_steps (R := later)); [exact Hm|]. intros _ w' [_ Hpre].
  exists a. eapply elem_of_prefix; eauto.
Qed.

Lemma flushBatch_submits wl ps l w :
  ps <> [] -> wp (flushBatch cfg wl ps l) (fun _ => submitted (map toJob ps)) w.
Proof.
  intros Hne. unfold flushBatch, time_Now, submit, flushError. destruct ps as [|p ps]; [done|].
  repeat wp_step. match goal with |- wp _ _ ?w1 =>
    assert (submitted (map toJob (p :: ps)) w1) as Hs by (eexists; cbn; apply elem_of_app; right; by left) end.
  apply submitted_later; [done|steps].
Qed.

(** C10: once the batch deadline has passed, the next iteration submits the
    pending rows, all of them and in order, unless the context is done. *)
Theorem due_batch_submitted (s : stream) (w : World)
    (Hctx : env_ctx_err (w_tick w) = None)
    (Hdue : nextBatchAt s <> 0 /\ nextBatchAt s <= env_now (S (w_tick w)))
    (Hne : pendingInserts s <> []) :
  exists answer, EvSubmit (map toJob (pendingInserts s)) answer ∈ w_trace (iteration cfg s w).2.
Proof.
  assert (wp (iteration cfg s) (fun _ => submitted (map toJob (pendingInserts s))) w) as Hw.
  2: { unfold wp in Hw. by destruct (iteration cfg s w). }
  unfold iteration, ctx_Err. repeat wp_step. rewrite Hctx. wp_step.
  eapply (wp_mono _ (fun _ => submitted (map toJob (pendingInserts s)))).
  - unfold batchDue, time_Now, IsZero, Before. repeat wp_step. cbn [w_tick tick]. destruct Hdue as [Hz Hd].
    rewrite (proj2 (Z.eqb_neq _ _) Hz), (proj2 (Z.ltb_ge _ _) Hd). cbn [negb andb].
    destruct (pendingInserts s) as [|p ps] eqn:Ep; [done|]. cbn [length Nat.ltb Nat.leb].
    do 2 wp_step. eapply wp_mono; [by apply flushBatch_submits|].
    intros [wl|e] w' Hs; [|done]. wp_step. apply submitted_later; [done|steps].
  - intros [[s' now]|e] w' Hs; [|done]. apply submitted_later; [done|steps].
Qed.

End Loop.

Section Cancelled.
  Context `{Env, Pglogrepl, PgLsn}.

(** C9: once the context is done (from the [N]-th call to the outside on),
    [Run] returns, whatever the outside does, within [N + 1] sessions of at most
    [N + 1] iterations each; and it returns an error, never nil. *)
Theorem Run_returns_when_cancelled (N : nat) {Hcancel : CancelledAt N} (cfg : Config) (db : Db)
    (sessions fuel : nat) (Hs : (N < sessions)%nat) (Hf : (N < fuel)%nat) :
  exists e, (Run cfg sessions fuel (world0 db)).1 = Some (Some e).
Proof.
  pose proof (runLoop_ends N cfg sessions fuel
    {| Backoff.initial := ReconnectInitialDelay cfg; Backoff.max := ReconnectMaxDelay cfg;
       Backoff.attempt := 0 |} (world0 db) ltac:(cbn; lia) Hf) as Hw.
  unfold wp in Hw. unfold Run. by destruct (runLoop _ _ _ _ _).
Qed.

End Cancelled.

(** ** The theorems at concrete inputs *)

#[export] Instance scripted_clock script stop : @ClockLaws (scripted script stop).
Proof. split. intros n. cbn. unfold Millisecond. lia. Qed.

#[export] Instance scripted_cancelled script stop : @CancelledAt (scripted script stop) stop.
Proof.
  split.
  - intros n m Hnm. cbn [env_ctx_err scripted]. destruct (Nat.ltb_spec n stop), (Nat.ltb_spec m stop); try lia; intros Hx;
      [exact Hx|by eexists|by eexists].
  - cbn [env_ctx_err scripted]. rewrite Nat.ltb_irrefl. by eexists.
Qed.

Lemma Run_returns_when_cancelled_witness :
  exists e, (@Run sample_env _ _ sample_config 86 86 (world0 db0)).1 = Some (Some e).
Proof.
  refine (Run_returns_when_cancelled (H := sample_env) 85 sample_config db0 86 86 _ _); lia.
Defined.

Definition sample_dlq : list dlqRow := [dlq_row_of (outbox_row 8) (answer (toJob (outbox_row 8)))].

Lemma persistFlushResult_atomic_witness :
  cursor_of sample_config (@persistFlushResult sample_env _ _ sample_config sample_dlq 16 (world0 db0)).2 = 16.
Proof.
  pose proof (persistFlushResult_atomic (H := sample_env) sample_config sample_dlq 16 (world0 db0)
    ltac:(vm_compute; split; discriminate)) as T.
  assert (is_Ok (@persistFlushResult sample_env _ _ sample_config sample_dlq 16 (world0 db0)).1 = true)
    as Hok by (vm_compute; reflexivity).
  destruct (@persistFlushResult _ _ _ _ _ _ _) as [r w']. cbn [fst snd] in *.
  destruct T as [[_ T]|(_ & T & _)]; [rewrite T in Hok; discriminate Hok|].
  rewrite T. vm_compute. reflexivity.
Defined.

Definition sample_flushed : World :=
  (@persistFlushResult sample_env _ _ sample_config sample_dlq 16 (world0 db0)).2.

Lemma cursor_round_trip_witness :
  (@readCursor sample_env _ _ sample_config sample_flushed).1 = Ok 16.
Proof.
  refine (cursor_round_trip (H := sample_env) sample_config sample_dlq 16 (world0 db0) sample_flushed _ _ _ _).
  - vm_compute. split; discriminate.
  - vm_compute. discriminate.
  - vm_compute. reflexivity.
  - reflexivity.
Defined.

Definition sample_consumer : walConsumer := set_positions 10 0 (newWALConsumer "s" "p").

Lemma flushBatch_spec_witness :
  exists wl w', @flushBatch sample_env _ _ sample_config sample_consumer [outbox_row 8] 16 (world0 db0)
    = (Ok wl, w') /\ wl = setFlushLSN 16 sample_consumer.
Proof.
  pose proof (flushBatch_spec (H := sample_env) sample_config sample_consumer [outbox_row 8] 16 (world0 db0)
    ltac:(vm_compute; split; discriminate) ltac:(discriminate)) as T.
  assert (is_Ok (@flushBatch sample_env _ _ sample_config sample_consumer [outbox_row 8] 16 (world0 db0)).1
    = true) as Hok by (vm_compute; reflexivity).
  destruct (@flushBatch _ _ _ _ _ _ _) as [[wl|e] w']; [|discriminate Hok].
  exists wl, w'. split; [reflexivity|exact (proj1 T)].
Defined.

Definition sample_stream : stream :=
  set_nextBatchAt 1 (set_pending [outbox_row 7] (stream0 sample_consumer 0 (100 * Second))).

(** Four iterations from the start of a session: a transaction of one row, which
    is one less than the bound. *)
Definition pending_env : Env :=
  scripted [(2, Ok (xlog 1 "R")); (5, Ok (xlog 2 "B")); (8, Ok (xlog 3 "I7"));
            (11, Ok (xlog 9 (String "C" (chr 16 ""))))]%nat 85.

Fixpoint heads (fuel : nat) (s : stream) (w : World) : option (stream * World) :=
  match fuel with
  | O => Some (s, w)
  | S fuel => match @iteration pending_env _ _ sample_config s w with
              | (Ok s', w') => heads fuel s' w'
              | (Err _, _) => None
              end
  end.

Definition first_head : stream := stream0 sample_consumer 0 (100 * Second).

Lemma heads_reached fuel s w s' w' :
  @loop_head pending_env _ _ sample_config sample_consumer 0 (100 * Second) (world0 db0) s w ->
  heads fuel s w = Some (s', w') ->
  @loop_head pending_env _ _ sample_config sample_consumer 0 (100 * Second) (world0 db0) s' w'.
Proof.
  revert s w. induction fuel as [|fuel IH]; cbn [heads]; intros s w Hr; [by intros [= <- <-]|].
  destruct (iteration _ _ _) as [[s1|e] w1] eqn:E; [|done]. apply IH. by eapply head_next.
Qed.

Definition pending_stream : stream * World :=
  default (first_head, world0 db0) (heads 4 first_head (world0 db0)).

Lemma pending_reached :
  @loop_head pending_env _ _ sample_config sample_consumer 0 (100 * Second) (world0 db0)
    pending_stream.1 pending_stream.2.
Proof.
  apply (heads_reached 4 first_head (world0 db0)); [exact (head_start (H := pending_env) _ _ _ _ _)|].
  vm_compute. reflexivity.
Qed.

Lemma pending_batch_bounded_witness :
  pendingInserts pending_stream.1 = [outbox_row 7] /\
  Z.of_nat (length (pendingInserts pending_stream.1)) < MaxBatchSize sample_config /\
  nextReceiveDeadline (nextBatchAt pending_stream.1) (nextStandbyAt pending_stream.1)
    <= nextBatchAt pending_stream.1.
Proof.
  assert (pendingInserts pending_stream.1 = [outbox_row 7]) as E by (vm_compute; reflexivity).
  pose proof (pending_batch_bounded (H := pending_env) sample_config (setDefaults_wf _) sample_consumer 0
    (100 * Second) (world0 db0) pending_stream.1 pending_stream.2 pending_reached) as [Hsize Hdl].
  refine (conj E (conj Hsize (Hdl _))). rewrite E. discriminate.
Defined.

Lemma due_batch_submitted_witness :
  exists answer, EvSubmit [toJob (outbox_row 7)] answer
    ∈ w_trace (@iteration sample_env _ _ sample_config sample_stream (world0 db0)).2.
Proof.
  refine (due_batch_submitted (H := sample_env) sample_config sample_stream (world0 db0) _ _ _).
  - reflexivity.
  - split; vm_compute; discriminate.
  - discriminate.
Defined.
