(* ===== verification/Leadership.v ===== *)
(** * Leadership: what the metrics and the flag say

    The leader flag of the driver against the leadership metrics of the trace,
    over whole runs; and the moments at which the flag is wrong. *)

From S2P Require Export DriverTheorems.

Open Scope Z_scope.
Open Scope pglg_scope.

(** ** Reading the metrics *)

(** The role the metrics announce: every [acquired] must find a standby, every
    [relinquished] a leader; [None] when they do not alternate. *)
Definition role_event (role : option bool) (e : Event) : option bool :=
  match e with
  | EvMetric (Incr n _) =>
      if String.eqb n "jack.courier.leader.acquired" then
        match role with Some false => Some true | _ => None end
      else if String.eqb n "jack.courier.leader.relinquished" then
        match role with Some true => Some false | _ => None end
      else role
  | _ => role
  end.

Definition announced (tr : list Event) : option bool := foldl role_event (Some false) tr.

(** The last value of the leader gauge; before the first one it is 0. *)
Definition gauge_event (v : Z) (e : Event) : Z :=
  match e with
  | EvMetric (Gauge n (MCount k) _) => if String.eqb n "jack.courier.leader.is_leader" then k else v
  | _ => v
  end.

Definition last_gauge (tr : list Event) : Z := foldl gauge_event 0 tr.

Definition leader_value (b : bool) : Z := if b then 1 else 0.

(** The metrics agree with the flag. *)
Definition consistent (w : World) : Prop :=
  announced (w_trace w) = Some (isLeader (w_drv w)) /\
  last_gauge (w_trace w) = leader_value (isLeader (w_drv w)).

(** ** Parts of the program that do not touch leadership *)

Definition lead_same (w w' : World) : Prop :=
  isLeader (w_drv w') = isLeader (w_drv w) /\ announced (w_trace w') = announced (w_trace w) /\
  last_gauge (w_trace w') = last_gauge (w_trace w).

#[export] Instance lead_same_po : PreOrder lead_same.
Proof. split; [done|]. intros w1 w2 w3 (?&?&?) (?&?&?). split_and!; congruence. Qed.

#[export] Instance lead_same_steps : RunRel lead_same.
Proof.
  split; [apply _|done| |done]. intros e w He. split_and!; [done| |];
    unfold announced, last_gauge; cbn [w_trace add_event]; rewrite foldl_snoc;
    destruct e as [| | | | |[n tags|n v tags|n v tags]]; cbn in *; try done.
  - apply orb_false_iff in He as [-> ->]. done.
  - destruct v; [by rewrite He|done..].
Qed.

Lemma consistent_same w w' : lead_same w w' -> consistent w -> consistent w'.
Proof. intros (E1 & E2 & E3) [H1 H2]. split; congruence. Qed.

Lemma wp_lead {A} (m : M A) w :
  Steps lead_same m -> consistent w -> wp m (fun _ => consistent) w.
Proof. intros Hm Hw. eapply wp_steps; [exact Hm|]. intros. by eapply consistent_same. Qed.

Lemma announced_snoc tr e : announced (tr ++ [e]) = role_event (announced tr) e.
Proof. apply foldl_snoc. Qed.
Lemma last_gauge_snoc tr e : last_gauge (tr ++ [e]) = gauge_event (last_gauge tr) e.
Proof. apply foldl_snoc. Qed.

(** ** The two transitions *)

Lemma acquire_consistent w :
  consistent w -> wp acquireLeadership (fun _ w' => consistent w' /\
    isLeader (w_drv w') = true /\ (isLeader (w_drv w) = false -> maintWake (w_drv w') = true)) w.
Proof.
  intros [Ha Hg]. unfold acquireLeadership, emitLeaderGauge. repeat wp_step.
  destruct (isLeader (w_drv w)) eqn:El; repeat wp_step.
  - split_and!; [by split; rewrite El|done|done].
  - unfold consistent. cbn [w_trace w_drv add_event set_drv isLeader maintWake].
    rewrite !announced_snoc, !last_gauge_snoc, Ha. done.
Qed.

Lemma relinquish_consistent reason w :
  consistent w -> wp (relinquishLeadership reason) (fun _ w' => consistent w' /\
    isLeader (w_drv w') = false) w.
Proof.
  intros [Ha Hg]. unfold relinquishLeadership, emitLeaderGauge. repeat wp_step.
  destruct (isLeader (w_drv w)) eqn:El; repeat wp_step.
  - unfold consistent. cbn [w_trace w_drv add_event set_drv isLeader maintWake].
    rewrite !announced_snoc, !last_gauge_snoc, Ha. done.
  - split; [by split; rewrite El|done].
Qed.

Section Leadership.
  Context `{Env, Pglogrepl, PgLsn}.
  Variable cfg : Config.

Lemma runOnce_consistent fuel w : consistent w -> wp (runOnce cfg fuel) (fun _ => consistent) w.
Proof.
  intros Hw. unfold runOnce. wp_step. eapply wp_mono; [apply wp_lead; [steps|exact Hw]|].
  intros [l|e] w1 Hw1; [|by wp_step]. wp_step.
  eapply wp_mono; [apply wp_lead; [steps|exact Hw1]|]. intros [wl|e] w2 Hw2; [|by wp_step].
  unfold session. do 2 wp_step. eapply wp_mono; [apply wp_lead; [steps|exact Hw2]|].
  intros [wl'|e] w3 Hw3.
  - wp_step. eapply wp_mono; [by apply acquire_consistent|]. intros u w4 (Hw4 & _).
    eapply wp_mono; [apply wp_lead; [steps|exact Hw4]|]. intros [e|] w5 Hw5; [|by wp_step].
    wp_step. eapply wp_mono; [apply wp_lead; [steps|exact Hw5]|]. intros x w6 Hw6. by wp_step.
  - repeat wp_step. eapply wp_mono; [apply wp_lead; [steps|exact Hw3]|]. intros x w6 Hw6. by wp_step.
Qed.

Lemma slotBusy_consistent w : consistent w -> wp (slotBusy cfg) (fun _ => consistent) w.
Proof.
  intros Hw. unfold slotBusy, rand_Int64N, wait_timer. wp_step.
  eapply wp_mono; [by apply relinquish_consistent|]. intros u w1 [Hw1 _]. repeat wp_step.
  by destruct Hw1.
Qed.

Lemma runLoop_consistent sessions fuel bo w :
  consistent w -> wp (runLoop cfg sessions fuel bo) (fun _ => consistent) w.
Proof.
  revert bo w. induction sessions as [|n IH]; intros bo w Hw; cbn [runLoop]; [by wp_step|].
  wp_step. eapply wp_mono; [by apply runOnce_consistent|]. intros [err|] w1 Hw1; [|by wp_step].
  unfold ctx_Err. repeat wp_step. assert (consistent (tick w1)) as Ht by (by destruct Hw1).
  destruct (env_ctx_err _).
  - wp_step. eapply wp_mono; [by apply relinquish_consistent|]. intros u w2 [Hw2 _].
    repeat wp_step. by destruct Hw2.
  - destruct (errors_Is err errSlotBusy); wp_step.
    + eapply wp_mono; [by apply slotBusy_consistent|]. intros [e|] w2 Hw2; [by wp_step|by apply IH].
    + eapply wp_mono; [apply wp_lead; [steps|exact Ht]|]. intros u w2 Hw2. wp_step.
      eapply wp_mono; [apply wp_lead; [steps|exact Hw2]|].
      intros [bo' [e|]] w3 Hw3; cbn [fst snd]; [by wp_step|by apply IH].
Qed.

End Leadership.

(** C21: throughout a run, in every environment, the acquired and
    relinquished counters alternate, starting with acquired, and the leader flag
    and the last value of the leader gauge are what they announce. *)
Theorem leadership_metrics_consistent `{Env, Pglogrepl, PgLsn} (cfg : Config) (db : Db)
    (sessions fuel : nat) :
  let w := (Run cfg sessions fuel (world0 db)).2 in
  announced (w_trace w) = Some (isLeader (w_drv w)) /\
  last_gauge (w_trace w) = leader_value (isLeader (w_drv w)).
Proof.
  pose proof (runLoop_consistent cfg sessions fuel
    {| Backoff.initial := ReconnectInitialDelay cfg; Backoff.max := ReconnectMaxDelay cfg;
       Backoff.attempt := 0 |} (world0 db) ltac:(by split)) as Hw.
  unfold wp in Hw. unfold Run. by destruct (runLoop _ _ _ _ _).
Qed.

(** A broken connection, and a cancellation during the wait that follows: the
    context is done from call 11 on, the timer of the backoff is call 11. *)
Definition cancelled_wait_script : list (nat * result error BackendMessage) :=
  [(7, Err (External "connection reset"))]%nat.

(** [Run] can return while the driver still counts as leader: it does
    not give the leadership up when it waits after a broken stream, nor when the
    context ends that wait. *)
Theorem Run_returns_as_leader :
  let '(r, w) := @Run (scripted cancelled_wait_script 11) _ _ sample_config 5 10 (world0 db0) in
  r = Some (Some ContextCanceled) /\ Role (w_drv w) = "leader"%string /\
  last_gauge (w_trace w) = 1.
Proof. vm_compute. done. Qed.
