(* ===== verification/Lifecycle.v ===== *)
(** * The life of a driver as its trace shows it

    [Run] is a loop of sessions. An automaton reads the trace: what is done in a
    session and what only between two of them, which metric follows which. Every
    run is accepted, and its return is at a place where a run may return. *)

From S2P Require Export Leadership.

Open Scope Z_scope.
Open Scope pglg_scope.

(** ** The automaton *)

(** Outside a session, as a leader or not; the stream was started by a standby,
    which has not announced itself; in a session; after the shutdown. *)
Inductive life := Outside (leader : bool) | Started | InSession | Over.

Definition leads (s : life) : bool :=
  match s with Outside b => b | InSession => true | _ => false end.

(** What only a session does: it receives, reports, submits, commits. *)
Definition in_session (s : life) : option life :=
  match s with InSession => Some InSession | _ => None end.

Definition life_start (s : life) : option life :=
  match s with Outside true => Some InSession | Outside false => Some Started | _ => None end.

Definition life_relinquish (tags : list string) (s : life) : option life :=
  if negb (leads s) then None
  else if bool_decide (tags = ["reason:shutdown"%string]) then Some Over
  else if bool_decide (tags = ["reason:slot_busy"%string]) then Some (Outside false)
  else None.

Definition life_reconnect (s : life) : option life :=
  match s with InSession => Some (Outside true) | Outside b => Some (Outside b) | _ => None end.

Definition life_metric (m : metric) (s : life) : option life :=
  match m with
  | Incr n tags =>
      if String.eqb n "jack.courier.leader.acquired" then
        match s with Started => Some InSession | _ => None end
      else if String.eqb n "jack.courier.leader.relinquished" then life_relinquish tags s
      else if String.eqb n "jack.courier.wal.reconnect" then life_reconnect s
      else in_session s
  | Gauge n _ _ => if String.eqb n "jack.courier.leader.is_leader" then Some s else in_session s
  | _ => in_session s
  end.

Definition life_event (o : option life) (e : Event) : option life :=
  s ← o;
  match e with
  | EvStart _ => life_start s
  | EvMetric m => life_metric m s
  | _ => in_session s
  end.

Definition life_of (tr : list Event) : option life := foldl life_event (Some (Outside false)) tr.

Lemma life_of_snoc tr e : life_of (tr ++ [e]) = life_event (life_of tr) e.
Proof. apply foldl_snoc. Qed.

(** The trace is at [s], and the flag agrees. *)
Definition at_life (s : life) (w : World) : Prop :=
  life_of (w_trace w) = Some s /\ isLeader (w_drv w) = leads s.

(** Outside a session, as a leader or not. *)
Definition outside (w : World) : Prop := exists b, at_life (Outside b) w.

(** ** A session *)

(** What a session does leaves it a session. *)
Definition stays (w w' : World) : Prop :=
  isLeader (w_drv w') = isLeader (w_drv w) /\
  (life_of (w_trace w) = Some InSession -> life_of (w_trace w') = Some InSession).

#[export] Instance stays_po : PreOrder stays.
Proof. split; [done|]. intros w1 w2 w3 [] []. split; [congruence|auto]. Qed.

#[export] Instance stays_steps : StepRel stays.
Proof.
  split; [apply _|done| |done]. intros e w He Ht. split; [done|].
  intros Hl. cbn [w_trace add_event]. rewrite life_of_snoc, Hl.
  destruct e as [| | | | |[n tags|n v tags|n v tags]]; cbn in *; try done.
  - apply orb_false_iff in He as [-> ->]. by rewrite Ht.
  - by rewrite He.
Qed.

Lemma wp_stays {A} (m : M A) w :
  Steps stays m -> at_life InSession w -> wp m (fun _ => at_life InSession) w.
Proof.
  intros Hm [Hl Hd]. eapply wp_steps; [exact Hm|]. intros a w' [E Hs]. split; [auto|congruence].
Qed.

(** ** Between sessions *)

(** Programs that leave no event and no change of the flag. *)
Definition mute (w w' : World) : Prop :=
  w_trace w' = w_trace w /\ w_drv w' = w_drv w.

Lemma at_life_mute s w w' : mute w w' -> at_life s w -> at_life s w'.
Proof. intros [E1 E2] [? ?]. split; congruence. Qed.

Section Lifecycle.
  Context `{Env, Pglogrepl, PgLsn}.
  Variable cfg : Config.

Lemma readCursor_mute Q w :
  (forall r w', mute w w' -> Q r w') -> wp (readCursor cfg) Q w.
Proof.
  intros HQ. unfold readCursor, query_cursor. repeat wp_step.
  destruct (env_query _); repeat wp_step; [|destruct (db_cursor _ !! _); repeat wp_step].
  all: repeat (break_match; repeat wp_step); by apply HQ.
Qed.

Lemma connect_mute c wl Q w :
  (forall r w', mute w w' -> Q r w') -> wp (connect c wl) Q w.
Proof. intros HQ. unfold connect. repeat wp_step. destruct (env_connect _ _); wp_step; by apply HQ. Qed.

Lemma close_mute wl Q w : (forall r w', mute w w' -> Q r w') -> wp (close wl) Q w.
Proof. intros HQ. unfold close. destruct (conn wl); wp_step; by apply HQ. Qed.

(** The start of replication is an event only when it succeeds. *)
Lemma startStreaming_life l wl Q w :
  (forall e w', mute w w' -> Q (Err e) w') ->
  (forall wl' w', w_trace w' = w_trace w ++ [EvStart l] -> w_drv w' = w_drv w -> Q (Ok wl') w') ->
  wp (startStreaming l wl) Q w.
Proof.
  intros He Hok. unfold startStreaming. destruct (conn wl); cbn [negb]; [|wp_step; by apply He].
  repeat wp_step. destruct (env_identify _); [wp_step; by apply He|].
  repeat wp_step. destruct (env_start_replication _ _ _ _); repeat wp_step; [by apply He|by apply Hok].
Qed.

(** A standby that has started its stream announces itself; a leader goes on. *)
Lemma acquire_life b w :
  life_of (w_trace w) = life_start (Outside b) -> isLeader (w_drv w) = b ->
  wp acquireLeadership (fun _ => at_life InSession) w.
Proof.
  intros Hl Hb. unfold acquireLeadership, emitLeaderGauge. repeat wp_step. rewrite Hb.
  destruct b; repeat wp_step; split; cbn [w_trace w_drv add_event set_drv isLeader]; try done.
  by rewrite !life_of_snoc, Hl.
Qed.

(** Only a leader announces that it gives up the role. *)
Lemma relinquish_life reason s s' w :
  at_life s w -> life_relinquish [("reason:" ++ reason)%string] InSession = Some s' -> leads s' = false ->
  wp (relinquishLeadership reason) (fun _ w' =>
    isLeader (w_drv w') = false /\ (at_life s' w' \/ at_life s w')) w.
Proof.
  intros [Hl Hd] Hr Hf. unfold relinquishLeadership, emitLeaderGauge. repeat wp_step.
  destruct (isLeader (w_drv w)) eqn:El; repeat wp_step; [|split; [|right; split]; cbn; congruence].
  split; [done|left]. split; [|done]. cbn [w_trace w_drv add_event set_drv isLeader].
  rewrite !life_of_snoc, Hl. unfold life_relinquish in Hr. rewrite <- Hr.
  change (life_event (life_relinquish [("reason:" ++ reason)%string] s)
    (EvMetric (Gauge "jack.courier.leader.is_leader" (MCount 0) [])) = life_relinquish [("reason:" ++ reason)%string] InSession).
  unfold life_relinquish. rewrite <- Hd. cbn [leads negb]. by repeat case_bool_decide.
Qed.

(** Where [runOnce] leaves the driver. *)
Definition ended (r : option error) (w : World) : Prop :=
  match r with Some _ => outside w \/ at_life InSession w | None => at_life InSession w end.

Lemma runOnce_life fuel w : outside w -> wp (runOnce cfg fuel) ended w.
Proof.
  intros [b Hb]. unfold runOnce. wp_step. apply readCursor_mute. intros [l|e] w1 M1.
  2: { wp_step. left. exists b. by eapply at_life_mute. }
  wp_step. apply connect_mute. intros [wl|e] w2 M2.
  2: { wp_step. left. exists b. do 2 (eapply at_life_mute; [done|]). done. }
  assert (at_life (Outside b) w2) as [Hl Hd] by (do 2 (eapply at_life_mute; [done|]); done).
  wp_step. unfold session. wp_step. apply startStreaming_life.
  - intros e w3 M3. repeat wp_step. apply close_mute. intros x w4 M4. wp_step.
    left. exists b. do 2 (eapply at_life_mute; [done|]). done.
  - intros wl' w3 Et Ed. wp_step.
    eapply wp_mono; [apply (acquire_life b); [by rewrite Et, life_of_snoc, Hl|by rewrite Ed, Hd]|].
    intros u w4 Hw4. eapply wp_mono; [apply wp_stays; [steps|exact Hw4]|].
    intros [e|] w5 Hw5; [|by wp_step]. wp_step. apply close_mute. intros x w6 M6. wp_step.
    right. by eapply at_life_mute.
Qed.

(** The announcement of a reconnect ends a session and keeps the role. *)
Definition reconnect : Event := EvMetric (Incr "jack.courier.wal.reconnect" []).

Lemma reconnect_life w :
  outside w \/ at_life InSession w -> outside (add_event reconnect w).
Proof.
  intros [[b [Hl Hd]]|[Hl Hd]]; [exists b|exists true]; (split; [|done]);
    cbn [w_trace add_event]; by rewrite life_of_snoc, Hl.
Qed.

(** A place where a run may stand, and where it may return. *)
Definition stands (r : option (option error)) (w : World) : Prop :=
  exists s, at_life s w /\ s <> Started /\
    match r with
    | None => s <> Over
    | Some _ => leads s = false \/ last (w_trace w) = Some reconnect
    end.

Lemma stands_ended w : outside w \/ at_life InSession w -> stands None w.
Proof. intros [[b Hb]|Hs]; eexists; by split_and!. Qed.

(** Giving up the role, from the end of a session. *)
Lemma relinquish_ended reason s' w :
  outside w \/ at_life InSession w ->
  life_relinquish [("reason:" ++ reason)%string] InSession = Some s' -> leads s' = false ->
  wp (relinquishLeadership reason) (fun _ w' => at_life s' w' \/ at_life (Outside false) w') w.
Proof.
  intros Hw Hr Hf.
  assert (exists s, at_life s w /\ (s = InSession \/ exists b, s = Outside b)) as (s & Hs & Hcase)
    by (destruct Hw as [[b Hb]|Hs]; eexists; eauto).
  eapply wp_mono; [by apply (relinquish_life reason s s')|]. intros u w' [Hfalse [?|[Hl Hd]]]; [by left|right].
  rewrite Hfalse in Hd. by destruct Hcase as [->|[[] ->]].
Qed.

Lemma slotBusy_life w :
  outside w \/ at_life InSession w -> wp (slotBusy cfg) (fun _ => at_life (Outside false)) w.
Proof.
  intros Hw. unfold slotBusy, rand_Int64N, wait_timer. wp_step.
  eapply wp_mono; [by apply (relinquish_ended "slot_busy" (Outside false))|].
  intros u w1 Hw1. assert (at_life (Outside false) w1) as [Hl Hd] by (by destruct Hw1). by repeat wp_step.
Qed.

Lemma runLoop_stands sessions fuel bo w : outside w -> wp (runLoop cfg sessions fuel bo) stands w.
Proof.
  revert bo w. induction sessions as [|n IH]; intros bo w Hw; cbn [runLoop]; wp_step.
  { apply stands_ended. by left. }
  eapply wp_mono; [by apply runOnce_life|]. intros [err|] w1 Hw1; [|wp_step; apply stands_ended; by right].
  unfold ctx_Err. repeat wp_step. assert (outside (tick w1) \/ at_life InSession (tick w1)) as Ht by exact Hw1.
  destruct (env_ctx_err _).
  - wp_step. eapply wp_mono; [by apply (relinquish_ended "shutdown" Over)|]. intros u w2 Hw2.
    repeat wp_step. destruct Hw2 as [Hw2|Hw2]; eexists; (split_and!; [exact Hw2|done|by left]).
  - destruct (errors_Is err errSlotBusy); wp_step.
    + eapply wp_mono; [by apply slotBusy_life|]. intros [e|] w2 Hw2.
      * wp_step. exists (Outside false). split_and!; [done..|by left].
      * apply IH. by eexists.
    + pose proof (reconnect_life _ Ht) as [b Hb]. unfold metric_out, backoff_wait, wait_timer.
      repeat wp_step. fold reconnect. destruct (Backoff.next _ bo) as [d bo']. repeat wp_step. cbn [snd fst].
      destruct (env_timer _ _) as [e|]; [wp_step; exists (Outside b); split_and!; [exact Hb|done|]|apply IH; by exists b].
      right. cbn [w_trace tick add_event]. apply last_snoc.
Qed.

(** C19: every run, in every environment, keeps the order of its life. Messages are
    received, status sent, batches submitted and flushes committed only in a
    session, between the start of its stream and the next reconnect,
    relinquishment or return; a standby announces the role directly after it has started
    a stream, and only then; the next stream starts only after a reconnect or a
    relinquishment for a busy slot was announced; nothing but the leader gauge follows
    the announcement of the shutdown, and the run has then returned; and a run that has returned is not
    the leader, unless it was cancelled in the wait that follows a reconnect. *)
Theorem Run_lifecycle (db : Db) (sessions fuel : nat) :
  let '(r, w) := Run cfg sessions fuel (world0 db) in
  exists s, life_of (w_trace w) = Some s /\ isLeader (w_drv w) = leads s /\ s <> Started /\
    (r = None -> s <> Over) /\
    (r <> None -> leads s = false \/ last (w_trace w) = Some reconnect).
Proof.
  pose proof (runLoop_stands sessions fuel
    {| Backoff.initial := ReconnectInitialDelay cfg; Backoff.max := ReconnectMaxDelay cfg;
       Backoff.attempt := 0 |} (world0 db) ltac:(by exists false)) as Hw.
  unfold wp in Hw. unfold Run. destruct (runLoop _ _ _ _ _) as [r w].
  destruct Hw as (s & [Hl Hd] & Hs & Hr). exists s. by destruct r; split_and!.
Qed.

End Lifecycle.

(** The sample run ends by the shutdown of a leader; and a trace in which a second
    stream starts inside a session is not one of a run. *)
Example sample_life :
  life_of (w_trace sample_world) = Some Over /\
  life_of (w_trace sample_world ++ [EvStart 0]) = None /\
  life_of [EvStart 0; EvMetric (Incr "jack.courier.leader.acquired" []); EvStart 0] = None.
Proof. vm_compute. done. Qed.
