(* ===== verification/Goroutines.v ===== *)
(** * The goroutines of a driver as a step relation

    [Run] starts three goroutines beside its own loop: the partition
    maintenance, the leader heartbeat and the clean-up of the dead letters. They
    share the leader flag (atomic) and the wake-up channel (capacity 1). A step
    is one atomic action of one of them; every interleaving is a path. The load
    of the flag and the call that it guards are two steps, so a relinquishment
    can fall between them. A pass and a clean-up are abstracted to the moment at
    which they are called; what they do is in [Partition] and [Store]. *)

From S2P Require Export Leadership.

Open Scope Z_scope.
Open Scope pglg_scope.

(** Where the loop of [Run] stands in [acquireLeadership]: the flag is set by
    the compare-and-swap, the token is sent later. *)
Inductive run_pc := RunElsewhere | RunBeforeSend.

(** Where [partitionMaintenance] stands: the first select, before the call of
    [runPartitionMaintenance], in it, the select of the loop, before the load of
    the flag, returned. *)
Inductive maint_pc := FirstSelect | BeforePass | InPass | LoopSelect | BeforeTest | MaintReturned.

(** Where [dlqCleanup] stands: its select, before the load of the flag, before
    the call of [runDLQCleanup], in it, returned. *)
Inductive cleanup_pc := CleanupSelect | CleanupTest | BeforeCleanup | InCleanup | CleanupReturned.

(** Where [leaderHeartbeat] stands: [emitLeaderGauge] loads the flag and emits
    the value afterwards. *)
Inductive beat_pc := BeforeLoad | BeforeEmit (loaded : bool) | BeatSelect | BeatReturned.

(** What the goroutines did to the flag and because of it, for the history. A
    load does not say what it read: that is what the flag was. *)
Inductive mark :=
  | Cas (b : bool)
  | MaintLoad | MaintCall
  | CleanupLoad | CleanupCall
  | BeatLoad | BeatGauge (v : Z).

#[global] Instance mark_eq_dec : EqDecision mark.
Proof. solve_decision. Defined.

(** The shared state and the program counters, with the history, oldest first,
    and whether an acquisition was announced that no receive has answered yet. *)
Record sys := {
  y_leader : bool; y_wake : bool; y_cancelled : bool;
  y_run : run_pc; y_maint : maint_pc; y_cleanup : cleanup_pc; y_beat : beat_pc;
  y_log : list mark; y_owed : bool }.

Definition sys0 : sys :=
  {| y_leader := false; y_wake := false; y_cancelled := false; y_run := RunElsewhere;
     y_maint := FirstSelect; y_cleanup := CleanupSelect; y_beat := BeforeLoad; y_log := [];
     y_owed := false |}.

(** What the flag is after a history. *)
Definition flag_after (l : list mark) : bool :=
  foldl (fun f x => match x with Cas b => b | _ => f end) false l.

(** What the flag was at the marks of one kind. *)
Fixpoint flags_at (x : mark) (before after : list mark) : list bool :=
  match after with
  | [] => []
  | y :: rest =>
      (if decide (y = x) then [flag_after before] else []) ++ flags_at x (before ++ [y]) rest
  end.

(** The value of the flag when each pass and each clean-up was called. *)
Definition y_passes (s : sys) : list bool := flags_at MaintCall [] (y_log s).
Definition y_cleanups (s : sys) : list bool := flags_at CleanupCall [] (y_log s).

Definition logged (x : mark) (s : sys) : sys :=
  {| y_leader := y_leader s; y_wake := y_wake s; y_cancelled := y_cancelled s; y_run := y_run s;
     y_maint := y_maint s; y_cleanup := y_cleanup s; y_beat := y_beat s; y_log := y_log s ++ [x];
     y_owed := y_owed s |}.

Definition with_cancelled (s : sys) : sys :=
  {| y_leader := y_leader s; y_wake := y_wake s; y_cancelled := true; y_run := y_run s;
     y_maint := y_maint s; y_cleanup := y_cleanup s; y_beat := y_beat s; y_log := y_log s;
     y_owed := y_owed s |}.

(** The compare-and-swap that succeeds. *)
Definition with_leader (b : bool) (pc : run_pc) (s : sys) : sys :=
  {| y_leader := b; y_wake := y_wake s; y_cancelled := y_cancelled s; y_run := pc;
     y_maint := y_maint s; y_cleanup := y_cleanup s; y_beat := y_beat s;
     y_log := y_log s ++ [Cas b]; y_owed := y_owed s |}.

(** The send that does not block: a full channel stays as it is. *)
Definition with_token (s : sys) : sys :=
  {| y_leader := y_leader s; y_wake := true; y_cancelled := y_cancelled s; y_run := RunElsewhere;
     y_maint := y_maint s; y_cleanup := y_cleanup s; y_beat := y_beat s; y_log := y_log s;
     y_owed := true |}.

(** The receive on the channel. *)
Definition take_token (s : sys) : sys :=
  {| y_leader := y_leader s; y_wake := false; y_cancelled := y_cancelled s; y_run := y_run s;
     y_maint := y_maint s; y_cleanup := y_cleanup s; y_beat := y_beat s; y_log := y_log s;
     y_owed := false |}.

Definition with_maint (pc : maint_pc) (s : sys) : sys :=
  {| y_leader := y_leader s; y_wake := y_wake s; y_cancelled := y_cancelled s; y_run := y_run s;
     y_maint := pc; y_cleanup := y_cleanup s; y_beat := y_beat s; y_log := y_log s;
     y_owed := y_owed s |}.

Definition with_cleanup (pc : cleanup_pc) (s : sys) : sys :=
  {| y_leader := y_leader s; y_wake := y_wake s; y_cancelled := y_cancelled s; y_run := y_run s;
     y_maint := y_maint s; y_cleanup := pc; y_beat := y_beat s; y_log := y_log s;
     y_owed := y_owed s |}.

Definition with_beat (pc : beat_pc) (s : sys) : sys :=
  {| y_leader := y_leader s; y_wake := y_wake s; y_cancelled := y_cancelled s; y_run := y_run s;
     y_maint := y_maint s; y_cleanup := y_cleanup s; y_beat := pc; y_log := y_log s;
     y_owed := y_owed s |}.

(** The steps of [partitionMaintenance]. A select with several ready cases
    takes any of them; the ticker may be ready at any time. *)
Inductive partitionMaintenance_step (s : sys) : sys -> Prop :=
| first_done : y_maint s = FirstSelect -> y_cancelled s = true ->
    partitionMaintenance_step s (with_maint MaintReturned s)
| first_wake : y_maint s = FirstSelect -> y_wake s = true ->
    partitionMaintenance_step s (with_maint BeforePass (take_token s))
| call_pass : y_maint s = BeforePass ->
    partitionMaintenance_step s (logged MaintCall (with_maint InPass s))
| pass_end : y_maint s = InPass ->
    partitionMaintenance_step s (with_maint LoopSelect s)
| loop_done : y_maint s = LoopSelect -> y_cancelled s = true ->
    partitionMaintenance_step s (with_maint MaintReturned s)
| loop_tick : y_maint s = LoopSelect ->
    partitionMaintenance_step s (with_maint BeforeTest s)
| loop_wake : y_maint s = LoopSelect -> y_wake s = true ->
    partitionMaintenance_step s (with_maint BeforeTest (take_token s))
| test_skip : y_maint s = BeforeTest -> y_leader s = false ->
    partitionMaintenance_step s (logged MaintLoad (with_maint LoopSelect s))
| test_pass : y_maint s = BeforeTest -> y_leader s = true ->
    partitionMaintenance_step s (logged MaintLoad (with_maint BeforePass s)).

(** The steps of [dlqCleanup]. *)
Inductive dlqCleanup_step (s : sys) : sys -> Prop :=
| cleanup_done : y_cleanup s = CleanupSelect -> y_cancelled s = true ->
    dlqCleanup_step s (with_cleanup CleanupReturned s)
| cleanup_tick : y_cleanup s = CleanupSelect ->
    dlqCleanup_step s (with_cleanup CleanupTest s)
| cleanup_skip : y_cleanup s = CleanupTest -> y_leader s = false ->
    dlqCleanup_step s (logged CleanupLoad (with_cleanup CleanupSelect s))
| cleanup_run : y_cleanup s = CleanupTest -> y_leader s = true ->
    dlqCleanup_step s (logged CleanupLoad (with_cleanup BeforeCleanup s))
| call_cleanup : y_cleanup s = BeforeCleanup ->
    dlqCleanup_step s (logged CleanupCall (with_cleanup InCleanup s))
| cleanup_end : y_cleanup s = InCleanup ->
    dlqCleanup_step s (with_cleanup CleanupSelect s).

(** The steps of [leaderHeartbeat]. *)
Inductive leaderHeartbeat_step (s : sys) : sys -> Prop :=
| beat_load : y_beat s = BeforeLoad ->
    leaderHeartbeat_step s (logged BeatLoad (with_beat (BeforeEmit (y_leader s)) s))
| beat_emit b : y_beat s = BeforeEmit b ->
    leaderHeartbeat_step s (logged (BeatGauge (leader_value b)) (with_beat BeatSelect s))
| beat_tick : y_beat s = BeatSelect ->
    leaderHeartbeat_step s (with_beat BeforeLoad s)
| beat_done : y_beat s = BeatSelect -> y_cancelled s = true ->
    leaderHeartbeat_step s (with_beat BeatReturned s).

(** The steps of the loop of [Run] that touch the shared state: the two
    compare-and-swaps and the send. *)
Inductive leadership_step (s : sys) : sys -> Prop :=
| cas_acquire : y_run s = RunElsewhere -> y_leader s = false ->
    leadership_step s (with_leader true RunBeforeSend s)
| send_token : y_run s = RunBeforeSend -> leadership_step s (with_token s)
| cas_relinquish : y_run s = RunElsewhere -> y_leader s = true ->
    leadership_step s (with_leader false RunElsewhere s).

Inductive step (s s' : sys) : Prop :=
| by_cancel : s' = with_cancelled s -> step s s'
| by_run : leadership_step s s' -> step s s'
| by_maint : partitionMaintenance_step s s' -> step s s'
| by_cleanup : dlqCleanup_step s s' -> step s s'
| by_beat : leaderHeartbeat_step s s' -> step s s'.

Definition reachable : sys -> Prop := rtc step sys0.

(** ** What a history must look like *)

Definition of_maint (x : mark) : bool := match x with MaintLoad | MaintCall => true | _ => false end.
Definition of_cleanup (x : mark) : bool := match x with CleanupLoad | CleanupCall => true | _ => false end.
Definition of_beat (x : mark) : bool := match x with BeatLoad | BeatGauge _ => true | _ => false end.

(** The last mark of a goroutine is a load, and the flag was [b] when it loaded. *)
Definition just_loaded (own : mark -> bool) (load : mark) (b : bool) (l : list mark) : Prop :=
  exists m, l !! m = Some load /\ flag_after (take m l) = b /\
    forall k x, (m < k)%nat -> l !! k = Some x -> own x = false.

(** What must precede a mark. *)
Definition gated (x : mark) (before : list mark) : Prop :=
  match x with
  | CleanupCall => just_loaded of_cleanup CleanupLoad true before
  | MaintCall =>
      ((MaintCall ∈ before) /\ just_loaded of_maint MaintLoad true before) \/
      ((MaintCall ∉ before) /\ (Cas true ∈ before))
  | BeatGauge v => exists b, v = leader_value b /\ just_loaded of_beat BeatLoad b before
  | _ => True
  end.

Definition gated_log (l : list mark) : Prop := forall n x, l !! n = Some x -> gated x (take n l).

Lemma gated_snoc l x : gated_log l -> gated x l -> gated_log (l ++ [x]).
Proof.
  intros Hl Hx n y Hy. apply lookup_app_Some in Hy as [Hy|[Hle Hy]].
  - pose proof (lookup_lt_Some _ _ _ Hy). rewrite take_app_le by lia. by apply Hl.
  - apply list_lookup_singleton_Some in Hy as [Hz <-].
    replace n with (length l) by lia. by rewrite take_app_length.
Qed.

Lemma flag_after_snoc l x : flag_after (l ++ [x]) = match x with Cas b => b | _ => flag_after l end.
Proof. unfold flag_after. by rewrite foldl_snoc. Qed.

Lemma flag_after_set l : flag_after l = true -> Cas true ∈ l.
Proof.
  induction l as [|x l IH] using rev_ind; [done|]. rewrite flag_after_snoc, elem_of_app.
  destruct x as [b| | | | | |]; [intros ->; right; by left|auto..].
Qed.

Lemma just_loaded_new own load b l : flag_after l = b -> just_loaded own load b (l ++ [load]).
Proof.
  intros <-. exists (length l). rewrite list_lookup_middle, take_app_length by done. split_and!; [done..|].
  intros k x Hk Hx. apply lookup_lt_Some in Hx. rewrite length_app in Hx. cbn in Hx. lia.
Qed.

Lemma just_loaded_snoc own load b l x :
  own x = false -> just_loaded own load b l -> just_loaded own load b (l ++ [x]).
Proof.
  intros Hx (m & Hm & Hb & Hk). pose proof (lookup_lt_Some _ _ _ Hm). exists m.
  rewrite lookup_app_l, take_app_le by lia. split_and!; [done..|].
  intros k y Hlt [Hy|[_ [_ <-]%list_lookup_singleton_Some]]%lookup_app_Some; eauto.
Qed.

Lemma flags_at_snoc x l before y :
  flags_at x before (l ++ [y]) =
    flags_at x before l ++ (if decide (y = x) then [flag_after (before ++ l)] else []).
Proof.
  revert before. induction l as [|z l IH]; intros before; cbn [flags_at app].
  - by rewrite !app_nil_r.
  - by rewrite IH, <- !app_assoc.
Qed.

(** ** The invariant, one clause per component *)

Record leader_ok (s : sys) : Prop := {
  ok_flag : flag_after (y_log s) = y_leader s;
  ok_wake : y_wake s = true -> Cas true ∈ y_log s;
  ok_owed : y_owed s = y_wake s;
  ok_send : y_run s = RunBeforeSend -> Cas true ∈ y_log s }.

(** What a program counter says of the history. *)
Definition maint_says (pc : maint_pc) (l : list mark) : Prop :=
  match pc with
  | FirstSelect => MaintCall ∉ l
  | BeforePass => gated MaintCall l
  | MaintReturned => True
  | _ => MaintCall ∈ l
  end.

Definition cleanup_says (pc : cleanup_pc) (l : list mark) : Prop :=
  match pc with BeforeCleanup => gated CleanupCall l | _ => True end.

Definition beat_says (pc : beat_pc) (l : list mark) : Prop :=
  match pc with BeforeEmit b => just_loaded of_beat BeatLoad b l | _ => True end.

(** A mark of another goroutine leaves it true. *)
Lemma maint_says_snoc pc l x : of_maint x = false -> maint_says pc l -> maint_says pc (l ++ [x]).
Proof.
  intros Hx. assert (MaintCall ∉ l -> MaintCall ∉ l ++ [x]) as Hn.
  { intros ? [|E%list_elem_of_singleton]%elem_of_app; [done|by subst]. }
  destruct pc; cbn [maint_says gated]; auto; try (intros ?; apply elem_of_app; by left).
  intros [[? ?]|[? ?]]; [left|right]; (split; [auto|]); rewrite ?elem_of_app; auto.
  by apply just_loaded_snoc.
Qed.

Lemma cleanup_says_snoc pc l x : of_cleanup x = false -> cleanup_says pc l -> cleanup_says pc (l ++ [x]).
Proof. intros Hx. destruct pc; cbn; auto. by apply just_loaded_snoc. Qed.

Lemma beat_says_snoc pc l x : of_beat x = false -> beat_says pc l -> beat_says pc (l ++ [x]).
Proof. intros Hx. destruct pc; cbn; auto. by apply just_loaded_snoc. Qed.

Create HintDb marks.
#[local] Hint Resolve maint_says_snoc cleanup_says_snoc beat_says_snoc gated_snoc : marks.

Record sys_ok (s : sys) : Prop := {
  ok_log : gated_log (y_log s);
  ok_leader : leader_ok s;
  ok_maint : maint_says (y_maint s) (y_log s);
  ok_cleanup : cleanup_says (y_cleanup s) (y_log s);
  ok_beat : beat_says (y_beat s) (y_log s) }.

Ltac step_cases H := destruct H as [->|[]|[]|[]|[]].

Lemma leader_ok_step s s' : step s s' -> leader_ok s -> leader_ok s'.
Proof.
  intros Hst [Hf Hw Ho Hs].
  step_cases Hst; split; cbn; rewrite ?flag_after_snoc; try done; rewrite ?elem_of_app;
    try (intros; left; auto; fail); try (intros; right; by left); auto; try congruence.
Qed.

Lemma log_ok_step s s' :
  step s s' -> sys_ok s ->
  gated_log (y_log s') /\ maint_says (y_maint s') (y_log s') /\
  cleanup_says (y_cleanup s') (y_log s') /\ beat_says (y_beat s') (y_log s').
Proof.
  intros Hst [Hg [Hf Hw _ _] Hm Hc Hb].
  assert (Hown : forall x, x ∈ y_log s ++ [x]) by (intros x; apply elem_of_app; right; by left).
  step_cases Hst; cbn in *; split_and!; auto with marks.
  all: try (match goal with E : y_maint _ = _ |- _ => rewrite E in Hm; cbn in Hm end).
  all: try (match goal with E : y_cleanup _ = _ |- _ => rewrite E in Hc; cbn in Hc end).
  all: try (match goal with E : y_beat _ = _ |- _ => rewrite E in Hb; cbn in Hb end).
  all: try (apply gated_snoc; [done|]); try done; auto with marks; cbn.
  - apply elem_of_app. by left.
  - left. split; [apply elem_of_app; by left|]. apply just_loaded_new; congruence.
  - apply just_loaded_new; congruence.
  - apply just_loaded_new; congruence.
  - by exists b.
Qed.

Lemma sys_ok_step s s' : step s s' -> sys_ok s -> sys_ok s'.
Proof.
  intros Hst Hs. destruct (log_ok_step s s' Hst Hs) as (? & ? & ? & ?).
  split; try done. eapply leader_ok_step; [done|apply Hs].
Qed.

Lemma reachable_ok s : reachable s -> sys_ok s.
Proof.
  revert s. apply rtc_ind_r.
  - split; cbn; [by intros ? ?|by split|set_solver|done..].
  - intros s1 s2 _ Hst. by apply sys_ok_step.
Qed.

(** ** What holds in every interleaving *)

(** C17: in the history of every interleaving, a call of the dead-letter clean-up
    follows a load of that goroutine that read the flag while the instance was
    the leader, with no other load or call of its own in between; so does every
    maintenance pass but the first, which follows an acquisition of
    leadership; and a gauge of the heartbeat carries the value that the flag had
    at the heartbeat's last load. The flag may have been cleared between the load
    and the call ([stale_cleanup]). *)
Theorem background_work_gated s (Hr : reachable s) :
  flag_after (y_log s) = y_leader s /\
  forall n x, y_log s !! n = Some x -> gated x (take n (y_log s)).
Proof. destruct (reachable_ok s Hr) as [Hg Hl _ _ _]. split; [apply Hl|exact Hg]. Qed.

(** A run of a schedule of states, for the witnesses. *)
Lemma reach s s' : reachable s -> step s s' -> reachable s'.
Proof. intros. by eapply rtc_r. Qed.

(** An instance that acquires leadership. *)
Definition announced_state : sys := with_token (with_leader true RunBeforeSend sys0).

Lemma announced_reachable : reachable announced_state.
Proof.
  apply (reach (with_leader true RunBeforeSend sys0)); [|by apply by_run, send_token].
  apply (reach sys0); [apply rtc_refl|by apply by_run, cas_acquire].
Qed.

(** It loses the slot before the maintenance takes the token. *)
Definition lost_before_wake : sys :=
  logged MaintCall (with_maint InPass (with_maint BeforePass (take_token
    (with_leader false RunElsewhere announced_state)))).

Lemma lost_before_wake_reachable : reachable lost_before_wake.
Proof.
  eapply reach; [|by apply by_maint, call_pass]. eapply reach; [|by apply by_maint, first_wake].
  eapply reach; [exact announced_reachable|by apply by_run, cas_relinquish].
Qed.

(** The first pass is not gated: there is an interleaving in which it begins
    while the instance is a standby. *)
Theorem first_pass_ungated : exists s, reachable s /\ y_maint s = InPass /\
  y_leader s = false /\ y_passes s = [false].
Proof. exists lost_before_wake. split; [apply lost_before_wake_reachable|done]. Qed.

(** A leader whose clean-up has loaded the flag when it loses the slot. *)
Definition stale_cleanup_state : sys :=
  logged CleanupCall (with_cleanup InCleanup (with_leader false RunElsewhere
    (logged CleanupLoad (with_cleanup BeforeCleanup (with_cleanup CleanupTest announced_state))))).

Lemma stale_cleanup_reachable : reachable stale_cleanup_state.
Proof.
  eapply reach; [|by apply by_cleanup, call_cleanup]. eapply reach; [|by apply by_run, cas_relinquish].
  eapply reach; [|by apply by_cleanup, cleanup_run]. eapply reach; [|by apply by_cleanup, cleanup_tick].
  exact announced_reachable.
Qed.

(** The load and the call are two steps: a clean-up can begin on a standby. *)
Lemma stale_cleanup : exists s, reachable s /\ y_cleanup s = InCleanup /\
  y_leader s = false /\ y_cleanups s = [false].
Proof. exists stale_cleanup_state. split; [apply stale_cleanup_reachable|done]. Qed.

(** And so can a pass that is not the first. *)
Lemma stale_pass : exists s, reachable s /\ y_maint s = InPass /\
  y_leader s = false /\ y_passes s = [true; false].
Proof.
  exists (logged MaintCall (with_maint InPass (with_leader false RunElsewhere
    (logged MaintLoad (with_maint BeforePass (with_maint BeforeTest (with_maint LoopSelect
      (logged MaintCall (with_maint InPass (with_maint BeforePass (take_token announced_state))))))))))).
  split; [|done].
  eapply reach; [|by apply by_maint, call_pass]. eapply reach; [|by apply by_run, cas_relinquish].
  eapply reach; [|by apply by_maint, test_pass]. eapply reach; [|by apply by_maint, loop_tick].
  eapply reach; [|by apply by_maint, pass_end]. eapply reach; [|by apply by_maint, call_pass].
  eapply reach; [|by apply by_maint, first_wake]. exact announced_reachable.
Qed.

(** A step of the maintenance that does not wait for the ticker: the select of
    the loop is left by the wake-up. *)
Definition prompt_step (s s' : sys) : Prop :=
  partitionMaintenance_step s s' /\
  (y_maint s = LoopSelect -> y_wake s = true /\ y_wake s' = false).

Lemma y_passes_call s : flag_after (y_log s) = y_leader s ->
  y_passes (logged MaintCall s) = y_passes s ++ [y_leader s].
Proof. intros Hf. unfold y_passes. cbn. by rewrite flags_at_snoc, decide_True, app_nil_l, Hf. Qed.

Lemma y_passes_load s : y_passes (logged MaintLoad s) = y_passes s.
Proof. unfold y_passes. cbn. by rewrite flags_at_snoc, decide_False, app_nil_r. Qed.

(** From each of its points the maintenance gets to the call. *)
Lemma prompt_call s :
  flag_after (y_log s) = y_leader s -> y_maint s = BeforePass -> y_leader s = true ->
  exists s', rtc prompt_step s s' /\ y_maint s' = InPass /\ y_passes s' = y_passes s ++ [true].
Proof.
  intros Hf E Hl. exists (logged MaintCall (with_maint InPass s)). split; [|split; [done|]].
  - apply rtc_once. split; [by apply call_pass|congruence].
  - rewrite y_passes_call by done. cbn. by rewrite Hl.
Qed.

Lemma prompt_test s :
  flag_after (y_log s) = y_leader s -> y_maint s = BeforeTest -> y_leader s = true ->
  exists s', rtc prompt_step s s' /\ y_maint s' = InPass /\ y_passes s' = y_passes s ++ [true].
Proof.
  intros Hf E Hl. destruct (prompt_call (logged MaintLoad (with_maint BeforePass s))) as (s' & Hst & Hm & Hp);
    [cbn; by rewrite flag_after_snoc|done..|].
  exists s'. rewrite Hp, y_passes_load. split_and!; [|done..].
  eapply rtc_l; [|exact Hst]. split; [by apply test_pass|congruence].
Qed.

Lemma prompt_loop s :
  flag_after (y_log s) = y_leader s -> y_maint s = LoopSelect -> y_wake s = true -> y_leader s = true ->
  exists s', rtc prompt_step s s' /\ y_maint s' = InPass /\ y_passes s' = y_passes s ++ [true].
Proof.
  intros Hf E Hw Hl. destruct (prompt_test (with_maint BeforeTest (take_token s))) as (s' & Hst & Hm & Hp); [done..|].
  exists s'. split_and!; [|done..]. eapply rtc_l; [|exact Hst]. split; [by apply loop_wake|done].
Qed.

(** C18: no wake-up is lost. The send of the token never blocks, whatever the
    channel holds; and while a token is owed, the goroutine has not returned and
    the instance is still the leader, a pass begins by the steps of the goroutine
    alone, without waiting for the ticker. *)
Theorem wake_up_not_lost s :
  reachable s ->
  (y_run s = RunBeforeSend -> leadership_step s (with_token s)) /\
  (y_owed s = true -> y_maint s <> MaintReturned -> y_leader s = true ->
   exists s', rtc prompt_step s s' /\ y_maint s' = InPass /\ y_passes s' = y_passes s ++ [true]).
Proof.
  intros Hr. destruct (reachable_ok s Hr) as [_ [Hf _ Ho _] _ _ _].
  split; [by intros; constructor|]. intros Hw Hm Hl. rewrite Ho in Hw.
  destruct (y_maint s) eqn:E; [..|done].
  - destruct (prompt_call (with_maint BeforePass (take_token s))) as (s' & Hst & ?); [done..|].
    exists s'. split; [|done]. eapply rtc_l; [|exact Hst]. split; [by apply first_wake|congruence].
  - by apply prompt_call.
  - destruct (prompt_loop (with_maint LoopSelect s)) as (s' & Hst & ?); [done..|].
    exists s'. split; [|done]. eapply rtc_l; [|exact Hst]. split; [by apply pass_end|congruence].
  - by apply prompt_loop.
  - by apply prompt_test.
Qed.

Lemma wake_up_not_lost_witness :
  reachable announced_state /\
  exists s', rtc prompt_step announced_state s' /\ y_maint s' = InPass /\ y_passes s' = [true].
Proof.
  split; [exact announced_reachable|].
  exact (proj2 (wake_up_not_lost announced_state announced_reachable) eq_refl
           ltac:(discriminate) eq_refl).
Defined.

(** The stale clean-up: loaded while the leader, called when no longer. *)
Lemma background_work_gated_witness :
  y_log stale_cleanup_state = [Cas true; CleanupLoad; Cas false; CleanupCall] /\
  just_loaded of_cleanup CleanupLoad true [Cas true; CleanupLoad; Cas false].
Proof.
  split; [reflexivity|].
  exact (proj2 (background_work_gated stale_cleanup_state stale_cleanup_reachable) 3%nat CleanupCall eq_refl).
Defined.

(** ** The loop of [Run] is a client of this system

    [acquireLeadership] and [relinquishLeadership] of the sequential model take
    the leadership steps above and nothing else. *)

(** The shared part of a world, as the system sees it. *)
Definition seen (w : World) (s : sys) : Prop :=
  y_leader s = isLeader (w_drv w) /\ y_wake s = maintWake (w_drv w) /\ y_run s = RunElsewhere.

(** C20: each of the two operations is matched by a path of leadership
    steps from any state that agrees with the world on the flag and the channel,
    to one that agrees again. *)
Theorem leadership_refines s w reason :
  seen w s ->
  wp acquireLeadership (fun _ w' => exists s', rtc leadership_step s s' /\ seen w' s' /\
      y_leader s' = true /\ (y_leader s = false -> y_owed s' = true)) w /\
  wp (relinquishLeadership reason) (fun _ w' => exists s', rtc leadership_step s s' /\
      seen w' s' /\ y_leader s' = false) w.
Proof.
  intros (El & Ew & Er). split.
  - unfold acquireLeadership, emitLeaderGauge. repeat wp_step.
    destruct (isLeader (w_drv w)) eqn:Ed; repeat wp_step.
    + exists s. rewrite El. by split_and!; [apply rtc_refl|split_and!; congruence|..].
    + exists (with_token (with_leader true RunBeforeSend s)). split; [|done].
      eapply rtc_l; [apply cas_acquire; congruence|]. by apply rtc_once, send_token.
  - unfold relinquishLeadership, emitLeaderGauge. repeat wp_step.
    destruct (isLeader (w_drv w)) eqn:Ed; repeat wp_step.
    + exists (with_leader false RunElsewhere s). split; [|done].
      apply rtc_once, cas_relinquish; congruence.
    + exists s. by split_and!; [apply rtc_refl|split_and!; congruence|..].
Qed.

Lemma leadership_refines_witness :
  seen (world0 db0) sys0 /\
  wp acquireLeadership (fun _ w' => exists s', rtc leadership_step sys0 s' /\ seen w' s' /\
      y_leader s' = true /\ (y_leader sys0 = false -> y_owed s' = true)) (world0 db0).
Proof.
  split; [done|].
  exact (proj1 (leadership_refines sys0 (world0 db0) "shutdown" (conj eq_refl (conj eq_refl eq_refl)))).
Defined.
