(* ===== verification/Cleanup.v ===== *)
(** * The clean-up of the dead letters (dlq.go, runDLQCleanup)

    A clean-up is one DELETE outside of any transaction block: it removes the
    rows whose [dead_lettered_at] is more than the retention before the clock of
    the server. When it runs is in [Goroutines]. *)

From S2P Require Export Effects Config.

Open Scope Z_scope.
Open Scope pglg_scope.

(** [Duration.Microseconds]: integer division, truncated towards zero. *)
Definition Microseconds (d : Duration) : Z := Z.quot d Microsecond.

(** ** The table

    A row as the server keeps it: [dead_lettered_at] (microseconds, the
    resolution of TIMESTAMPTZ) is filled in by its default, now(). *)
Record deadRow := { dead_lettered_at : Z; dead_row : list sqlValue }.

Record CWorld := { c_tick : nat; c_rows : list (string * deadRow); c_metrics : list metric }.

(** The clock of the driver, the clock of the server at a statement, and what
    becomes of the statement: it may fail and have been applied all the same. *)
Class CEnv := {
  cenv_now : nat -> Time;
  cenv_server_now : nat -> Z;
  cenv_exec : nat -> commit_answer }.

(** DELETE FROM table WHERE dead_lettered_at < now() - interval. *)
Definition expired_row (table : string) (now interval : Z) (r : string * deadRow) : bool :=
  String.eqb r.1 table && (dead_lettered_at r.2 <? now - interval).

Definition delete_expired (table : string) (now interval : Z) (rows : list (string * deadRow)) :=
  base.filter (fun r => expired_row table now interval r = false) rows.

Definition RowsAffected (table : string) (now interval : Z) (rows : list (string * deadRow)) : Z :=
  Z.of_nat (List.length (base.filter (fun r => expired_row table now interval r = true) rows)).

Abbreviation CM := (ST CWorld).

Definition cask {A} (answer : nat -> A) : CM A := fun w =>
  (answer (c_tick w), {| c_tick := S (c_tick w); c_rows := c_rows w; c_metrics := c_metrics w |}).
Definition cmetric (m : metric) : CM unit := fun w =>
  (tt, {| c_tick := c_tick w; c_rows := c_rows w; c_metrics := c_metrics w ++ [m] |}).
Definition get_rows : CM (list (string * deadRow)) := fun w => (c_rows w, w).
Definition put_rows (rows : list (string * deadRow)) : CM unit := fun w =>
  (tt, {| c_tick := c_tick w; c_rows := rows; c_metrics := c_metrics w |}).

Section Cleanup.
  Context `{CEnv}.
  Variable cfg : Config.

(** The statement, with the number of rows it reports. *)
Definition exec_delete (table : string) (interval : Z) : CM (result error Z) :=
  now ← cask cenv_server_now;
  answer ← cask cenv_exec;
  rows ← get_rows;
  match answer with
  | CommitOk =>
      put_rows (delete_expired table now interval rows) ≫= fun _ =>
      mret (Ok (RowsAffected table now interval rows))
  | CommitFailed e applied =>
      put_rows (if applied then delete_expired table now interval rows else rows) ≫= fun _ =>
      mret (Err e)
  end.

Definition runDLQCleanup : CM unit :=
  start ← cask cenv_now;
  res ← exec_delete (dlqTable cfg) (Microseconds (DLQRetention cfg));
  match res with
  | Err _ => cmetric (Incr "jack.courier.dlq.cleanup.error" [])
  | Ok deleted =>
      cmetric (Distribution "jack.courier.dlq.cleanup.deleted" (MCount deleted) []) ≫= fun _ =>
      finish ← cask cenv_now;
      cmetric (Distribution "jack.courier.dlq.cleanup.duration" (MSeconds (Sub finish start)) [])
  end.

End Cleanup.

(** ** Lemmas *)

Lemma elem_delete_expired table now interval rows r :
  r ∈ delete_expired table now interval rows <-> r ∈ rows /\ expired_row table now interval r = false.
Proof. unfold delete_expired. rewrite list_elem_of_filter. tauto. Qed.

Lemma RowsAffected_length table now interval rows :
  Z.of_nat (List.length (delete_expired table now interval rows)) =
  Z.of_nat (List.length rows) - RowsAffected table now interval rows.
Proof.
  unfold delete_expired, RowsAffected. induction rows as [|r rows IH]; [done|].
  rewrite !filter_cons. destruct (expired_row table now interval r); cbn [decide decide_rel];
    repeat case_decide; try done; cbn [List.length]; lia.
Qed.

Lemma expired_row_spec table now interval r :
  expired_row table now interval r = true <-> r.1 = table /\ dead_lettered_at r.2 < now - interval.
Proof. unfold expired_row. rewrite andb_true_iff, String.eqb_eq, Z.ltb_lt. done. Qed.

Lemma Microseconds_pos d : 0 < d -> 0 <= Microseconds d.
Proof. intros. apply Z.quot_pos; unfold Microsecond; lia. Qed.

(** Unfolds a run down to the answer of the server. *)
Ltac run_cleanup :=
  unfold runDLQCleanup, exec_delete, cask, cmetric, get_rows, put_rows, mbind, ST_bind, mret, ST_ret;
  cbn [c_tick c_rows c_metrics].

(** C22: with the defaults filled in, a clean-up reports exactly one of
    success or failure. On success the rows of the driver's dead-letter table that are
    older than the retention by the clock of the server are gone, everything
    else is still there in its order, and the reported number is the number of
    rows removed. A failure reports no number and has removed nothing else. In
    no case does a row disappear that is younger than the retention (in whole
    microseconds) or is in another table. *)
Theorem runDLQCleanup_spec `{CEnv} (cfg : Config) (w : CWorld) :
  config_wf cfg ->
  let w' := (runDLQCleanup cfg w).2 in
  let now := cenv_server_now (S (c_tick w)) in
  let keeps r := r.1 <> dlqTable cfg \/ now - Microseconds (DLQRetention cfg) <= dead_lettered_at r.2 in
  sublist (c_rows w') (c_rows w) /\
  (forall r, r ∈ c_rows w -> keeps r -> r ∈ c_rows w') /\
  (forall r, r ∈ c_rows w -> now <= dead_lettered_at r.2 -> r ∈ c_rows w') /\
  ((c_metrics w' = c_metrics w ++ [Incr "jack.courier.dlq.cleanup.error" []]) \/
   (exists took, c_metrics w' = c_metrics w ++
      [Distribution "jack.courier.dlq.cleanup.deleted"
         (MCount (Z.of_nat (List.length (c_rows w)) - Z.of_nat (List.length (c_rows w')))) [];
       Distribution "jack.courier.dlq.cleanup.duration" (MSeconds took) []]) /\
   (forall r, r ∈ c_rows w' -> keeps r)).
Proof.
  intros Hwf w' now keeps.
  assert (Hret : 0 <= Microseconds (DLQRetention cfg)) by (apply Microseconds_pos; apply Hwf).
  set (del := delete_expired (dlqTable cfg) now (Microseconds (DLQRetention cfg)) (c_rows w)).
  assert (Hk : forall r, keeps r <-> expired_row (dlqTable cfg) now (Microseconds (DLQRetention cfg)) r = false).
  { intros r. unfold keeps. rewrite <- not_true_iff_false, expired_row_spec.
    destruct (decide (r.1 = dlqTable cfg)); split; [intros [?|?] [? ?]; [done|lia]| |tauto|tauto].
    intros Hn. right. destruct (Z.le_gt_cases (now - Microseconds (DLQRetention cfg)) (dead_lettered_at r.2));
      [done|tauto]. }
  assert (Hrows : c_rows w' = del \/ c_rows w' = c_rows w).
  { subst w'. run_cleanup. destruct (cenv_exec (S (S (c_tick w)))) as [|e [|]]; cbn; auto. }
  assert (Hin : forall r, r ∈ c_rows w -> keeps r -> r ∈ c_rows w').
  { intros r Hr Hkr. destruct Hrows as [->| ->]; [|done].
    apply elem_delete_expired. split; [done|]. by apply Hk. }
  split_and!.
  - destruct Hrows as [->| ->]; [apply sublist_filter|done].
  - exact Hin.
  - intros r Hr Hnow. apply Hin; [done|]. right. lia.
  - clear Hrows Hin. subst w'. run_cleanup.
    destruct (cenv_exec (S (S (c_tick w)))) as [|e b]; cbn; [right|by left].
    split; [eexists; rewrite <- app_assoc, RowsAffected_length; cbn; repeat f_equal; lia|].
    intros r [_ Hr]%elem_delete_expired. by apply Hk.
Qed.

(** Two dead letters, eight days and one day old, and one in another table. *)
Definition sample_cenv : CEnv :=
  {| cenv_now := fun n => Z.of_nat n; cenv_server_now := fun _ => 1000 * 86400000000;
     cenv_exec := fun _ => CommitOk |}.

Definition sample_rows : CWorld :=
  {| c_tick := 0;
     c_rows := [("public.outbox_dlq", {| dead_lettered_at := 900 * 86400000000; dead_row := [] |});
                ("public.outbox_dlq", {| dead_lettered_at := 999 * 86400000000; dead_row := [] |});
                ("public.other_dlq", {| dead_lettered_at := 0; dead_row := [] |})]%string;
     c_metrics := [] |}.

Lemma runDLQCleanup_spec_witness :
  config_wf sample_config /\
  List.length (c_rows (runDLQCleanup (H:=sample_cenv) sample_config sample_rows).2) = 2%nat /\
  sublist (c_rows (runDLQCleanup (H:=sample_cenv) sample_config sample_rows).2) (c_rows sample_rows).
Proof.
  split; [apply setDefaults_wf|split; [reflexivity|]].
  exact (proj1 (runDLQCleanup_spec (H:=sample_cenv) sample_config sample_rows
                  (setDefaults_wf _))).
Defined.
