(* ===== verification/Partition.v ===== *)
(** * Partitions of the outbox table (partition.go): definitions

    The maintenance of the driver acts on databases of its own kind: the
    registry table [partition_meta] of the primary and the attached partitions
    of the primary and of every replica. The state monad is that of
    Effects.v over this state. *)

From S2P Require Export Effects Config.

Open Scope Z_scope.
Open Scope pglg_scope.

(** ** Names *)

Definition jobs_prefix (cfg : Config) : string := (TablePrefix cfg ++ "_jobs_")%string.

Definition partitionName (cfg : Config) (lower : Time) : string :=
  (jobs_prefix cfg ++ Format minute_layout lower)%string.

Definition parsePartitionLower (cfg : Config) (name : string) : option Time :=
  let prefix := jobs_prefix cfg in
  if negb (HasPrefix name prefix) then None
  else Parse minute_layout (str_drop (String.length prefix) name).

Record expiredPartition := { ep_name : string; ep_upper : Time }.

(** [sort.Strings]: insertion into a sorted list; every sorting algorithm gives
    the same list of strings. *)
Definition str_le (a b : string) : Prop := String.leb a b = true.

#[export] Instance str_le_dec : RelDecision str_le.
Proof. intros a b. unfold str_le. solve_decision. Defined.

Definition sort_Strings (l : list string) : list string := merge_sort str_le l.

(** The loop of [selectExpiredPartitions] over the sorted names. *)
Definition select_expired (cfg : Config) (cutoff : Time) (name : string) : option expiredPartition :=
  match parsePartitionLower cfg name with
  | None => None
  | Some lower =>
      let upper := GoTime.Add lower (PartitionInterval cfg) in
      if After upper cutoff then None else Some {| ep_name := name; ep_upper := upper |}
  end.

(** [selectExpiredPartitions]: [names] are the keys of the map in the order of
    its iteration. *)
Definition selectExpiredPartitions (cfg : Config) (names : list string) (cutoff : Time)
  : list expiredPartition :=
  omap (select_expired cfg cutoff) (sort_Strings names).

(** ** The values of the loop variable of [createPartitions] *)

Fixpoint for_times (fuel : nat) (t stop : Time) (step : Duration) : list Time :=
  match fuel with
  | O => []
  | S fuel => if Before t stop then t :: for_times fuel (GoTime.Add t step) stop step else []
  end.

(** One unit of fuel per multiple of the interval up to the end, and one more. *)
Definition times_fuel (start stop : Time) (step : Duration) : nat :=
  Z.to_nat ((stop - start) / step + 1).

Definition partition_times (cfg : Config) (now : Time) : list Time :=
  let start := Truncate (GoTime.Add now (- PartitionInterval cfg)) (PartitionInterval cfg) in
  let stop := GoTime.Add now (PartitionLookAhead cfg) in
  for_times (times_fuel start stop (PartitionInterval cfg)) start stop (PartitionInterval cfg).

(** ** The databases *)

(** [partition_meta] (name, lower and upper bound) and the attached partitions
    with the texts of their bounds. *)
Record Parts := { meta : gmap string (Time * Time); attached : gmap string (string * string) }.

(** Statements on one database. *)
Inductive ddl :=
| CreatePartition (name lower upper : string)
| InsertMeta (name : string) (lower upper : Time)
| DetachPartition (name : string)
| DropTable (name : string)
| DeleteMeta (name : string).

(** The texts of the statements; bound values are placeholders. *)
Definition ddl_text (cfg : Config) (d : ddl) : string :=
  match d with
  | CreatePartition name lower upper =>
      "CREATE TABLE IF NOT EXISTS " ++ Schema cfg ++ "." ++ name ++ " PARTITION OF " ++ jobsTable cfg
      ++ " FOR VALUES FROM ('" ++ lower ++ "') TO ('" ++ upper ++ "')"
  | InsertMeta _ _ _ =>
      "INSERT INTO " ++ partitionMetaTable cfg
      ++ " (partition_name, lower_bound, upper_bound) VALUES ($1, $2, $3) ON CONFLICT DO NOTHING"
  | DetachPartition name =>
      "ALTER TABLE " ++ jobsTable cfg ++ " DETACH PARTITION " ++ Schema cfg ++ "." ++ name
  | DropTable name => "DROP TABLE IF EXISTS " ++ Schema cfg ++ "." ++ name
  | DeleteMeta _ => "DELETE FROM " ++ partitionMetaTable cfg ++ " WHERE partition_name = $1"
  end%string.

(** Effect of a statement; [None] when the server rejects it. *)
Definition apply_ddl (d : ddl) (p : Parts) : option Parts :=
  match d with
  | CreatePartition name lower upper =>
      Some match attached p !! name with
           | Some _ => p
           | None => {| meta := meta p; attached := <[name := (lower, upper)]> (attached p) |}
           end
  | InsertMeta name lower upper =>
      Some match meta p !! name with
           | Some _ => p
           | None => {| meta := <[name := (lower, upper)]> (meta p); attached := attached p |}
           end
  | DetachPartition name =>
      match attached p !! name with
      | None => None
      | Some _ => Some {| meta := meta p; attached := delete name (attached p) |}
      end
  | DropTable name => Some {| meta := meta p; attached := delete name (attached p) |}
  | DeleteMeta name => Some {| meta := delete name (meta p); attached := attached p |}
  end.

(** The primary, or a replica by its name. *)
Record PWorld := {
  p_tick : nat; p_primary : Parts; p_replicas : gmap string Parts; p_metrics : list metric }.

Definition ptick (w : PWorld) : PWorld :=
  {| p_tick := S (p_tick w); p_primary := p_primary w; p_replicas := p_replicas w;
     p_metrics := p_metrics w |}.

Definition no_parts : Parts := {| meta := ∅; attached := ∅ |}.

Definition get_parts (pool : option string) (w : PWorld) : Parts :=
  match pool with
  | None => p_primary w
  | Some r => default no_parts (p_replicas w !! r)
  end.

Definition put_parts (pool : option string) (p : Parts) (w : PWorld) : PWorld :=
  match pool with
  | None => {| p_tick := p_tick w; p_primary := p; p_replicas := p_replicas w; p_metrics := p_metrics w |}
  | Some r => {| p_tick := p_tick w; p_primary := p_primary w;
                 p_replicas := <[r := p]> (p_replicas w); p_metrics := p_metrics w |}
  end.

Class PEnv := {
  penv_now : nat -> Time;
  (* any statement, query or begin; an iteration over rows that fails *)
  penv_sql : nat -> option error;
  penv_commit : nat -> commit_answer;
  (* last_msg_send_time of a subscription, NULL as [None] *)
  penv_last_msg : nat -> string -> result error (option Time);
  (* the order of an iteration over a map, and of the rows of a query *)
  penv_order : nat -> list string -> list string }.

Class PEnvLaws `{PEnv} : Prop := { penv_order_perm n l : penv_order n l ≡ₚ l }.

Abbreviation PM := (ST PWorld).

Definition pask {A} (answer : nat -> A) : PM A := fun w => (answer (p_tick w), ptick w).
Definition pget (pool : option string) : PM Parts := fun w => (get_parts pool w, w).
Definition pput (pool : option string) (p : Parts) : PM unit := fun w => (tt, put_parts pool p w).
Definition pmetric (m : metric) : PM unit :=
  fun w => (tt, {| p_tick := p_tick w; p_primary := p_primary w; p_replicas := p_replicas w;
                   p_metrics := p_metrics w ++ [m] |}).

Section Operations.
  Context `{PEnv}.
  Variable cfg : Config.

Definition sql : PM (option error) := pask penv_sql.

(** A transaction on one database: what it sees. *)
Record PTx := { px_pool : option string; px_view : Parts }.

Definition px_Begin (pool : option string) : PM (result error PTx) :=
  e ← sql;
  match e with
  | Some e => mret (Err e)
  | None => p ← pget pool; mret (Ok {| px_pool := pool; px_view := p |})
  end.

Definition px_Exec (tx : PTx) (d : ddl) : PM (result error PTx) :=
  e ← sql;
  match e with
  | Some e => mret (Err e)
  | None =>
      match apply_ddl d (px_view tx) with
      | None => mret (Err sql_error)
      | Some p => mret (Ok {| px_pool := px_pool tx; px_view := p |})
      end
  end.

Definition px_Commit (tx : PTx) : PM (result error unit) :=
  c ← pask penv_commit;
  match c with
  | CommitOk => pput (px_pool tx) (px_view tx) ≫= fun _ => mret (Ok tt)
  | CommitFailed e true => pput (px_pool tx) (px_view tx) ≫= fun _ => mret (Err e)
  | CommitFailed e false => mret (Err e)
  end.

(** [pool.Exec]: a statement in its own transaction. *)
Definition pool_Exec (pool : option string) (d : ddl) : PM (result error unit) :=
  do? tx := px_Begin pool orelse same;
  do? tx := px_Exec tx d orelse same;
  px_Commit tx.

(** ** The primary *)

(** The body of the loop of [createPartitions]. *)
Definition createPartition (t : Time) : PM (result error unit) :=
  let lower := t in
  let upper := GoTime.Add t (PartitionInterval cfg) in
  let partName := partitionName cfg lower in
  e ← sql;
  match e with
  | Some e => mret (Err (Wrapf "pglg: check partition %s: %w" [AStr partName] e))
  | None =>
      p ← pget None;
      match meta p !! partName with
      | Some _ => mret (Ok tt)
      | None =>
          do? tx := px_Begin None orelse Wrapf "pglg: begin tx for partition %s: %w" [AStr partName];
          do? tx := px_Exec tx (CreatePartition partName (Format RFC3339 lower) (Format RFC3339 upper))
            orelse Wrapf "pglg: create partition %s: %w" [AStr partName];
          do? tx := px_Exec tx (InsertMeta partName lower upper)
            orelse Wrapf "pglg: register partition %s: %w" [AStr partName];
          do? _ := px_Commit tx orelse Wrapf "pglg: commit partition %s: %w" [AStr partName];
          pmetric (Incr "jack.courier.partition.created" []) ≫= fun _ =>
          mret (Ok tt)
      end
  end.

Fixpoint createLoop (ts : list Time) : PM (result error unit) :=
  match ts with
  | [] => mret (Ok tt)
  | t :: ts => do? _ := createPartition t orelse same; createLoop ts
  end.

Definition createPartitions : PM (result error unit) :=
  now ← pask penv_now;
  createLoop (partition_times cfg now).

(** The rows of [SELECT partition_name ... WHERE upper_bound <= cutoff]. *)
Definition expired_names (cutoff : Time) (m : gmap string (Time * Time)) : list string :=
  map fst (filter (fun kv => kv.2.2 <= cutoff) (map_to_list m)).

Definition dropPartition (tx : PTx) (name : string) : PM (result error PTx) :=
  do? tx := px_Exec tx (DetachPartition name) orelse Wrapf "pglg: detach partition %s: %w" [AStr name];
  do? tx := px_Exec tx (DropTable name) orelse Wrapf "pglg: drop partition %s: %w" [AStr name];
  do? tx := px_Exec tx (DeleteMeta name) orelse Wrapf "pglg: delete meta %s: %w" [AStr name];
  pmetric (Incr "jack.courier.partition.dropped" []) ≫= fun _ =>
  mret (Ok tx).

Fixpoint dropLoop (tx : PTx) (names : list string) : PM (result error PTx) :=
  match names with
  | [] => mret (Ok tx)
  | name :: names => do? tx := dropPartition tx name orelse same; dropLoop tx names
  end.

Definition dropExpiredPartitions : PM (result error unit) :=
  now ← pask penv_now;
  let cutoff := GoTime.Add now (- PartitionRetention cfg) in
  do? tx := px_Begin None orelse Wrapf "pglg: begin tx for partition drop: %w" [];
  e ← sql;
  match e with
  | Some e => mret (Err (Wrapf "pglg: query expired partitions: %w" [] e))
  | None =>
      expired ← pask (fun n => penv_order n (expired_names cutoff (meta (px_view tx))));
      e ← sql;
      match e with
      | Some e => mret (Err (Wrapf "pglg: iterate expired partitions: %w" [] e))
      | None => do? tx := dropLoop tx expired orelse same; px_Commit tx
      end
  end.

(** ** Replicas *)

Definition listReplicaPartitions (r : string) : PM (result error (gset string)) :=
  e ← sql;
  match e with
  | Some e => mret (Err (Wrapf "pglg: list replica partitions on %q: %w" [AStr r] e))
  | None =>
      p ← pget (Some r);
      e ← sql;
      match e with
      | Some e => mret (Err (Wrapf "pglg: iterate replica partitions on %q: %w" [AStr r] e))
      | None => mret (Ok (dom (attached p)))
      end
  end.

Definition createReplicaPartition (r : string) (existing : gset string) (t : Time)
  : PM (result error unit) :=
  let lower := t in
  let upper := GoTime.Add t (PartitionInterval cfg) in
  let partName := partitionName cfg lower in
  if bool_decide (partName ∈ existing) then mret (Ok tt)
  else
    do? _ := pool_Exec (Some r) (CreatePartition partName (Format RFC3339 lower) (Format RFC3339 upper))
      orelse Wrapf "pglg: create replica partition %s on %q: %w" [AStr partName; AStr r];
    pmetric (Incr "jack.courier.partition.replica_created" [("replica:" ++ r)%string]) ≫= fun _ =>
    mret (Ok tt).

Fixpoint createReplicaLoop (r : string) (existing : gset string) (ts : list Time)
  : PM (result error unit) :=
  match ts with
  | [] => mret (Ok tt)
  | t :: ts => do? _ := createReplicaPartition r existing t orelse same; createReplicaLoop r existing ts
  end.

Definition createReplicaPartitions (r : string) (existing : gset string) : PM (result error unit) :=
  now ← pask penv_now;
  createReplicaLoop r existing (partition_times cfg now).

Definition dropReplicaPartition (tx : PTx) (r : string) (p : expiredPartition) : PM (result error PTx) :=
  do? tx := px_Exec tx (DetachPartition (ep_name p))
    orelse Wrapf "pglg: detach replica partition %s on %q: %w" [AStr (ep_name p); AStr r];
  do? tx := px_Exec tx (DropTable (ep_name p))
    orelse Wrapf "pglg: drop replica partition %s on %q: %w" [AStr (ep_name p); AStr r];
  pmetric (Incr "jack.courier.partition.replica_dropped" [("replica:" ++ r)%string]) ≫= fun _ =>
  mret (Ok tx).

Fixpoint dropReplicaLoop (tx : PTx) (r : string) (ps : list expiredPartition)
  : PM (result error PTx) :=
  match ps with
  | [] => mret (Ok tx)
  | p :: ps => do? tx := dropReplicaPartition tx r p orelse same; dropReplicaLoop tx r ps
  end.

(** The lag gauge and the cutoff of [dropExpiredReplicaPartitions]: never later
    than what the replica has applied, and never later than now. *)
Definition replica_lag (now lastMsg : Time) : Duration := Z.max 0 (Sub now lastMsg).
Definition replica_cutoff (now lastMsg : Time) : Time :=
  let applyTime := if After lastMsg now then now else lastMsg in
  GoTime.Add applyTime (- PartitionRetention cfg).

Definition dropExpiredReplicaPartitions (r sub : string) (existing : gset string)
  : PM (result error unit) :=
  now ← pask penv_now;
  last ← pask (fun n => penv_last_msg n sub);
  match last with
  | Err e =>
      mret (Err (Wrapf "pglg: read apply position on %q (subscription %q): %w" [AStr r; AStr sub] e))
  | Ok None => mret (Ok tt)
  | Ok (Some lastMsg) =>
      pmetric (Gauge "jack.courier.partition.replica_apply_lag_seconds"
        (MSeconds (replica_lag now lastMsg)) [("replica:" ++ r)%string]) ≫= fun _ =>
      names ← pask (fun n => penv_order n (elements existing));
      match selectExpiredPartitions cfg names (replica_cutoff now lastMsg) with
      | [] => mret (Ok tt)
      | toDrop =>
          do? tx := px_Begin (Some r) orelse Wrapf "pglg: begin tx for replica drop on %q: %w" [AStr r];
          do? tx := dropReplicaLoop tx r toDrop orelse same;
          px_Commit tx
      end
  end.

(** ** A pass of the maintenance *)

Definition errMetric (r : result error unit) (m : metric) : PM unit :=
  match r with Ok _ => mret tt | Err _ => pmetric m end.

Definition replica_error (name op : string) : metric :=
  Incr "jack.courier.partition.replica_sync_error" [("replica:" ++ name)%string; ("op:" ++ op)%string].

(** One replica of the pass: [r] is its name, [sub] its subscription. *)
Definition syncReplica (r sub : string) : PM unit :=
  existing ← listReplicaPartitions r;
  match existing with
  | Err _ => pmetric (replica_error r "list")
  | Ok existing =>
      c ← createReplicaPartitions r existing;
      errMetric c (replica_error r "create") ≫= fun _ =>
      d ← dropExpiredReplicaPartitions r sub existing;
      errMetric d (replica_error r "drop")
  end.

Fixpoint syncReplicas (rs : list ReplicaConfig) : PM unit :=
  match rs with
  | [] => mret tt
  | r :: rs => syncReplica (Name r) (SubscriptionName r) ≫= fun _ => syncReplicas rs
  end.

(** The bounds of the registry, as the aggregates of [emitPartitionMetrics]. *)
Definition max_upper (m : gmap string (Time * Time)) : option Time :=
  foldr (fun kv acc => Some match acc with Some a => Z.max a kv.2.2 | None => kv.2.2 end) None (map_to_list m).
Definition min_lower (m : gmap string (Time * Time)) : option Time :=
  foldr (fun kv acc => Some match acc with Some a => Z.min a kv.2.1 | None => kv.2.1 end) None (map_to_list m).

(** One aggregate query: [None] when it failed. *)
Definition aggregate {A} (f : gmap string (Time * Time) -> A) : PM (option A) :=
  e ← sql;
  match e with
  | Some _ => mret None
  | None => p ← pget None; mret (Some (f (meta p)))
  end.

(** The durations of the two gauges are reported in hours. *)
Definition emitPartitionMetrics : PM unit :=
  now ← pask penv_now;
  count ← aggregate size;
  match count with
  | None => mret tt
  | Some count =>
      pmetric (Gauge "jack.courier.partition.total_count" (MCount (Z.of_nat count)) []) ≫= fun _ =>
      if Nat.eqb count 0 then
        pmetric (Gauge "jack.courier.partition.lookahead_hours" (MCount 0) []) ≫= fun _ =>
        pmetric (Gauge "jack.courier.partition.oldest_hours" (MCount 0) [])
      else
        maxUpper ← aggregate max_upper;
        match maxUpper with
        | Some (Some maxUpper) =>
            pmetric (Gauge "jack.courier.partition.lookahead_hours" (MHours (Sub maxUpper now)) []) ≫= fun _ =>
            minLower ← aggregate min_lower;
            match minLower with
            | Some (Some minLower) =>
                pmetric (Gauge "jack.courier.partition.oldest_hours" (MHours (Sub now minLower)) [])
            | _ => mret tt
            end
        | _ => mret tt
        end
  end.

Definition runPartitionMaintenance : PM unit :=
  start ← pask penv_now;
  c ← createPartitions;
  errMetric c (Incr "jack.courier.partition.error" ["op:create"%string]) ≫= fun _ =>
  d ← dropExpiredPartitions;
  errMetric d (Incr "jack.courier.partition.error" ["op:drop"%string]) ≫= fun _ =>
  syncReplicas (Replicas cfg) ≫= fun _ =>
  now ← pask penv_now;
  pmetric (Distribution "jack.courier.partition.maintenance.duration" (MSeconds (Sub now start)) []) ≫= fun _ =>
  emitPartitionMetrics.

End Operations.
