(* ===== verification/PartitionSelect.v ===== *)
(** * Partitions: names, selection and coverage

    The name of a partition is its lower bound to the minute; parsing it back,
    sorting names and stepping through the intervals are the pure core of the
    maintenance. *)

From S2P Require Export Partition.

Open Scope Z_scope.

(** ** The order of strings *)

Lemma str_le_cons c s c' s' :
  str_le (String c s) (String c' s') <->
  ascii_val c < ascii_val c' \/ (c = c' /\ str_le s s').
Proof.
  unfold str_le, String.leb. rewrite compare_String, Ascii_compare_val.
  destruct (Z.compare_spec (ascii_val c) (ascii_val c')) as [E|E|E].
  - apply ascii_val_inj in E as ->. split; [by right|]. intros [?|[_ ?]]; [lia|done].
  - split; [by left|done].
  - split; [done|]. intros [|[-> _]]; lia.
Qed.

#[export] Instance str_le_trans : Transitive str_le.
Proof.
  intros a. induction a as [|x a IH]; intros b c Hab Hbc.
  { unfold str_le, String.leb. by destruct c. }
  destruct b as [|y b]; [done|]. destruct c as [|z c]; [done|].
  rewrite str_le_cons in *. destruct Hab as [?|[-> ?]], Hbc as [?|[-> ?]]; [lia|eauto..].
Qed.

#[export] Instance str_le_total : Total str_le.
Proof. intros a b. unfold str_le. destruct (String.leb_total a b); auto. Qed.

#[export] Instance str_le_antisym : AntiSymm (=) str_le.
Proof. intros a b Ha Hb. by apply String.leb_antisym. Qed.

(** Sorting does not depend on the order of the input: the iteration order of
    the map is irrelevant. *)
Lemma sort_Strings_perm l l' : l ≡ₚ l' -> sort_Strings l = sort_Strings l'.
Proof.
  intros Hp. apply (StronglySorted_unique str_le).
  - apply StronglySorted_merge_sort; apply _.
  - apply StronglySorted_merge_sort; apply _.
  - unfold sort_Strings. by rewrite !merge_sort_Permutation.
Qed.

Lemma elem_of_sort_Strings x l : x ∈ sort_Strings l <-> x ∈ l.
Proof. unfold sort_Strings. by rewrite merge_sort_Permutation. Qed.

Lemma str_compare_app p a b : String.compare (p ++ a) (p ++ b) = String.compare a b.
Proof.
  induction p as [|c p IH]; [done|]. cbn [String.append]. by rewrite compare_String, Ascii_compare_val, Z.compare_refl.
Qed.

(** ** Names *)

(** The instants whose names the layout can write. *)
Definition in_years (t : Time) : Prop := 0 <= t_year t <= 9999.

Lemma parse_name cfg t :
  in_years t -> parsePartitionLower cfg (partitionName cfg t) = Some (Truncate t Minute).
Proof.
  intros Hy. unfold parsePartitionLower, partitionName.
  rewrite HasPrefix_app, str_drop_app_length. cbn [negb]. by apply Parse_Format_minute.
Qed.

Lemma name_inj cfg t u :
  in_years t -> in_years u -> partitionName cfg t = partitionName cfg u ->
  Truncate t Minute = Truncate u Minute.
Proof.
  intros Ht Hu E. pose proof (parse_name cfg t Ht) as P. rewrite E, parse_name in P by done. congruence.
Qed.

Lemma name_le cfg t u :
  in_years t -> in_years u ->
  (str_le (partitionName cfg t) (partitionName cfg u) <-> Truncate t Minute <= Truncate u Minute).
Proof.
  intros Ht Hu. unfold str_le, String.leb, partitionName.
  rewrite str_compare_app, Format_minute_compare by done.
  destruct (Z.compare_spec (Truncate t Minute) (Truncate u Minute)); split; (done || lia).
Qed.

(** ** Selection *)

Lemma select_expired_Some cfg cutoff name e :
  select_expired cfg cutoff name = Some e <->
  exists lower, parsePartitionLower cfg name = Some lower /\
    e = {| ep_name := name; ep_upper := lower + PartitionInterval cfg |} /\
    lower + PartitionInterval cfg <= cutoff.
Proof.
  unfold select_expired, After, GoTime.Add. destruct (parsePartitionLower cfg name) as [l|]; [|naive_solver].
  destruct (Z.ltb_spec cutoff (l + PartitionInterval cfg)); naive_solver lia.
Qed.

Lemma selectExpired_elem cfg names cutoff e :
  e ∈ selectExpiredPartitions cfg names cutoff <->
  ep_name e ∈ names /\ exists lower, parsePartitionLower cfg (ep_name e) = Some lower /\
    ep_upper e = lower + PartitionInterval cfg /\ ep_upper e <= cutoff.
Proof.
  unfold selectExpiredPartitions. rewrite list_elem_of_omap. split.
  - intros (n & Hn & (l & Hl & -> & Hc)%select_expired_Some). rewrite elem_of_sort_Strings in Hn. eauto 6.
  - intros (Hn & l & Hl & Eu & Hc). exists (ep_name e). rewrite elem_of_sort_Strings.
    split; [done|]. apply select_expired_Some. exists l. destruct e; cbn in *; subst. eauto.
Qed.

Lemma StronglySorted_omap {A B} (f : A -> option B) (R : A -> A -> Prop) (S : B -> B -> Prop) l :
  (forall x y a b, x ∈ l -> y ∈ l -> R x y -> f x = Some a -> f y = Some b -> S a b) ->
  StronglySorted R l -> StronglySorted S (omap f l).
Proof.
  intros Hf Hs. induction Hs as [|x l Hs IH Hx]; cbn; [constructor|].
  assert (StronglySorted S (omap f l)) as Hl.
  { apply IH. intros y z a b Hy Hz. apply Hf; by right. }
  destruct (f x) as [a|] eqn:E; [|done]. constructor; [done|].
  apply Forall_forall. intros b (y & Hy & Ey)%list_elem_of_omap.
  rewrite Forall_forall in Hx. apply (Hf x y); [left|by right|by apply Hx|done..].
Qed.

(** A name the driver gives to a partition. *)
Definition canonical (cfg : Config) (name : string) : Prop :=
  exists t, in_years t /\ name = partitionName cfg t.

Lemma selectExpired_sorted cfg names cutoff :
  Forall (canonical cfg) names ->
  StronglySorted (fun a b => ep_upper a <= ep_upper b) (selectExpiredPartitions cfg names cutoff).
Proof.
  intros Hc. unfold selectExpiredPartitions. apply (StronglySorted_omap _ str_le).
  2: apply StronglySorted_merge_sort; apply _.
  intros x y a b Hx Hy Hle (lx & Px & -> & _)%select_expired_Some (ly & Py & -> & _)%select_expired_Some.
  rewrite elem_of_sort_Strings in Hx, Hy. rewrite Forall_forall in Hc.
  destruct (Hc x Hx) as (t & Ht & ->), (Hc y Hy) as (u & Hu & ->).
  rewrite parse_name in Px, Py by done. simplify_eq. cbn. rewrite name_le in Hle by done. lia.
Qed.

(** C16: exactly the partitions whose parsed upper bound is not after the
    cutoff are selected; the iteration order of the map has no effect; and
    partitions named by the driver come out oldest first. *)
Theorem selectExpiredPartitions_spec (cfg : Config) (names : list string) (cutoff : Time) :
  (forall e, e ∈ selectExpiredPartitions cfg names cutoff <->
     ep_name e ∈ names /\ exists lower, parsePartitionLower cfg (ep_name e) = Some lower /\
       ep_upper e = lower + PartitionInterval cfg /\ ep_upper e <= cutoff) /\
  (forall names', names' ≡ₚ names ->
     selectExpiredPartitions cfg names' cutoff = selectExpiredPartitions cfg names cutoff) /\
  (Forall (canonical cfg) names ->
     StronglySorted (fun a b => ep_upper a <= ep_upper b) (selectExpiredPartitions cfg names cutoff)).
Proof.
  split_and!.
  - intros e. apply selectExpired_elem.
  - intros names' Hp. unfold selectExpiredPartitions. by rewrite (sort_Strings_perm _ _ Hp).
  - apply selectExpired_sorted.
Qed.

(** 2025-01-31 23:00 and 2025-02-01 00:00 UTC. *)
Definition sample_t1 : Time := Date 2025 1 31 23 0 0 0.
Definition sample_t2 : Time := Date 2025 2 1 0 0 0 0.

Lemma selectExpiredPartitions_spec_witness :
  map ep_name (selectExpiredPartitions sample_config
    [partitionName sample_config sample_t2; partitionName sample_config sample_t1; "other"%string]
    (sample_t2 + Hour)) = ["outbox_jobs_20250131_2300"; "outbox_jobs_20250201_0000"]%string /\
  StronglySorted (fun a b => ep_upper a <= ep_upper b) (selectExpiredPartitions sample_config
    [partitionName sample_config sample_t2; partitionName sample_config sample_t1] (sample_t2 + Hour)).
Proof.
  split; [vm_compute; reflexivity|].
  apply (proj2 (proj2 (selectExpiredPartitions_spec sample_config
    [partitionName sample_config sample_t2; partitionName sample_config sample_t1] (sample_t2 + Hour)))).
  repeat constructor; eexists; (split; [|reflexivity]); vm_compute; split; discriminate.
Defined.

(** C27: the name of a partition determines its lower bound to the minute,
    whatever the table prefix; two instants of different minutes have different
    names, and names sort as instants do. *)
Theorem partition_name_round_trip (cfg : Config) (t u : Time) (Ht : in_years t) (Hu : in_years u) :
  parsePartitionLower cfg (partitionName cfg t) = Some (Truncate t Minute) /\
  (partitionName cfg t = partitionName cfg u <-> Truncate t Minute = Truncate u Minute) /\
  (str_le (partitionName cfg t) (partitionName cfg u) <-> Truncate t Minute <= Truncate u Minute).
Proof.
  split_and!; [by apply parse_name| |by apply name_le].
  split; [by apply name_inj|]. intros E.
  apply (anti_symm str_le); apply name_le; (done || lia).
Qed.

Lemma partition_name_round_trip_witness :
  parsePartitionLower sample_config (partitionName sample_config sample_t1) = Some sample_t1.
Proof.
  refine (proj1 (partition_name_round_trip sample_config sample_t1 sample_t2 _ _)); vm_compute;
    split; discriminate.
Defined.

(** ** The instants of the loop *)

Lemma elem_of_for_times fuel t stop step x :
  0 < step ->
  x ∈ for_times fuel t stop step <->
  exists k, 0 <= k < Z.of_nat fuel /\ x = t + k * step /\ x < stop.
Proof.
  intros Hs. revert t. induction fuel as [|fuel IH]; intros t; cbn [for_times].
  { rewrite elem_of_nil. split; [done|]. intros (k & ? & _). lia. }
  unfold Before, GoTime.Add in *. destruct (Z.ltb_spec t stop).
  - rewrite elem_of_cons, IH. split.
    + intros [->|(k & ? & -> & ?)]; [exists 0; lia|]. exists (k + 1). lia.
    + intros (k & ? & -> & ?). destruct (decide (k = 0)) as [->|]; [left; lia|].
      right. exists (k - 1). lia.
  - rewrite elem_of_nil. split; [done|]. intros (k & ? & -> & ?). nia.
Qed.

Lemma elem_of_partition_times cfg now x :
  0 < PartitionInterval cfg ->
  x ∈ partition_times cfg now <->
  x mod PartitionInterval cfg = 0 /\
  Truncate (now - PartitionInterval cfg) (PartitionInterval cfg) <= x < now + PartitionLookAhead cfg.
Proof.
  intros Hi. unfold partition_times. unfold GoTime.Add. set (I := PartitionInterval cfg) in *.
  rewrite Z.add_opp_r. set (start := Truncate (now - I) I). set (stop := now + PartitionLookAhead cfg).
  assert (start mod I = 0) as Hm by (by apply Truncate_multiple).
  rewrite elem_of_for_times by done. unfold times_fuel. split.
  - intros (k & ? & -> & ?). rewrite Z_mod_plus_full. split; [done|nia].
  - intros (Hx & Hlo & Hhi). exists ((x - start) / I).
    assert ((x - start) mod I = 0) as Hd by (rewrite Zminus_mod, Hx, Hm; done).
    pose proof (Z_div_mod_eq_full (x - start) I) as E. rewrite Hd in E.
    assert ((x - start) / I <= (stop - start) / I) by (apply Z.div_le_mono; lia).
    assert (0 <= (x - start) / I) by (apply Z.div_pos; lia). split; [|split; lia]. lia.
Qed.

(** The aligned instant below an instant of the window is one of the loop. *)
Lemma covering_time cfg now x :
  0 < PartitionInterval cfg -> now - PartitionInterval cfg <= x < now + PartitionLookAhead cfg ->
  Truncate x (PartitionInterval cfg) ∈ partition_times cfg now.
Proof.
  intros Hi Hx. pose proof (Truncate_bounds x _ Hi). apply elem_of_partition_times; [done|].
  split; [by apply Truncate_multiple|]. split; [|lia].
  unfold Truncate. destruct (Z.leb_spec (PartitionInterval cfg) 0); [lia|].
  pose proof (Z_div_mod_eq_full x (PartitionInterval cfg)).
  pose proof (Z_div_mod_eq_full (now - PartitionInterval cfg) (PartitionInterval cfg)).
  pose proof (Z.div_le_mono (now - PartitionInterval cfg) x _ Hi ltac:(lia)). nia.
Qed.

(** C26: the loop of [createPartitions] ends by its condition and not by
    its fuel (any larger fuel gives the same instants), and every instant from
    one interval before now to the look-ahead lies in the interval of one of
    them. *)
Theorem partition_times_cover (cfg : Config) (now : Time) (Hi : 0 < PartitionInterval cfg) :
  (forall fuel, let start := Truncate (now - PartitionInterval cfg) (PartitionInterval cfg) in
     (times_fuel start (now + PartitionLookAhead cfg) (PartitionInterval cfg) <= fuel)%nat ->
     for_times fuel start (now + PartitionLookAhead cfg) (PartitionInterval cfg) =
     partition_times cfg now) /\
  (forall x, now - PartitionInterval cfg <= x < now + PartitionLookAhead cfg ->
     exists t, t ∈ partition_times cfg now /\ t <= x < t + PartitionInterval cfg).
Proof.
  split.
  - intros fuel start. unfold partition_times. unfold GoTime.Add. rewrite Z.add_opp_r. fold start.
    unfold times_fuel. set (I := PartitionInterval cfg) in *. set (stop := now + PartitionLookAhead cfg).
    clearbody start stop. intros Hf. remember (Z.to_nat ((stop - start) / I + 1)) as n eqn:En.
    assert (stop <= start + Z.of_nat n * I) as Hn.
    { pose proof (Z_div_mod_eq_full (stop - start) I). pose proof (Z.mod_pos_bound (stop - start) I Hi). nia. }
    clear En. revert start fuel Hf Hn. induction n as [|n IH]; intros start fuel Hf Hn.
    + destruct fuel; [done|]. cbn [for_times]. unfold Before. destruct (Z.ltb_spec start stop); [lia|done].
    + destruct fuel as [|fuel]; [lia|]. cbn [for_times]. unfold Before, GoTime.Add in *.
      destruct (Z.ltb_spec start stop); [|done]. f_equal. apply IH; nia.
  - intros x Hx. exists (Truncate x (PartitionInterval cfg)).
    split; [by apply covering_time|by apply Truncate_bounds].
Qed.

Lemma partition_times_cover_witness :
  exists t, t ∈ partition_times sample_config sample_t1 /\ t <= sample_t1 < t + Hour.
Proof.
  refine (proj2 (partition_times_cover sample_config sample_t1 _) sample_t1 _);
    vm_compute; [reflexivity|split; [discriminate|reflexivity]].
Defined.
