(* ===== verification/PartitionSafety.v ===== *)
(** * Partitions: what a maintenance pass does to the databases *)

From S2P Require Export PartitionSelect.

Open Scope Z_scope.
Open Scope pglg_scope.

(** ** Primitives *)

Lemma wp_pask {A} (answer : nat -> A) Q w : Q (answer (p_tick w)) (ptick w) -> wp (pask answer) Q w.
Proof. done. Qed.
Lemma wp_pget pool Q w : Q (get_parts pool w) w -> wp (pget pool) Q w.
Proof. done. Qed.
Lemma wp_pput pool p Q w : Q tt (put_parts pool p w) -> wp (pput pool p) Q w.
Proof. done. Qed.

(** Worlds with the same databases. *)
Definition same_parts (w w' : PWorld) : Prop :=
  p_primary w' = p_primary w /\ p_replicas w' = p_replicas w.

#[export] Instance same_parts_po : PreOrder same_parts.
Proof. split; [done|intros ??? [] []; split; congruence]. Qed.

Lemma same_parts_get w w' pool : same_parts w w' -> get_parts pool w' = get_parts pool w.
Proof. intros [E1 E2]. destruct pool; cbn; congruence. Qed.

Lemma same_parts_ptick w : same_parts w (ptick w).
Proof. done. Qed.

Lemma wp_pmetric m Q w : (forall w', same_parts w w' -> Q tt w') -> wp (pmetric m) Q w.
Proof. intros HQ. unfold wp, pmetric. by apply HQ. Qed.

Ltac pstep :=
  match goal with
  | |- wp (mbind _ _) _ _ => apply wp_bind
  | |- wp (bindE _ _ _) _ _ => apply wp_bindE
  | |- wp (mret _) _ _ => apply wp_ret
  | |- wp sql _ _ => apply wp_pask
  | |- wp (pask _) _ _ => apply wp_pask
  | |- wp (pget _) _ _ => apply wp_pget
  | |- wp (pput _ _) _ _ => apply wp_pput
  end; cbn beta iota.

Lemma get_put pool p w : get_parts pool (put_parts pool p w) = p.
Proof. destruct pool as [r|]; cbn; [by rewrite lookup_insert_eq|done]. Qed.

Lemma get_put_other pool pool' p w :
  pool <> pool' -> get_parts pool' (put_parts pool p w) = get_parts pool' w.
Proof.
  destruct pool as [r|], pool' as [r'|]; cbn; intros Hne; try done.
  rewrite lookup_insert_ne; [done|congruence].
Qed.

(** [touches pool p w w']: the database of [pool] became [p], the others are
    unchanged. *)
Definition touches (pool : option string) (p : Parts) (w w' : PWorld) : Prop :=
  get_parts pool w' = p /\ forall pool', pool' <> pool -> get_parts pool' w' = get_parts pool' w.

Lemma touches_put pool p w w1 : same_parts w w1 -> touches pool p w (put_parts pool p w1).
Proof.
  intros Hs. split; [apply get_put|]. intros pool' Hne. rewrite get_put_other by done.
  by apply same_parts_get.
Qed.

Lemma touches_same pool p w w' w2 : touches pool p w w' -> same_parts w' w2 -> touches pool p w w2.
Proof.
  intros [E1 E2] Hs. split; [by rewrite (same_parts_get _ _ _ Hs)|].
  intros pool' Hne. rewrite (same_parts_get _ _ _ Hs). auto.
Qed.

Section Safety.
  Context `{PEnv} {Horder : PEnvLaws}.
  Variable cfg : Config.

(** ** Statements and transactions *)

Lemma wp_px_Begin pool Q w :
  (forall e w', same_parts w w' -> Q (Err e) w') ->
  (forall w', same_parts w w' -> Q (Ok {| px_pool := pool; px_view := get_parts pool w |}) w') ->
  wp (px_Begin pool) Q w.
Proof.
  intros He Hok. unfold px_Begin. repeat pstep. destruct (penv_sql _); repeat pstep.
  - by apply He.
  - rewrite (same_parts_get w) by done. by apply Hok.
Qed.

Lemma wp_px_Exec tx d Q w :
  (forall e w', same_parts w w' -> Q (Err e) w') ->
  (forall p w', apply_ddl d (px_view tx) = Some p -> same_parts w w' ->
     Q (Ok {| px_pool := px_pool tx; px_view := p |}) w') ->
  wp (px_Exec tx d) Q w.
Proof.
  intros He Hok. unfold px_Exec. repeat pstep. destruct (penv_sql _); repeat pstep; [by apply He|].
  destruct (apply_ddl _ _) eqn:E; repeat pstep; [by apply Hok|by apply He].
Qed.

(** A commit keeps the database, with an error, or makes it the view. *)
Lemma wp_px_Commit tx Q w :
  (forall e w', same_parts w w' -> Q (Err e) w') ->
  (forall r w', touches (px_pool tx) (px_view tx) w w' -> Q r w') ->
  wp (px_Commit tx) Q w.
Proof.
  intros He Hok. unfold px_Commit. repeat pstep.
  destruct (penv_commit _) as [|e []]; repeat pstep; [| |by apply He].
  all: apply Hok; by apply touches_put.
Qed.

(** ** Creation on the primary *)

Definition part_upper (t : Time) : Time := t + PartitionInterval cfg.

(** The effect of a created partition: registered and attached, unless it was. *)
Definition add_part (t : Time) (p : Parts) : Parts :=
  let name := partitionName cfg t in
  {| meta := match meta p !! name with
             | Some _ => meta p | None => <[name := (t, part_upper t)]> (meta p) end;
     attached := match attached p !! name with
                 | Some _ => attached p
                 | None => <[name := (Format RFC3339 t, Format RFC3339 (part_upper t))]> (attached p)
                 end |}.

Lemma createPartition_spec t Q w :
  (forall r w', same_parts w w' -> (is_Ok r = true -> is_Some (meta (p_primary w) !! partitionName cfg t)) -> Q r w') ->
  (forall r w', touches None (add_part t (p_primary w)) w w' -> Q r w') ->
  wp (createPartition cfg t) Q w.
Proof.
  intros Hsame Hadd. unfold createPartition. repeat pstep.
  destruct (penv_sql _); repeat pstep; [by apply Hsame|]. cbn [get_parts ptick p_primary].
  destruct (meta (p_primary w) !! _) eqn:Em; repeat pstep; [apply Hsame; [done|eauto]|].
  apply wp_px_Begin; [intros e w' Hw; apply Hsame; done|]. intros w1 Hw1. cbn [get_parts ptick p_primary].
  pstep. apply wp_px_Exec; [intros e w' Hw; apply Hsame; [by etransitivity|done]|].
  cbn [px_view px_pool]. intros p1 w2 E1 Hw2. cbn [apply_ddl] in E1. injection E1 as <-.
  pstep. apply wp_px_Exec; [intros e w' Hw; apply Hsame; [|done]; by do 2 etransitivity|].
  cbn [px_view px_pool]. intros p2 w3 E2 Hw3. cbn [apply_ddl] in E2. injection E2 as <-.
  assert (same_parts w w3) as Hs3.
  { etransitivity; [exact Hw1|]. by etransitivity. }
  pstep. apply wp_px_Commit; [intros e w' Hw; apply Hsame; [by etransitivity|done]|].
  cbn [px_view px_pool]. intros r w4 Ht.
  assert (touches None (add_part t (p_primary w)) w w4) as Ht'.
  { destruct Ht as [E1 E2]. split.
    - rewrite E1. unfold add_part. rewrite Em. by destruct (attached (p_primary w) !! _); cbn; rewrite Em.
    - intros pool' Hne. rewrite E2 by done. by apply same_parts_get. }
  destruct r; [|by apply Hadd]. pstep. apply wp_pmetric. intros w5 Hw5. pstep. apply Hadd.
  by eapply touches_same.
Qed.

(** A registry the driver keeps: every row has its name and its bounds, and its
    partition is attached. *)
Definition parts_ok (p : Parts) : Prop :=
  forall name l u, meta p !! name = Some (l, u) ->
    in_years l /\ l mod PartitionInterval cfg = 0 /\ name = partitionName cfg l /\
    u = part_upper l /\ is_Some (attached p !! name).

Definition parts_le (p p' : Parts) : Prop := meta p ⊆ meta p' /\ attached p ⊆ attached p'.

#[local] Instance parts_le_po : PreOrder parts_le.
Proof. split; [by split|intros ??? [] []; split; by etransitivity]. Qed.

(** An instant a partition may start at. *)
Definition bound_ok (t : Time) : Prop := in_years t /\ t mod PartitionInterval cfg = 0.

Lemma add_part_le t p : parts_le p (add_part t p).
Proof.
  split; cbn; [destruct (meta p !! _) eqn:E|destruct (attached p !! _) eqn:E]; try done;
    by apply insert_subseteq.
Qed.

Lemma add_part_ok t p : bound_ok t -> parts_ok p -> parts_ok (add_part t p).
Proof.
  intros [Hy Hm] Hp. pose proof (add_part_le t p) as [_ Hat].
  assert (is_Some (attached (add_part t p) !! partitionName cfg t)) as Hnew.
  { cbn. destruct (attached p !! partitionName cfg t) eqn:E; [by rewrite E|]. rewrite lookup_insert_eq. eauto. }
  intros name l u. cbn [meta add_part]. intros Hl.
  assert (meta p !! name = Some (l, u) \/ (name = partitionName cfg t /\ l = t /\ u = part_upper t))
    as [Hold|(-> & -> & ->)].
  { destruct (meta p !! partitionName cfg t); [by left|].
    apply lookup_insert_Some in Hl as [[<- [= <- <-]]|[_ ?]]; [by right|by left]. }
  - destruct (Hp _ _ _ Hold) as (? & ? & ? & ? & [b Hb]). split_and!; try done.
    exists b. by eapply lookup_weaken.
  - by split_and!.
Qed.

Lemma add_part_registered t p : is_Some (meta (add_part t p) !! partitionName cfg t).
Proof. cbn. destruct (meta p !! partitionName cfg t) eqn:E; [by rewrite E|]. rewrite lookup_insert_eq. eauto. Qed.

(** Only the primary changed. *)
Definition primary_only (w w' : PWorld) : Prop :=
  forall r, get_parts (Some r) w' = get_parts (Some r) w.

Lemma createLoop_spec ts w :
  Forall bound_ok ts -> parts_ok (p_primary w) ->
  wp (createLoop cfg ts) (fun r w' =>
    primary_only w w' /\ parts_ok (p_primary w') /\ parts_le (p_primary w) (p_primary w') /\
    (is_Ok r = true -> forall t, t ∈ ts -> is_Some (meta (p_primary w') !! partitionName cfg t))) w.
Proof.
  revert w. induction ts as [|t ts IH]; intros w Hts Hp; cbn [createLoop].
  { pstep. split_and!; try done. by intros _ t ?%elem_of_nil. }
  apply Forall_cons in Hts as [Ht Hts]. pstep.
  assert (forall (r : result error unit) w1, primary_only w w1 -> parts_ok (p_primary w1) ->
    parts_le (p_primary w) (p_primary w1) ->
    (is_Ok r = true -> is_Some (meta (p_primary w1) !! partitionName cfg t)) ->
    match r with
    | Ok _ => wp (createLoop cfg ts) (fun r w' => primary_only w w' /\ parts_ok (p_primary w') /\
        parts_le (p_primary w) (p_primary w') /\ (is_Ok r = true -> forall t0, t0 ∈ t :: ts ->
          is_Some (meta (p_primary w') !! partitionName cfg t0))) w1
    | Err e => primary_only w w1 /\ parts_ok (p_primary w1) /\ parts_le (p_primary w) (p_primary w1) /\
        (is_Ok (A:=unit) (Err (same e)) = true -> forall t0, t0 ∈ t :: ts ->
          is_Some (meta (p_primary w1) !! partitionName cfg t0))
    end) as Hnext.
  { intros [u|e] w1 Hr1 Hok1 Hle1 Hreg; [|done]. eapply wp_mono; [by apply IH|].
    intros r w2 (Hr2 & Hok2 & Hle2 & Hall). split_and!; [|done|by etransitivity|].
    - intros rep. by rewrite Hr2, Hr1.
    - intros Hr t0 [->|Hin]%elem_of_cons; [|by apply Hall].
      destruct (Hreg eq_refl) as [b Hb]. exists b. eapply lookup_weaken; [exact Hb|apply Hle2]. }
  apply createPartition_spec.
  - intros r w1 [E1 E2] Hreg. apply Hnext; rewrite ?E1; try done. intros rep. cbn. by rewrite E2.
  - intros r w1 [E1 E2]. cbn [get_parts] in E1. apply Hnext; rewrite ?E1.
    + intros rep. by apply E2.
    + by apply add_part_ok.
    + apply add_part_le.
    + intros _. apply add_part_registered.
Qed.

(** Within whole minutes a name determines an aligned instant. *)
Lemma aligned_name_inj t u :
  PartitionInterval cfg mod Minute = 0 -> bound_ok t -> bound_ok u ->
  partitionName cfg t = partitionName cfg u -> 0 < PartitionInterval cfg -> t = u.
Proof.
  intros Hm [Hyt Ht] [Hyu Hu] E Hi. apply name_inj in E; [|done..].
  assert (forall x, x mod PartitionInterval cfg = 0 -> Truncate x Minute = x) as Hid.
  { intros x Hx. apply Truncate_id; [reflexivity|].
    apply Z.mod_divide; [done|]. etransitivity; [by apply Z.mod_divide|].
    apply Z.mod_divide; [lia|done]. }
  by rewrite !Hid in E.
Qed.

(** ** Dropping *)

Definition drop_part (p : Parts) (name : string) : Parts :=
  {| meta := delete name (meta p); attached := delete name (attached p) |}.

Lemma drop_parts_lookup names p name :
  let p' := foldl drop_part p names in
  (name ∈ names -> meta p' !! name = None /\ attached p' !! name = None) /\
  ((name ∉ names) -> meta p' !! name = meta p !! name /\ attached p' !! name = attached p !! name).
Proof.
  revert p. induction names as [|n names IH]; intros p; cbn [foldl].
  { split; [by intros ?%elem_of_nil|done]. }
  specialize (IH (drop_part p n)). cbn zeta in *. destruct IH as [IH1 IH2]. split.
  - intros Hin. destruct (decide (name ∈ names)) as [|Hni]; [by apply IH1|].
    assert (name = n) as -> by set_solver. destruct (IH2 Hni) as [-> ->]. cbn. by rewrite !lookup_delete_eq.
  - intros Hni. destruct IH2 as [-> ->]; [set_solver|]. cbn.
    rewrite !lookup_delete_ne by set_solver. done.
Qed.

Lemma wp_dropPartition tx name Q w :
  (forall e w', same_parts w w' -> Q (Err e) w') ->
  (forall w', same_parts w w' ->
     Q (Ok {| px_pool := px_pool tx; px_view := drop_part (px_view tx) name |}) w') ->
  wp (dropPartition tx name) Q w.
Proof.
  intros He Hok. unfold dropPartition. pstep. apply wp_px_Exec; [intros e w' ?; by apply He|]. intros p1 w1 E1 Hw1.
  cbn [apply_ddl] in E1. destruct (attached (px_view tx) !! name); [injection E1 as <-|done].
  pstep. apply wp_px_Exec; [intros e w' ?; apply He; by etransitivity|].
  cbn [px_view px_pool apply_ddl meta attached]. intros p2 w2 [= <-] Hw2.
  pstep. apply wp_px_Exec; [intros e w' ?; apply He; etransitivity; [exact Hw1|by etransitivity]|].
  cbn [px_view px_pool apply_ddl meta attached]. intros p3 w3 [= <-] Hw3.
  pstep. apply wp_pmetric. intros w4 Hw4. pstep. rewrite delete_delete_eq. apply Hok.
  etransitivity; [exact Hw1|]. etransitivity; [exact Hw2|]. by etransitivity.
Qed.

Lemma wp_dropLoop names tx Q w :
  (forall e w', same_parts w w' -> Q (Err e) w') ->
  (forall w', same_parts w w' ->
     Q (Ok {| px_pool := px_pool tx; px_view := foldl drop_part (px_view tx) names |}) w') ->
  wp (dropLoop tx names) Q w.
Proof.
  revert tx w. induction names as [|n names IH]; intros tx w He Hok; cbn [dropLoop].
  { pstep. specialize (Hok w ltac:(done)). by destruct tx. }
  pstep. apply wp_dropPartition; [intros e w' ?; by apply He|]. intros w1 Hw1. apply IH.
  - intros e w' ?. apply He. by etransitivity.
  - intros w' ?. apply Hok. by etransitivity.
Qed.

(** The registry rows a cutoff expires. *)
Definition is_expired (cutoff : Time) (p : Parts) (name : string) : Prop :=
  exists l u, meta p !! name = Some (l, u) /\ u <= cutoff.

Lemma elem_of_expired_names cutoff p name :
  name ∈ expired_names cutoff (meta p) <-> is_expired cutoff p name.
Proof.
  unfold expired_names, is_expired. rewrite list_elem_of_fmap. split.
  - intros ([n [l u]] & -> & [Hu Hin]%list_elem_of_filter). cbn in *.
    apply elem_of_map_to_list in Hin. eauto.
  - intros (l & u & Hl & Hu). exists (name, (l, u)). split; [done|].
    apply list_elem_of_filter. split; [done|]. by apply elem_of_map_to_list.
Qed.

(** What a drop with [cutoff] leaves: exactly the expired names are gone. *)
Definition dropped (cutoff : Time) (p p' : Parts) : Prop :=
  forall name,
    (is_expired cutoff p name -> meta p' !! name = None /\ attached p' !! name = None) /\
    (~ is_expired cutoff p name ->
       meta p' !! name = meta p !! name /\ attached p' !! name = attached p !! name).

Lemma dropExpired_spec Q w :
  let cutoff := penv_now (p_tick w) - PartitionRetention cfg in
  (forall e w', same_parts w w' -> Q (Err e) w') ->
  (forall r p w', dropped cutoff (p_primary w) p -> touches None p w w' -> Q r w') ->
  wp (dropExpiredPartitions cfg) Q w.
Proof.
  intros cutoff He Hok. unfold dropExpiredPartitions, GoTime.Add. repeat pstep.
  rewrite Z.add_opp_r. fold cutoff. apply wp_px_Begin; [intros e w' ?; by apply He|].
  intros w1 Hw1. assert (same_parts w w1) as Hs1 by done. repeat pstep.
  destruct (penv_sql _); repeat pstep; [by apply He|]. destruct (penv_sql _); repeat pstep; [by apply He|].
  cbn [px_view get_parts p_primary ptick p_tick].
  apply wp_dropLoop; [intros e w' ?; apply He; by etransitivity|].
  intros w2 Hw2. cbn [px_pool px_view get_parts p_primary ptick].
  assert (same_parts w w2) as Hs2 by (etransitivity; [exact Hs1|exact Hw2]).
  apply wp_px_Commit; [intros e w' ?; apply He; by etransitivity|].
  cbn [px_pool px_view]. intros r w3 [E1 E2]. eapply Hok; [|split; [exact E1|]].
  - intros name. set (names := penv_order _ _).
    assert (name ∈ names <-> is_expired cutoff (p_primary w) name) as Hn.
    { unfold names. rewrite penv_order_perm. apply elem_of_expired_names. }
    rewrite <- Hn. apply drop_parts_lookup.
  - intros pool' Hne. rewrite E2 by done. by apply same_parts_get.
Qed.

(** ** Dropping on a replica *)

Definition detach_part (p : Parts) (e : expiredPartition) : Parts :=
  {| meta := meta p; attached := delete (ep_name e) (attached p) |}.

Lemma detach_parts_lookup es p name :
  attached (foldl detach_part p es) !! name =
  if bool_decide (name ∈ map ep_name es) then None else attached p !! name.
Proof.
  revert p. induction es as [|e es IH]; intros p; cbn [foldl map]; [done|].
  rewrite IH. cbn. repeat case_bool_decide; try done; try set_solver.
  - assert (name = ep_name e) as -> by set_solver. by rewrite lookup_delete_eq.
  - rewrite lookup_delete_ne by set_solver. done.
Qed.

Lemma wp_dropReplicaLoop es r tx Q w :
  (forall e w', same_parts w w' -> Q (Err e) w') ->
  (forall w', same_parts w w' ->
     Q (Ok {| px_pool := px_pool tx; px_view := foldl detach_part (px_view tx) es |}) w') ->
  wp (dropReplicaLoop tx r es) Q w.
Proof.
  revert tx w. induction es as [|x es IH]; intros tx w He Hok; cbn [dropReplicaLoop].
  { pstep. specialize (Hok w ltac:(done)). by destruct tx. }
  unfold dropReplicaPartition. do 2 pstep. apply wp_px_Exec; [intros e w' ?; by apply He|]. intros p1 w1 E1 Hw1.
  cbn [apply_ddl] in E1. destruct (attached (px_view tx) !! _); [injection E1 as <-|done].
  pstep. apply wp_px_Exec; [intros e w' ?; apply He; by etransitivity|].
  cbn [px_view px_pool apply_ddl meta attached]. intros p2 w2 [= <-] Hw2. rewrite delete_delete_eq.
  pstep. apply wp_pmetric. intros w3 Hw3. pstep.
  assert (same_parts w w3) as Hs by (etransitivity; [exact Hw1|by etransitivity]).
  apply IH.
  - intros e w' ?. apply He. by etransitivity.
  - intros w' ?. apply Hok. by etransitivity.
Qed.

Lemma replica_cutoff_le now last :
  replica_cutoff cfg now last <= now - PartitionRetention cfg /\
  replica_cutoff cfg now last <= last - PartitionRetention cfg.
Proof. unfold replica_cutoff, After, GoTime.Add. zbool; lia. Qed.

(** [dropExpiredReplicaPartitions] changes nothing, or detaches from this
    replica a list of expired partitions. *)
Lemma replica_drop_spec r sub existing w :
  wp (dropExpiredReplicaPartitions cfg r sub existing) (fun _ w' =>
    same_parts w w' \/ exists lastMsg es, penv_last_msg (S (p_tick w)) sub = Ok (Some lastMsg) /\
      (forall e, e ∈ es -> ep_name e ∈ existing /\ exists lower,
         parsePartitionLower cfg (ep_name e) = Some lower /\
         lower + PartitionInterval cfg <= replica_cutoff cfg (penv_now (p_tick w)) lastMsg) /\
      touches (Some r) (foldl detach_part (get_parts (Some r) w) es) w w') w.
Proof.
  unfold dropExpiredReplicaPartitions. repeat pstep. cbn [p_tick ptick].
  destruct (penv_last_msg _ _) as [[lastMsg|]|e] eqn:El; repeat pstep; [|by left|by left].
  apply wp_pmetric. intros w1 Hw1. repeat pstep. set (now := penv_now (p_tick w)).
  set (es := selectExpiredPartitions _ _ _).
  assert (forall e, e ∈ es -> ep_name e ∈ existing /\ exists lower,
       parsePartitionLower cfg (ep_name e) = Some lower /\
       lower + PartitionInterval cfg <= replica_cutoff cfg now lastMsg) as Hes.
  { intros e (Hin & l & Hl & Eu & Hc)%selectExpired_elem. rewrite penv_order_perm in Hin.
    split; [by apply elem_of_elements in Hin|]. exists l. by rewrite <- Eu. }
  clearbody es. assert (same_parts w (ptick w1)) as Hs by exact Hw1. revert Hs. generalize (ptick w1). clear w1 Hw1.
  intros w1 Hs. destruct es as [|e0 es0] eqn:Ees; [pstep; by left|]. rewrite <- Ees in *.
  clear Ees e0 es0. pstep. apply wp_px_Begin; [intros e w' ?; left; by etransitivity|]. intros w2 Hw2.
  pstep. apply wp_dropReplicaLoop; [intros e w' ?; left; etransitivity; [exact Hs|by etransitivity]|].
  cbn [px_pool px_view]. intros w3 Hw3.
  assert (same_parts w w3) as Hs3 by (etransitivity; [exact Hs|by etransitivity]).
  apply wp_px_Commit; [intros e w' ?; left; by etransitivity|]. cbn [px_pool px_view].
  intros res w4 [E1 E2]. right. exists lastMsg, es. split_and!; [done|done|].
  split; [by rewrite E1, (same_parts_get _ _ _ Hs)|]. intros pool' Hne. rewrite E2 by done.
  by apply same_parts_get.
Qed.

(** ** Replicas do not touch the primary *)

Definition keeps_primary (w w' : PWorld) : Prop := p_primary w' = p_primary w.

Lemma touches_keeps r p w w' : touches (Some r) p w w' -> keeps_primary w w'.
Proof. intros [_ E]. exact (E None ltac:(done)). Qed.

Lemma wp_errMetric r m Q w :
  (forall w', p_primary w' = p_primary w -> Q tt w') -> wp (errMetric r m) Q w.
Proof.
  intros HQ. unfold errMetric. destruct r; [pstep; by apply HQ|].
  apply wp_pmetric. intros w' [E _]. by apply HQ.
Qed.

Lemma createReplicaLoop_primary r existing ts w :
  wp (createReplicaLoop cfg r existing ts) (fun _ => keeps_primary w) w.
Proof.
  assert (forall w', same_parts w w' -> keeps_primary w w') as Hkeep by (by intros w' []).
  enough (forall w1, keeps_primary w w1 ->
    wp (createReplicaLoop cfg r existing ts) (fun _ => keeps_primary w) w1) as Hall by (by apply Hall).
  clear Hkeep. induction ts as [|t ts IH]; intros w1 Hw1; cbn [createReplicaLoop]; [by pstep|].
  pstep. unfold createReplicaPartition. case_bool_decide; [pstep; by apply IH|].
  assert (forall w2, same_parts w1 w2 -> keeps_primary w w2) as Hk
    by (intros w2 [E _]; unfold keeps_primary in *; congruence).
  pstep. unfold pool_Exec. pstep. apply wp_px_Begin; [intros e w' ?; by apply Hk|]. intros w2 Hw2.
  pstep. apply wp_px_Exec; [intros e w' ?; apply Hk; by etransitivity|]. intros p w3 _ Hw3.
  assert (same_parts w1 w3) as Hs3 by (by etransitivity). cbn [px_pool px_view].
  apply wp_px_Commit; [intros e w' ?; apply Hk; by etransitivity|]. cbn [px_pool px_view].
  intros res w4 Ht%touches_keeps. assert (keeps_primary w w4) as Hk4
    by (pose proof (Hk w3 Hs3); unfold keeps_primary in *; congruence).
  destruct res; [|done]. pstep. apply wp_pmetric. intros w5 [E5 _]. pstep. apply IH.
  unfold keeps_primary in *. congruence.
Qed.

Lemma syncReplica_primary r sub w : wp (syncReplica cfg r sub) (fun _ => keeps_primary w) w.
Proof.
  unfold syncReplica, listReplicaPartitions. repeat pstep.
  assert (forall w1, same_parts w w1 -> keeps_primary w w1) as Hk by (by intros w1 []).
  destruct (penv_sql _); repeat pstep; [apply wp_pmetric; intros w1 Hw1; by apply Hk|].
  destruct (penv_sql _); repeat pstep; [apply wp_pmetric; intros w1 Hw1; by apply Hk|].
  unfold createReplicaPartitions. repeat pstep. eapply wp_mono; [apply createReplicaLoop_primary|].
  intros c w1 Hw1. cbn beta in Hw1. assert (keeps_primary w w1) as Hk1 by exact Hw1. pstep.
  apply wp_errMetric. intros w2 E2. pstep. eapply wp_mono; [apply replica_drop_spec|].
  intros d w3 Hd. assert (keeps_primary w2 w3) as Hk3.
  { destruct Hd as [[E _]|(lastMsg & es & _ & _ & Ht)]; [exact E|by eapply touches_keeps]. }
  apply wp_errMetric. intros w4 E4. unfold keeps_primary in *. congruence.
Qed.

Lemma syncReplicas_primary rs w : wp (syncReplicas cfg rs) (fun _ => keeps_primary w) w.
Proof.
  enough (forall w1, keeps_primary w w1 -> wp (syncReplicas cfg rs) (fun _ => keeps_primary w) w1)
    as Hall by (by apply Hall).
  induction rs as [|r rs IH]; intros w1 Hw1; cbn [syncReplicas]; [by pstep|].
  pstep. eapply wp_mono; [apply syncReplica_primary|]. intros ? w2 Hw2. apply IH.
  cbn beta in Hw2. unfold keeps_primary in *. congruence.
Qed.

Lemma emitPartitionMetrics_same w : wp emitPartitionMetrics (fun _ => same_parts w) w.
Proof.
  unfold emitPartitionMetrics, aggregate. repeat pstep.
  destruct (penv_sql _); repeat pstep; [done|]. apply wp_pmetric. intros w1 Hw1.
  destruct (Nat.eqb _ _); repeat pstep.
  { apply wp_pmetric. intros w2 Hw2. apply wp_pmetric. intros w3 Hw3.
    etransitivity; [exact Hw1|]. by etransitivity. }
  destruct (penv_sql _); repeat pstep; [exact Hw1|].
  destruct (max_upper _); repeat pstep; [|exact Hw1]. apply wp_pmetric. intros w2 Hw2. repeat pstep.
  assert (same_parts w w2) as Hs by (etransitivity; [exact Hw1|exact Hw2]).
  destruct (penv_sql _); repeat pstep; [exact Hs|].
  destruct (min_lower _); repeat pstep; [|exact Hs]. apply wp_pmetric. intros w3 Hw3.
  etransitivity; [exact Hs|exact Hw3].
Qed.

End Safety.
