(* ===== verification/PartitionTheorems.v ===== *)
(** * Theorems on the partition maintenance *)

From S2P Require Export PartitionSafety.

Open Scope Z_scope.
Open Scope pglg_scope.

Section Theorems.
  Context `{PEnv} {Horder : PEnvLaws}.
  Variable cfg : Config.

(** C13: let the partition interval be a whole number of minutes, and let every
    row of the registry be one that a driver with this interval makes ([parts_ok]:
    aligned to the interval, one interval long, under its own name, attached). When
    the creation pass succeeds, every instant from one interval before now up to
    the look-ahead falls in a partition that is registered and attached; whether or
    not it succeeds, the registry stays of that form, nothing that existed is
    removed or changed, and no replica is touched. (Without the first hypothesis
    two partitions can have one name, without the second - the hourly partition of
    pglg-setup under another interval - a partition of the pass can be taken for
    existing: a pass can then succeed and leave a gap.) *)
Theorem createPartitions_cover (w : PWorld)
    (Hi : 0 < PartitionInterval cfg /\ PartitionInterval cfg mod Minute = 0)
    (Hyears : Forall in_years (partition_times cfg (penv_now (p_tick w))))
    (Hp : parts_ok cfg (p_primary w)) :
  let now := penv_now (p_tick w) in
  let '(r, w') := createPartitions cfg w in
  parts_ok cfg (p_primary w') /\ parts_le (p_primary w) (p_primary w') /\
  (forall rep, get_parts (Some rep) w' = get_parts (Some rep) w) /\
  (is_Ok r = true -> forall x, now - PartitionInterval cfg <= x < now + PartitionLookAhead cfg ->
     exists name l u, meta (p_primary w') !! name = Some (l, u) /\ l <= x < u /\
       is_Some (attached (p_primary w') !! name)).
Proof.
  intros now. set (ts := partition_times cfg now) in *.
  assert (Forall (bound_ok cfg) ts) as Hts.
  { rewrite Forall_forall in *. intros t Ht. split; [by apply Hyears|].
    apply elem_of_partition_times in Ht; [apply Ht|apply Hi]. }
  assert (wp (createPartitions cfg) (fun r w' =>
    primary_only w w' /\ parts_ok cfg (p_primary w') /\ parts_le (p_primary w) (p_primary w') /\
    (is_Ok r = true -> forall t, t ∈ ts -> is_Some (meta (p_primary w') !! partitionName cfg t))) w) as Hw.
  { unfold createPartitions. repeat pstep. exact (createLoop_spec cfg ts (ptick w) Hts Hp). }
  unfold wp in Hw. destruct (createPartitions cfg w) as [r w']. destruct Hw as (Hrep & Hok & Hle & Hall).
  split_and!; [done|done|exact Hrep|]. intros Hr x Hx.
  assert (exists t, t ∈ ts /\ t <= x < t + PartitionInterval cfg) as (t & Ht & Hbt).
  { exists (Truncate x (PartitionInterval cfg)). pose proof (Truncate_bounds x _ (proj1 Hi)).
    split; [exact (covering_time cfg now x (proj1 Hi) Hx)|done]. }
  destruct (Hall Hr t Ht) as [[l u] Hm]. destruct (Hok _ _ _ Hm) as (Hyl & Hal & En & -> & Hat).
  rewrite Forall_forall in Hts. assert (t = l) as <-.
  { apply (aligned_name_inj cfg); [apply Hi|by apply Hts|by split|done|apply Hi]. }
  exists (partitionName cfg t), t, (part_upper cfg t). done.
Qed.

(** C14: a drop pass removes exactly the partitions whose upper bound is at
    least the retention old, from the registry and from the table together, or
    it changes nothing and reports an error; it never touches a replica. *)
Theorem dropExpiredPartitions_exact (w : PWorld) :
  let cutoff := penv_now (p_tick w) - PartitionRetention cfg in
  let '(r, w') := dropExpiredPartitions cfg w in
  (forall rep, get_parts (Some rep) w' = get_parts (Some rep) w) /\
  ((p_primary w' = p_primary w /\ is_Ok r = false) \/
   forall name,
     (is_expired cutoff (p_primary w) name ->
        meta (p_primary w') !! name = None /\ attached (p_primary w') !! name = None) /\
     (~ is_expired cutoff (p_primary w) name ->
        meta (p_primary w') !! name = meta (p_primary w) !! name /\
        attached (p_primary w') !! name = attached (p_primary w) !! name)).
Proof.
  intros cutoff.
  assert (wp (dropExpiredPartitions cfg) (fun r w' =>
    (forall rep, get_parts (Some rep) w' = get_parts (Some rep) w) /\
    ((p_primary w' = p_primary w /\ is_Ok r = false) \/ dropped cutoff (p_primary w) (p_primary w'))) w) as Hw.
  { apply dropExpired_spec.
    - intros e w' [E1 E2]. split; [intros rep; cbn; by rewrite E2|by left].
    - intros r p w' Hd [E1 E2]. cbn [get_parts] in E1. subst p. split; [|by right].
      intros rep. by apply E2. }
  unfold wp in Hw. by destruct (dropExpiredPartitions cfg w).
Qed.

(** C15: on a replica a partition is only dropped when its whole interval
    is at least the retention behind both the clock and the time up to which
    the replica has applied the stream; with an unknown apply position nothing
    is dropped; and only this replica is touched. *)
Theorem replica_drops_only_applied (r sub : string) (existing : gset string) (w : PWorld) :
  let '(res, w') := dropExpiredReplicaPartitions cfg r sub existing w in
  p_primary w' = p_primary w /\
  (forall r', r' <> r -> get_parts (Some r') w' = get_parts (Some r') w) /\
  meta (get_parts (Some r) w') = meta (get_parts (Some r) w) /\
  forall name,
    attached (get_parts (Some r) w') !! name = attached (get_parts (Some r) w) !! name \/
    (attached (get_parts (Some r) w') !! name = None /\ name ∈ existing /\
     exists lower lastMsg, parsePartitionLower cfg name = Some lower /\
       penv_last_msg (S (p_tick w)) sub = Ok (Some lastMsg) /\
       lower + PartitionInterval cfg <= penv_now (p_tick w) - PartitionRetention cfg /\
       lower + PartitionInterval cfg <= lastMsg - PartitionRetention cfg).
Proof.
  pose proof (replica_drop_spec cfg r sub existing w) as Hw.
  unfold wp in Hw. destruct (dropExpiredReplicaPartitions _ _ _ _ _) as [res w'].
  destruct Hw as [Hs|(lastMsg & es & El & Hes & E1 & E2)].
  - split_and!; [apply Hs|intros; by apply same_parts_get|by rewrite (same_parts_get _ _ _ Hs)|].
    intros name. left. by rewrite (same_parts_get _ _ _ Hs).
  - split_and!.
    + exact (E2 None ltac:(done)).
    + intros r' Hne. apply E2. congruence.
    + rewrite E1. clear. generalize (get_parts (Some r) w). induction es as [|e es IH]; [done|].
      intros p. cbn. by rewrite IH.
    + intros name. rewrite E1, detach_parts_lookup. case_bool_decide as Hin; [right|by left].
      split; [done|]. apply list_elem_of_fmap in Hin as (e & -> & He).
      destruct (Hes e He) as (Hex & l & Hl & Hc). split; [done|]. exists l, lastMsg.
      destruct (replica_cutoff_le cfg (penv_now (p_tick w)) lastMsg). split_and!; (done || lia).
Qed.

(** A drop keeps what is consistent and what is not expired. *)
Lemma dropped_keeps (w w2 w3 : PWorld) n :
  dropped (penv_now n - PartitionRetention cfg) (p_primary w2) (p_primary w3) ->
  parts_ok cfg (p_primary w2) /\
  (forall name l u, meta (p_primary w) !! name = Some (l, u) ->
     (forall n, penv_now n - PartitionRetention cfg < u) -> meta (p_primary w2) !! name = Some (l, u)) ->
  parts_ok cfg (p_primary w3) /\
  (forall name l u, meta (p_primary w) !! name = Some (l, u) ->
     (forall n, penv_now n - PartitionRetention cfg < u) -> meta (p_primary w3) !! name = Some (l, u)).
Proof.
  intros Hd [Hok Hlive]. set (cutoff := penv_now n - PartitionRetention cfg) in *. split.
  - intros name l u Hm. destruct (Hd name) as [He Hne].
    destruct (decide (name ∈ expired_names cutoff (meta (p_primary w2)))) as [Hin|Hni];
      rewrite elem_of_expired_names in *.
    + destruct (He ltac:(done)) as [E _]. congruence.
    + destruct (Hne ltac:(done)) as [E1 E2]. rewrite E1 in Hm. rewrite E2. by apply Hok.
  - intros name l u Hm Hu. specialize (Hlive _ _ _ Hm Hu). destruct (Hd name) as [_ Hne].
    destruct Hne as [E _]; [|by rewrite E]. intros (l' & u' & E & Hle). rewrite Hlive in E.
    injection E as <- <-. specialize (Hu n). unfold cutoff in Hle. lia.
Qed.

(** C12: a whole pass of the maintenance, with every failure the databases
    may report, keeps the registry consistent, and no partition whose upper
    bound is less than the retention old (by any reading of the clock) is lost:
    it stays registered with its bounds, and attached. *)
Theorem maintenance_keeps_live (w : PWorld)
    (Hi : 0 < PartitionInterval cfg)
    (Hyears : forall n, Forall in_years (partition_times cfg (penv_now n)))
    (Hp : parts_ok cfg (p_primary w)) :
  let w' := (runPartitionMaintenance cfg w).2 in
  parts_ok cfg (p_primary w') /\
  forall name l u, meta (p_primary w) !! name = Some (l, u) ->
    (forall n, penv_now n - PartitionRetention cfg < u) ->
    meta (p_primary w') !! name = Some (l, u) /\ is_Some (attached (p_primary w') !! name).
Proof.
  set (post := fun w' : PWorld => parts_ok cfg (p_primary w') /\
    forall name l u, meta (p_primary w) !! name = Some (l, u) ->
      (forall n, penv_now n - PartitionRetention cfg < u) -> meta (p_primary w') !! name = Some (l, u)).
  assert (forall w1 w2, post w1 -> p_primary w2 = p_primary w1 -> post w2) as Hsame
    by (intros w1 w2 Hw1 E; unfold post; by rewrite E).
  enough (wp (runPartitionMaintenance cfg) (fun _ => post) w) as Hw.
  { intros w'. unfold wp in Hw. subst w'. destruct (runPartitionMaintenance cfg w) as [u w'].
    destruct Hw as [Hok Hlive]. split; [done|]. intros name l u' Hm Hu.
    specialize (Hlive _ _ _ Hm Hu). split; [done|]. by destruct (Hok _ _ _ Hlive) as (_ & _ & _ & _ & ?). }
  unfold runPartitionMaintenance, createPartitions. repeat pstep.
  eapply wp_mono.
  { apply (createLoop_spec cfg _ (ptick (ptick w))); [|exact Hp]. apply Forall_forall. intros t Ht.
    split; [eapply Forall_forall; [apply Hyears|exact Ht]|]. by apply elem_of_partition_times in Ht as [? _]. }
  intros c w1 (_ & Hok1 & [Hle1 _] & _). pstep.
  assert (post w1) as Hw1 by (split; [exact Hok1|]; intros name l u Hm _; by eapply lookup_weaken).
  apply wp_errMetric. intros w2 E2. assert (post w2) as Hw2 by (by eapply Hsame). pstep.
  apply dropExpired_spec.
  all: match goal with |- forall e w', _ -> _ => intros e w3 [E3 _] | _ => intros d p w3 Hd [E3 _] end.
  2: cbn [get_parts] in E3; subst p.
  all: assert (post w3) as Hw3 by first [by eapply Hsame | by eapply dropped_keeps].
  all: pstep; apply wp_errMetric; intros w4 E4; pstep; eapply wp_mono; [apply syncReplicas_primary|].
  all: intros ? w5 Hw5; cbn beta in Hw5; repeat pstep; apply wp_pmetric; intros w6 [E6 _].
  all: eapply wp_mono; [apply emitPartitionMetrics_same|]; intros ? w7 [E7 _].
  all: eapply Hsame; [exact Hw3|]; unfold keeps_primary in *; cbn in *; congruence.
Qed.

End Theorems.

(** ** The theorems at concrete inputs *)

Definition calm_penv (now : Time) (lastMsg : option Time) : PEnv := {|
  penv_now _ := now;
  penv_sql _ := None;
  penv_commit _ := CommitOk;
  penv_last_msg _ _ := Ok lastMsg;
  penv_order _ l := rev l |}.

#[export] Instance calm_penv_laws now lastMsg : @PEnvLaws (calm_penv now lastMsg).
Proof. split. intros n l. symmetry. apply Permutation_rev. Qed.

(** A primary with one old and one live partition, and a replica with the old
    one. *)
Definition sample_now : Time := sample_t2 + 30 * Minute.
Definition old_bound : Time := sample_t2 - 10 * Hour.

Definition sample_parts : Parts :=
  add_part sample_config old_bound (add_part sample_config sample_t1 no_parts).

Definition sample_pworld : PWorld :=
  {| p_tick := 0; p_primary := sample_parts; p_replicas := {["r1"%string := sample_parts]};
     p_metrics := [] |}.

Definition in_years_b (t : Time) : bool := (0 <=? t_year t) && (t_year t <=? 9999).

Lemma in_years_all l : forallb in_years_b l = true -> Forall in_years l.
Proof.
  rewrite forallb_forall, Forall_forall. intros Hl t Ht%list_elem_of_In. specialize (Hl t Ht).
  unfold in_years_b in Hl. unfold in_years. lia.
Qed.

Lemma sample_parts_ok : parts_ok sample_config sample_parts.
Proof.
  apply add_part_ok; [split; [split; vm_compute; discriminate|reflexivity]|].
  apply add_part_ok; [split; [split; vm_compute; discriminate|reflexivity]|].
  intros name l u Hm. cbn [no_parts meta] in Hm. by rewrite lookup_empty in Hm.
Qed.

Lemma sample_years : Forall in_years (partition_times sample_config sample_now).
Proof. apply in_years_all. vm_compute. reflexivity. Qed.

Lemma createPartitions_cover_witness :
  exists name l u,
    meta (p_primary (@createPartitions (calm_penv sample_now None) sample_config sample_pworld).2) !! name
      = Some (l, u) /\ l <= sample_now < u.
Proof.
  pose proof (createPartitions_cover (H := calm_penv sample_now None) sample_config sample_pworld
    ltac:(split; reflexivity) sample_years sample_parts_ok) as T.
  assert (is_Ok (@createPartitions (calm_penv sample_now None) sample_config sample_pworld).1 = true)
    as Hok by (vm_compute; reflexivity).
  destruct (@createPartitions (calm_penv sample_now None) sample_config sample_pworld) as [r w'].
  destruct (proj2 (proj2 (proj2 T)) Hok sample_now ltac:(split; [discriminate|reflexivity]))
    as (name & l & u & Hm & Hb & _).
  exists name, l, u. split; [exact Hm|exact Hb].
Defined.

Lemma maintenance_keeps_live_witness :
  is_Some (attached (p_primary (@runPartitionMaintenance (calm_penv sample_now None)
    sample_config sample_pworld).2) !! partitionName sample_config sample_t1).
Proof.
  refine (proj2 (proj2 (maintenance_keeps_live (H := calm_penv sample_now None) sample_config sample_pworld
    eq_refl (fun _ => sample_years) sample_parts_ok) (partitionName sample_config sample_t1)
    sample_t1 (sample_t1 + Hour) _ (fun _ => _))).
  - vm_compute. reflexivity.
  - vm_compute. reflexivity.
Defined.

Lemma sample_old_expired :
  is_expired (sample_now - 3 * Hour) sample_parts (partitionName sample_config old_bound).
Proof. exists old_bound, (old_bound + Hour). split; [vm_compute; reflexivity|vm_compute; discriminate]. Qed.

Lemma dropExpiredPartitions_exact_witness :
  attached (p_primary (@dropExpiredPartitions (calm_penv sample_now None) sample_config sample_pworld).2)
    !! partitionName sample_config old_bound = None.
Proof.
  pose proof (dropExpiredPartitions_exact (H := calm_penv sample_now None) sample_config sample_pworld) as T.
  assert (is_Ok (@dropExpiredPartitions (calm_penv sample_now None) sample_config sample_pworld).1 = true)
    as Hok by (vm_compute; reflexivity).
  destruct (@dropExpiredPartitions (calm_penv sample_now None) sample_config sample_pworld) as [r w'].
  destruct T as [_ [[_ T]|T]]; [cbn in Hok; rewrite T in Hok; discriminate Hok|].
  exact (proj2 (proj1 (T _) sample_old_expired)).
Defined.

(** The replica has applied the stream up to one hour after the old partition. *)
Definition sample_applied : Time := old_bound + 2 * Hour.

Lemma replica_drops_only_applied_witness :
  attached (get_parts (Some "r1"%string) (@dropExpiredReplicaPartitions
      (calm_penv sample_now (Some sample_applied)) sample_config "r1" "sub"
      (dom (attached sample_parts)) sample_pworld).2) !! partitionName sample_config old_bound =
  attached sample_parts !! partitionName sample_config old_bound.
Proof.
  pose proof (replica_drops_only_applied (H := calm_penv sample_now (Some sample_applied)) sample_config
    "r1" "sub" (dom (attached sample_parts)) sample_pworld) as T.
  destruct (@dropExpiredReplicaPartitions _ _ _ _ _ _) as [r w'].
  destruct (proj2 (proj2 (proj2 T)) (partitionName sample_config old_bound))
    as [E|(_ & _ & l & m & El & Em & _ & Hm)]; [exact E|exfalso].
  vm_compute in El. injection El as <-. injection Em as <-. vm_compute in Hm. apply Hm. reflexivity.
Defined.
