(* ===== verification/Flag.v ===== *)
(** * Package [flag]

    The parsing of a command line into the flags of a command: words with one or
    two minus signs, values behind an equals sign or in the next word, and the
    three kinds of values that the commands use besides strings: booleans,
    integers in any base and durations. *)

From S2P Require Export GoDuration.

Open Scope Z_scope.

(** ** Values *)

(** [strconv.ParseBool]. *)
Definition ParseBool (s : string) : option bool :=
  if existsb (String.eqb s) ["1"; "t"; "T"; "TRUE"; "true"; "True"]%string then Some true
  else if existsb (String.eqb s) ["0"; "f"; "F"; "FALSE"; "false"; "False"]%string then Some false
  else None.

(** [lower(c)]: the byte with bit 5 set. *)
Definition lower (c : ascii) : Z := Z.lor (ascii_val c) 32.

(** The value of a digit in any base, letters included. *)
Definition any_digit (c : ascii) : option Z :=
  if is_digit c then Some (digit_val c)
  else if (97 <=? lower c) && (lower c <=? 122) then Some (lower c - 87) else None.

(** The loop of [strconv.ParseUint] with underscores allowed (base 0). *)
Fixpoint parse_base (base : Z) (s : string) (n : Z) : option Z :=
  match s with
  | EmptyString => Some n
  | String c s' =>
      if Ascii.eqb c "_" then parse_base base s' n
      else
        match any_digit c with
        | Some d =>
            if base <=? d then None
            else if uint64_max <? n * base + d then None else parse_base base s' (n * base + d)
        | None => None
        end
  end.

(** The base of a text without sign, and its digits. *)
Definition base_prefix (s : string) : Z * string :=
  match s with
  | String z (String c r) =>
      if Ascii.eqb z "0" then
        if (3 <=? str_len s) && (lower c =? 98) then (2, r)
        else if (3 <=? str_len s) && (lower c =? 111) then (8, r)
        else if (3 <=? str_len s) && (lower c =? 120) then (16, r)
        else (8, String c r)
      else (10, s)
  | String z EmptyString => if Ascii.eqb z "0" then (8, EmptyString) else (10, s)
  | EmptyString => (10, s)
  end.

(** [underscoreOK]: underscores only between digits, or after a base prefix. The
    state is the kind of the last byte. *)
Inductive last_byte := LastNone | LastDigit | LastUnderscore | LastOther.

Fixpoint underscore_loop (hex : bool) (s : string) (last : last_byte) : bool :=
  match s with
  | EmptyString => match last with LastUnderscore => false | _ => true end
  | String c s' =>
      if is_digit c || (hex && (97 <=? lower c) && (lower c <=? 102)) then underscore_loop hex s' LastDigit
      else if Ascii.eqb c "_" then
        match last with LastDigit => underscore_loop hex s' LastUnderscore | _ => false end
      else
        match last with LastUnderscore => false | _ => underscore_loop hex s' LastOther end
  end.

Definition underscoreOK (s : string) : bool :=
  match s with
  | String z (String c r) =>
      if Ascii.eqb z "0" && ((lower c =? 98) || (lower c =? 111) || (lower c =? 120))
      then underscore_loop (lower c =? 120) r LastDigit
      else underscore_loop false s LastNone
  | _ => underscore_loop false s LastNone
  end.

Fixpoint has_underscore (s : string) : bool :=
  match s with EmptyString => false | String c s' => Ascii.eqb c "_" || has_underscore s' end.

(** A text without sign at base 0. *)
Definition ParseUint0 (s : string) : option Z :=
  if String.eqb s "" then None
  else
    let '(base, digits) := base_prefix s in
    n ← parse_base base digits 0;
    if has_underscore digits && negb (underscoreOK s) then None else Some n.

(** [strconv.ParseInt(s, 0, 64)], as [flag.IntVar] calls it. *)
Definition ParseInt0 (s : string) : option Z :=
  let '(neg, body) :=
    match s with
    | String c r =>
        if Ascii.eqb c "-" then (true, r) else if Ascii.eqb c "+" then (false, r) else (false, s)
    | EmptyString => (false, s)
    end in
  un ← ParseUint0 body;
  if negb neg && (2 ^ 63 <=? un) then None
  else if neg && (2 ^ 63 <? un) then None
  else Some (if neg then - un else un).

Example ParseInt0_ex :
  map ParseInt0 ["42"; "-7"; "0x1F"; "0b101"; "017"; "1_000"; "0_7"; "0x_f"; "1__0"; "_1"; "08"; "0"; ""; "0x"]%string =
  [Some 42; Some (-7); Some 31; Some 5; Some 15; Some 1000; Some 7; Some 15; None; None; None; Some 0; None; None].
Proof. vm_compute. reflexivity. Qed.

(** ** The command line *)

(** The word up to the first ['='], and the value behind it. *)
Fixpoint cut_eq (s : string) : string * option string :=
  match s with
  | EmptyString => (EmptyString, None)
  | String c s' =>
      if Ascii.eqb c "=" then (EmptyString, Some s')
      else let '(n, v) := cut_eq s' in (String c n, v)
  end.

(** A word of the command line: the end of the flags, a syntax error, or a flag
    with its value, if it has one. *)
Inductive word := EndOfFlags | BadSyntax | FlagWord (name : string) (value : option string).

Definition flag_name (name : string) : word :=
  match name with
  | EmptyString => BadSyntax
  | String c _ =>
      if Ascii.eqb c "-" || Ascii.eqb c "=" then BadSyntax
      else let '(n, v) := cut_eq name in FlagWord n v
  end.

Definition flag_word (s : string) : word :=
  match s with
  | String a (String b r) =>
      if Ascii.eqb a "-" then
        if Ascii.eqb b "-" then (if String.eqb r "" then EndOfFlags else flag_name r)
        else flag_name (String b r)
      else EndOfFlags
  | _ => EndOfFlags
  end.

Section Parse.
  (* the values of the flags of a command *)
  Variable F : Type.

(** What a flag does with its value: a boolean flag can stand alone. *)
Inductive setter := SetBool (f : bool -> F -> F) | SetValue (f : string -> F -> option F).

  Variable formal : string -> option setter.

(** [FlagSet.Parse] with [ExitOnError]: the exit code is 0 after a call for
    help and 2 after any other error. Words after the flags are ignored. *)
Fixpoint flag_Parse (args : list string) (f : F) : result Z F :=
  match args with
  | [] => Ok f
  | s :: args =>
      match flag_word s with
      | EndOfFlags => Ok f
      | BadSyntax => Err 2
      | FlagWord name value =>
          match formal name, value with
          | None, _ => Err (if String.eqb name "help" || String.eqb name "h" then 0 else 2)
          | Some (SetBool set), None => flag_Parse args (set true f)
          | Some (SetBool set), Some v =>
              match ParseBool v with
              | Some b => flag_Parse args (set b f)
              | None => Err 2
              end
          | Some (SetValue set), Some v =>
              match set v f with
              | Some f => flag_Parse args f
              | None => Err 2
              end
          | Some (SetValue set), None =>
              match args with
              | [] => Err 2
              | v :: args =>
                  match set v f with
                  | Some f => flag_Parse args f
                  | None => Err 2
                  end
              end
          end
      end
  end.

Lemma flag_Parse_code l f c : flag_Parse l f = Err c -> c = 0 \/ c = 2.
Proof.
  remember (List.length l) as n eqn:En. revert l f En.
  induction (lt_wf n) as [n _ IH]. intros [|s l] f ->; cbn [flag_Parse]; [done|].
  destruct (flag_word s) as [| |name v]; [done|intros [= <-]; auto|].
  destruct (formal name) as [[set|set]|], v as [v|]; try (case_match; intros; simplify_eq; auto; fail).
  - destruct (ParseBool v); [|intros [= <-]; auto]. apply (IH (List.length l)); [cbn; lia|done].
  - apply (IH (List.length l)); [cbn; lia|done].
  - destruct (set v f); [|intros [= <-]; auto]. apply (IH (List.length l)); [cbn; lia|done].
  - destruct l as [|v l]; [intros [= <-]; auto|]. destruct (set v f); [|intros [= <-]; auto].
    apply (IH (List.length l)); [cbn; lia|done].
Qed.

End Parse.

Arguments SetBool {F}.
Arguments SetValue {F}.
Arguments flag_Parse {F}.
