(* ===== verification/SetupFlags.v ===== *)
(** * The command line of pglg-setup (cmd/pglg-setup/main.go)

    The flags as package [flag] parses them, and the checks that [main] makes
    before it connects. *)

From S2P Require Export Flag.

Open Scope Z_scope.
Open Scope string_scope.

(** ** The flags *)

Record Flags := {
  connString : string; schema : string; prefix : string; publication : string; slot : string;
  skipPublication : bool; replica : bool; createPartitionsFrom : string }.

(** The default values. *)
Definition flags0 : Flags := {|
  connString := ""; schema := "public"; prefix := "outbox"; publication := ""; slot := "";
  skipPublication := false; replica := false; createPartitionsFrom := "" |}.

Definition set_connString v f := {| connString := v; schema := schema f; prefix := prefix f;
  publication := publication f; slot := slot f; skipPublication := skipPublication f;
  replica := replica f; createPartitionsFrom := createPartitionsFrom f |}.
Definition set_schema v f := {| connString := connString f; schema := v; prefix := prefix f;
  publication := publication f; slot := slot f; skipPublication := skipPublication f;
  replica := replica f; createPartitionsFrom := createPartitionsFrom f |}.
Definition set_prefix v f := {| connString := connString f; schema := schema f; prefix := v;
  publication := publication f; slot := slot f; skipPublication := skipPublication f;
  replica := replica f; createPartitionsFrom := createPartitionsFrom f |}.
Definition set_publication v f := {| connString := connString f; schema := schema f;
  prefix := prefix f; publication := v; slot := slot f; skipPublication := skipPublication f;
  replica := replica f; createPartitionsFrom := createPartitionsFrom f |}.
Definition set_slot v f := {| connString := connString f; schema := schema f; prefix := prefix f;
  publication := publication f; slot := v; skipPublication := skipPublication f;
  replica := replica f; createPartitionsFrom := createPartitionsFrom f |}.
Definition set_skipPublication v f := {| connString := connString f; schema := schema f;
  prefix := prefix f; publication := publication f; slot := slot f; skipPublication := v;
  replica := replica f; createPartitionsFrom := createPartitionsFrom f |}.
Definition set_replica v f := {| connString := connString f; schema := schema f; prefix := prefix f;
  publication := publication f; slot := slot f; skipPublication := skipPublication f;
  replica := v; createPartitionsFrom := createPartitionsFrom f |}.
Definition set_createPartitions v f := {| connString := connString f; schema := schema f;
  prefix := prefix f; publication := publication f; slot := slot f;
  skipPublication := skipPublication f; replica := replica f; createPartitionsFrom := v |}.

(** A flag of type string takes every value. *)
Definition string_flag (set : string -> Flags -> Flags) : option (setter Flags) :=
  Some (SetValue (fun v f => Some (set v f))).

(** The flags that are defined. *)
Definition setup_flag (name : string) : option (setter Flags) :=
  if String.eqb name "conn-string" then string_flag set_connString
  else if String.eqb name "schema" then string_flag set_schema
  else if String.eqb name "prefix" then string_flag set_prefix
  else if String.eqb name "publication" then string_flag set_publication
  else if String.eqb name "slot" then string_flag set_slot
  else if String.eqb name "skip-publication" then Some (SetBool set_skipPublication)
  else if String.eqb name "replica" then Some (SetBool set_replica)
  else if String.eqb name "create-partitions" then string_flag set_createPartitions
  else None.

Definition parse_flags (args : list string) : result Z Flags := flag_Parse setup_flag args flags0.

(** ** The checks of [main]: the instant from which partitions are created, the
    zero time when there is none. *)
Definition ne (s : string) : bool := negb (String.eqb s "").

Definition check_flags (cmd : string) (f : Flags) : result error Time :=
  if String.eqb (connString f) "" then Err (Errorf "error: --conn-string is required" [])
  else if negb (String.eqb cmd "create") && replica f then
    Err (Errorf "error: --replica is only supported for 'create' (got %q)" [AStr cmd])
  else if negb (String.eqb cmd "create") && ne (createPartitionsFrom f) then
    Err (Errorf "error: --create-partitions is only supported for 'create' (got %q)" [AStr cmd])
  else if ne (createPartitionsFrom f) && negb (replica f) then
    Err (Errorf "error: --create-partitions requires --replica" [])
  else
    let pubSlotRequired := negb (String.eqb cmd "create") || negb (replica f) in
    if pubSlotRequired && (String.eqb (publication f) "" || String.eqb (slot f) "") then
      Err (if String.eqb cmd "create"
           then Errorf "error: --publication and --slot are required (unless --replica)" []
           else Errorf "error: --publication and --slot are required" [])
    else if ne (createPartitionsFrom f) then
      match Parse RFC3339 (createPartitionsFrom f) with
      | Some t => Ok t
      | None => Err (Errorf "error: --create-partitions: invalid RFC3339 timestamp: %v" [])
      end
    else Ok zeroTime.

(** ** Theorems *)

(** The command line that sets every flag explicitly. *)
Definition bool_word (b : bool) : string := if b then "true" else "false".

Definition render (f : Flags) : list string :=
  ["--conn-string=" ++ connString f; "--schema=" ++ schema f; "-prefix=" ++ prefix f;
   "--publication"; publication f; "-slot"; slot f;
   "--skip-publication=" ++ bool_word (skipPublication f); "-replica=" ++ bool_word (replica f);
   "--create-partitions=" ++ createPartitionsFrom f].

(** The command line that sets every flag, with one or two minus signs
    and the value behind an equals sign or in the next word, is read back as those flags, whatever
    the values contain and whatever the flags were before. *)
Theorem flag_Parse_render (f g : Flags) : flag_Parse setup_flag (render f) g = Ok f.
Proof. destruct f as [? ? ? ? ? [|] [|] ?]; reflexivity. Qed.

Lemma ne_true s : ne s = true <-> s <> "".
Proof. unfold ne. rewrite negb_true_iff, String.eqb_neq. done. Qed.

(** The checks accept exactly the command lines with a connection
    string, a publication and a slot unless a replica is created, [--replica]
    only with create, [--create-partitions] only with [--replica], and then with a
    timestamp that parses, which is the instant the command starts from. *)
Theorem check_flags_spec (cmd : string) (f : Flags) (start : Time) :
  check_flags cmd f = Ok start <->
  connString f <> "" /\
  (replica f = true -> cmd = "create") /\
  (createPartitionsFrom f <> "" -> replica f = true) /\
  (replica f = false -> publication f <> "" /\ slot f <> "") /\
  (createPartitionsFrom f = "" -> start = zeroTime) /\
  (createPartitionsFrom f <> "" -> Parse RFC3339 (createPartitionsFrom f) = Some start).
Proof.
  unfold check_flags, ne.
  destruct (String.eqb_spec (connString f) "") as [|E1]; [naive_solver|].
  destruct (String.eqb_spec cmd "create") as [E2|E2], (replica f) eqn:Er;
    destruct (String.eqb_spec (createPartitionsFrom f) "") as [E3|E3]; cbn [negb andb orb];
    try destruct (String.eqb_spec (publication f) ""); try destruct (String.eqb_spec (slot f) "");
    cbn [negb andb orb]; try (destruct (Parse _ _)); naive_solver.
Qed.

Definition replica_flags : Flags := {|
  connString := "host=r"; schema := "public"; prefix := "outbox"; publication := ""; slot := "";
  skipPublication := false; replica := true; createPartitionsFrom := "2025-01-31T23:30:00Z" |}.

Lemma check_flags_spec_witness :
  check_flags "create" replica_flags = Ok (Date 2025 1 31 23 30 0 0) /\ connString replica_flags <> "".
Proof.
  split; [vm_compute; reflexivity|].
  exact (proj1 (proj1 (check_flags_spec "create" replica_flags (Date 2025 1 31 23 30 0 0))
                  ltac:(vm_compute; reflexivity))).
Defined.
