(* ===== verification/Setup.v ===== *)
(** * The command pglg-setup (cmd/pglg-setup/main.go)

    [create] runs the embedded SQL files and creates the first partition, or
    those of a replica; [destroy] drops everything. The command acts on a
    connection: what it sends is a trace of requests with their answers. *)

From S2P Require Export SetupFlags PartitionSelect.

Open Scope Z_scope.
Open Scope pglg_scope.

(** ** Strings *)

(** [strings.Contains(s, sub)]. *)
Fixpoint Contains (s sub : string) : bool :=
  HasPrefix s sub || match s with EmptyString => false | String _ s' => Contains s' sub end.

(** [strings.HasSuffix(s, suffix)]. *)
Definition HasSuffix (s suffix : string) : bool :=
  (String.length suffix <=? String.length s)%nat &&
  String.eqb (str_drop (String.length s - String.length suffix) s) suffix.

(** [strings.NewReplacer(old, new, ...).Replace(s)] for non-empty old strings:
    at each byte the first pair, in the order of the arguments, whose old string
    starts there is replaced, and the text it covers is not looked at again.
    [skip] counts the bytes of an old string that are still to be skipped. *)
Definition find_old (pairs : list (string * string)) (s : string) : option (string * string) :=
  List.find (fun p => HasPrefix s p.1) pairs.

Fixpoint replace_loop (pairs : list (string * string)) (skip : nat) (s : string) : string :=
  match s with
  | EmptyString => EmptyString
  | String c s' =>
      match skip with
      | S k => replace_loop pairs k s'
      | O =>
          match find_old pairs s with
          | Some (old, new) => (new ++ replace_loop pairs (String.length old - 1) s')%string
          | None => String c (replace_loop pairs 0 s')
          end
      end
  end.

Definition Replace (pairs : list (string * string)) (s : string) : string := replace_loop pairs 0 s.

(** ** The files *)

Record dirEntry := { de_name : string; de_isDir : bool; de_content : result error string }.
Record sqlFile := { sf_name : string; sf_content : string }.

Fixpoint read_entries (entries : list dirEntry) : result error (list sqlFile) :=
  match entries with
  | [] => Ok []
  | e :: entries =>
      if de_isDir e || negb (HasSuffix (de_name e) ".sql") then read_entries entries
      else
        match de_content e with
        | Err err => Err (Wrapf "read %s: %w" [AStr (de_name e)] err)
        | Ok content =>
            bind_r (read_entries entries) (fun files =>
              Ok ({| sf_name := de_name e; sf_content := content |} :: files))
        end
  end.

Definition file_le (a b : sqlFile) : Prop := str_le (sf_name a) (sf_name b).

#[export] Instance file_le_dec : RelDecision file_le.
Proof. intros a b. unfold file_le. apply _. Defined.

(** [readSQLFiles]: the directory is the embedded one; its names are distinct,
    so every sorting algorithm gives the same list. *)
Definition readSQLFiles (dir : result error (list dirEntry)) : result error (list sqlFile) :=
  match dir with
  | Err e => Err (Wrapf "read migration dir: %w" [] e)
  | Ok entries => bind_r (read_entries entries) (fun files => Ok (merge_sort file_le files))
  end.

(** ** The connection *)

Inductive sqlArg := ArgText (s : string) | ArgTime (t : Time).

(** A statement that is executed: its text and its arguments. *)
Definition ssql : Type := string * list sqlArg.

Inductive sevent :=
| SvConnect (answer : option error)
| SvUser (answer : result error string)
| SvPrivilege (query : ssql) (answer : result error bool)
| SvExec (q : ssql) (answer : option error).

Record SWorld := { s_tick : nat; s_trace : list sevent }.

Class SEnv := {
  senv_now : nat -> Time;
  senv_connect : nat -> string -> option error;
  senv_user : nat -> result error string;
  senv_privilege : nat -> ssql -> result error bool;
  senv_exec : nat -> ssql -> option error;
  senv_dir : result error (list dirEntry) }.

Abbreviation SM := (ST SWorld).

Definition sask {A} (answer : nat -> A) (event : A -> list sevent) : SM A := fun w =>
  let a := answer (s_tick w) in (a, {| s_tick := S (s_tick w); s_trace := s_trace w ++ event a |}).

Definition to_result (o : option error) : result error unit :=
  match o with None => Ok tt | Some e => Err e end.

Section Setup.
  Context `{SEnv}.

Definition s_Now : SM Time := sask senv_now (fun _ => []).

Definition conn_Exec (text : string) (args : list sqlArg) : SM (result error unit) :=
  a ← sask (fun n => senv_exec n (text, args)) (fun a => [SvExec (text, args) a]);
  mret (to_result a).

Definition query_privilege (query : ssql) : SM (result error bool) :=
  sask (fun n => senv_privilege n query) (fun a => [SvPrivilege query a]).

(** ** [checkPrivileges] *)

Definition replication_query : ssql :=
  ("SELECT rolreplication FROM pg_roles WHERE rolname = current_user"%string, []).
Definition schema_query (schema : string) : ssql :=
  ("SELECT has_schema_privilege(current_user, $1, 'CREATE')"%string, [ArgText schema]).
Definition database_query : ssql :=
  ("SELECT has_database_privilege(current_user, current_database(), 'CREATE')"%string, []).

(** The description of a missing privilege: a format and its arguments. *)
Definition message : Type := string * list arg.

(** One privilege: asked for unless it is skipped, and added to the missing
    ones when the answer is no. *)
Definition check_one (skip : bool) (query : ssql) (wrap : string) (what : message)
    (missing : list message) : SM (result error (list message)) :=
  if skip then mret (Ok missing)
  else
    do? has := query_privilege query orelse Wrapf wrap [];
    mret (Ok (if has then missing else missing ++ [what])).

(** The error lists the missing privileges. *)
Definition missing_error (user : string) (missing : list message) : error :=
  Errorf "user %q is missing required privileges: %s"
    (AStr user :: concat (map (fun m => AStr m.1 :: m.2) missing)).

Definition checkPrivileges (schema : string) (skipPublication skipSlot : bool) : SM (result error unit) :=
  do? user := sask senv_user (fun a => [SvUser a]) orelse Wrapf "get current user: %w" [];
  do? missing := check_one skipSlot replication_query "check replication role: %w"
    ("REPLICATION role (required to create replication slots)", [])%string [] orelse same;
  do? missing := check_one false (schema_query schema) "check schema privilege: %w"
    ("CREATE on schema %q (required to create tables)", [AStr schema])%string missing orelse same;
  do? missing := check_one skipPublication database_query "check database privilege: %w"
    ("CREATE on database (required to create publications)", [])%string missing orelse same;
  match missing with
  | [] => mret (Ok tt)
  | _ => mret (Err (missing_error user missing))
  end.

(** ** [runCreate] *)

Definition partition_name (prefix : string) (t : Time) : string :=
  (prefix ++ "_jobs_" ++ Format minute_layout t)%string.

Definition create_partition_sql (schema prefix : string) (t upper : Time) : string :=
  ("CREATE TABLE IF NOT EXISTS " ++ schema ++ "." ++ partition_name prefix t ++ " PARTITION OF "
   ++ schema ++ "." ++ prefix ++ "_jobs FOR VALUES FROM ('" ++ Format RFC3339 t ++ "') TO ('"
   ++ Format RFC3339 upper ++ "')")%string.

Definition insert_meta_sql (schema prefix : string) : string :=
  ("INSERT INTO " ++ schema ++ "." ++ prefix ++ "_partition_meta (partition_name, lower_bound, upper_bound) VALUES ($1, $2, $3) ON CONFLICT DO NOTHING")%string.

(** The loop of [createPartitionRange]. *)
Fixpoint range_loop (schema prefix : string) (ts : list Time) : SM (result error unit) :=
  match ts with
  | [] => mret (Ok tt)
  | t :: ts =>
      let upper := GoTime.Add t Hour in
      do? _ := conn_Exec (create_partition_sql schema prefix t upper) []
        orelse Wrapf "create partition %s: %w" [AStr (partition_name prefix t)];
      range_loop schema prefix ts
  end.

Definition range_times (start stop : Time) : list Time :=
  for_times (times_fuel start stop Hour) start stop Hour.

Definition range_end (now : Time) : Time := Truncate (GoTime.Add now (13 * Hour)) Hour.

Definition createPartitionRange (schema prefix : string) (start : Time) : SM (result error unit) :=
  let start := Truncate start Hour in
  now ← s_Now;
  let stop := range_end now in
  if negb (Before start stop) then
    mret (Err (Errorf "--create-partitions: start %s is not before computed end %s"
                 [AStr (Format RFC3339 start); AStr (Format RFC3339 stop)]))
  else range_loop schema prefix (range_times start stop).

Definition replacer (schema prefix publication slot : string) : list (string * string) :=
  [("{schema}", schema); ("{prefix}", prefix); ("{publication_name}", publication);
   ("{slot_name}", slot)]%string.

Definition skipped (skipPub skipSlot : bool) (name : string) : bool :=
  (skipPub && Contains name "create_publication") ||
  (skipSlot && Contains name "create_replication_slot").

(** The loop over the files. *)
Fixpoint run_files (skipPub skipSlot : bool) (pairs : list (string * string)) (files : list sqlFile)
  : SM (result error unit) :=
  match files with
  | [] => mret (Ok tt)
  | f :: files =>
      if skipped skipPub skipSlot (sf_name f) then run_files skipPub skipSlot pairs files
      else
        do? _ := conn_Exec (Replace pairs (sf_content f)) [] orelse Wrapf "%s: %w" [AStr (sf_name f)];
        run_files skipPub skipSlot pairs files
  end.

(** The partition of the current hour, and its registration. *)
Definition initialPartition (schema prefix : string) : SM (result error unit) :=
  now ← s_Now;
  let now := Truncate now Hour in
  let upper := GoTime.Add now Hour in
  do? _ := conn_Exec (create_partition_sql schema prefix now upper) []
    orelse Wrapf "create initial partition: %w" [];
  do? _ := conn_Exec (insert_meta_sql schema prefix)
      [ArgText (partition_name prefix now); ArgTime now; ArgTime upper]
    orelse Wrapf "register initial partition: %w" [];
  mret (Ok tt).

Definition runCreate (f : Flags) (partitionsStart : Time) : SM (result error unit) :=
  let skipPub := skipPublication f || replica f in
  let skipSlot := replica f in
  do? _ := checkPrivileges (schema f) skipPub skipSlot orelse same;
  do? files := mret (readSQLFiles senv_dir) orelse same;
  do? _ := run_files skipPub skipSlot
      (replacer (schema f) (SetupFlags.prefix f) (publication f) (slot f)) files orelse same;
  if replica f then
    if negb (IsZero partitionsStart)
    then createPartitionRange (schema f) (SetupFlags.prefix f) partitionsStart
    else mret (Ok tt)
  else initialPartition (schema f) (SetupFlags.prefix f).

(** ** [runDestroy] *)

Definition drop_slot : string := "SELECT pg_drop_replication_slot($1)".

Fixpoint drop_tables (tables : list string) : SM (result error unit) :=
  match tables with
  | [] => mret (Ok tt)
  | t :: tables =>
      do? _ := conn_Exec ("DROP TABLE IF EXISTS " ++ t ++ " CASCADE")%string []
        orelse Wrapf "drop %s: %w" [AStr t];
      drop_tables tables
  end.

Definition tables_of (schema prefix : string) : list string :=
  map (fun t => schema ++ "." ++ prefix ++ t)%string ["_jobs"; "_cursor"; "_partition_meta"; "_dlq"]%string.

(** The errors of the first two statements are ignored. *)
Definition runDestroy (f : Flags) : SM (result error unit) :=
  _ ← conn_Exec drop_slot [ArgText (slot f)];
  _ ← conn_Exec ("DROP PUBLICATION IF EXISTS " ++ publication f)%string [];
  drop_tables (tables_of (schema f) (SetupFlags.prefix f)).

(** ** [main]: the exit code *)

Definition exit_code (r : result error unit) : Z := match r with Ok _ => 0 | Err _ => 1 end.

Definition main (args : list string) : SM Z :=
  match args with
  | _ :: cmd :: args =>
      match parse_flags args with
      | Err code => mret code
      | Ok f =>
          match check_flags cmd f with
          | Err _ => mret 1
          | Ok start =>
              a ← sask (fun n => senv_connect n (connString f)) (fun a => [SvConnect a]);
              match a with
              | Some _ => mret 1
              | None =>
                  if String.eqb cmd "create" then r ← runCreate f start; mret (exit_code r)
                  else if String.eqb cmd "destroy" then r ← runDestroy f; mret (exit_code r)
                  else mret 1
              end
          end
      end
  | _ => mret 1
  end.

End Setup.
