(* ===== verification/SetupTheorems.v ===== *)
(** * Theorems about pglg-setup

    The order of the statements, what decides whether they run, and that the
    partitions the command creates are those the driver would create. *)

From S2P Require Export Setup Partition.

Open Scope Z_scope.
Open Scope pglg_scope.

(** ** The replacer *)

(** A template: text without an opening brace, and the four placeholders. *)
Inductive hole := HSchema | HPrefix | HPublication | HSlot.
Inductive seg := Text (s : string) | Hole (h : hole).

Definition hole_text (h : hole) : string :=
  match h with
  | HSchema => "{schema}" | HPrefix => "{prefix}"
  | HPublication => "{publication_name}" | HSlot => "{slot_name}"
  end.

Definition fill (schema prefix publication slot : string) (h : hole) : string :=
  match h with
  | HSchema => schema | HPrefix => prefix | HPublication => publication | HSlot => slot
  end.

Fixpoint template (l : list seg) : string :=
  match l with
  | [] => ""
  | Text s :: l => s ++ template l
  | Hole h :: l => hole_text h ++ template l
  end%string.

Fixpoint instantiate (value : hole -> string) (l : list seg) : string :=
  match l with
  | [] => ""
  | Text s :: l => s ++ instantiate value l
  | Hole h :: l => value h ++ instantiate value l
  end%string.

Definition no_brace (g : seg) : Prop :=
  match g with Text s => "{"%char ∉ list_ascii_of_string s | Hole _ => True end.

Lemma find_old_none a b c d x s : x <> "{"%char -> find_old (replacer a b c d) (String x s) = None.
Proof.
  intros Hx. unfold find_old, replacer, HasPrefix. cbn [List.find fst]. rewrite !prefix_cons.
  destruct (ascii_dec "{" x); [by subst|done].
Qed.

Lemma replace_text a b c d t s :
  "{"%char ∉ list_ascii_of_string t ->
  replace_loop (replacer a b c d) 0 (t ++ s) = (t ++ replace_loop (replacer a b c d) 0 s)%string.
Proof.
  induction t as [|x t IH]; [done|]. cbn [list_ascii_of_string]. rewrite not_elem_of_cons.
  intros [Hx Ht]. cbn [String.append replace_loop]. rewrite find_old_none by done. by rewrite IH.
Qed.

Lemma replace_hole a b c d h s :
  replace_loop (replacer a b c d) 0 (hole_text h ++ s) =
  (fill a b c d h ++ replace_loop (replacer a b c d) 0 s)%string.
Proof. by destruct h, s. Qed.

(** C38: the files are templates, and the replacer puts the four values
    in for the placeholders at once: braces inside of a value are not looked at
    again. *)
Theorem Replace_template (schema prefix publication slot : string) (l : list seg)
    (Hl : Forall no_brace l) :
  Replace (replacer schema prefix publication slot) (template l) =
  instantiate (fill schema prefix publication slot) l.
Proof.
  unfold Replace. induction Hl as [|[s|h] l Hs _ IH]; [done| |]; cbn [template instantiate].
  - by rewrite replace_text, IH.
  - by rewrite replace_hole, IH.
Qed.

(** The first line of 002_create_cursor.sql, with a prefix that looks like a
    placeholder. *)
Definition cursor_template : list seg :=
  [Text "CREATE TABLE IF NOT EXISTS "; Hole HSchema; Text "."; Hole HPrefix; Text "_cursor ("]%string.

Lemma Replace_template_witness :
  template cursor_template = "CREATE TABLE IF NOT EXISTS {schema}.{prefix}_cursor ("%string /\
  Replace (replacer "public" "{schema}" "p" "s") (template cursor_template) =
    "CREATE TABLE IF NOT EXISTS public.{schema}_cursor ("%string.
Proof.
  split; [reflexivity|].
  refine (Replace_template "public" "{schema}" "p" "s" cursor_template _).
  unfold cursor_template. repeat constructor; cbn; set_solver.
Defined.

(** ** Scripts

    What a part of the command executes: a list of statements, stopped at the
    first that fails. *)
Inductive attempted : list ssql -> bool -> list (ssql * option error) -> Prop :=
| att_done : attempted [] true []
| att_stop script : attempted script false []
| att_fail q e script : attempted (q :: script) false [(q, Some e)]
| att_ok q script b tr : attempted script b tr -> attempted (q :: script) b ((q, None) :: tr).

Definition exec_of (e : sevent) : option (ssql * option error) :=
  match e with SvExec q a => Some (q, a) | _ => None end.
Definition execs (tr : list sevent) : list (ssql * option error) := omap exec_of tr.

Definition priv_of (e : sevent) : option (ssql * result error bool) :=
  match e with SvPrivilege q a => Some (q, a) | _ => None end.
Definition privs (tr : list sevent) : list (ssql * result error bool) := omap priv_of tr.

(** The trace of a run, from its start. *)
Definition adds (w w' : SWorld) (tr : list sevent) : Prop := s_trace w' = s_trace w ++ tr.

Definition performs {A} (m : SM (result error A)) (script : list ssql) : Prop :=
  forall w, exists tr, adds w (m w).2 tr /\ attempted script (is_Ok (m w).1) (execs tr) /\ privs tr = [].

Lemma attempted_app s1 s2 b t1 t2 :
  attempted s1 true t1 -> attempted s2 b t2 -> attempted (s1 ++ s2) b (t1 ++ t2).
Proof.
  remember true as ok eqn:E. induction 1; intros; simplify_eq; cbn; [done|]. constructor; auto.
Qed.

Lemma attempted_stop s1 s2 t : attempted s1 false t -> attempted (s1 ++ s2) false t.
Proof. remember false as ok eqn:E. induction 1; simplify_eq; cbn; constructor; auto. Qed.

Lemma attempted_ok script tr : attempted script true tr -> tr = map (fun q => (q, None)) script.
Proof. remember true as ok eqn:E. induction 1; simplify_eq; cbn; f_equal; auto. Qed.

Lemma execs_app t1 t2 : execs (t1 ++ t2) = execs t1 ++ execs t2.
Proof. apply omap_app. Qed.
Lemma privs_app t1 t2 : privs (t1 ++ t2) = privs t1 ++ privs t2.
Proof. apply omap_app. Qed.

Lemma performs_ret {A} (a : A) : performs (mret (Ok a)) [].
Proof. intros w. exists []. split_and!; [unfold adds; by rewrite app_nil_r|constructor|done]. Qed.

Lemma performs_err {A} (e : error) script : performs (A:=A) (mret (Err e)) script.
Proof. intros w. exists []. split_and!; [unfold adds; by rewrite app_nil_r|constructor|done]. Qed.

Lemma performs_bind {A B} (m : SM (result error A)) (k : A -> SM (result error B)) f s1 s2 :
  performs m s1 -> (forall a, performs (k a) s2) -> performs (bindE f m k) (s1 ++ s2).
Proof.
  intros Hm Hk w. unfold bindE, mbind, ST_bind. destruct (Hm w) as (t1 & H1 & H2 & H3).
  destruct (m w) as [[a|e] w1]; cbn [fst snd is_Ok] in *.
  - destruct (Hk a w1) as (t2 & H4 & H5 & H6). exists (t1 ++ t2). unfold adds in *.
    rewrite execs_app, privs_app, H3, H6. split_and!; [by rewrite H4, H1, app_assoc| |done].
    by apply attempted_app.
  - exists t1. split_and!; [done|by apply attempted_stop|done].
Qed.

#[export] Hint Resolve performs_ret performs_err performs_bind : pglg.

Section Theorems.
  Context `{SEnv}.

Lemma performs_exec text args : performs (conn_Exec text args) [(text, args)].
Proof.
  intros w. unfold conn_Exec, sask, mbind, ST_bind, mret, ST_ret. cbn.
  eexists. split_and!; [reflexivity| |done]. destruct (senv_exec _ _); cbn; repeat constructor.
Qed.

(** ** The parts of the command *)

Definition file_stmt (f : Flags) (sf : sqlFile) : ssql :=
  (Replace (replacer (schema f) (SetupFlags.prefix f) (publication f) (slot f)) (sf_content sf), []).

Definition kept (f : Flags) (files : list sqlFile) : list sqlFile :=
  base.filter (fun sf => skipped (skipPublication f || replica f) (replica f) (sf_name sf) = false) files.

Definition hour_stmt (schema prefix : string) (t : Time) : ssql :=
  (create_partition_sql schema prefix t (GoTime.Add t Hour), []).

Definition initial_script (schema prefix : string) (now : Time) : list ssql :=
  let t := Truncate now Hour in
  [hour_stmt schema prefix t;
   (insert_meta_sql schema prefix,
    [ArgText (partition_name prefix t); ArgTime t; ArgTime (GoTime.Add t Hour)])].

Definition tail_script (f : Flags) (start now : Time) : list ssql :=
  if replica f then
    if IsZero start then []
    else map (hour_stmt (schema f) (SetupFlags.prefix f)) (range_times (Truncate start Hour) (range_end now))
  else initial_script (schema f) (SetupFlags.prefix f) now.

(** The statements of [create] when nothing fails. *)
Definition create_script (f : Flags) (start now : Time) (files : list sqlFile) : list ssql :=
  map (file_stmt f) (kept f files) ++ tail_script f start now.

(** The privileges it needs. *)
Definition required (f : Flags) : list ssql :=
  (if replica f then [] else [replication_query]) ++ [schema_query (schema f)] ++
  (if skipPublication f || replica f then [] else [database_query]).

Lemma performs_run_files f files :
  performs (run_files (skipPublication f || replica f) (replica f)
    (replacer (schema f) (SetupFlags.prefix f) (publication f) (slot f)) files)
    (map (file_stmt f) (kept f files)).
Proof.
  induction files as [|sf files IH]; cbn [run_files]; [apply performs_ret|].
  unfold kept. rewrite filter_cons. destruct (skipped _ _ _) eqn:E; case_decide; try done.
  cbn [map]. apply (performs_bind _ _ _ [_]); [apply performs_exec|]. intros _. apply IH.
Qed.

Lemma performs_range_loop schema prefix ts :
  performs (range_loop schema prefix ts) (map (hour_stmt schema prefix) ts).
Proof.
  induction ts as [|t ts IH]; cbn [range_loop map]; [apply performs_ret|].
  apply (performs_bind _ _ _ [_]); [apply performs_exec|]. intros _. apply IH.
Qed.

Lemma performs_drop_tables ts :
  performs (drop_tables ts) (map (fun t => ("DROP TABLE IF EXISTS " ++ t ++ " CASCADE", [])%string) ts).
Proof.
  induction ts as [|t ts IH]; cbn [drop_tables map]; [apply performs_ret|].
  apply (performs_bind _ _ _ [_]); [apply performs_exec|]. intros _. apply IH.
Qed.

(** ** The parts that read the clock *)

Definition performs_at {A} (w : SWorld) (m : SM (result error A)) (script : list ssql) : Prop :=
  exists tr, adds w (m w).2 tr /\ attempted script (is_Ok (m w).1) (execs tr) /\ privs tr = [].

Lemma performs_bind_at {A B} w (m : SM (result error A)) (k : A -> SM (result error B)) f s1
    (s2 : nat -> list ssql) :
  performs m s1 -> (forall a w1, exists n, performs_at w1 (k a) (s2 n)) ->
  exists n, performs_at w (bindE f m k) (s1 ++ s2 n).
Proof.
  intros Hm Hk. unfold performs_at, bindE, mbind, ST_bind. destruct (Hm w) as (t1 & H1 & H2 & H3).
  destruct (m w) as [[a|e] w1]; cbn [fst snd is_Ok] in *.
  - destruct (Hk a w1) as (n & t2 & H4 & H5 & H6). exists n, (t1 ++ t2). unfold adds in *.
    rewrite execs_app, privs_app, H3, H6. split_and!; [by rewrite H4, H1, app_assoc| |done].
    by apply attempted_app.
  - exists 0%nat, t1. split_and!; [done|by apply attempted_stop|done].
Qed.

(** Reading the clock adds nothing to the trace. *)
Lemma performs_now {B} (k : Time -> SM (result error B)) (script : Time -> list ssql) w :
  (forall now, performs (k now) (script now)) ->
  performs_at w (s_Now ≫= k) (script (senv_now (s_tick w))).
Proof.
  intros Hk. unfold performs_at, s_Now, sask, mbind, ST_bind. cbn beta iota zeta.
  destruct (Hk (senv_now (s_tick w)) {| s_tick := S (s_tick w); s_trace := s_trace w ++ [] |})
    as (tr & H1 & H2). exists tr. split; [|done]. unfold adds in *. rewrite H1. cbn. by rewrite app_nil_r.
Qed.

Lemma performs_range schema prefix start w :
  performs_at w (createPartitionRange schema prefix start)
    (map (hour_stmt schema prefix) (range_times (Truncate start Hour) (range_end (senv_now (s_tick w))))).
Proof.
  unfold createPartitionRange.
  apply (performs_now _ (fun now => map (hour_stmt schema prefix)
    (range_times (Truncate start Hour) (range_end now)))).
  intros now. destruct (negb _); [apply performs_err|apply performs_range_loop].
Qed.

Lemma performs_tail f start w :
  exists n, performs_at w
    (if replica f then
       if negb (IsZero start) then createPartitionRange (schema f) (SetupFlags.prefix f) start
       else mret (Ok tt)
     else initialPartition (schema f) (SetupFlags.prefix f)) (tail_script f start (senv_now n)).
Proof.
  exists (s_tick w). unfold tail_script. destruct (replica f).
  - destruct (IsZero start); [apply performs_ret|apply performs_range].
  - unfold initialPartition. apply (performs_now _ (initial_script _ _)). intros now.
    apply (performs_bind _ _ _ [_] [_]); [apply performs_exec|]. intros _.
    apply (performs_bind _ _ _ [_] []); [apply performs_exec|]. intros _. apply performs_ret.
Qed.

(** ** Privileges *)

(** A part that only asks: it executes nothing, and when it ends without an
    error [Q] holds of its result and the privileges it asked for. *)
Definition asks {A} (m : SM (result error A)) (Q : A -> list (ssql * result error bool) -> Prop) : Prop :=
  forall w, exists tr, adds w (m w).2 tr /\ execs tr = [] /\ (forall a, (m w).1 = Ok a -> Q a (privs tr)).

Lemma asks_bind {A B} (m : SM (result error A)) (k : A -> SM (result error B)) f Q Q' :
  asks m Q -> (forall a, asks (k a) (Q' a)) ->
  asks (bindE f m k) (fun b ps => exists a p1 p2, ps = p1 ++ p2 /\ Q a p1 /\ Q' a b p2).
Proof.
  intros Hm Hk w. unfold bindE, mbind, ST_bind. destruct (Hm w) as (t1 & H1 & H2 & H3).
  destruct (m w) as [[a|e] w1]; cbn [fst snd] in *.
  - destruct (Hk a w1) as (t2 & H4 & H5 & H6). exists (t1 ++ t2). unfold adds in *.
    rewrite execs_app, privs_app, H2, H5. split_and!; [by rewrite H4, H1, app_assoc|done|].
    intros b Hb. eauto 10.
  - exists t1. by split_and!.
Qed.

Lemma asks_mono {A} (m : SM (result error A)) (Q Q' : A -> list (ssql * result error bool) -> Prop) :
  asks m Q -> (forall a ps, Q a ps -> Q' a ps) -> asks m Q'.
Proof. intros Hm HQ w. destruct (Hm w) as (tr & ? & ? & ?). exists tr. eauto. Qed.

Lemma check_one_asks skip q wrap what missing :
  asks (check_one skip q wrap what missing) (fun m ps =>
    m = [] -> missing = [] /\ ps = if skip then [] else [(q, Ok true)]).
Proof.
  intros w. unfold check_one, query_privilege, sask, bindE, mbind, ST_bind, mret, ST_ret.
  destruct skip; cbn.
  - exists []. split_and!; [unfold adds; by rewrite app_nil_r|done|by intros m [= <-] ->].
  - destruct (senv_privilege _ _) as [[|]|e] eqn:E; cbn;
      (eexists; split_and!; [reflexivity|reflexivity|]); cbn; rewrite ?E.
    + by intros m [= <-] ->.
    + intros m [= <-] E0. by destruct missing.
    + by intros m [=].
Qed.

Lemma user_asks : asks (sask senv_user (fun a => [SvUser a])) (fun _ ps => ps = []).
Proof. intros w. exists [SvUser (senv_user (s_tick w))]. split; [done|]. split; [done|]. by intros. Qed.

(** The privileges that were asked for when the check passes. *)
Lemma checkPrivileges_asks f :
  asks (checkPrivileges (schema f) (skipPublication f || replica f) (replica f))
    (fun _ ps => ps = map (fun q => (q, Ok true)) (required f)).
Proof.
  assert (Hend : forall user missing, asks (match missing with
    | [] => mret (Ok tt) | _ => mret (Err (missing_error user missing)) end)
    (fun (_ : unit) ps => missing = [] /\ ps = [])).
  { intros user [|] w; exists []; split_and!; try done; unfold adds; by rewrite app_nil_r. }
  eapply asks_mono; [unfold checkPrivileges; eapply asks_bind; [apply user_asks|]; intros user;
    eapply asks_bind; [apply check_one_asks|]; intros m1;
    eapply asks_bind; [apply check_one_asks|]; intros m2;
    eapply asks_bind; [apply check_one_asks|]; intros m3; apply Hend|].
  intros a ps (u & p0 & p1 & -> & -> & m1 & p2 & p3 & -> & E1 & m2 & p4 & p5 & -> & E2 &
    m3 & p6 & p7 & -> & E3 & -> & ->).
  destruct (E3 eq_refl) as [-> ->], (E2 eq_refl) as [-> ->], (E1 eq_refl) as [_ ->].
  unfold required. by destruct (replica f), (skipPublication f).
Qed.

(** ** [create] and [destroy] *)

(** C35: whatever fails, [create] executes an initial part of its script,
    in order, up to the first statement that fails, and it succeeds exactly
    when the whole script was executed: the files that are not
    skipped, in the order of their names, with the values filled in, then the partitions. No statement is
    executed before every privilege that the flags require was asked for and
    granted. *)
Theorem runCreate_script (f : Flags) (start : Time) (files : list sqlFile) (w : SWorld)
    (Hfiles : readSQLFiles senv_dir = Ok files) :
  let '(r, w') := runCreate f start w in
  exists n tr, adds w w' tr /\
    attempted (create_script f start (senv_now n) files) (is_Ok r) (execs tr) /\
    (execs tr <> [] \/ is_Ok r = true -> privs tr = map (fun q => (q, Ok true)) (required f)).
Proof.
  unfold runCreate. rewrite Hfiles. unfold bindE at 1, mbind at 1, ST_bind at 1.
  destruct (checkPrivileges_asks f w) as (t1 & H1 & H2 & H3).
  destruct (checkPrivileges _ _ _ w) as [[[]|e] w1]; cbn [fst snd] in *.
  - change (bindE same (mret (Ok files)) ?k) with (k files).
    destruct (performs_bind_at w1 _ _ same _ (fun n => tail_script f start (senv_now n))
      (performs_run_files f files) (fun _ w2 => performs_tail f start w2)) as (n & t2 & H4 & H5 & H6).
    destruct (bindE same (run_files _ _ _ files) _ w1) as [r w2]. cbn [fst snd] in *.
    exists n, (t1 ++ t2). unfold adds in *. rewrite execs_app, privs_app, H2, H6, app_nil_r.
    split_and!; [by rewrite H4, H1, app_assoc|exact H5|]. intros _. by apply (H3 tt).
  - exists 0%nat, t1. rewrite H2. split_and!; [done|constructor|naive_solver].
Qed.

(** [destroy] first drops the slot and then the publication, whether
    or not that succeeds, and then the tables in their order up to the first that fails; it
    succeeds exactly when all tables were dropped. *)
Theorem runDestroy_order (f : Flags) (w : SWorld) :
  let '(r, w') := runDestroy f w in
  exists a1 a2 tr, adds w w'
      (SvExec (drop_slot, [ArgText (slot f)]) a1 ::
       SvExec ("DROP PUBLICATION IF EXISTS " ++ publication f, [])%string a2 :: tr) /\
    attempted (map (fun t => ("DROP TABLE IF EXISTS " ++ t ++ " CASCADE", [])%string)
      (tables_of (schema f) (SetupFlags.prefix f))) (is_Ok r) (execs tr).
Proof.
  unfold runDestroy. unfold conn_Exec at 1 2, sask, mbind, ST_bind, mret, ST_ret. cbn beta iota zeta.
  set (w2 := {| s_tick := _; s_trace := _ |}).
  destruct (performs_drop_tables (tables_of (schema f) (SetupFlags.prefix f)) w2) as (tr & H1 & H2 & _).
  destruct (drop_tables _ w2) as [r w3]. cbn [fst snd] in *. do 2 eexists. exists tr.
  split; [|exact H2]. unfold adds in *. rewrite H1. subst w2. cbn [s_trace]. by rewrite <- !app_assoc.
Qed.

(** ** The partitions of a replica *)

Lemma Hour_pos : 0 < Hour.
Proof. reflexivity. Qed.

Lemma elem_of_range_times start stop t :
  t ∈ range_times start stop <-> start <= t < stop /\ (t - start) mod Hour = 0.
Proof.
  unfold range_times. pose proof Hour_pos as Hp. rewrite elem_of_for_times by exact Hp.
  unfold times_fuel. generalize dependent Hour. intros h Hp. split.
  - intros (k & Hk & -> & Hlt). replace (start + k * h - start) with (k * h) by lia.
    rewrite Z_mod_mult. nia.
  - intros [Hr Hm]. exists ((t - start) / h).
    pose proof (Z_div_mod_eq_full (t - start) h) as E. rewrite Hm in E.
    assert (0 <= (t - start) / h) by (apply Z.div_pos; lia).
    assert ((t - start) / h <= (stop - start) / h) by (apply Z.div_le_mono; lia).
    split; [lia|]. split; lia.
Qed.

Lemma NoDup_for_times fuel t stop step : 0 < step -> NoDup (for_times fuel t stop step).
Proof.
  intros Hs. revert t. induction fuel as [|fuel IH]; intros t; cbn [for_times]; [constructor|].
  destruct (Before t stop); constructor; [|apply IH].
  rewrite elem_of_for_times by done. unfold GoTime.Add. intros (k & Hk & E & _).
  assert (0 <= k * step) by (apply Z.mul_nonneg_nonneg; lia). lia.
Qed.

(** The multiples of a step from an aligned instant on are those at a multiple
    of the step from it. *)
Lemma mod_from_aligned s t h : 0 < h -> s mod h = 0 -> (t - s) mod h = 0 <-> t mod h = 0.
Proof.
  intros Hh Hs. apply Z.mod_divide in Hs as [k ->]; [|lia].
  replace (t - k * h) with (t + (- k) * h) by lia. by rewrite Z_mod_plus_full.
Qed.

Lemma hour_below s stop x :
  s mod Hour = 0 -> s <= x < stop -> s <= Truncate x Hour < stop /\ Truncate x Hour mod Hour = 0.
Proof.
  intros Hs Hx. pose proof (Truncate_bounds x _ Hour_pos).
  pose proof (Truncate_multiple x _ Hour_pos) as Hm. split; [|done]. split; [|lia].
  pose proof Hour_pos. generalize dependent Hour. intros h Hs Ht Hm Hh.
  apply Z.mod_divide in Hs as [k ->]; [|lia]. apply Z.mod_divide in Hm as [j Hj]; [|lia].
  assert (k * h < (j + 1) * h) as Hlt by lia. apply Zmult_lt_reg_r in Hlt; [|done].
  assert (k * h <= j * h) by (apply Z.mul_le_mono_nonneg_r; lia). lia.
Qed.

Lemma hour_stmt_driver cfg t :
  hour_stmt (Schema cfg) (TablePrefix cfg) t =
  (ddl_text cfg (CreatePartition (partitionName cfg t) (Format RFC3339 t)
     (Format RFC3339 (GoTime.Add t Hour))), []).
Proof.
  unfold hour_stmt, create_partition_sql, ddl_text, partition_name, partitionName, jobs_prefix, jobsTable.
  f_equal. rewrite (str_app_assoc (TablePrefix cfg) "_jobs_").
  do 4 f_equal.
  generalize (Format RFC3339 t) (Format RFC3339 (GoTime.Add t Hour)). intros l u.
  rewrite (str_app_assoc (Schema cfg) _ (" FOR VALUES FROM ('" ++ l ++ _)%string). do 2 f_equal.
  rewrite (str_app_assoc "." _ (" FOR VALUES FROM ('" ++ l ++ _)%string). f_equal.
  rewrite (str_app_assoc (TablePrefix cfg) _ (" FOR VALUES FROM ('" ++ l ++ _)%string). reflexivity.
Qed.

(** C36: when the creation of the partitions of a replica succeeds, it has
    executed exactly one statement per hour from the hour of the start to thirteen
    hours from now, each of them the statement with which the driver would create
    the partition of that hour, and they cover that time without a gap. *)
Theorem createPartitionRange_cover (cfg : Config) (start : Time) (w w' : SWorld)
    (Hok : createPartitionRange (Schema cfg) (TablePrefix cfg) start w = (Ok tt, w')) :
  let stop := range_end (senv_now (s_tick w)) in
  exists tr hours, adds w w' tr /\
    execs tr = map (fun t => ((ddl_text cfg (CreatePartition (partitionName cfg t) (Format RFC3339 t)
                                 (Format RFC3339 (GoTime.Add t Hour))), []), None)) hours /\
    NoDup hours /\
    (forall t, t ∈ hours <-> Truncate start Hour <= t < stop /\ t mod Hour = 0) /\
    (forall x, Truncate start Hour <= x < stop -> exists t, t ∈ hours /\ t <= x < GoTime.Add t Hour).
Proof.
  intros stop. destruct (performs_range (Schema cfg) (TablePrefix cfg) start w) as (tr & H1 & H2 & _).
  rewrite Hok in H1, H2. apply attempted_ok in H2. fold stop in H2.
  pose proof (Truncate_multiple start _ Hour_pos) as Hal.
  assert (Hin : forall t, t ∈ range_times (Truncate start Hour) stop <->
    Truncate start Hour <= t < stop /\ t mod Hour = 0).
  { intros t. rewrite elem_of_range_times. by rewrite (mod_from_aligned _ _ _ Hour_pos Hal). }
  exists tr, (range_times (Truncate start Hour) stop). split_and!; [done| | |exact Hin|].
  - rewrite H2, map_map. apply map_ext. intros t. by rewrite hour_stmt_driver.
  - by apply NoDup_for_times.
  - intros x Hx. exists (Truncate x Hour). rewrite Hin.
    split; [by apply hour_below|by apply Truncate_bounds, Hour_pos].
Qed.

(** ** [main] *)

(** C37: a statement is only executed after the command line was accepted, for create
    or destroy, and the connection was made; the exit code is 0 exactly when the
    command was carried out or help was asked for, and then nothing was sent at all. *)
Theorem main_guarded (args : list string) (w : SWorld) :
  let '(code, w') := main args w in
  (code = 0 \/ code = 1 \/ code = 2) /\
  ((w' = w /\ (code = 0 -> exists p cmd rest, args = p :: cmd :: rest /\ parse_flags rest = Err 0)) \/
   exists p cmd rest f start a, args = p :: cmd :: rest /\
     parse_flags rest = Ok f /\ check_flags cmd f = Ok start /\
     exists w1, adds w w1 [SvConnect a] /\
     ((w' = w1 /\ code = 1 /\ (a <> None \/ (cmd <> "create" /\ cmd <> "destroy")%string)) \/
      (a = None /\ cmd = "create"%string /\ exists r, runCreate f start w1 = (r, w') /\ code = exit_code r) \/
      (a = None /\ cmd = "destroy"%string /\ exists r, runDestroy f w1 = (r, w') /\ code = exit_code r))).
Proof.
  unfold main. destruct args as [|p [|cmd rest]]; [by unfold mret, ST_ret; split; [auto|left; done]..|].
  destruct (parse_flags rest) as [f|c] eqn:Ef.
  2: { unfold mret, ST_ret. split; [apply flag_Parse_code in Ef; tauto|]. left. split; [done|].
    intros ->. eauto. }
  destruct (check_flags cmd f) as [start|] eqn:Ec; [|by unfold mret, ST_ret; split; [auto|left; done]].
  unfold sask, mbind, ST_bind, mret, ST_ret. cbn beta iota zeta.
  set (a := senv_connect _ _). set (w1 := {| s_tick := _; s_trace := _ |}).
  assert (Hcode : forall r, exit_code r = 0 \/ exit_code r = 1 \/ exit_code r = 2)
    by (intros []; cbn; auto).
  assert (Hw1 : adds w w1 [SvConnect a]) by done. clearbody w1.
  destruct a as [e|] eqn:Ea; [by split; [auto|right; exists p, cmd, rest, f, start, (Some e); eauto 10]|].
  destruct (String.eqb_spec cmd "create") as [->|Hc].
  { destruct (runCreate f start w1) as [r w2] eqn:Er. split; [apply Hcode|]. right.
    exists p, "create"%string, rest, f, start, None. eauto 12. }
  destruct (String.eqb_spec cmd "destroy") as [->|Hd].
  { destruct (runDestroy f w1) as [r w2] eqn:Er. split; [apply Hcode|]. right.
    exists p, "destroy"%string, rest, f, start, None. eauto 12. }
  split; [auto|]. right. exists p, cmd, rest, f, start, None. eauto 12.
Qed.

End Theorems.

(** ** Witnesses *)

(** A server that accepts everything, and two of the embedded files. *)
Definition sample_senv : SEnv := {|
  senv_now := fun _ => Date 2025 2 1 10 20 0 0; senv_connect := fun _ _ => None;
  senv_user := fun _ => Ok "admin"%string; senv_privilege := fun _ _ => Ok true;
  senv_exec := fun _ _ => None;
  senv_dir := Ok [{| de_name := "004_create_publication.sql"; de_isDir := false;
                     de_content := Ok "SELECT '{publication_name}'" |};
                  {| de_name := "002_create_cursor.sql"; de_isDir := false;
                     de_content := Ok (template cursor_template) |};
                  {| de_name := "README"; de_isDir := false; de_content := Ok "" |}]%string |}.

Definition sworld0 : SWorld := {| s_tick := 0; s_trace := [] |}.

Definition sample_files : list sqlFile :=
  [{| sf_name := "002_create_cursor.sql"; sf_content := template cursor_template |};
   {| sf_name := "004_create_publication.sql"; sf_content := "SELECT '{publication_name}'" |}]%string.

Definition replica_start : Time := Date 2025 1 31 23 30 0 0.

Lemma runCreate_script_witness :
  readSQLFiles (@senv_dir sample_senv) = Ok sample_files /\
  is_Ok (runCreate (H:=sample_senv) replica_flags replica_start sworld0).1 = true /\
  let '(r, w') := runCreate (H:=sample_senv) replica_flags replica_start sworld0 in
  exists n tr, adds sworld0 w' tr /\
    attempted (create_script replica_flags replica_start (@senv_now sample_senv n) sample_files)
      (is_Ok r) (execs tr) /\
    (execs tr <> [] \/ is_Ok r = true ->
     privs tr = map (fun q => (q, Ok true)) (required replica_flags)).
Proof.
  split; [vm_compute; reflexivity|]. split; [vm_compute; reflexivity|].
  exact (runCreate_script (H:=sample_senv) replica_flags replica_start sample_files sworld0
           ltac:(vm_compute; reflexivity)).
Defined.

Definition sample_range_world : SWorld :=
  (createPartitionRange (H:=sample_senv) "public" "outbox" replica_start sworld0).2.

Lemma createPartitionRange_cover_witness :
  createPartitionRange (H:=sample_senv) (Schema sample_config) (TablePrefix sample_config)
    replica_start sworld0 = (Ok tt, sample_range_world) /\
  exists tr hours, adds sworld0 sample_range_world tr /\
    execs tr = map (fun t => ((ddl_text sample_config (CreatePartition (partitionName sample_config t)
      (Format RFC3339 t) (Format RFC3339 (GoTime.Add t Hour))), []), None)) hours /\ NoDup hours /\
    (forall t, t ∈ hours <-> Truncate replica_start Hour <= t < Date 2025 2 1 23 0 0 0 /\ t mod Hour = 0) /\
    (forall x, Truncate replica_start Hour <= x < Date 2025 2 1 23 0 0 0 ->
       exists t, t ∈ hours /\ t <= x < GoTime.Add t Hour).
Proof.
  split; [vm_compute; reflexivity|].
  exact (createPartitionRange_cover (H:=sample_senv) sample_config replica_start sworld0
           sample_range_world ltac:(vm_compute; reflexivity)).
Defined.

Lemma main_guarded_witness :
  (main (H:=sample_senv) ["pglg-setup"; "create"; "--replica"; "--conn-string=host=r"]%string sworld0).1 = 0 /\
  (main (H:=sample_senv) ["pglg-setup"]%string sworld0).2 = sworld0 /\
  ((main (H:=sample_senv) ["pglg-setup"]%string sworld0).1 = 0 \/
   (main (H:=sample_senv) ["pglg-setup"]%string sworld0).1 = 1 \/
   (main (H:=sample_senv) ["pglg-setup"]%string sworld0).1 = 2).
Proof.
  split; [vm_compute; reflexivity|]. split; [reflexivity|].
  exact (proj1 (main_guarded (H:=sample_senv) ["pglg-setup"]%string sworld0)).
Defined.
