(* ===== verification/BenchStats.v ===== *)
(** * The statistics of pglg-bench (cmd/pglg-bench/stats.go)

    Nearest-rank percentiles in float64 arithmetic, the maximum, sizes in
    powers of 1024, and the verdict on the growth of the lag. *)

From S2P Require Export GoDuration.

Open Scope Z_scope.

(** ** Float64: rounding up, and one decimal *)

(** [math.Ceil], converted to an integer. *)
Definition ceil_int (x : Backoff.f64) : Z :=
  match x with
  | Backoff.Fin m e => if 0 <=? e then m * 2 ^ e else - ((- m) / 2 ^ (- e))
  | _ => int64_min
  end.

(** [fmt.Sprintf("%.1f", x)]: the exact value rounded to tenths, ties to even. *)
Definition tenths (x : Backoff.f64) : Z :=
  match x with
  | Backoff.Fin m e => if 0 <=? e then 10 * m * 2 ^ e else Backoff.round_shift (10 * m) (- e)
  | _ => 0
  end.

Definition format_tenths (x : Backoff.f64) : string :=
  match x with
  | Backoff.Fin _ _ => (FormatInt (tenths x / 10) ++ "." ++ FormatInt (tenths x mod 10))%string
  | Backoff.Inf => "+Inf"
  | Backoff.NaN => "NaN"
  end.

(** ** [percentile] *)

Definition percentile_rank (p : Backoff.f64) (n : Z) : Z :=
  let rank := ceil_int (Backoff.fmul (fdiv p (Backoff.float64_of_int 100)) (Backoff.float64_of_int n)) - 1 in
  let rank := if rank <? 0 then 0 else rank in
  if n <=? rank then n - 1 else rank.

Definition percentile (samples : list Z) (p : Backoff.f64) : Z :=
  match samples with
  | [] => 0
  | _ =>
      let sorted := merge_sort Z.le samples in
      nth (Z.to_nat (percentile_rank p (Z.of_nat (List.length sorted)))) sorted 0
  end.

(** [maxInt64]: never below zero. *)
Definition maxInt64 (samples : list Z) : Z := foldl (fun m s => if m <? s then s else m) 0 samples.

(** ** [humanizeBytes] *)

(** The loop: the divisor and the index of the unit. A 64-bit number is
    divided by 1024 at most six times. *)
Fixpoint unit_loop (fuel : nat) (n div : Z) (exp : nat) : Z * nat :=
  match fuel with
  | O => (div, exp)
  | S fuel => if 1024 <=? n then unit_loop fuel (Z.quot n 1024) (wrap64 (div * 1024)) (S exp) else (div, exp)
  end.

(** [None] is an index out of range, which panics. *)
Definition humanizeBytes (b : Z) : option string :=
  if b <? 1024 then Some (FormatInt b ++ "B")%string
  else
    let '(div, exp) := unit_loop 7 (Z.quot b 1024) 1024 0 in
    match String.get exp "KMGTPE" with
    | Some c =>
        Some (format_tenths (fdiv (Backoff.float64_of_int b) (Backoff.float64_of_int div))
              ++ String c "B")%string
    | None => None
    end.

(** ** [bounded] *)

Definition p50 : Backoff.f64 := Backoff.float64_of_int 50.
Definition p99 : Backoff.f64 := Backoff.float64_of_int 99.

Definition bounded (samples : list Z) : bool :=
  if (List.length samples <? 2)%nat then true
  else
    let med := percentile samples p50 in
    let final := List.last samples 0 in
    if med =? 0 then final =? 0 else final <=? wrap64 (2 * med).

(** The cases of stats_test.go. *)
Example percentile_ex :
  (percentile [10; 20; 30; 40; 50; 60; 70; 80; 90; 100] p50,
   percentile [10; 20; 30; 40; 50; 60; 70; 80; 90; 100] p99, percentile [] p50) = (50, 100, 0).
Proof. vm_compute. reflexivity. Qed.

Example humanizeBytes_ex :
  map humanizeBytes [512; 1024; 1536; 1024 * 1024; 412 * 1024 * 1024; int64_max; -5] =
  map Some ["512B"; "1.0KB"; "1.5KB"; "1.0MB"; "412.0MB"; "8.0EB"; "-5B"]%string.
Proof. vm_compute. reflexivity. Qed.

Example bounded_ex :
  map bounded [[100; 110; 90; 105; 100]; [10; 100; 500; 2000; 10000]; [42]] = [true; false; true].
Proof. vm_compute. reflexivity. Qed.

(** ** The rank of the median *)

Lemma round_shift_exact a k : 0 <= k -> Backoff.round_shift (a * 2 ^ k) k = a.
Proof.
  intros Hk. assert (0 < 2 ^ k) by (apply Z.pow_pos_nonneg; lia).
  unfold Backoff.round_shift. rewrite Z.div_mul, Z.mod_mul by lia.
  destruct (Z.ltb_spec (2 * 0) (2 ^ k)); [done|lia].
Qed.

(** Half of an integer is exact. *)
Lemma half_exact n : 0 < n < 2 ^ 53 ->
  Backoff.fmul (fdiv p50 (Backoff.float64_of_int 100)) (Backoff.float64_of_int n) =
  Backoff.Fin (n * 2 ^ (52 - Z.log2 n)) (Z.log2 n - 53).
Proof.
  intros Hn. assert (Hl : 0 <= Z.log2 n <= 52).
  { split; [apply Z.log2_nonneg|]. assert (Z.log2 n < 53) by (apply Z.log2_lt_pow2; lia). lia. }
  change (fdiv p50 (Backoff.float64_of_int 100)) with (Backoff.Fin (2 ^ 52) (-53)).
  unfold Backoff.float64_of_int. rewrite Backoff.round53_fit by lia. cbn [Backoff.fmul].
  set (L := Z.log2 n) in *.
  assert (Hlog : Z.log2 (2 ^ 52 * n) = L + 52) by (rewrite Z.mul_comm, Z.log2_mul_pow2 by lia; fold L; lia).
  assert (Hpow : 2 ^ 52 * n = n * 2 ^ (52 - L) * 2 ^ L).
  { rewrite <- Z.mul_assoc, <- Z.pow_add_r by lia. replace (52 - L + L) with 52 by lia. lia. }
  unfold Backoff.round53, Backoff.excess. rewrite Hlog. replace (Z.max 0 (L + 52 - 52)) with L by lia.
  rewrite Hpow, round_shift_exact by lia.
  assert (Z.log2 (n * 2 ^ (52 - L)) = 52) as -> by (rewrite Z.log2_mul_pow2 by lia; fold L; lia).
  destruct (Z.leb_spec 1024 (52 + (-53 + 0) + L)); [lia|]. f_equal. lia.
Qed.

Lemma median_rank n : 0 < n < 2 ^ 53 -> percentile_rank p50 n = (n + 1) / 2 - 1.
Proof.
  intros Hn. unfold percentile_rank. rewrite half_exact by done.
  assert (Hl : 0 <= Z.log2 n <= 52).
  { split; [apply Z.log2_nonneg|]. assert (Z.log2 n < 53) by (apply Z.log2_lt_pow2; lia). lia. }
  cbn [ceil_int]. set (L := Z.log2 n) in *. destruct (Z.leb_spec 0 (L - 53)); [lia|].
  assert (Hpos : 0 < 2 ^ (52 - L)) by (apply Z.pow_pos_nonneg; lia).
  assert (E : - (n * 2 ^ (52 - L)) / 2 ^ (- (L - 53)) = (- n) / 2).
  { replace (- (L - 53)) with (1 + (52 - L)) by lia. rewrite Z.pow_add_r by lia.
    change (2 ^ 1) with 2. rewrite <- Z.mul_opp_l. by rewrite Z.div_mul_cancel_r by lia. }
  rewrite E. pose proof (Z_div_mod_eq_full (- n) 2). pose proof (Z.mod_pos_bound (- n) 2).
  pose proof (Z_div_mod_eq_full (n + 1) 2). pose proof (Z.mod_pos_bound (n + 1) 2).
  destruct (Z.ltb_spec (- (- n / 2) - 1) 0); [lia|].
  destruct (Z.leb_spec n (- (- n / 2) - 1)); lia.
Qed.

(** ** Sorted lists by position *)

Lemma percentile_rank_bound p n : 0 < n -> 0 <= percentile_rank p n < n.
Proof.
  intros Hn. unfold percentile_rank. set (r := ceil_int _ - 1).
  destruct (Z.ltb_spec r 0); [destruct (Z.leb_spec n 0)|destruct (Z.leb_spec n r)]; lia.
Qed.

Lemma sorted_split (l : list Z) i v :
  StronglySorted Z.le l -> l !! i = Some v ->
  Forall (fun x => x <= v) (take (S i) l) /\ Forall (fun x => v <= x) (drop i l).
Proof.
  intros Hs. revert i. induction Hs as [|x l Hs IH Hx]; intros i Hi; [by rewrite lookup_nil in Hi|].
  destruct i as [|i].
  - cbn in Hi |- *. injection Hi as <-. rewrite take_0. split; constructor; (done || lia).
  - cbn in Hi. destruct (IH i Hi) as [H1 H2]. split; [|done]. cbn [take]. constructor; [|done].
    rewrite Forall_forall in Hx. apply Hx. by eapply list_elem_of_lookup_2.
Qed.

Definition count (P : Z -> Prop) `{forall x, Decision (P x)} (l : list Z) : Z :=
  Z.of_nat (List.length (base.filter P l)).

Lemma count_perm (P : Z -> Prop) `{forall x, Decision (P x)} l l' : l ≡ₚ l' -> count P l = count P l'.
Proof. intros Hp. unfold count. by rewrite Hp. Qed.

Lemma filter_all (P : Z -> Prop) `{forall x, Decision (P x)} l : Forall P l -> base.filter P l = l.
Proof. induction 1 as [|x l Hx _ IH]; [done|]. rewrite filter_cons_True by done. by f_equal. Qed.

Lemma count_app_all (P : Z -> Prop) `{forall x, Decision (P x)} l l1 l2 :
  l = l1 ++ l2 -> (Forall P l1 -> Z.of_nat (List.length l1) <= count P l) /\
  (Forall P l2 -> Z.of_nat (List.length l2) <= count P l).
Proof.
  intros ->. unfold count. rewrite filter_app, length_app.
  split; intros HP; rewrite (filter_all P _ HP); lia.
Qed.

Lemma merge_sort_le_perm (l l' : list Z) : l ≡ₚ l' -> merge_sort Z.le l = merge_sort Z.le l'.
Proof.
  intros Hp. apply (StronglySorted_unique Z.le).
  - apply StronglySorted_merge_sort; apply _.
  - apply StronglySorted_merge_sort; apply _.
  - by rewrite !merge_sort_Permutation.
Qed.

Lemma percentile_lookup samples p :
  samples <> [] ->
  merge_sort Z.le samples !! Z.to_nat (percentile_rank p (Z.of_nat (List.length samples))) =
  Some (percentile samples p).
Proof.
  intros Hne. unfold percentile. destruct samples as [|x samples]; [done|].
  set (l := x :: samples) in *. assert (Hlen : List.length (merge_sort Z.le l) = List.length l)
    by (by rewrite merge_sort_Permutation).
  rewrite Hlen. pose proof (percentile_rank_bound p (Z.of_nat (List.length l)) ltac:(cbn; lia)) as Hb.
  destruct (lookup_lt_is_Some_2 (merge_sort Z.le l)
    (Z.to_nat (percentile_rank p (Z.of_nat (List.length l))))) as [v Hv]; [lia|].
  rewrite Hv. f_equal. symmetry. by apply nth_lookup_Some.
Qed.

Lemma percentile_elem samples p : samples <> [] -> percentile samples p ∈ samples.
Proof.
  intros Hne. pose proof (percentile_lookup samples p Hne) as Hl%list_elem_of_lookup_2.
  by rewrite merge_sort_Permutation in Hl.
Qed.

(** C39: a percentile of a non-empty list is one of its elements, for
    every percentage and whatever rounding does, and does not depend on the
    order of the list; the 50th is a median: at least half of the samples are
    not above it and at least half are not below it. *)
Theorem percentile_spec (samples : list Z) (p : Backoff.f64) (Hne : samples <> []) :
  percentile samples p ∈ samples /\
  (forall samples', samples ≡ₚ samples' -> percentile samples' p = percentile samples p) /\
  (Z.of_nat (List.length samples) < 2 ^ 53 ->
   let m := percentile samples p50 in let n := Z.of_nat (List.length samples) in
   n <= 2 * count (fun x => x <= m) samples /\ n <= 2 * count (fun x => m <= x) samples).
Proof.
  pose proof (percentile_lookup samples p Hne) as Hl. split_and!.
  - by apply percentile_elem.
  - intros samples' Hp. assert (Hne' : samples' <> []) by (intros ->; by apply Permutation_nil_r in Hp).
    pose proof (percentile_lookup samples' p Hne') as Hl'.
    rewrite <- (merge_sort_le_perm _ _ Hp), <- (Permutation_length Hp), Hl in Hl'. congruence.
  - intros Hn m n. pose proof (percentile_lookup samples p50 Hne) as Hm. fold m in Hm.
    assert (Hpos : 0 < n) by (unfold n; destruct samples; [done|cbn; lia]).
    fold n in Hm. rewrite median_rank in Hm by (unfold n in *; lia).
    set (l := merge_sort Z.le samples) in *.
    assert (Hp : l ≡ₚ samples) by apply merge_sort_Permutation.
    assert (Hlen : Z.of_nat (List.length l) = n) by (unfold n; by rewrite Hp).
    destruct (sorted_split l _ m (StronglySorted_merge_sort Z.le samples) Hm) as [H1 H2].
    rewrite <- !(count_perm _ _ _ Hp). pose proof (Z_div_mod_eq_full (n + 1) 2).
    pose proof (Z.mod_pos_bound (n + 1) 2 ltac:(lia)).
    set (q := (n + 1) / 2) in *. set (r := Z.to_nat (q - 1)) in *. clearbody q.
    assert (Hr : Z.of_nat r = q - 1) by (unfold r; lia).
    pose proof (proj1 (count_app_all (fun x => x <= m) l _ _ (eq_sym (take_drop (S r) l))) H1) as C1.
    pose proof (proj2 (count_app_all (fun x => m <= x) l _ _ (eq_sym (take_drop r l))) H2) as C2.
    rewrite length_take in C1. rewrite length_drop in C2. lia.
Qed.

Lemma percentile_spec_witness :
  percentile [30; 10; 20; 40] p50 = 20 /\
  4 <= 2 * count (fun x => 20 <= x) [30; 10; 20; 40].
Proof.
  split; [vm_compute; reflexivity|].
  exact (proj2 (proj2 (proj2 (percentile_spec [30; 10; 20; 40] p50 ltac:(discriminate))) eq_refl)).
Defined.

(** ** Sizes *)

Lemma pow1024_pos k : 0 <= k -> 0 < 1024 ^ k.
Proof. intros. by apply Z.pow_pos_nonneg. Qed.

(** The loop from the divisor 1024^(e+1): it ends at the largest power of 1024
    that is not above the number. *)
Lemma unit_loop_spec fuel b (e : nat) :
  b <= int64_max -> 1024 ^ (Z.of_nat e + 1) <= b < 1024 ^ (Z.of_nat e + 1 + Z.of_nat fuel) ->
  exists k, unit_loop fuel (b / 1024 ^ (Z.of_nat e + 1)) (1024 ^ (Z.of_nat e + 1)) e =
            (1024 ^ (Z.of_nat k + 1), k) /\
    1024 ^ (Z.of_nat k + 1) <= b < 1024 ^ (Z.of_nat k + 2).
Proof.
  intros Hmax. revert e. induction fuel as [|fuel IH]; intros e Hb; [rewrite Z.add_0_r in Hb; lia|].
  cbn [unit_loop]. set (d := 1024 ^ (Z.of_nat e + 1)) in *.
  assert (Hd : 0 < d) by (apply pow1024_pos; lia).
  assert (Hnext : 1024 ^ (Z.of_nat (S e) + 1) = d * 1024).
  { replace (Z.of_nat (S e) + 1) with (Z.of_nat e + 1 + 1) by lia. rewrite Z.pow_add_r by lia. done. }
  destruct (Z.leb_spec 1024 (b / d)) as [Hge|Hlt].
  - assert (d * 1024 <= b).
    { transitivity (d * (b / d)); [apply Z.mul_le_mono_nonneg_l; lia|apply Z.mul_div_le; lia]. }
    rewrite wrap64_id by (unfold is_int64, int64_min, int64_max in *; lia).
    rewrite Z.quot_div_nonneg by lia. rewrite Z.div_div by lia. rewrite <- Hnext. apply IH.
    rewrite Hnext. split; [lia|].
    replace (Z.of_nat (S e) + 1 + Z.of_nat fuel) with (Z.of_nat e + 1 + Z.of_nat (S fuel)) by lia. lia.
  - exists e. split; [done|]. split; [lia|].
    replace (Z.of_nat e + 2) with (Z.of_nat (S e) + 1) by lia. rewrite Hnext.
    pose proof (Z.mul_succ_div_gt b d Hd). nia.
Qed.

(** A size of 64 bits is always printed: the index of the unit is in
    range, the divisor does not overflow and is the largest power of 1024 that is not
    above the size, so the number in front of the unit is at least 1 and below 1024
    before it is rounded. *)
Lemma humanizeBytes_total (b : Z) :
  is_int64 b ->
  (b < 1024 /\ humanizeBytes b = Some (FormatInt b ++ "B")%string) \/
  (exists (k : nat) (c : ascii), String.get k "KMGTPE" = Some c /\
     1024 ^ (Z.of_nat k + 1) <= b < 1024 ^ (Z.of_nat k + 2) /\
     humanizeBytes b = Some (format_tenths
       (fdiv (Backoff.float64_of_int b) (Backoff.float64_of_int (1024 ^ (Z.of_nat k + 1)))) ++ String c "B")%string).
Proof.
  intros Hb. unfold humanizeBytes. destruct (Z.ltb_spec b 1024); [by left|]. right.
  unfold is_int64, int64_max in Hb.
  destruct (unit_loop_spec 7 b 0) as (k & E & Hk); [unfold int64_max; lia|cbn; lia|].
  change (1024 ^ (Z.of_nat 0 + 1)) with 1024 in E. rewrite Z.quot_div_nonneg by lia. rewrite E.
  assert (Hk6 : (k < 6)%nat).
  { assert (1024 ^ (Z.of_nat k + 1) < 1024 ^ 7) as Hlt by (cbn in Hb |- *; lia).
    apply Z.pow_lt_mono_r_iff in Hlt; [|lia..]. destruct (decide (k = 6%nat)) as [->|]; [|lia].
    cbn in Hk. lia. }
  destruct (String.get k "KMGTPE") as [c|] eqn:Ec.
  - by exists k, c.
  - do 6 (destruct k as [|k]; [done|]). lia.
Qed.

Lemma humanizeBytes_some b : is_int64 b -> is_Some (humanizeBytes b).
Proof. intros [[_ ->]|(k & c & _ & _ & ->)]%humanizeBytes_total; by eexists. Qed.

Lemma maxInt64_elem samples : maxInt64 samples = 0 \/ maxInt64 samples ∈ samples.
Proof.
  unfold maxInt64. assert (forall m, foldl (fun m s => if m <? s then s else m) m samples = m \/
    foldl (fun m s => if m <? s then s else m) m samples ∈ samples) as Hm; [|apply Hm].
  induction samples as [|s l IH]; intros m; [by left|]. cbn [foldl].
  destruct (IH (if m <? s then s else m)) as [E|E]; [|right; by apply list_elem_of_further].
  rewrite E. destruct (m <? s); [right; apply list_elem_of_here|by left].
Qed.
