(* ===== verification/Bench.v ===== *)
(** * The command pglg-bench (cmd/pglg-bench/main.go)

    The load generator: it resets the database with a fixed script, starts a
    driver with a stub of jack, inserts rows at a rate and samples the lag of the slot. *)

From S2P Require Export Dlq BenchStats Flag SetupTheorems Environ.

Open Scope Z_scope.
Open Scope pglg_scope.

Record config := {
  b_connString : string; b_schema : string; b_prefix : string; b_publication : string;
  b_slot : string; b_rate : Z; b_duration : Duration; b_submitLatency : Duration;
  b_payloadSize : Z; b_batchSize : Z }.

(** ** [parseFlags] *)

Definition set_b_connString (v : string) (c : config) : config := {|
  b_connString := v; b_schema := b_schema c; b_prefix := b_prefix c;
  b_publication := b_publication c; b_slot := b_slot c; b_rate := b_rate c;
  b_duration := b_duration c; b_submitLatency := b_submitLatency c;
  b_payloadSize := b_payloadSize c; b_batchSize := b_batchSize c |}.
Definition set_b_schema (v : string) (c : config) : config := {|
  b_connString := b_connString c; b_schema := v; b_prefix := b_prefix c;
  b_publication := b_publication c; b_slot := b_slot c; b_rate := b_rate c;
  b_duration := b_duration c; b_submitLatency := b_submitLatency c;
  b_payloadSize := b_payloadSize c; b_batchSize := b_batchSize c |}.
Definition set_b_prefix (v : string) (c : config) : config := {|
  b_connString := b_connString c; b_schema := b_schema c; b_prefix := v;
  b_publication := b_publication c; b_slot := b_slot c; b_rate := b_rate c;
  b_duration := b_duration c; b_submitLatency := b_submitLatency c;
  b_payloadSize := b_payloadSize c; b_batchSize := b_batchSize c |}.
Definition set_b_publication (v : string) (c : config) : config := {|
  b_connString := b_connString c; b_schema := b_schema c; b_prefix := b_prefix c;
  b_publication := v; b_slot := b_slot c; b_rate := b_rate c; b_duration := b_duration c;
  b_submitLatency := b_submitLatency c; b_payloadSize := b_payloadSize c;
  b_batchSize := b_batchSize c |}.
Definition set_b_slot (v : string) (c : config) : config := {|
  b_connString := b_connString c; b_schema := b_schema c; b_prefix := b_prefix c;
  b_publication := b_publication c; b_slot := v; b_rate := b_rate c;
  b_duration := b_duration c; b_submitLatency := b_submitLatency c;
  b_payloadSize := b_payloadSize c; b_batchSize := b_batchSize c |}.
Definition set_b_rate (v : Z) (c : config) : config := {|
  b_connString := b_connString c; b_schema := b_schema c; b_prefix := b_prefix c;
  b_publication := b_publication c; b_slot := b_slot c; b_rate := v;
  b_duration := b_duration c; b_submitLatency := b_submitLatency c;
  b_payloadSize := b_payloadSize c; b_batchSize := b_batchSize c |}.
Definition set_b_duration (v : Duration) (c : config) : config := {|
  b_connString := b_connString c; b_schema := b_schema c; b_prefix := b_prefix c;
  b_publication := b_publication c; b_slot := b_slot c; b_rate := b_rate c; b_duration := v;
  b_submitLatency := b_submitLatency c; b_payloadSize := b_payloadSize c;
  b_batchSize := b_batchSize c |}.
Definition set_b_submitLatency (v : Duration) (c : config) : config := {|
  b_connString := b_connString c; b_schema := b_schema c; b_prefix := b_prefix c;
  b_publication := b_publication c; b_slot := b_slot c; b_rate := b_rate c;
  b_duration := b_duration c; b_submitLatency := v; b_payloadSize := b_payloadSize c;
  b_batchSize := b_batchSize c |}.
Definition set_b_payloadSize (v : Z) (c : config) : config := {|
  b_connString := b_connString c; b_schema := b_schema c; b_prefix := b_prefix c;
  b_publication := b_publication c; b_slot := b_slot c; b_rate := b_rate c;
  b_duration := b_duration c; b_submitLatency := b_submitLatency c; b_payloadSize := v;
  b_batchSize := b_batchSize c |}.
Definition set_b_batchSize (v : Z) (c : config) : config := {|
  b_connString := b_connString c; b_schema := b_schema c; b_prefix := b_prefix c;
  b_publication := b_publication c; b_slot := b_slot c; b_rate := b_rate c;
  b_duration := b_duration c; b_submitLatency := b_submitLatency c;
  b_payloadSize := b_payloadSize c; b_batchSize := v |}.

(** The default values. *)
Definition config0 : config := {|
  b_connString := "host=127.0.0.1 port=15434 user=pglg password=pglg dbname=pglg sslmode=disable";
  b_schema := "public"; b_prefix := "bench"; b_publication := "bench_pub"; b_slot := "bench_slot";
  b_rate := 2000; b_duration := 60 * Second; b_submitLatency := 0; b_payloadSize := 256;
  b_batchSize := 100 |}.

Definition string_value (set : string -> config -> config) : option (setter config) :=
  Some (SetValue (fun v c => Some (set v c))).
Definition int_value (set : Z -> config -> config) : option (setter config) :=
  Some (SetValue (fun v c => n ← ParseInt0 v; Some (set n c))).
Definition duration_value (set : Duration -> config -> config) : option (setter config) :=
  Some (SetValue (fun v c => d ← ParseDuration v; Some (set d c))).

Definition bench_flag (name : string) : option (setter config) :=
  if String.eqb name "conn-string" then string_value set_b_connString
  else if String.eqb name "schema" then string_value set_b_schema
  else if String.eqb name "prefix" then string_value set_b_prefix
  else if String.eqb name "publication" then string_value set_b_publication
  else if String.eqb name "slot" then string_value set_b_slot
  else if String.eqb name "rate" then int_value set_b_rate
  else if String.eqb name "duration" then duration_value set_b_duration
  else if String.eqb name "submit-latency" then duration_value set_b_submitLatency
  else if String.eqb name "payload-size" then int_value set_b_payloadSize
  else if String.eqb name "batch-size" then int_value set_b_batchSize
  else None.

(** The flags of the command, or the exit code. *)
Definition parseFlags (args : list string) : result Z config := flag_Parse bench_flag args config0.

Example parseFlags_ex :
  parseFlags ["-rate=1_000"; "--submit-latency"; "1.5ms"; "-h"]%string = Err 0 /\
  parseFlags ["-rate=1_000"; "--submit-latency"; "1.5ms"; "rest"]%string =
    Ok (set_b_submitLatency 1500000 (set_b_rate 1000 config0)).
Proof. by vm_compute. Qed.

(** ** What [main] hands to the driver, and its verdict *)

Definition bench_driver_config (c : config) : Config :=
  {| ConnString := b_connString c; SlotName := b_slot c; PublicationName := b_publication c;
     Schema := b_schema c; TablePrefix := b_prefix c; MaxBatchSize := b_batchSize c; BatchTimeout := 0;
     StandbyInterval := 0; PartitionInterval := 0; PartitionLookAhead := 0; PartitionRetention := 0;
     PartitionMaintInterval := 0; ReconnectInitialDelay := 0; ReconnectMaxDelay := 0;
     SlotBusyRetryDelay := 0; SlotBusyRetryJitter := 0; LeaderHeartbeatInterval := 0; DLQRetention := 0;
     DLQCleanupInterval := 0; Logger := true; Statsd := false; Replicas := [] |}.

Example bench_driver_config_valid : validate (setDefaults (bench_driver_config config0)) = None.
Proof. vm_compute. reflexivity. Qed.

(** ** [makeSubmit]: the stub of jack *)

(** [wait]: what ends the wait for the latency, the timer or the context. *)
Definition makeSubmit (latency : Duration) (wait : option error) (jobs : list Job)
  : result error (list SubmitResult) :=
  match (if 0 <? latency then wait else None) with
  | Some e => Err e
  | None => Ok (map (fun j => {| res_CorrelationID := CorrelationID j; res_JobID := "ok";
                                 res_Err := ""; res_Reason := "" |}%string) jobs)
  end.

Lemma stub_no_rejection inserts (jobs : list Job) :
  rejected_rows inserts (map (fun j => {| res_CorrelationID := CorrelationID j; res_JobID := "ok";
                                 res_Err := ""; res_Reason := "" |}%string) jobs) = [].
Proof. unfold rejected_rows. induction jobs as [|j jobs IH]; [done|]. exact IH. Qed.

(** What the stub answers to a batch of distinct rows is accepted by
    the driver, with no dead letters, unless the wait was cut short; and then
    it is the error of the context that the driver sees. *)
Theorem makeSubmit_accepted (latency : Duration) (wait : option error) (inserts : list parsedInsert)
    (Hid : NoDup (map cid inserts)) :
  match makeSubmit latency wait (map toJob inserts) with
  | Ok results => mapResults inserts results = Ok []
  | Err e => 0 < latency /\ wait = Some e
  end.
Proof.
  unfold makeSubmit. destruct (Z.ltb_spec 0 latency) as [Hl|Hl]; [destruct wait as [e|]; [done|]|];
    (apply mapResults_iff; split_and!; [done|by rewrite !map_map|by rewrite stub_no_rejection]).
Qed.

Lemma makeSubmit_accepted_witness :
  NoDup (map cid [set_id 7 parsedInsert0; set_id 8 parsedInsert0]) /\
  mapResults [set_id 7 parsedInsert0; set_id 8 parsedInsert0]
    [{| res_CorrelationID := "7"; res_JobID := "ok"; res_Err := ""; res_Reason := "" |};
     {| res_CorrelationID := "8"; res_JobID := "ok"; res_Err := ""; res_Reason := "" |}]%string = Ok [].
Proof.
  assert (Hid : NoDup (map cid [set_id 7 parsedInsert0; set_id 8 parsedInsert0]))
    by (apply NoDup_cons; split; [by intros ?%list_elem_of_singleton|apply NoDup_singleton]).
  split; [exact Hid|].
  exact (makeSubmit_accepted 0 None [set_id 7 parsedInsert0; set_id 8 parsedInsert0] Hid).
Defined.

(** ** [reset] *)

Section Reset.
  Context `{SEnv}.

(** The loop over the tables. *)
Fixpoint truncate_tables (cfg : config) (suffixes : list string) : SM (result error unit) :=
  match suffixes with
  | [] => mret (Ok tt)
  | suffix :: suffixes =>
      do? _ := conn_Exec ("TRUNCATE " ++ b_schema cfg ++ "." ++ b_prefix cfg ++ suffix)%string []
        orelse Wrapf "truncate %s%s: %w" [AStr (b_prefix cfg); AStr suffix];
      truncate_tables cfg suffixes
  end.

(** The texts of the queries; the source breaks the lines of some of them. *)
Definition drop_slot_query : string :=
  "SELECT pg_drop_replication_slot(slot_name) FROM pg_replication_slots WHERE slot_name = $1".
Definition create_publication_query (cfg : config) : string :=
  ("CREATE PUBLICATION " ++ b_publication cfg ++ " FOR TABLE " ++ b_schema cfg ++ "." ++ b_prefix cfg
   ++ "_jobs WITH (publish = 'insert')")%string.
Definition create_slot_query : string := "SELECT pg_create_logical_replication_slot($1, 'pgoutput')".
Definition reset_suffixes : list string := ["_jobs"; "_cursor"; "_dlq"]%string.

Definition reset (cfg : config) : SM (result error unit) :=
  do? _ := conn_Exec drop_slot_query [ArgText (b_slot cfg)] orelse Wrapf "drop slot: %w" [];
  do? _ := conn_Exec ("DROP PUBLICATION IF EXISTS " ++ b_publication cfg)%string []
    orelse Wrapf "drop publication: %w" [];
  do? _ := truncate_tables cfg reset_suffixes orelse same;
  do? _ := conn_Exec (create_publication_query cfg) [] orelse Wrapf "create publication: %w" [];
  do? _ := conn_Exec create_slot_query [ArgText (b_slot cfg)] orelse Wrapf "create slot: %w" [];
  mret (Ok tt).

Definition truncate_stmt (cfg : config) (suffix : string) : ssql :=
  (("TRUNCATE " ++ b_schema cfg ++ "." ++ b_prefix cfg ++ suffix)%string, []).

(** What [reset] executes when nothing fails. *)
Definition reset_script (cfg : config) : list ssql :=
  (drop_slot_query, [ArgText (b_slot cfg)]) ::
  ("DROP PUBLICATION IF EXISTS " ++ b_publication cfg, [])%string ::
  map (truncate_stmt cfg) reset_suffixes ++
  [(create_publication_query cfg, []); (create_slot_query, [ArgText (b_slot cfg)])].

Lemma performs_truncate cfg suffixes :
  performs (truncate_tables cfg suffixes) (map (truncate_stmt cfg) suffixes).
Proof.
  induction suffixes as [|suffix suffixes IH]; cbn [truncate_tables map]; [apply performs_ret|].
  apply (performs_bind _ _ _ [_]); [apply performs_exec|]. intros _. apply IH.
Qed.

(** The reset executes an initial part of its script, all of it when it
    succeeds: the slot is gone before the cursor table is emptied, and made again at the end. *)
Lemma performs_reset cfg : performs (reset cfg) (reset_script cfg).
Proof.
  unfold reset, reset_script.
  apply (performs_bind _ _ _ [_]); [apply performs_exec|]. intros _.
  apply (performs_bind _ _ _ [_]); [apply performs_exec|]. intros _.
  apply performs_bind; [apply performs_truncate|]. intros _.
  apply (performs_bind _ _ _ [_] [_]); [apply performs_exec|]. intros _.
  apply (performs_bind _ _ _ [_] []); [apply performs_exec|]. intros _. apply performs_ret.
Qed.

End Reset.

(** ** [runSteady] *)

(** The six columns that [insertJobs] copies; a NULL [run_at]. *)
Record benchRow := {
  row_producer : string; row_jobType : string; row_payload : string; row_runAt : option Time;
  row_trace : string; row_shadow : bool }.

Fixpoint zero_bytes (n : nat) : string :=
  match n with O => "" | S n => String Ascii.zero (zero_bytes n) end%string.

(** How a call can fail: by an error that it returns, or by a panic, which
    unwinds the stack. *)
Inductive failure := Failed (e : error) | Panicked (msg : string).

Class BEnv := {
  benv_now : nat -> Time;
  (* the select: the error of a driver that has returned, or the ticker *)
  benv_runErr : nat -> option error;
  benv_copy : nat -> option error;
  benv_lag : nat -> result error Z;
  (* the largest allocation of the platform, in bytes *)
  benv_maxAlloc : Z }.

Record BWorld := { b_tick : nat; b_rows : list benchRow }.
Abbreviation BM := (ST BWorld).

Definition bask {A} (answer : nat -> A) : BM A := fun w =>
  (answer (b_tick w), {| b_tick := S (b_tick w); b_rows := b_rows w |}).
Definition add_rows (rows : list benchRow) : BM unit := fun w =>
  (tt, {| b_tick := b_tick w; b_rows := b_rows w ++ rows |}).

(** [achievedRate] is the number of rows per elapsed time. *)
Record steadyResult := { inserted : Z; elapsed : Duration; samples : list Z }.

Section Steady.
  Context `{BEnv}.
  Variable cfg : config.

Definition bench_row : benchRow :=
  {| row_producer := "bench"; row_jobType := "bench_job";
     row_payload := zero_bytes (Z.to_nat (b_payloadSize cfg)); row_runAt := None; row_trace := "";
     row_shadow := false |}.

(** [make] of [len] elements of [size] bytes; it panics when the length is
    negative or the memory more than the platform can address. (Running out of
    memory below that bound is not modelled.) *)
Definition makeslice (size len : Z) : result failure unit :=
  if (len <? 0) || (benv_maxAlloc <? size * len)
  then Err (Panicked "runtime error: makeslice: len out of range") else Ok tt.

(** One COPY: all rows or none. An element of [[]byte] has one byte, one of
    [[][]any] the three words of a slice. *)
Definition insertJobs (n : Z) : BM (result failure unit) :=
  match makeslice 1 (b_payloadSize cfg) with
  | Err e => mret (Err e)
  | Ok _ =>
      match makeslice 24 n with
      | Err e => mret (Err e)
      | Ok _ =>
          r ← bask benv_copy;
          match r with
          | Some e => mret (Err (Failed e))
          | None => add_rows (replicate (Z.to_nat n) bench_row) ≫= fun _ => mret (Ok tt)
          end
      end
  end.

(** [fmt.Errorf] around the error of a call; a panic goes through. *)
Definition wrap_failed (f : error -> error) (e : failure) : failure :=
  match e with Failed e => Failed (f e) | Panicked msg => Panicked msg end.

Definition slotLag : BM (result error Z) := bask benv_lag.

Definition perTick : Z :=
  let perTick := Z.quot (b_rate cfg) 10 in if perTick <? 1 then 1 else perTick.

(** The loop; [None] is a loop that is still running. *)
Fixpoint steady_loop (fuel : nat) (deadline : Time) (ins : Z) (smp : list Z)
  : BM (option (result failure (Z * list Z))) :=
  match fuel with
  | O => mret None
  | S fuel =>
      now ← bask benv_now;
      if negb (Before now deadline) then mret (Some (Ok (ins, smp)))
      else
        r ← bask benv_runErr;
        match r with
        | Some e => mret (Some (Err (Failed (Wrapf "driver exited: %w" [] e))))
        | None =>
            r ← insertJobs perTick;
            match r with
            | Err e => mret (Some (Err (wrap_failed (Wrapf "insert: %w" []) e)))
            | Ok _ =>
                lag ← slotLag;
                steady_loop fuel deadline (ins + perTick)
                  (match lag with Ok l => smp ++ [l] | Err _ => smp end)
            end
        end
  end.

Definition runSteady (fuel : nat) : BM (option (result failure steadyResult)) :=
  start ← bask benv_now;
  let deadline := GoTime.Add start (b_duration cfg) in
  r ← steady_loop fuel deadline 0 [];
  match r with
  | None => mret None
  | Some (Err e) => mret (Some (Err e))
  | Some (Ok (ins, smp)) =>
      match smp with
      | [] => mret (Some (Err (Failed (Errorf "no slot-lag samples collected" []))))
      | _ =>
          finish ← bask benv_now;
          mret (Some (Ok {| inserted := ins; elapsed := Sub finish start; samples := smp |}))
      end
  end.

(** ** Counting *)

Lemma perTick_pos : 1 <= perTick.
Proof. unfold perTick. destruct (Z.ltb_spec (Z.quot (b_rate cfg) 10) 1); lia. Qed.

(** The sizes that [make] does not accept. *)
Definition insert_panics : bool :=
  negb (is_Ok (makeslice 1 (b_payloadSize cfg)) && is_Ok (makeslice 24 perTick)).

(** An insert panics, exactly for such sizes, or it is one COPY. *)
Lemma insertJobs_cases w :
  (insert_panics = true /\ exists msg, insertJobs perTick w = (Err (Panicked msg), w)) \/
  (insert_panics = false /\
   insertJobs perTick w =
     match benv_copy (b_tick w) with
     | Some e => (Err (Failed e), {| b_tick := S (b_tick w); b_rows := b_rows w |})
     | None => (Ok tt, {| b_tick := S (b_tick w);
                          b_rows := b_rows w ++ replicate (Z.to_nat perTick) bench_row |})
     end).
Proof.
  unfold insert_panics, insertJobs, makeslice, mbind, ST_bind, bask, mret, ST_ret, add_rows.
  destruct (_ || _); [left; split; [done|by eexists]|].
  destruct (_ || _); [left; split; [done|by eexists]|].
  right. split; [done|]. cbn beta iota zeta. by destruct (benv_copy _).
Qed.

(** The rows of [k] ticks. *)
Definition tick_rows (k : nat) : list benchRow := replicate (k * Z.to_nat perTick) bench_row.

Definition lag_samples (smp : list Z) : Prop := forall s, s ∈ smp -> exists n, benv_lag n = Ok s.

Lemma steady_loop_counts fuel deadline ins smp w :
  lag_samples smp ->
  wp (steady_loop fuel deadline ins smp) (fun r w' => exists k,
    b_rows w' = b_rows w ++ tick_rows k /\
    match r with
    | Some (Ok (ins', smp')) => ins' = ins + Z.of_nat k * perTick /\ lag_samples smp' /\
        (List.length smp' <= List.length smp + k)%nat
    | Some (Err (Panicked _)) => insert_panics = true /\ k = O
    | _ => True
    end) w.
Proof.
  revert ins smp w. induction fuel as [|fuel IH]; intros ins smp w Hs; cbn [steady_loop].
  { exists O. cbn. by rewrite app_nil_r. }
  unfold wp, mbind, ST_bind, bask, mret, ST_ret. cbn beta iota zeta.
  destruct (negb _). { exists O. cbn. rewrite app_nil_r. split_and!; (done || lia). }
  destruct (benv_runErr _). { exists O. cbn. by rewrite app_nil_r. }
  match goal with |- context [insertJobs perTick ?w0] => pose proof (insertJobs_cases w0) as Hins end.
  destruct Hins as [[Hp [msg ->]]|[Hp ->]].
  { exists O. cbn. by rewrite app_nil_r. }
  cbn [b_tick b_rows]. destruct (benv_copy _). { exists O. cbn. by rewrite app_nil_r. }
  unfold slotLag, bask. cbn beta iota zeta.
  set (lag := benv_lag _). set (w1 := {| b_tick := _; b_rows := _ |}).
  assert (Hs' : lag_samples (match lag with Ok l => smp ++ [l] | Err _ => smp end)).
  { destruct lag as [l|] eqn:El; [|done]. intros s [?|E%list_elem_of_singleton]%elem_of_app; [eauto|subst s; eauto]. }
  pose proof (IH (ins + perTick) _ w1 Hs') as Hw. unfold wp in Hw.
  destruct (steady_loop fuel deadline _ _ w1) as [r w2]. destruct Hw as (k & Hr & Hk).
  exists (S k). split.
  { rewrite Hr. cbn. rewrite <- app_assoc. f_equal. unfold tick_rows. by rewrite <- replicate_add. }
  destruct r as [[[ins' smp']|[e|msg]]|]; try done; [|destruct Hk; congruence].
  destruct Hk as (-> & ? & Hlen). split_and!; [lia|done|].
  destruct lag; rewrite ?length_app in Hlen; cbn in Hlen; lia.
Qed.

Lemma steady_loop_ends fuel deadline ins smp w t :
  (forall n, (t <= n)%nat -> deadline <= benv_now n) -> (0 < fuel)%nat -> (t < b_tick w + fuel)%nat ->
  (steady_loop fuel deadline ins smp w).1 <> None.
Proof.
  intros Ht. revert ins smp w. induction fuel as [|fuel IH]; intros ins smp w Hpos Hf; [lia|].
  cbn [steady_loop]. unfold mbind, ST_bind, bask, mret, ST_ret, Before. cbn beta iota zeta.
  destruct (Z.ltb_spec (benv_now (b_tick w)) deadline) as [Hlt|]; [cbn [negb]|done].
  assert (b_tick w < t)%nat by (destruct (Nat.lt_ge_cases (b_tick w) t); [done|specialize (Ht (b_tick w)); lia]).
  destruct (benv_runErr _); [done|].
  match goal with |- context [insertJobs perTick ?w0] => pose proof (insertJobs_cases w0) as Hins end.
  destruct Hins as [[_ [msg ->]]|[_ ->]]; [done|].
  cbn [b_tick b_rows]. destruct (benv_copy _); [done|].
  unfold slotLag, bask. cbn beta iota zeta. apply IH; cbn [b_tick]; lia.
Qed.

(** A steady run that succeeds has inserted exactly the rows it
    counts, a whole number of ticks of them, and its samples are answers of the
    server, at least one and at most one per tick; it panics only for sizes that
    [make] does not accept, and then before any row is inserted; and the run returns, once the clock has
    reached the deadline at some call, if it is allowed as many iterations. *)
Theorem runSteady_counts (fuel : nat) (w : BWorld) :
  let '(r, w') := runSteady fuel w in
  (forall res, r = Some (Ok res) -> exists k,
     inserted res = Z.of_nat k * perTick /\ b_rows w' = b_rows w ++ tick_rows k /\
     samples res <> [] /\ (List.length (samples res) <= k)%nat /\ lag_samples (samples res)) /\
  (forall msg, r = Some (Err (Panicked msg)) -> insert_panics = true /\ b_rows w' = b_rows w) /\
  (forall t, (forall n, (t <= n)%nat -> benv_now (b_tick w) + b_duration cfg <= benv_now n) ->
     (0 < fuel)%nat -> (t <= b_tick w + fuel)%nat -> r <> None).
Proof.
  unfold runSteady, mbind, ST_bind, bask, mret, ST_ret. cbn beta iota zeta.
  set (w1 := {| b_tick := S (b_tick w); b_rows := b_rows w |}).
  set (deadline := GoTime.Add (benv_now (b_tick w)) (b_duration cfg)).
  assert (Hs : lag_samples []) by (by intros s ?%elem_of_nil).
  pose proof (steady_loop_counts fuel deadline 0 [] w1 Hs) as Hw. unfold wp in Hw.
  pose proof (fun t Ht Hpos => steady_loop_ends fuel deadline 0 [] w1 t Ht Hpos) as He.
  destruct (steady_loop fuel deadline 0 [] w1) as [r w2]. cbn [fst] in He.
  destruct Hw as (k & Hr & Hk). cbn [b_tick w1] in He.
  destruct r as [[[ins [|s smp]]|[e|msg]]|]; (split; [|split; [|intros t Ht Hpos Hle; try done]]);
    try (by intros res [=]).
  - intros res [= <-]. destruct Hk as (-> & Hsmp & Hlen). exists k. cbn [inserted samples]. by split_and!.
  - intros _ _. destruct Hk as [? ->]. split; [done|]. rewrite Hr. cbn. by rewrite app_nil_r.
  - by specialize (He t Ht Hpos ltac:(lia)).
Qed.

End Steady.

(** A clock of 100 ms per call, and a slot that answers every other time. *)
Definition sample_benv : BEnv := {|
  benv_now := fun n => Z.of_nat n * (100 * Millisecond); benv_runErr := fun _ => None;
  benv_copy := fun _ => None;
  benv_lag := fun n => if Nat.even n then Ok (Z.of_nat n mod 4096) else Err (External "no rows");
  benv_maxAlloc := 2 ^ 48 |}.

Definition sample_bench : config := {|
  b_connString := ""; b_schema := "public"; b_prefix := "bench"; b_publication := "bench_pub";
  b_slot := "bench_slot"; b_rate := 25; b_duration := Second; b_submitLatency := 0;
  b_payloadSize := 3; b_batchSize := 100 |}.

Definition bworld0 : BWorld := {| b_tick := 0; b_rows := [] |}.

Lemma runSteady_counts_witness :
  List.length (b_rows (runSteady (H:=sample_benv) sample_bench 20 bworld0).2) = 6%nat /\
  (runSteady (H:=sample_benv) sample_bench 20 bworld0).1 <> None.
Proof.
  split; [vm_compute; reflexivity|].
  pose proof (runSteady_counts (H:=sample_benv) sample_bench 20 bworld0) as T.
  destruct (runSteady _ _ _) as [r w']. refine (proj2 (proj2 T) 10%nat _ _ _).
  - intros n Hn. cbn -[Z.mul Millisecond Second]. unfold Second, Millisecond. lia.
  - lia.
  - cbn. lia.
Defined.
