(* ===== verification/BenchMain.v ===== *)
(** * The main function of pglg-bench (cmd/pglg-bench/main.go)

    The order of its calls: flags, pool, ping, [reset], [New], the driver in
    its goroutine, [runSteady], the report. The driver itself runs against the
    server beside it and is the subject of the other files. *)

From S2P Require Export Bench.

Open Scope Z_scope.
Open Scope pglg_scope.

(** What the command touches: the statements of [reset], the pools, the rows it
    inserts, and the driver it has started. *)
Record BenchWorld := {
  m_db : SWorld; m_pools : Pools; m_load : BWorld; m_driver : option DriverValue }.

(** The line that is printed at the end; the rate is [inserted] per [elapsed]. *)
Record report := {
  rep_latency : Duration; rep_rate : Z; rep_inserted : Z; rep_elapsed : Duration;
  rep_p50 : option string; rep_p99 : option string; rep_max : option string; rep_bounded : bool }.

Definition bench_report (cfg : config) (s : steadyResult) : report := {|
  rep_latency := b_submitLatency cfg; rep_rate := b_rate cfg; rep_inserted := inserted s;
  rep_elapsed := elapsed s; rep_p50 := humanizeBytes (percentile (samples s) p50);
  rep_p99 := humanizeBytes (percentile (samples s) p99);
  rep_max := humanizeBytes (maxInt64 (samples s)); rep_bounded := bounded (samples s) |}.

Section BenchMain.
  Context `{SEnv, BEnv}.
  Variable pool_error : nat -> string -> option error.
  Variable ping : option error.

(** The exit code and what was printed; [None] is a load that is still running.
    [fatal] leaves by [os.Exit], without the deferred calls; a panic runs them,
    and the runtime ends the process with 2. *)
Definition bench_main (fuel : nat) (args : list string) (w : BenchWorld)
  : option (Z * option report) * BenchWorld :=
  let fatal db s load d := (Some (1, None), {| m_db := db; m_pools := s; m_load := load; m_driver := d |}) in
  match parseFlags args with
  | Err code => (Some (code, None), w)
  | Ok cfg =>
      match pgxpool_New pool_error (b_connString cfg) (m_pools w) with
      | (Err _, s) => fatal (m_db w) s (m_load w) (m_driver w)
      | (Ok pool, s) =>
          match ping with
          | Some _ => fatal (m_db w) s (m_load w) (m_driver w)
          | None =>
              match reset cfg (m_db w) with
              | (Err _, db) => fatal db s (m_load w) (m_driver w)
              | (Ok _, db) =>
                  match New pool_error (bench_driver_config cfg) s with
                  | (Err _, s) => fatal db s (m_load w) (m_driver w)
                  | (Ok d, s) =>
                      match runSteady cfg fuel (m_load w) with
                      | (None, load) =>
                          (None, {| m_db := db; m_pools := s; m_load := load; m_driver := Some d |})
                      | (Some (Err (Failed _)), load) => fatal db s load (Some d)
                      | (Some (Err (Panicked _)), load) =>
                          (Some (2, None),
                           {| m_db := db; m_pools := Close pool s; m_load := load; m_driver := Some d |})
                      | (Some (Ok res), load) =>
                          (Some (0, Some (bench_report cfg res)),
                           {| m_db := db; m_pools := Close pool s; m_load := load; m_driver := Some d |})
                      end
                  end
              end
          end
      end
  end.

(** ** The rows of a load, however it ends *)

Lemma runSteady_rows cfg fuel w : exists k, b_rows (runSteady cfg fuel w).2 = b_rows w ++ tick_rows cfg k.
Proof.
  unfold runSteady, mbind, ST_bind, bask, mret, ST_ret. cbn beta iota zeta.
  set (w1 := {| b_tick := S (b_tick w); b_rows := b_rows w |}).
  pose proof (steady_loop_counts cfg fuel (GoTime.Add (benv_now (b_tick w)) (b_duration cfg)) 0 [] w1
    ltac:(by intros s ?%elem_of_nil)) as Hw. unfold wp in Hw.
  destruct (steady_loop _ _ _ _ _ w1) as [r w2]. destruct Hw as (k & Hk & _). exists k.
  by destruct r as [[[ins [|s smp]]|[e|msg]]|].
Qed.

Lemma pgxpool_New_made connString s :
  match (pgxpool_New pool_error connString s).1 with Ok pool => made s = pool | Err _ => True end.
Proof. unfold pgxpool_New. by destruct (pool_error _ _). Qed.

Lemma Close_closed pool s : pool ∉ open (Close pool s).
Proof. cbn. set_solver. Qed.

Lemma New_cfg cfg s :
  match (New pool_error cfg s).1 with Ok d => d_cfg d = setDefaults cfg | Err _ => True end.
Proof.
  unfold New. destruct (validate _); [done|]. destruct (pgxpool_New _ _ _) as [[pool|e] s1]; [|done].
  by destruct (replica_loop _ _ _ _ _) as [[rps|e] s2].
Qed.

Lemma report_complete cfg res :
  (forall n l, benv_lag n = Ok l -> is_int64 l) -> samples res <> [] -> lag_samples (samples res) ->
  is_Some (rep_p50 (bench_report cfg res)) /\ is_Some (rep_p99 (bench_report cfg res)) /\
  is_Some (rep_max (bench_report cfg res)).
Proof.
  intros Hlag Hne Hs. assert (forall l, l ∈ samples res -> is_int64 l) as Hi by (intros l [n Hn]%Hs; eauto).
  cbn. split_and!; apply humanizeBytes_some; try by apply Hi, percentile_elem.
  destruct (maxInt64_elem (samples res)) as [->|Hm]; [by split|by apply Hi].
Qed.

(** C40: a driver is started only on a database on which every statement of the
    reset was executed, with the completed configuration of the command line, and
    rows are inserted only beside it; once it runs, the command ends with 0
    exactly when it prints its report, the report counts the rows that were
    inserted, and each of its sizes has a text; an error ends it with 1; it ends
    with 2, by a panic, only when the payload size or the rows of a tick are more (or
    less) than [make] accepts, before any row is inserted; and the pool of the
    command is closed unless it ended by an error. *)
Theorem bench_main_measures (fuel : nat) (args : list string) (w : BenchWorld)
    (Hlag : forall n l, benv_lag n = Ok l -> is_int64 l) (Hw : m_driver w = None) :
  let '(r, w') := bench_main fuel args w in
  match m_driver w' with
  | None => b_rows (m_load w') = b_rows (m_load w) /\ exists code, r = Some (code, None)
  | Some d => exists cfg tr k, parseFlags args = Ok cfg /\ d_cfg d = setDefaults (bench_driver_config cfg) /\
      s_trace (m_db w') = s_trace (m_db w) ++ tr /\ execs tr = map (fun q => (q, None)) (reset_script cfg) /\
      b_rows (m_load w') = b_rows (m_load w) ++ tick_rows cfg k /\
      match r with
      | Some (code, Some rep) => code = 0 /\ (made (m_pools w) ∉ open (m_pools w')) /\
          rep_inserted rep = Z.of_nat k * perTick cfg /\
          is_Some (rep_p50 rep) /\ is_Some (rep_p99 rep) /\ is_Some (rep_max rep)
      | Some (code, None) => code = 1 \/
          (code = 2 /\ insert_panics cfg = true /\ k = O /\ (made (m_pools w) ∉ open (m_pools w')))
      | None => True
      end
  end.
Proof.
  unfold bench_main. destruct (parseFlags args) as [cfg|code]; [|rewrite Hw; split; [done|by eexists]].
  pose proof (pgxpool_New_made (b_connString cfg) (m_pools w)) as Hpool.
  destruct (pgxpool_New _ _ _) as [[pool|e] s]; [|cbn; rewrite Hw; split; [done|by eexists]]. cbn [fst] in Hpool.
  destruct ping; [cbn; rewrite Hw; split; [done|by eexists]|].
  destruct (performs_reset cfg (m_db w)) as (tr & Htr & Hatt & _). unfold adds in Htr.
  destruct (reset cfg (m_db w)) as [[[]|e] db]; [|cbn; rewrite Hw; split; [done|by eexists]].
  cbn [fst snd is_Ok] in *. apply attempted_ok in Hatt.
  pose proof (New_cfg (bench_driver_config cfg) s) as Hnew.
  destruct (New _ _ s) as [[d|e] s']; [|cbn; rewrite Hw; split; [done|by eexists]]. cbn [fst] in Hnew.
  destruct (runSteady_rows cfg fuel (m_load w)) as [k Hk].
  pose proof (runSteady_counts cfg fuel (m_load w)) as Hc.
  assert (Hclosed : made (m_pools w) ∉ open (Close pool s')) by (rewrite Hpool; apply Close_closed).
  destruct (runSteady cfg fuel (m_load w)) as [[[res|[e|msg]]|] load]; cbn [snd] in Hk; cbn -[Close open].
  - destruct Hc as [Hc _]. destruct (Hc res eq_refl) as (k' & Hi & Hr & Hne & _ & Hs).
    exists cfg, tr, k'. refine (conj eq_refl (conj Hnew (conj Htr (conj Hatt (conj Hr (conj eq_refl (conj Hclosed (conj Hi _)))))))).
    exact (report_complete cfg res Hlag Hne Hs).
  - exists cfg, tr, k. exact (conj eq_refl (conj Hnew (conj Htr (conj Hatt (conj Hk (or_introl eq_refl)))))).
  - destruct Hc as [_ [Hc _]]. destruct (Hc msg eq_refl) as [Hp Hr]. exists cfg, tr, O.
    assert (b_rows load = b_rows (m_load w) ++ tick_rows cfg 0) as Hr' by (rewrite Hr; cbn; by rewrite app_nil_r).
    exact (conj eq_refl (conj Hnew (conj Htr (conj Hatt (conj Hr' (or_intror
      (conj eq_refl (conj Hp (conj eq_refl Hclosed))))))))).
  - exists cfg, tr, k. exact (conj eq_refl (conj Hnew (conj Htr (conj Hatt (conj Hk I))))).
Qed.

End BenchMain.

(** ** A load of one second *)
Definition sample_senv : SEnv := {|
  senv_now := fun _ => 0; senv_connect := fun _ _ => None; senv_user := fun _ => Ok "bench"%string;
  senv_privilege := fun _ _ => Ok true; senv_exec := fun _ _ => None; senv_dir := Ok [] |}.

Definition bench_world0 : BenchWorld := {|
  m_db := {| s_tick := 0; s_trace := [] |}; m_pools := {| made := 0; open := ∅ |}; m_load := bworld0;
  m_driver := None |}.

Definition no_pool_error (_ : nat) (_ : string) : option error := None.

Definition bench_args : list string := ["-rate=25"; "-duration"; "1s"]%string.

Definition bench_run : option (Z * option report) * BenchWorld :=
  bench_main (H := sample_senv) (H0 := sample_benv) no_pool_error None 20 bench_args bench_world0.

Example bench_run_ex : option_map fst bench_run.1 = Some 0.
Proof. vm_compute. reflexivity. Qed.

(** A payload of negative size: the panic of [make]. *)
Example bench_panic_ex :
  option_map fst (bench_main (H := sample_senv) (H0 := sample_benv) no_pool_error None 20
    ["-payload-size=-1"]%string bench_world0).1 = Some 2.
Proof. vm_compute. reflexivity. Qed.

Lemma bench_main_measures_witness :
  let '(r, w') := bench_main (H := sample_senv) (H0 := sample_benv) no_pool_error None 20 bench_args bench_world0 in
  match m_driver w' with
  | None => b_rows (m_load w') = [] /\ exists code, r = Some (code, None)
  | Some d => exists cfg tr k, parseFlags bench_args = Ok cfg /\ d_cfg d = setDefaults (bench_driver_config cfg) /\
      s_trace (m_db w') = [] ++ tr /\ execs tr = map (fun q => (q, None)) (reset_script cfg) /\
      b_rows (m_load w') = [] ++ tick_rows cfg k /\
      match r with
      | Some (code, Some rep) => code = 0 /\ (0%nat ∉ open (m_pools w')) /\ rep_inserted rep = Z.of_nat k * perTick cfg /\
          is_Some (rep_p50 rep) /\ is_Some (rep_p99 rep) /\ is_Some (rep_max rep)
      | Some (code, None) => code = 1 \/
          (code = 2 /\ insert_panics (H := sample_benv) cfg = true /\ k = O /\ (0%nat ∉ open (m_pools w')))
      | None => True
      end
  end.
Proof.
  refine (@bench_main_measures sample_senv sample_benv no_pool_error None 20 bench_args bench_world0 _ eq_refl).
  intros n l. cbn. destruct (Nat.even n); [|done]. intros [= <-].
  unfold is_int64, int64_min, int64_max. pose proof (Z.mod_pos_bound (Z.of_nat n) 4096 eq_refl). lia.
Defined.
